(* ===== verification/_CoqProject ===== *)
-Q . S2P
Prelude.v
Sorting.v
GoStrings.v
Value.v
Str.v
Msg.v
Config.v
Registry.v
Dsl.v
World.v
Node.v
Samples.v
Chain.v
ChainProps.v
Reload.v
ChainExamples.v
Engine.v
EngineProps.v
RuleCtx.v
ChainRuntime.v
CtxProps.v
CtxRaces.v
CtxDelivery.v
CtxTermination.v
EngineMsg.v
MsgOptions.v
WorkerPool.v
SkipFallback.v
JsEngine.v
NodeApi.v
Filters.v
Actions.v
Transforms.v
GroupProtocol.v
Groups.v
GroupAction.v
Flow.v
Builtin.v
Mime.v
Endpoint.v
HttpApi.v
Rest.v
Websocket.v
LineReader.v
NetEndpoint.v
MqttClient.v
MqttEndpoint.v
Schedule.v
DbClient.v
RestApiCall.v
NetNode.v
External.v
Forms.v
FileWalk.v
DebugData.v
JsonText.v
JsonParse.v
JsonValid.v
JsonValue.v
DslJson.v
JsonEngine.v
JsonExamples.v
LoadFolder.v
Server.v
ServerHttp.v
ServerMqtt.v
SubChain.v
RuntimeSim.v
ChainProgram.v
ChainRun.v
Programs.v
Plugin.v
HttpRoutes.v
