(* ===== verification/Prelude.v ===== *)
(** * RuleGo: a verification development

    RuleGo is a rule engine: a chain of nodes, described by a JSON text, through
    which messages are passed along named relations.  This development models the
    engine, its worker pool, its components, its endpoints and the server built on
    them, and proves what makes them correct.  This file, the first of the
    library, documents all of it and holds what the other files share.

    ** The program and its model

    - _Messages_ ([src/api/types/msg.go]): [Msg].  A message is a record; its
      metadata, a Go map, is a finite map where only its value matters and a cell of
      a store where sharing does ([RuleMsgRef], [RuleMsg_Copy_ref]).
    - _Dynamic values and text_ ([src/utils/str], [src/utils/maps]): [Value], [Str], on
      the string functions of [GoStrings], which model those of Go's [strings] and
      [strconv] on byte strings (white space and letter case are the ASCII ones).
    - _Configuration, aspects lists, registries_ ([src/api/types/config.go],
      [src/registry.go], [src/endpoint/registry.go]): [Config], [Registry].
    - _Control side_ ([src/dsl.go], [src/parser.go], [src/node.go], [src/chain.go], the
      engine half of [src/engine.go], [src/rulego.go]): [Dsl], [World], [Node], [Chain],
      [Engine].  Definitions, node contexts, chain contexts, engines and pools are
      shared by pointer, so they are addresses into a [World]; an operation is a
      function of the state and error monad [M] that keeps the changes made before an
      error or a panic.  A text is parsed to a chain whose nodes may be nil, and initialising a
      component may panic, as in the code.  [Samples] and [ChainExamples] are concrete components, texts
      and worlds for witnesses.
    - _Running a message_ (the context half of [src/engine.go]): [RuleCtx] is a
      small-step machine.  A goroutine is the list of what it still has to do, a step
      is one atomic action (a counter update, a submission, a callback), and a schedule
      says who moves and whether the pool accepts the task.  [ChainRuntime] instantiates
      its routing by a loaded chain and its aspects and end callback by the configuration of the
      engine, and runs a message on the world, filling the routing cache; [EngineMsg] is [onMsgAndWait] with the engine's
      start, end and completed aspects, and [MsgOptions] the entry points of an engine
      with the options of a message.
    - _JSON_ ([src/utils/json], the JSON half of [src/dsl.go] and [src/parser.go]):
      [JsonText] (UTF-8, quoting and unquoting of strings), [JsonParse] (scanner, grammar as
      a stack machine over tokens, printing, indentation), [JsonValid] (strings that were
      read are valid), [JsonValue] (texts of dynamic values), [DslJson] (texts of chain
      and node definitions, field by field as the struct tags say), [JsonEngine] (the JSON
      parser as the parser of the engine) and [JsonExamples].
    - _Worker pool_ ([src/pool/workerpool.go]): [WorkerPool], with submitters, workers,
      cleaner and [Stop] interleaved.
    - _Built-in aspects_ ([src/aspect]): [SkipFallback].
    - _Script engine_ ([src/components/js]): [JsEngine], with the time-out protocol on a
      Go channel as a machine of its own.
    - _Components_ ([src/components/{filter,action,transform,flow}]): [NodeApi] (the
      interfaces they use), [Filters], [Actions], [Transforms], [GroupProtocol], [Groups],
      [GroupAction], [Flow]; [Builtin] puts them together as the engine sees them.  What
      a component does with a message is the list of its calls on the context.
    - _Sub-chains_ ([TellFlow] of [src/engine.go], [OnMsg] of [src/chain.go] and of
      [src/rulego.go]): [SubChain], which runs the [flow] component over a run of the
      machine.
    - _Components that talk to the outside_ ([src/components/external],
      [src/components/mqtt]): [DbClient], [RestApiCall], [NetNode], [MqttClient] and, for
      e-mail, SSH and MQTT messages, [External].
    - _Endpoints_ ([src/endpoint]): [Endpoint] is the routing all transports share; the
      transports are [Rest] and [Websocket] (with what they have in common in [HttpApi],
      on the headers of [Mime]), [NetEndpoint] (on [LineReader], the buffered line
      reader), [MqttEndpoint] (on [MqttClient]) and [Schedule].  A transport makes an
      exchange of what it receives and hands it to the router registered for it.
    - _Tools_ ([src/utils/reflect], [src/api/types/component.go], [src/utils/fs]): [Forms],
      the descriptions of components for editors, [FileWalk], finding, reading and
      writing files, and [LoadFolder], loading the chains of a folder into a pool.  [Sorting]
      has what the sorts of the program share.
    - _The server_ ([src/examples/server]): [DebugData], its store of debug events;
      [Server], its start-up and its handlers on engines, files and that store; [ServerHttp],
      its HTTP routes; [ServerMqtt], its subscriptions.
    - _Programs_ ([src/examples/{functions_node,temperature_alarm,hot_loading,js_transform,msg_type_switch}]):
      [Programs], the chain texts of the source, parsed, loaded and run; [Plugin]
      ([src/examples/plugin]), a plugin and a program that registers it; [HttpRoutes]
      ([src/examples/http_endpoint]), the routes of an HTTP program.

    [RuntimeSim], [ChainProgram] and [ChainRun] model no further code.  They specify engines:
    a chain text without sub-chain connections stands for a [program] (components with
    ids, connections, a first node), [program_run] and the interpreter [node_run] run a
    message through it, and [spec_ops] says what reloads and messages do.

    ** Interfaces

    Code that is not in the repository is a parameter: [FloatText] (the text of a
    floating-point number of [strconv]), [Goja], [ExprLang], [Decode] (mapstructure),
    [FileSystem], [Os], [OsDirs], the plugin loader, [MapRange] (the order in which Go walks a map),
    [TsSort] (a sort that need not be stable), [HttpRequest], [ResponseWriter] and
    [HttpRouter] (Go's HTTP server and package httprouter), [Regexp], [Cron], [SqlDriver],
    [HttpNet] and [Ssh]; the broker of the MQTT client is given by what it answers.
    Between components: [Json] (texts of dynamic values, which [JsonValue] implements),
    [Parsers] (texts of definitions: users may set a parser of their own; the JSON parser of
    [JsonEngine] implements it), [Components] (what chains need of component libraries, which
    [Programs] implements with [Builtin] and the components of package external), [NodeAspects] (the
    aspects a configuration names), [Runtime] (what running a message needs of the chain, which
    [ChainRuntime] implements), [Responsive] (every node answers, which [Builtin]
    discharges), [JsEngine] (the interface [types.JsEngine], which [JsEngine.v]
    implements), [MessageOps] (the interface [endpoint.Message], which every transport
    implements for its requests and responses).

    ** What is proved

    - Execution, for every interleaving: the deliveries and branch ends of a message are
      those of a sequential reference run ([CtxDelivery]); when every node answers, the
      completion callback is not lost ([CtxProps]); together, what the caller of
      [OnMsgAndWait] is promised ([EngineMsg]), for any options ([MsgOptions]).  When the reference ends,
      every run ends, after a number of steps that the message alone bounds
      ([CtxTermination]).  [CtxRaces] has the schedules on which
      completion comes too early or twice, or is lost because the pool is full.
    - Control: loading, on every branch ([ChainProps]); messages follow the connections
      of the text ([ChainRuntime]); the routing cache changes no answer ([ChainProps]);
      reloading of chains and nodes ([Reload]); creation, reload, removal and stop of
      engines in a pool ([EngineProps]).
    - Both together: an engine is its program.  After its creation, reloads, with texts that
      load or are refused, and messages, each run to its end on the same objects and caches, have the
      results of the specification: messages do, on every interleaving, what they do in a run
      of the program at that time ([ChainProgram]; configurations without around and after aspects and
      without an end callback for all messages).  The example programs are instances, from the text in the
      source to the messages the nodes get ([Programs], [Plugin]).
    - JSON: what is printed is read back, formatting changes no value and refuses what is
      not JSON ([JsonParse]); dynamic values and definitions are read back from their texts
      ([JsonValue], [DslJson]); an engine prints the definition it was created from, and a
      definition with a null node, which parses, is never loaded ([JsonEngine]).
    - Worker pool: at most the allowed number of workers, no accepted task lost or run
      twice, the binary search of the cleaner, [Stop] ([WorkerPool]).
    - Components: which ones can leave a message unanswered ([Builtin]); iterator, delay,
      field filter, transforms, sub-chain, each with its behaviour on every branch; the
      group components decide whatever the interleaving, by a simulation into one
      abstract protocol ([GroupProtocol]), and answer as documented when their callbacks
      do not overlap; schedules on which overlapping callbacks answer wrongly.
    - Script engine: when it is created, which machines run a function, and safety of the
      time-out protocol.
    - Loading and removing plugins, on every branch ([Registry]); messages, templates, SQL placeholders,
      circuit breaker, endpoint targets.
    - Sub-chains: a [flow] node answers whatever the interleaving of its sub-chain, with
      the results of the sequential reference when completion is reported in time; a chain
      connection never does ([SubChain]).
    - Endpoints: the registered routes stay consistent with the stored routers and a
      request reaches its router ([Rest]); the messages of a connection are handled in
      order ([Websocket], [NetEndpoint]); what the broker holds for a topic after any history
      ([MqttClient], [MqttEndpoint]);
      what the client of an HTTP program is answered for the result of a chain ([HttpRoutes]).
    - External components: rows, parameters and errors of a statement ([DbClient]),
      answers and event streams of a call ([RestApiCall]), the heart beat, for every
      interleaving ([NetNode]),
      the steps of sending a mail ([External]).
    - Tools and server: forms and files do not depend on the order of maps and
      directories; the chains of a folder are found under their ids ([LoadFolder]), also
      when the server starts; a saved chain is read back, and what is saved when it does not
      load ([Server]), through the HTTP routes too ([ServerHttp]); the topics of the server
      are subscribed to ([ServerMqtt]); the debug store keeps the latest events ([DebugData]).

    ** Fuel and bounds

    The recursion of the models is structural except for seven functions with fuel:
    [dollar_loop] (fuel the length of the text, enough by [dollar_loop_number]), [search]
    of the cleaner (fuel the length of the list, enough by [search_total]), [run_alone]
    (the number of steps of one callback) and the sequential reference [deliver], whose
    result is asked for as a hypothesis because a chain may be cyclic; messages in a
    cyclic chain need not come to rest, and the completion theorem speaks about the
    moment when nothing is left to do; where the reference has a result,
    [message_terminates] bounds the steps of every run.  [node_run] is bounded by the length of
    the paths, which the theorems about programs give.  There are also [client_loop] of a connection (fuel the size of the
    input, enough by [client_handler_fuel]) and [connect_loop] of the MQTT client
    (fuel the number of attempts, enough by [NewClient_terminates]).  [explore 7] enumerates all states of the time-out
    protocol ([explore_closed]).  JSON is nested at most 10000 deep, the limit of
    encoding/json ([maxNestingDepth]).  Counters that Go keeps in int32 are integers in the
    machine of [RuleCtx] (they are bounded by the number of goroutines); list lengths
    and conversions are wrapped where the code converts.

    ** What is not modelled

    The network itself: sockets, handshakes, TLS and the wire protocols are behind the
    interfaces above, as are reflection and the operating system; the timer that closes an
    idle connection of the TCP endpoint is part of its input, which ends when reading fails for
    good.  The report of the debug aspect to the function of the configuration is not an event.  Logging formats and the flags of the
    server.  Of JSON, the wording of syntax errors and the texts of Go values that are not
    maps, slices, strings, numbers or booleans ([to_json_other]) are parameters, and so are the
    texts of component forms and debug pages.  The other programs under [src/examples], and test helpers.
    Locks, except where they delimit the critical sections that are modelled (the delay
    node, the worker pool): other operations are atomic, and in particular reconnections of the
    MQTT client do not overlap its operations.  The clock, which is an
    argument.  A sub-chain runs as a separate message of its own machine, and values
    that nodes share through the Go context of a message are left out.  Getters that
    only return a field have no definition.  The memory model is sequential consistency
    of the atomic actions. *)

From stdpp Require Export base tactics gmap strings list pretty numbers sorting.
From Stdlib Require Export ZArith Lia.

#[global] Arguments String.append !_ _ / : simpl nomatch.

(** ** Go results

    A Go function that returns [(T, error)] is a function into [result T]:
    [Ok] is the pair with a nil error, [Err e] the pair with the error whose
    [Error()] text is [e]. *)
Inductive result (A : Type) : Type :=
| Ok (a : A)
| Err (e : string).
Arguments Ok {A} a.
Arguments Err {A} e.

(** A bare [error] return: [None] is [nil]. *)
Abbreviation error := (option string).

Definition result_bind {A B} (m : result A) (k : A → result B) : result B :=
  match m with Ok a => k a | Err e => Err e end.

Definition is_ok {A} (m : result A) : bool :=
  match m with Ok _ => true | Err _ => false end.

Declare Scope go_scope.
Delimit Scope go_scope with go.
Notation "'let?' x ':=' m 'in' k" := (result_bind m (fun x => k))
  (at level 10, x name, m at level 100, k at level 200) : go_scope.
Open Scope go_scope.

(** A function called for its effects that may also panic. *)
Inductive outcome (A : Type) : Type :=
| Returns (a : A)
| Panics (why : string).
Arguments Returns {A} a.
Arguments Panics {A} why.

(** ** Machine integers *)

Definition int32_wrap (z : Z) : Z := (z + 2^31) `mod` 2^32 - 2^31.
Definition int64_wrap (z : Z) : Z := (z + 2^63) `mod` 2^64 - 2^63.
Definition int32_range (z : Z) : Prop := (- 2^31 ≤ z < 2^31)%Z.
Definition int64_range (z : Z) : Prop := (- 2^63 ≤ z < 2^63)%Z.

Lemma int32_wrap_id z : int32_range z → int32_wrap z = z.
Proof.
  unfold int32_wrap, int32_range. intros H.
  rewrite Z.mod_small; lia.
Qed.

Lemma int32_wrap_range z : int32_range (int32_wrap z).
Proof.
  unfold int32_wrap, int32_range.
  pose proof (Z.mod_pos_bound (z + 2^31) (2^32) ltac:(lia)). lia.
Qed.

Lemma int64_wrap_id z : int64_range z → int64_wrap z = z.
Proof.
  unfold int64_wrap, int64_range. intros H.
  rewrite Z.mod_small; lia.
Qed.

(** ** Sums over lists *)

Lemma sum_with_insert {A} (f : A → nat) l i x y :
  l !! i = Some x → sum_list_with f (<[i := y]> l) + f x = sum_list_with f l + f y.
Proof.
  revert i. induction l as [|z l IH]; intros [|i] Hi; simplify_eq/=; [lia|]. specialize (IH i Hi). lia.
Qed.

(** ** Tactics and hint databases *)

(** Facts about which part of the heap a computation touches ([World]). *)
Create HintDb heap.

(** Prove a decidable closed goal by evaluation. *)
Ltac by_decide := refine (bool_decide_unpack _ _); vm_compute; exact I.
