(* ===== verification/Sorting.v ===== *)
(** * Sorting ([sort.Slice])

    The insertion sort Go uses for slices of up to twelve elements, which is stable; and
    what is true of sorting with a [less] that decides an order. *)

From S2P Require Import Prelude.

Fixpoint insert_sorted {A} (less : A → A → bool) (x : A) (l : list A) : list A :=
  match l with
  | [] => [x]
  | y :: l' => if less x y then x :: y :: l' else y :: insert_sorted less x l'
  end.
Definition sort_Slice {A} (less : A → A → bool) (l : list A) : list A :=
  foldl (λ sorted x, insert_sorted less x sorted) [] l.

(** [less] is the strict part of the total preorder [R]. *)
Class LessFor {A} (less : A → A → bool) (R : relation A) : Prop := {
  less_trans : Transitive R;
  less_le a b : less a b = true → R a b;
  less_ge a b : less a b = false ↔ R b a
}.

Lemma insert_sorted_perm {A} less (x : A) l : insert_sorted less x l ≡ₚ x :: l.
Proof.
  induction l as [|y l IH]; simpl; [done|]. destruct (less x y); [done|].
  rewrite IH. apply perm_swap.
Qed.

Lemma sort_Slice_perm {A} less (l : list A) : sort_Slice less l ≡ₚ l.
Proof.
  unfold sort_Slice.
  assert (∀ acc, foldl (λ sorted x, insert_sorted less x sorted) acc l ≡ₚ acc ++ l) as H; [|by rewrite H].
  induction l as [|x l IH]; intros acc; simpl; [by rewrite app_nil_r|].
  rewrite IH, insert_sorted_perm. by rewrite <- Permutation_middle.
Qed.

Section Less.
Context {A} (less : A → A → bool) (R : relation A) `{LF : !LessFor less R}.

Lemma insert_sorted_StronglySorted x l : StronglySorted R l → StronglySorted R (insert_sorted less x l).
Proof.
  pose proof (less_trans (R := R)) as Htr.
  induction 1 as [|y l Hl IH Hy]; simpl; [by repeat constructor|]. destruct (less x y) eqn:E.
  - constructor; [by constructor|]. constructor; [by apply less_le|]. eapply Forall_impl; [done|].
    intros z Hz. etransitivity; [by apply less_le|done].
  - constructor; [done|]. rewrite insert_sorted_perm. constructor; [by apply less_ge|done].
Qed.

Lemma sort_Slice_StronglySorted l : StronglySorted R (sort_Slice less l).
Proof.
  unfold sort_Slice. generalize (SSorted_nil R). generalize (@nil A).
  induction l as [|x l IH]; intros acc Hacc; simpl; [done|]. apply IH. by apply insert_sorted_StronglySorted.
Qed.

(** Sorting a sorted list changes nothing. *)
Lemma insert_sorted_last x l : StronglySorted R (l ++ [x]) → insert_sorted less x l = l ++ [x].
Proof.
  induction l as [|y l IH]; simpl; [done|]. intros [Hy Hs]%StronglySorted_cons.
  rewrite Forall_app, Forall_singleton in Hy. destruct Hy as [_ Hy].
  rewrite (proj2 (less_ge (R := R) x y)) by done. by rewrite IH.
Qed.

Lemma sort_sorted_id l : StronglySorted R l → sort_Slice less l = l.
Proof.
  unfold sort_Slice.
  assert (∀ acc, StronglySorted R (acc ++ l) →
    foldl (λ sorted x, insert_sorted less x sorted) acc l = acc ++ l) as H; [|intros; by rewrite H].
  induction l as [|x l IH]; intros acc Hs; simpl; [by rewrite app_nil_r|].
  rewrite insert_sorted_last.
  - rewrite IH by (by rewrite <- (assoc_L (++))). by rewrite <- (assoc_L (++)).
  - change (x :: l) with ([x] ++ l) in Hs. rewrite (assoc_L (++)) in Hs.
    by eapply StronglySorted_app_1_l.
Qed.
End Less.

(** Two sorted arrangements of a list without elements of equal rank are equal. *)
Lemma sorted_unique {A} (R : relation A) l1 l2 :
  (∀ a b, a ∈ l1 → b ∈ l1 → R a b → R b a → a = b) → l1 ≡ₚ l2 → StronglySorted R l1 → StronglySorted R l2 → l1 = l2.
Proof.
  intros Hanti Hp H1. revert l2 Hp Hanti. induction H1 as [|a l1 H1 IH Ha]; intros l2 Hp Hanti H2.
  - by apply Permutation_nil_l in Hp as ->.
  - destruct H2 as [|b l2 H2 Hb]; [by apply Permutation_nil_r in Hp|].
    assert (a = b) as <-.
    { assert (a ∈ b :: l2) as Hin1 by (rewrite <- Hp; constructor).
      assert (b ∈ a :: l1) as Hin2 by (rewrite Hp; constructor).
      apply elem_of_cons in Hin1 as [?|Hin1]; [done|]. apply elem_of_cons in Hin2 as [?|Hin2]; [done|].
      rewrite Forall_forall in Ha, Hb. apply Hanti; [constructor|by constructor|by apply Ha|by apply Hb]. }
    f_equal. apply IH; [by eapply Permutation_cons_inv| |done].
    intros x y Hx Hy. apply Hanti; by constructor.
Qed.

(** Sorting does not depend on the arrangement when no two elements have the same key. *)
Lemma sort_Slice_unique {A B} (less : A → A → bool) (R : relation A) `{LF : !LessFor less R} (key : A → B) l1 l2 :
  (∀ a b, R a b → R b a → key a = key b) → l1 ≡ₚ l2 → NoDup (key <$> l1) → sort_Slice less l1 = sort_Slice less l2.
Proof.
  intros Hkey Hp Hnd. apply (sorted_unique R); [|by rewrite !sort_Slice_perm|apply sort_Slice_StronglySorted, _..].
  intros a b Ha Hb Hab Hba. rewrite sort_Slice_perm in Ha, Hb.
  apply list_elem_of_lookup in Ha as [i Hi]. apply list_elem_of_lookup in Hb as [j Hj].
  assert (i = j) as ->; [|congruence]. eapply NoDup_lookup; [exact Hnd|..]; rewrite list_lookup_fmap;
    [rewrite Hi|rewrite Hj]; simpl; [done|by rewrite (Hkey a b)].
Qed.

(** Sorting commutes with a map that keeps the comparisons. *)
Lemma sort_Slice_fmap {A B} (less : A → A → bool) (less' : B → B → bool) (f : A → B) l :
  (∀ a b, less' (f a) (f b) = less a b) → sort_Slice less' (f <$> l) = f <$> sort_Slice less l.
Proof.
  intros Hf. assert (∀ x l, insert_sorted less' (f x) (f <$> l) = f <$> insert_sorted less x l) as Hi.
  { intros x l0. induction l0 as [|y l0 IH]; [done|]. csimpl. rewrite Hf. destruct (less x y); [done|]. csimpl. by rewrite IH. }
  unfold sort_Slice. change (@nil B) with (f <$> @nil A). generalize (@nil A).
  induction l as [|x l IH]; intros acc; csimpl; [done|]. by rewrite Hi, IH.
Qed.

(** ** Strings and keys *)

(** The order of Go strings: [a < b]. *)
Definition str_less (a b : string) : bool := bool_decide (¬ String.le b a).
#[global] Instance str_less_le : LessFor str_less String.le.
Proof.
  split; [apply _|..]; intros a b; unfold str_less.
  - intros H%bool_decide_eq_true. destruct (total String.le a b); tauto.
  - rewrite bool_decide_eq_false. split; [apply dec_stable|tauto].
Qed.

(** Entries by their keys. *)
Definition key_less {A} (a b : string * A) : bool := str_less a.1 b.1.
Definition key_le {A} (a b : string * A) : Prop := String.le a.1 b.1.
#[global] Instance key_less_le {A} : LessFor (@key_less A) key_le.
Proof.
  destruct str_less_le as [Ht H1 H2]. split; unfold key_less, key_le.
  - intros a b c. apply Ht.
  - intros a b. apply H1.
  - intros a b. apply H2.
Qed.

Lemma sort_keys_unique {A} (l1 l2 : list (string * A)) :
  l1 ≡ₚ l2 → NoDup l1.*1 → sort_Slice key_less l1 = sort_Slice key_less l2.
Proof. apply (sort_Slice_unique _ key_le fst). intros a b. apply (anti_symm String.le). Qed.

Lemma filter_StronglySorted {A} (R : A → A → Prop) (P : A → Prop) `{∀ x, Decision (P x)} l :
  StronglySorted R l → StronglySorted R (filter P l).
Proof.
  induction 1 as [|x l Hl IH Hx]; [constructor|]. rewrite filter_cons. case_decide; [|done].
  constructor; [done|]. rewrite Forall_forall in *. intros y [_ Hy]%list_elem_of_filter. auto.
Qed.
