(* ===== verification/GoStrings.v ===== *)
(** * The parts of Go's [strings] and [strconv] packages the program calls

    A Go string is a byte sequence: here [string], a sequence of 8-bit
    characters.  Separators and patterns are the non-empty ones the program
    passes.  [TrimSpace], [Fields], [ToUpper] and [ToLower] act on the ASCII
    white space and letters; bytes from 128 up are left alone, so the functions
    agree with Go's on ASCII text and on UTF-8 text without exotic spaces or
    cased non-ASCII letters. *)

From S2P Require Import Prelude.
From Stdlib Require Import Ascii.

(** ** Searching and replacing *)

(** [strings.HasPrefix(s, p)] *)
Fixpoint HasPrefix (p s : string) : bool :=
  match p, s with
  | EmptyString, _ => true
  | String a p', String b s' => bool_decide (a = b) && HasPrefix p' s'
  | String _ _, EmptyString => false
  end.

(** [strings.Contains(s, sub)] *)
Fixpoint Contains (sub s : string) : bool :=
  HasPrefix sub s ||
  match s with EmptyString => false | String _ s' => Contains sub s' end.

(** [strings.HasSuffix(s, suf)] *)
Fixpoint HasSuffix (suf s : string) : bool :=
  bool_decide (s = suf) ||
  match s with EmptyString => false | String _ s' => HasSuffix suf s' end.

(** [strings.Replace(s, old, new, n)] for a non-empty [old]: replaces the
    leftmost non-overlapping occurrences, at most [n] of them ([None] is Go's
    [-1], no limit).  [skip] counts the bytes of a match still to be dropped. *)
Fixpoint replace_from (old new : string) (n : option nat) (skip : nat) (s : string) : string :=
  match s with
  | EmptyString => EmptyString
  | String c s' =>
      match skip with
      | S k => replace_from old new n k s'
      | O =>
          match n with
          | Some O => String c (replace_from old new n 0 s')
          | _ =>
              if HasPrefix old s
              then new +:+ replace_from old new (pred <$> n) (pred (String.length old)) s'
              else String c (replace_from old new n 0 s')
          end
      end
  end.

Definition Replace (s old new : string) (n : option nat) : string :=
  replace_from old new n 0 s.

(** [strings.Split(s, sep)] for a one-byte separator. *)
Fixpoint Split (s : string) (sep : ascii) : list string :=
  match s with
  | EmptyString => [EmptyString]
  | String c s' =>
      if bool_decide (c = sep) then EmptyString :: Split s' sep
      else match Split s' sep with
           | [] => [String c EmptyString]
           | w :: ws => String c w :: ws
           end
  end.

(** [strings.SplitN(s, sep, 2)] for a one-byte separator. *)
Fixpoint SplitN2 (s : string) (sep : ascii) : list string :=
  match s with
  | EmptyString => [EmptyString]
  | String c s' =>
      if bool_decide (c = sep) then [EmptyString; s']
      else match SplitN2 s' sep with
           | [] => [String c EmptyString]
           | w :: ws => String c w :: ws
           end
  end.

(** ** Trimming, fields and letter case *)

Definition isSpace (c : ascii) : bool :=
  let n := nat_of_ascii c in
  (n =? 32) || ((9 <=? n) && (n <=? 13)).

Fixpoint TrimLeftSpace (s : string) : string :=
  match s with
  | EmptyString => EmptyString
  | String c s' => if isSpace c then TrimLeftSpace s' else s
  end.

Fixpoint TrimRightSpace (s : string) : string :=
  match s with
  | EmptyString => EmptyString
  | String c s' =>
      match TrimRightSpace s' with
      | EmptyString => if isSpace c then EmptyString else String c EmptyString
      | t => String c t
      end
  end.

(** [strings.TrimSpace(s)] *)
Definition TrimSpace (s : string) : string := TrimRightSpace (TrimLeftSpace s).

(** [strings.Fields(s)]; [word] is the field read so far. *)
Fixpoint fields_from (word : string) (s : string) : list string :=
  match s with
  | EmptyString => if bool_decide (word = "") then [] else [word]
  | String c s' =>
      if isSpace c
      then (if bool_decide (word = "") then [] else [word]) ++ fields_from "" s'
      else fields_from (word +:+ String c "") s'
  end.
Definition Fields (s : string) : list string := fields_from "" s.

Definition toLowerByte (c : ascii) : ascii :=
  let n := nat_of_ascii c in
  if (65 <=? n) && (n <=? 90) then ascii_of_nat (n + 32) else c.
Definition toUpperByte (c : ascii) : ascii :=
  let n := nat_of_ascii c in
  if (97 <=? n) && (n <=? 122) then ascii_of_nat (n - 32) else c.

Fixpoint mapBytes (f : ascii → ascii) (s : string) : string :=
  match s with EmptyString => EmptyString | String c s' => String (f c) (mapBytes f s') end.

(** [strings.ToLower] and [strings.ToUpper] *)
Definition ToLower : string → string := mapBytes toLowerByte.
Definition ToUpper : string → string := mapBytes toUpperByte.

(** ** [strconv] *)

(** [strconv.Itoa] and [strconv.FormatInt(_, 10)] *)
Definition Itoa (z : Z) : string := pretty z.

Definition digit_val (c : ascii) : option Z :=
  let n := nat_of_ascii c in
  if (48 <=? n) && (n <=? 57) then Some (Z.of_nat (n - 48)) else None.

Fixpoint parse_digits (acc : Z) (s : string) : option Z :=
  match s with
  | EmptyString => Some acc
  | String c s' => match digit_val c with
                   | Some d => parse_digits (acc * 10 + d)%Z s'
                   | None => None
                   end
  end.

Definition parse_unsigned (s : string) : option Z :=
  match s with EmptyString => None | _ => parse_digits 0 s end.

(** An optional sign and decimal digits. *)
Definition parse_int (s : string) : option Z :=
  match s with
  | String "-" s' => Z.opp <$> parse_unsigned s'
  | String "+" s' => parse_unsigned s'
  | _ => parse_unsigned s
  end.

(** [strconv.Atoi(s)] on a 64-bit platform: a number in the range of [int]. *)
Definition Atoi (s : string) : result Z :=
  match parse_int s with
  | Some z => if bool_decide (- 2^63 ≤ z < 2^63)%Z then Ok z
              else Err ("strconv.Atoi: parsing " +:+ s +:+ ": value out of range")
  | None => Err ("strconv.Atoi: parsing " +:+ s +:+ ": invalid syntax")
  end.

(** The number [Atoi] returns when its error is ignored: the nearest in range, or 0. *)
Definition Atoi_value (s : string) : Z :=
  match parse_int s with
  | Some z => Z.max (- 2^63) (Z.min z (2^63 - 1))
  | None => 0
  end.

(** ** Lemmas *)

(** The characters of a string. *)
Definition chars (s : string) : list ascii := String.list_ascii_of_string s.

Lemma chars_app s t : chars (s +:+ t) = chars s ++ chars t.
Proof. induction s as [|c s IH]; simpl; [done|]. by rewrite <- IH. Qed.

Lemma string_app_assoc (a b c : string) : (a +:+ b) +:+ c = a +:+ (b +:+ c).
Proof. induction a as [|x a IH]; simpl; [done|]. by rewrite IH. Qed.

Lemma string_app_nil_r (a : string) : a +:+ "" = a.
Proof. induction a as [|x a IH]; simpl; [done|]. by rewrite IH. Qed.

Lemma string_app_length (a b : string) :
  String.length (a +:+ b) = String.length a + String.length b.
Proof. induction a as [|x a IH]; simpl; [done|]. by rewrite IH. Qed.

Lemma HasPrefix_spec p s : HasPrefix p s = true ↔ ∃ t, s = p +:+ t.
Proof.
  revert s. induction p as [|a p IH]; intros s; simpl.
  - split; eauto.
  - destruct s as [|b s]; simpl.
    + split; [done|]. intros [t ?]. discriminate.
    + rewrite andb_true_iff, bool_decide_eq_true, IH. split.
      * intros [-> [t ->]]. by exists t.
      * intros [t Ht]. simplify_eq. eauto.
Qed.

Lemma HasPrefix_app p t : HasPrefix p (p +:+ t) = true.
Proof. apply HasPrefix_spec. eauto. Qed.

(** Dropping a whole match. *)
Lemma replace_from_skip old new n p s :
  replace_from old new n (String.length p) (p +:+ s) = replace_from old new n 0 s.
Proof. induction p as [|c p IH]; simpl; [by destruct s|done]. Qed.

(** Text in which no match starts is copied. *)
Lemma replace_from_copy old new n p s :
  (∀ q t, p = q +:+ t → t ≠ "" → HasPrefix old (t +:+ s) = false) →
  replace_from old new n 0 (p +:+ s) = p +:+ replace_from old new n 0 s.
Proof.
  induction p as [|c p IH]; intros Hno; [done|].
  simpl. rewrite IH.
  - specialize (Hno "" (String c p) eq_refl ltac:(done)). simpl in Hno.
    rewrite Hno. by destruct n as [[|]|].
  - intros q t -> Ht. apply (Hno (String c q) t); [done|done].
Qed.

(** A match at the front is replaced (no limit on the number of matches). *)
Lemma replace_from_match old new s :
  old ≠ "" →
  replace_from old new None 0 (old +:+ s) = new +:+ replace_from old new None 0 s.
Proof.
  destruct old as [|c old]; [done|]. intros _.
  simpl. rewrite bool_decide_true by done. simpl.
  rewrite HasPrefix_app. by rewrite replace_from_skip.
Qed.

Lemma Contains_spec sub s : Contains sub s = true ↔ ∃ a b, s = a +:+ sub +:+ b.
Proof.
  induction s as [|c s IH]; simpl; rewrite ?orb_true_iff, HasPrefix_spec.
  - split.
    + intros [[t Ht]|]; [|done]. exists "", t. done.
    + intros (a & b & H). left. destruct a; [eauto|discriminate].
  - rewrite IH. split.
    + intros [[t ->]|(a & b & ->)]; [by exists "", t|by exists (String c a), b].
    + intros (a & b & H). destruct a as [|x a]; simpl in H; [left; eauto|].
      simplify_eq. right. eauto.
Qed.

Lemma Split_nonempty s sep : Split s sep ≠ [].
Proof. destruct s as [|c s]; simpl; [done|]. case_bool_decide; [done|]. by destruct (Split s sep). Qed.

(** Joining with the separator, the left inverse of [Split]. *)
Fixpoint Join (ws : list string) (sep : ascii) : string :=
  match ws with
  | [] => EmptyString
  | [w] => w
  | w :: ws' => w +:+ String sep (Join ws' sep)
  end.

Lemma Join_Split s sep : Join (Split s sep) sep = s.
Proof.
  induction s as [|c s IH]; simpl; [done|].
  pose proof (Split_nonempty s sep) as Hne.
  case_bool_decide as Hc.
  - subst. simpl. destruct (Split s sep); [done|]. by rewrite <- IH.
  - destruct (Split s sep) as [|w ws]; [done|]. simpl in *. destruct ws; simpl in *; by rewrite IH.
Qed.

Lemma Split_sep_free s sep : Forall (λ w, sep ∉ chars w) (Split s sep).
Proof.
  induction s as [|c s IH]; simpl; [repeat constructor; set_solver|].
  case_bool_decide as Hc; [constructor; [set_solver|done]|].
  destruct (Split s sep) as [|w ws]; simpl in *; [constructor; set_solver|].
  inversion IH; subst. constructor; [|done]. unfold chars in *; simpl. set_solver.
Qed.

Lemma Itoa_inj a b : Itoa a = Itoa b → a = b.
Proof. apply (inj pretty). Qed.

(** Decimal text has digits and a minus sign only. *)
Lemma pretty_N_char_digit x : digit_val (pretty_N_char x) ≠ None.
Proof. unfold pretty_N_char. repeat case_match; done. Qed.

Lemma pretty_N_go_chars (P : ascii → Prop) x s :
  (∀ y, P (pretty_N_char y)) → Forall P (chars s) → Forall P (chars (pretty_N_go x s)).
Proof.
  intros HP. revert s. induction (N.lt_wf_0 x) as [x _ IH]. intros s Hs.
  destruct (decide (x = 0)%N) as [->|Hx].
  - by rewrite pretty_N_go_0.
  - rewrite pretty_N_go_step by lia. apply IH; [apply N.div_lt; lia|].
    unfold chars; simpl. constructor; auto.
Qed.

Lemma Itoa_chars (P : ascii → Prop) z :
  (∀ y, P (pretty_N_char y)) → P "-"%char → P "0"%char → Forall P (chars (Itoa z)).
Proof.
  intros HP Hm H0. unfold Itoa, pretty, pretty_Z, pretty, pretty_N.
  destruct z; repeat case_decide; repeat case_match;
    rewrite ?chars_app; try apply Forall_app; repeat split; simpl; auto using pretty_N_go_chars;
    try (apply pretty_N_go_chars; [done|constructor]); repeat constructor; done.
Qed.

(** ** Printing and reading numbers *)

Lemma digit_val_pretty d : (d < 10)%N → digit_val (pretty_N_char d) = Some (Z.of_N d).
Proof. intros Hd. by destruct d as [|[[[[]|[]|]|[[]|[]|]|]|[[[]|[]|]|[[]|[]|]|]|]]; vm_compute. Qed.

Lemma parse_digits_pretty x s : parse_digits 0 (pretty_N_go x s) = parse_digits (Z.of_N x) s.
Proof.
  revert s. induction (N.lt_wf_0 x) as [x _ IH]; intros s. destruct (decide (x = 0)%N) as [->|Hx]; [done|].
  rewrite pretty_N_go_step by lia. rewrite IH by (apply N.div_lt; lia). simpl.
  rewrite digit_val_pretty by (by apply N.mod_lt). f_equal.
  pose proof (N.div_mod x 10 ltac:(lia)). lia.
Qed.

Lemma pretty_N_unsigned (x : N) : parse_unsigned (pretty x) = Some (Z.of_N x).
Proof.
  unfold pretty, pretty_N. case_decide as Hx; [by subst|].
  pose proof (parse_digits_pretty x "") as H. simpl in H. unfold parse_unsigned.
  destruct (pretty_N_go x "") eqn:E; [|done]. simpl in H. injection H as H. lia.
Qed.

Lemma pretty_N_no_sign (x : N) : ∃ c s, pretty x = String c s ∧ c ≠ "-"%char ∧ c ≠ "+"%char.
Proof.
  pose proof (pretty_N_unsigned x) as H. destruct (pretty x) as [|c s]; [done|]. exists c, s. split; [done|].
  split; intros ->; done.
Qed.

Lemma parse_int_pretty_N (x : N) : parse_int (pretty x) = Some (Z.of_N x).
Proof.
  rewrite <- pretty_N_unsigned. destruct (pretty_N_no_sign x) as (c & s & -> & H1 & H2). unfold parse_int.
  by destruct c as [[] [] [] [] [] [] [] []].
Qed.

Lemma parse_int_Itoa z : parse_int (Itoa z) = Some z.
Proof.
  unfold Itoa, pretty, pretty_Z. destruct z as [|p|p]; [done|apply (parse_int_pretty_N (N.pos p))|].
  change (Z.opp <$> parse_unsigned (pretty (N.pos p)) = Some (Z.neg p)). by rewrite pretty_N_unsigned.
Qed.

Lemma Atoi_Itoa z : int64_range z → Atoi (Itoa z) = Ok z.
Proof. intros Hz. unfold Atoi. rewrite parse_int_Itoa, bool_decide_true; done. Qed.
