(* ===== verification/Value.v ===== *)
(** * Dynamic values

    Go's [interface{}] as far as the program stores things in it: decoded JSON,
    node configuration, script results, SQL parameters. *)

From S2P Require Import Prelude.

(** The integer kinds [ToStringMaybeErr] tells apart. *)
Inductive intKind : Type :=
| Kint | Kuint | Kint8 | Kuint8 | Kint16 | Kuint16 | Kint32 | Kuint32 | Kint64 | Kuint64.

(** Floating-point numbers are identified with their shortest decimal text, what
    [strconv.FormatFloat(f, 'f', -1, bits)] prints.  Maps are association lists
    with distinct keys; the order of the list is the order in which [range]
    visits the entries. *)
Inductive value : Type :=
| VNil
| VString (s : string)
| VBool (b : bool)
| VFloat64 (text : string)
| VFloat32 (text : string)
| VInt (k : intKind) (z : Z)
| VBytes (s : string)
| VStringer (s : string)                    (* a value with a String() method *)
| VError (s : string)                       (* a value of type error *)
| VSlice (l : list value)                   (* []interface{} *)
| VMap (m : list (string * value))          (* map[string]interface{} *)
| VStrMap (m : list (string * string))      (* map[string]string *)
| VIfaceStrMap (m : list (value * string))  (* map[interface{}]string *)
| VIfaceMap (m : list (value * value))      (* map[interface{}]interface{} *)
| VScript (type : string) (content : value) (* types.Script *)
| VFunc (id : nat).                         (* a Go function, channel, ... *)

Definition intKind_eq_dec (a b : intKind) : {a = b} + {a ≠ b}.
Proof. decide equality. Defined.
#[global] Instance intKind_EqDecision : EqDecision intKind := intKind_eq_dec.

(** [m[key]] on a [map[string]interface{}]. *)
Fixpoint assoc {A} (key : string) (m : list (string * A)) : option A :=
  match m with
  | [] => None
  | (k, v) :: m' => if bool_decide (k = key) then Some v else assoc key m'
  end.

(** [m[key] = v]: replaces the entry of an existing key, adds one otherwise. *)
Fixpoint assoc_set {A} (key : string) (v : A) (m : list (string * A)) : list (string * A) :=
  match m with
  | [] => [(key, v)]
  | (k, w) :: m' => if bool_decide (k = key) then (k, v) :: m' else (k, w) :: assoc_set key v m'
  end.

(** What the code relies on of the package [encoding/json], through
    [utils/json.Marshal] and [utils/json.Unmarshal] into an [interface{}]. *)
Class Json : Type := {
  json_Marshal : value → result string;
  json_Unmarshal : string → result value
}.

Lemma assoc_set_eq {A} key (v : A) m : assoc key (assoc_set key v m) = Some v.
Proof.
  induction m as [|[k w] m IH]; simpl.
  - by rewrite bool_decide_true.
  - case_bool_decide; simpl; [by rewrite bool_decide_true|by rewrite bool_decide_false].
Qed.

Lemma assoc_set_ne {A} key key' (v : A) m :
  key' ≠ key → assoc key' (assoc_set key v m) = assoc key' m.
Proof.
  intros Hne. induction m as [|[k w] m IH]; simpl.
  - by rewrite bool_decide_false.
  - case_bool_decide; simpl; [|by rewrite IH].
    subst. by rewrite !bool_decide_false.
Qed.

Lemma assoc_elem {A} key (v : A) m : assoc key m = Some v → (key, v) ∈ m.
Proof.
  induction m as [|[k w] m IH]; simpl; [done|].
  case_bool_decide; intros; simplify_eq; set_solver.
Qed.

Lemma assoc_NoDup {A} key (v : A) m : NoDup m.*1 → (key, v) ∈ m → assoc key m = Some v.
Proof.
  induction m as [|[k w] m IH]; simpl; [set_solver|].
  intros [Hk Hm]%NoDup_cons Hin. apply elem_of_cons in Hin as [Heq|Hin].
  - simplify_eq. by rewrite bool_decide_true.
  - rewrite bool_decide_false; [eauto|]. intros ->. apply Hk.
    apply list_elem_of_fmap. by exists (key, v).
Qed.
