(* ===== verification/Str.v ===== *)
(** * Package [utils/str] and [utils/maps.Get]

    Placeholder substitution ([SprintfVar], [SprintfDict], [ProcessVar]), the
    conversions of dynamic values to strings, the SQL placeholder conversion and
    the small string helpers of [src/utils/str/str.go]; nested field access of
    [src/utils/maps/maps.go]. *)

From S2P Require Import Prelude GoStrings Value.
From Stdlib Require Import Ascii.

(** ** Placeholders *)

Definition varPatternLeft : string := "${".
Definition varPatternRight : string := "}".

Definition ProcessVar (pattern key val : string) : string :=
  let varPattern := varPatternLeft +:+ key +:+ varPatternRight in
  Replace pattern varPattern val None.

(** [dict] lists the entries of the Go map in the order in which [range] visits
    them, which Go leaves unspecified. *)
Definition SprintfVar (pattern keyPrefix : string) (dict : list (string * string)) : string :=
  foldl (λ result '(key, value), ProcessVar result (keyPrefix +:+ key) value) pattern dict.

Definition SprintfDict (pattern : string) (dict : list (string * string)) : string :=
  SprintfVar pattern "" dict.

Definition CheckHasVar (str : string) : bool := Contains "${" str && Contains "}" str.

(** ** Random strings: [picks] are the results of [rand.Intn]. *)

Definition randomStrOptions : string :=
  "abcdefghijklmnopqrstuvwxyzABCDEFGHIJKLMNOPQRSTUVWXYZ0123456789".
Definition randomStrOptionsLen : nat := String.length randomStrOptions.

Fixpoint RandomStr (num : nat) (picks : nat → nat) : string :=
  match num with
  | O => EmptyString
  | S n => match String.get (picks 0 mod randomStrOptionsLen) randomStrOptions with
           | Some c => String c (RandomStr n (λ i, picks (S i)))
           | None => EmptyString
           end
  end.

(** ** Conversions *)

Definition FormatBool (b : bool) : string := if b then "true" else "false".

(** [string(v)] of Go's [int(v)] conversion: two's complement wrap at 64 bits. *)
Definition intOf (z : Z) : Z := int64_wrap z.

Section Conversions.
Context `{J : Json}.

Definition ToStringMaybeErr (input : value) : result string :=
  match input with
  | VNil => Ok ""
  | VString v => Ok v
  | VBool v => Ok (FormatBool v)
  | VFloat64 t => Ok t
  | VFloat32 t => Ok t
  | VInt Kint v => Ok (Itoa v)
  | VInt Kuint v => Ok (Itoa (intOf v))
  | VInt Kint8 v => Ok (Itoa (intOf v))
  | VInt Kuint8 v => Ok (Itoa (intOf v))
  | VInt Kint16 v => Ok (Itoa (intOf v))
  | VInt Kuint16 v => Ok (Itoa (intOf v))
  | VInt Kint32 v => Ok (Itoa (intOf v))
  | VInt Kuint32 v => Ok (Itoa (intOf v))
  | VInt Kint64 v => Ok (Itoa v)
  | VInt Kuint64 v => Ok (Itoa v)
  | VBytes v => Ok v
  | VStringer v => Ok v
  | VError v => Ok v
  | _ => match json_Marshal input with
         | Ok newValue => Ok newValue
         | Err err => Err err
         end
  end.

(** [v, _ := ToStringMaybeErr(input); return v] *)
Definition ToString (input : value) : string :=
  match ToStringMaybeErr input with Ok v => v | Err _ => "" end.

Definition ToStringMapString (input : value) : list (string * string) :=
  match input with
  | VStrMap v => v
  | VMap v => foldl (λ output '(k, val), assoc_set (ToString (VString k)) (ToString val) output) [] v
  | VIfaceStrMap v => foldl (λ output '(k, val), assoc_set (ToString k) (ToString (VString val)) output) [] v
  | VIfaceMap v => foldl (λ output '(k, val), assoc_set (ToString k) (ToString val) output) [] v
  | VString v =>
      (* _ = json.Unmarshal([]byte(v), &output): every key of a JSON object is
         stored; a member that is not a string leaves the zero value *)
      match json_Unmarshal v with
      | Ok (VMap m) => (λ '(k, x), (k, match x with VString s => s | _ => "" end)) <$> m
      | _ => []
      end
  | _ => []
  end.

End Conversions.

(** ** SQL placeholders, braces, letter case *)

(** The [for strings.Contains(sql, "?")] loop; each turn removes one [?], so the
    length of [sql] bounds the number of turns. *)
Fixpoint dollar_loop (fuel : nat) (n : nat) (sql : string) : string :=
  match fuel with
  | O => sql
  | S f => if Contains "?" sql
           then dollar_loop f (S n) (Replace sql "?" ("$" +:+ Itoa (Z.of_nat n)) (Some 1))
           else sql
  end.

Definition ConvertDollarPlaceholder (sql dbType : string) : string :=
  if bool_decide (dbType = "postgres") then dollar_loop (String.length sql) 1 sql else sql.

(** Go's [string(c)] for a byte [c]: the UTF-8 encoding of the code point [c]. *)
Definition stringOfByte (c : ascii) : string :=
  let n := nat_of_ascii c in
  if n <? 128 then String c ""
  else String (ascii_of_nat (192 + n / 64)) (String (ascii_of_nat (128 + n mod 64)) "").

Fixpoint removeBraces_from (result : string) (s : string) : string :=
  match s with
  | EmptyString => result
  | String c s' =>
      match s' with
      | String "{" s'' =>
          if bool_decide (c = "$"%char) then removeBraces_from result s''
          else if bool_decide (c = "}"%char) then removeBraces_from result s'
          else if bool_decide (c = " "%char) then removeBraces_from result s'
          else removeBraces_from (result +:+ stringOfByte c) s'
      | _ =>
          if bool_decide (c = "}"%char) then removeBraces_from result s'
          else if bool_decide (c = " "%char) then removeBraces_from result s'
          else removeBraces_from (result +:+ stringOfByte c) s'
      end
  end.
Definition RemoveBraces (s : string) : string := removeBraces_from "" s.

Definition ToLowerFirst (s : string) : string :=
  match s with
  | EmptyString => EmptyString
  | String c s' => ToLower (String c "") +:+ s'
  end.

(** ** [maps.Get]: nested access [a.b.c] *)

Fixpoint get_fields (result : value) (fields : list string) : value :=
  match fields with
  | [] => result
  | field :: fields' =>
      match result with
      | VMap mapValue => match assoc field mapValue with
                         | Some v => get_fields v fields'
                         | None => VNil
                         end
      | _ => VNil
      end
  end.
Definition Get (input : value) (fieldName : string) : value :=
  get_fields input (Split fieldName ".").

(** ** Templates: what [SprintfVar] computes, whatever the order of the map *)

(** A template is literal text and placeholders. *)
Inductive segment : Type :=
| Lit (text : string)
| Var (key : string).

Definition render_segment (x : segment) : string :=
  match x with
  | Lit text => text
  | Var key => varPatternLeft +:+ key +:+ varPatternRight
  end.

Fixpoint render (t : list segment) : string :=
  match t with [] => "" | x :: t' => render_segment x +:+ render t' end.

(** Literal text without a dollar sign, placeholder names without a dollar sign
    or a closing brace. *)
Definition segment_ok (x : segment) : Prop :=
  match x with
  | Lit text => "$"%char ∉ chars text
  | Var key => ("$"%char ∉ chars key) ∧ ("}"%char ∉ chars key)
  end.

Definition subst_segment (f : string → option string) (x : segment) : segment :=
  match x with
  | Lit text => Lit text
  | Var key => match f key with Some v => Lit v | None => Var key end
  end.

(** The simultaneous substitution a reader of the documentation expects. *)
Definition dict_lookup (keyPrefix : string) (dict : list (string * string)) (k : string) : option string :=
  assoc k ((λ '(key, v), (keyPrefix +:+ key, v)) <$> dict).

Lemma no_match_without_dollar old t s :
  "$"%char ∉ chars t → t ≠ "" → HasPrefix (varPatternLeft +:+ old) (t +:+ s) = false.
Proof.
  destruct t as [|c t]; [done|]. intros Hc _. simpl.
  rewrite bool_decide_false; [done|]. unfold chars in Hc; simpl in Hc. set_solver.
Qed.

Lemma key_prefix_eq key k s :
  "}"%char ∉ chars key → "}"%char ∉ chars k →
  HasPrefix (key +:+ "}") (k +:+ "}" +:+ s) = true → key = k.
Proof.
  revert k. induction key as [|a key IH]; intros [|b k]; simpl; intros Hkey Hk; try done.
  - rewrite andb_true_r, bool_decide_eq_true. intros <-. unfold chars in Hk; simpl in Hk. set_solver.
  - rewrite andb_true_iff, bool_decide_eq_true. intros [-> _]. unfold chars in Hkey; simpl in Hkey. set_solver.
  - rewrite andb_true_iff, bool_decide_eq_true. intros [-> Hp].
    f_equal. eapply IH; eauto; unfold chars in *; simpl in *; set_solver.
Qed.

Lemma suffix_no_dollar (k q t : string) :
  "$"%char ∉ chars k → k = q +:+ t → "$"%char ∉ chars t.
Proof. intros Hk ->. rewrite chars_app in Hk. set_solver. Qed.

(** The pattern of [key] matches at no position of the placeholder of another name. *)
Lemma placeholder_no_match key k q u s :
  "}"%char ∉ chars key → "$"%char ∉ chars k → "}"%char ∉ chars k → k ≠ key →
  varPatternLeft +:+ k +:+ varPatternRight = q +:+ u → u ≠ "" →
  HasPrefix (varPatternLeft +:+ key +:+ varPatternRight) (u +:+ s) = false.
Proof.
  intros Hkey Hd Hb Hk Hq Hu.
  assert ("$"%char ∉ chars (k +:+ "}")) as Hkd by (rewrite chars_app; set_solver).
  destruct q as [|c q]; simpl in Hq.
  - subst u. simpl. apply not_true_iff_false. intros Hp.
    rewrite string_app_assoc in Hp. apply key_prefix_eq in Hp; done.
  - apply no_match_without_dollar; [|done]. simplify_eq.
    destruct q as [|c q]; simpl in *; simplify_eq.
    + change (chars _) with ("{"%char :: chars (k +:+ varPatternRight)).
      apply not_elem_of_cons. done.
    + by eapply suffix_no_dollar.
Qed.

(** One placeholder name is replaced wherever it stands, nothing else changes. *)
Lemma ProcessVar_render key val t :
  "}"%char ∉ chars key → Forall segment_ok t →
  ProcessVar (render t) key val =
  render (subst_segment (λ k, if bool_decide (k = key) then Some val else None) <$> t).
Proof.
  intros Hkey. unfold ProcessVar, Replace.
  set (pat := varPatternLeft +:+ key +:+ varPatternRight).
  induction 1 as [|x t Hx Ht IH]; [done|].
  cbn [render fmap list_fmap].
  destruct x as [text|k]; cbn [render_segment subst_segment] in *.
  - rewrite replace_from_copy, IH; [done|]. intros q u -> Hu.
    apply no_match_without_dollar; [|done]. simpl in Hx. rewrite chars_app in Hx. set_solver.
  - destruct Hx as [Hd Hb]. case_bool_decide as Hk.
    + subst k. fold pat. rewrite replace_from_match, IH; done.
    + rewrite replace_from_copy, IH; [done|].
      intros q u Hq Hu. by eapply placeholder_no_match.
Qed.

Lemma subst_segment_ok f t :
  (∀ k v, f k = Some v → "$"%char ∉ chars v) →
  Forall segment_ok t → Forall segment_ok (subst_segment f <$> t).
Proof.
  intros Hf. induction 1 as [|x t Hx Ht IH]; simpl; constructor; [|done].
  destruct x as [|k]; simpl in *; [done|]. destruct (f k) eqn:E; simpl; eauto.
Qed.

(** The values put into a template contain no dollar sign; the names, prefixed,
    no closing brace. *)
Definition dict_ok (keyPrefix : string) (dict : list (string * string)) : Prop :=
  Forall (λ '(k, v), ("}"%char ∉ chars (keyPrefix +:+ k)) ∧ ("$"%char ∉ chars v)) dict.

Lemma SprintfVar_render keyPrefix dict t :
  dict_ok keyPrefix dict → Forall segment_ok t →
  SprintfVar (render t) keyPrefix dict = render (subst_segment (dict_lookup keyPrefix dict) <$> t).
Proof.
  unfold SprintfVar. revert t.
  induction dict as [|[k v] dict IH]; intros t Hd Ht; simpl.
  - f_equal. rewrite <- (list_fmap_id t) at 1. apply list_fmap_ext. intros _ [|] _; done.
  - apply Forall_cons in Hd as [[Hk Hv] Hd'].
    rewrite ProcessVar_render by done.
    rewrite IH; [|done|apply subst_segment_ok; [|done]; intros ??; case_bool_decide; naive_solver].
    f_equal. rewrite <- list_fmap_compose. apply list_fmap_ext. intros _ [|k'] _; simpl; [done|].
    unfold dict_lookup; simpl.
    destruct (decide (k' = keyPrefix +:+ k)) as [->|Hne].
    + by rewrite !bool_decide_true.
    + rewrite !bool_decide_false by congruence. done.
Qed.

Lemma dict_lookup_perm keyPrefix d1 d2 k :
  NoDup d1.*1 → Permutation d1 d2 → dict_lookup keyPrefix d1 k = dict_lookup keyPrefix d2 k.
Proof.
  intros Hnd Hp. unfold dict_lookup.
  set (f := λ '(key, v), (keyPrefix +:+ key, v)).
  assert (∀ d : list (string * string), NoDup d.*1 → NoDup (f <$> d).*1) as Hf.
  { intros d Hd. rewrite <- list_fmap_compose.
    assert ((fst ∘ f) <$> d = (λ k, keyPrefix +:+ k) <$> d.*1) as ->.
    { rewrite <- list_fmap_compose. apply list_fmap_ext. by intros _ [] _. }
    apply NoDup_fmap; [|done]. intros a b. apply (inj (String.append keyPrefix)). }
  assert (NoDup d2.*1) by (by rewrite <- Hp).
  destruct (assoc k (f <$> d1)) as [v|] eqn:E1.
  - apply assoc_elem in E1. symmetry. apply assoc_NoDup; [auto|]. by rewrite <- Hp.
  - destruct (assoc k (f <$> d2)) as [v|] eqn:E2; [|done].
    apply assoc_elem in E2. rewrite <- Hp in E2. apply assoc_NoDup in E2; [congruence|auto].
Qed.

(** ** SQL placeholders: the loop is a single numbering pass *)

(** Reference: number the question marks from left to right, starting at [n]. *)
Fixpoint number_placeholders (n : nat) (s : string) : string :=
  match s with
  | EmptyString => EmptyString
  | String c s' =>
      if bool_decide (c = "?"%char)
      then ("$" +:+ Itoa (Z.of_nat n)) +:+ number_placeholders (S n) s'
      else String c (number_placeholders n s')
  end.

Fixpoint count_marks (s : string) : nat :=
  match s with
  | EmptyString => 0
  | String c s' => (if bool_decide (c = "?"%char) then 1 else 0) + count_marks s'
  end.

Lemma HasPrefix_mark c s : HasPrefix "?" (String c s) = bool_decide (c = "?"%char).
Proof. simpl. rewrite andb_true_r. by do 2 case_bool_decide. Qed.

Lemma Contains_mark s : Contains "?" s = negb (count_marks s =? 0).
Proof.
  induction s as [|c s IH]; [done|]. cbn [Contains count_marks].
  rewrite HasPrefix_mark, IH. case_bool_decide; done.
Qed.

Lemma replace_none_left old new s : replace_from old new (Some 0) 0 s = s.
Proof. induction s as [|c s IH]; simpl; [done|]. by rewrite IH. Qed.

(** [strings.Replace(sql, "?", new, 1)] *)
Fixpoint replace_first_mark (new s : string) : string :=
  match s with
  | EmptyString => EmptyString
  | String c s' => if bool_decide (c = "?"%char) then new +:+ s' else String c (replace_first_mark new s')
  end.

Lemma Replace_first_mark new s : Replace s "?" new (Some 1) = replace_first_mark new s.
Proof.
  unfold Replace. induction s as [|c s IH]; [done|].
  cbn [replace_from replace_first_mark]. rewrite HasPrefix_mark.
  case_bool_decide; [|by rewrite IH]. cbn. by rewrite replace_none_left.
Qed.

Lemma count_marks_app a b : count_marks (a +:+ b) = count_marks a + count_marks b.
Proof. induction a as [|c a IH]; simpl; [done|]. rewrite IH. lia. Qed.

Lemma count_marks_Itoa z : count_marks (Itoa z) = 0.
Proof.
  assert (Forall (λ c, c ≠ "?"%char) (chars (Itoa z))) as H.
  { apply Itoa_chars; [|done|done]. intros y Hy. pose proof (pretty_N_char_digit y) as Hd.
    rewrite Hy in Hd. done. }
  induction (Itoa z) as [|c s IH]; simpl; [done|].
  apply Forall_cons in H as [Hc Hs]. rewrite bool_decide_false by done. auto.
Qed.

Lemma count_marks_dollar z : count_marks ("$" +:+ Itoa z) = 0.
Proof. rewrite count_marks_app, count_marks_Itoa. done. Qed.

Lemma number_no_marks a n s :
  count_marks a = 0 → number_placeholders n (a +:+ s) = a +:+ number_placeholders n s.
Proof.
  induction a as [|c a IH]; simpl; [done|]. case_bool_decide; [lia|]. intros. by rewrite IH.
Qed.

Lemma count_replace_first new s :
  count_marks new = 0 → count_marks (replace_first_mark new s) = pred (count_marks s).
Proof.
  intros Hn. induction s as [|c s IH]; simpl; [done|].
  case_bool_decide as Hc; simpl.
  - rewrite count_marks_app. lia.
  - rewrite bool_decide_false by done. done.
Qed.

Lemma number_replace_first n s :
  count_marks s ≠ 0 →
  number_placeholders (S n) (replace_first_mark ("$" +:+ Itoa (Z.of_nat n)) s) = number_placeholders n s.
Proof.
  induction s as [|c s IH]; [done|].
  cbn [count_marks replace_first_mark number_placeholders].
  case_bool_decide as Hc; intros Hs.
  - apply number_no_marks, count_marks_dollar.
  - cbn [number_placeholders]. rewrite bool_decide_false by done. rewrite IH by lia. done.
Qed.

Lemma number_none n s : count_marks s = 0 → number_placeholders n s = s.
Proof. induction s as [|c s IH]; simpl; [done|]. case_bool_decide; [done|]. intros. by rewrite IH. Qed.

Lemma dollar_loop_number fuel n s :
  count_marks s ≤ fuel → dollar_loop fuel n s = number_placeholders n s.
Proof.
  revert n s. induction fuel as [|fuel IH]; intros n s Hf; cbn [dollar_loop].
  - by rewrite number_none by lia.
  - rewrite Contains_mark. destruct (count_marks s =? 0) eqn:E; simpl.
    + apply Nat.eqb_eq in E. by rewrite number_none.
    + apply Nat.eqb_neq in E. rewrite Replace_first_mark, IH.
      * by apply number_replace_first.
      * rewrite count_replace_first; [lia|]. apply count_marks_dollar.
Qed.

Lemma count_marks_length s : count_marks s ≤ String.length s.
Proof. induction s as [|c s IH]; simpl; [done|]. case_bool_decide; lia. Qed.

Lemma number_placeholders_no_marks n s : count_marks (number_placeholders n s) = 0.
Proof.
  revert n. induction s as [|c s IH]; intros n; cbn [number_placeholders]; [done|].
  case_bool_decide as Hc.
  - rewrite count_marks_app, count_marks_dollar, IH. done.
  - cbn [count_marks]. rewrite bool_decide_false by done. simpl. apply IH.
Qed.

(** ** Properties of the package *)

(** On a template (text without dollar signs and placeholders [${key}]) with
    dollar-free values, [SprintfVar] is the simultaneous substitution of the
    dictionary: known names are replaced, unknown names stay, unused entries are
    ignored, and the unspecified iteration order of the Go map does not matter. *)
Theorem SprintfVar_template keyPrefix d1 d2 t :
  NoDup d1.*1 → Permutation d1 d2 → dict_ok keyPrefix d1 → Forall segment_ok t →
  SprintfVar (render t) keyPrefix d2 =
  render (subst_segment (dict_lookup keyPrefix d1) <$> t).
Proof.
  intros Hnd Hp Hd Ht. rewrite SprintfVar_render; [|by unfold dict_ok; rewrite <- Hp|done].
  f_equal. apply list_fmap_ext. intros _ [|k] _; simpl; [done|].
  by rewrite (dict_lookup_perm _ _ _ _ Hnd Hp).
Qed.

Lemma SprintfVar_template_witness :
  SprintfVar "Hello, ${global.name}. ${global.x}" "global." [("age", "18"); ("name", "Alice")]
  = "Hello, Alice. ${global.x}".
Proof.
  assert (render (subst_segment (dict_lookup "global." [("name", "Alice"); ("age", "18")]) <$>
            [Lit "Hello, "; Var "global.name"; Lit ". "; Var "global.x"])
          = "Hello, Alice. ${global.x}") as <- by reflexivity.
  apply (SprintfVar_template "global." [("name", "Alice"); ("age", "18")]
           [("age", "18"); ("name", "Alice")]
           [Lit "Hello, "; Var "global.name"; Lit ". "; Var "global.x"]).
  - by_decide.
  - apply perm_swap.
  - repeat constructor; by_decide.
  - repeat constructor; by_decide.
Defined.

(** Without that restriction the order does matter: a value that spells a
    placeholder, or a nested placeholder, gives different results for two
    iteration orders of the same map. *)
Theorem SprintfVar_order_dependent :
  ∃ pattern d1 d2, Permutation d1 d2 ∧ NoDup d1.*1 ∧
    SprintfVar pattern "" d1 ≠ SprintfVar pattern "" d2.
Proof.
  exists "${a}", [("a", "${b}"); ("b", "1")], [("b", "1"); ("a", "${b}")].
  split; [apply perm_swap|]. split; [by_decide|].
  vm_compute. discriminate.
Qed.

(** For postgres the conversion loop terminates with every question mark
    replaced by [$1], [$2], ... from left to right, and none left; for any other
    driver the statement is unchanged. *)
Theorem ConvertDollarPlaceholder_correct sql dbType :
  ConvertDollarPlaceholder sql dbType =
    (if bool_decide (dbType = "postgres") then number_placeholders 1 sql else sql) ∧
  (dbType = "postgres" → Contains "?" (ConvertDollarPlaceholder sql dbType) = false).
Proof.
  unfold ConvertDollarPlaceholder. case_bool_decide.
  - rewrite dollar_loop_number by apply count_marks_length. split; [done|]. intros _.
    by rewrite Contains_mark, number_placeholders_no_marks.
  - done.
Qed.

Lemma ConvertDollarPlaceholder_witness :
  ConvertDollarPlaceholder "select ? where a=? and b=?" "postgres" = "select $1 where a=$2 and b=$3" ∧
  Contains "?" (ConvertDollarPlaceholder "select ? where a=? and b=?" "postgres") = false.
Proof.
  destruct (ConvertDollarPlaceholder_correct "select ? where a=? and b=?" "postgres") as [H1 H2].
  split; [rewrite H1; reflexivity|apply H2; reflexivity].
Defined.

(** [ToString] of a [uint] goes through [int]: values from 2^63 up print as
    negative numbers, unlike those of the same value as a [uint64]. *)
Theorem ToString_uint_wraps `{Json} z :
  (2^63 ≤ z < 2^64)%Z →
  ToString (VInt Kuint z) = Itoa (z - 2^64) ∧ ToString (VInt Kuint64 z) = Itoa z.
Proof.
  intros Hz. unfold ToString; simpl. split; [|done].
  unfold intOf, int64_wrap. f_equal.
  replace (z + 2^63)%Z with ((z - 2^63) + 1 * 2^64)%Z by lia.
  rewrite Z.mod_add by lia. rewrite Z.mod_small by lia. lia.
Qed.

Lemma ToString_uint_wraps_witness :
  @ToString (Build_Json (λ _, Ok "") (λ _, Ok VNil)) (VInt Kuint (2^64 - 1)) = "-1".
Proof.
  destruct (@ToString_uint_wraps (Build_Json (λ _, Ok "") (λ _, Ok VNil)) (2^64 - 1)) as [-> _];
    [lia|reflexivity].
Defined.
