(* ===== verification/Msg.v ===== *)
(** * Messages, metadata and identifiers (package [api/types])

    [src/api/types/msg.go] and the data types of [src/api/types/types.go].  The
    clock and the UUID generator are arguments: [now] is the result of
    [time.Now().UnixMilli()], [uuid] that of [uuid.NewV4()]. *)

From S2P Require Import Prelude Value.

(** ** Constants *)

Definition Success : string := "Success".
Definition Failure : string := "Failure".
Definition True_ : string := "True".
Definition False_ : string := "False".

Definition In_ : string := "IN".
Definition Out_ : string := "OUT".

Definition Js : string := "Js".
Definition Lua : string := "Lua".
Definition Python : string := "Python".
Definition ScriptFuncSeparator : string := "#".

(** [DataType] is a string type with these constants. *)
Abbreviation DataType := string.
Definition JSON : DataType := "JSON".
Definition TEXT : DataType := "TEXT".
Definition BINARY : DataType := "BINARY".

Definition MsgKey : string := "msg".
Definition MetadataKey : string := "metadata".
Definition MsgTypeKey : string := "msgType".
Definition DataTypeKey : string := "dataType".

(** ** Identifiers *)

Inductive ComponentType : Type := NODE | CHAIN.

#[global] Instance ComponentType_EqDecision : EqDecision ComponentType.
Proof. solve_decision. Defined.

Record RuleNodeId : Type := mkNodeId { rn_Id : string; rn_Type : ComponentType }.

#[global] Instance RuleNodeId_EqDecision : EqDecision RuleNodeId.
Proof. solve_decision. Defined.

#[global] Instance RuleNodeId_Countable : Countable RuleNodeId.
Proof.
  refine (inj_countable'
    (λ i, (rn_Id i, match rn_Type i with NODE => true | CHAIN => false end))
    (λ p, mkNodeId p.1 (if p.2 : bool then NODE else CHAIN)) _).
  by intros [? []].
Defined.

Definition EmptyRuleNodeId : RuleNodeId := mkNodeId "" NODE.

Record RuleNodeRelation : Type := mkRelation {
  rr_InId : RuleNodeId;
  rr_OutId : RuleNodeId;
  rr_RelationType : string
}.

(** ** Metadata *)

Abbreviation Metadata := (gmap string string).

Definition NewMetadata : Metadata := ∅.

(** The loop [for k, v := range data { metadata[k] = v }]. *)
Definition BuildMetadata (data : Metadata) : Metadata :=
  map_fold (λ k v metadata, <[k := v]> metadata) NewMetadata data.

Definition Metadata_Copy (md : Metadata) : Metadata := BuildMetadata md.
Definition Metadata_Has (md : Metadata) (key : string) : bool := bool_decide (is_Some (md !! key)).
Definition Metadata_GetValue (md : Metadata) (key : string) : string := default "" (md !! key).
Definition Metadata_PutValue (md : Metadata) (key value : string) : Metadata :=
  if bool_decide (key ≠ "") then <[key := value]> md else md.
Definition Metadata_Values (md : Metadata) : list (string * string) := map_to_list md.

(** ** Messages

    The type of the metadata field is a parameter, so that the same record
    serves for the value view ([RuleMsg]) and for the reference view of the Go
    map ([RuleMsgRef]). *)
Record RuleMsgOf (M : Type) : Type := mkMsg {
  m_Ts : Z;
  m_Id : string;
  m_DataType : DataType;
  m_Type : string;
  m_Data : string;
  m_Metadata : M
}.
Arguments mkMsg {M}.
Arguments m_Ts {M}. Arguments m_Id {M}. Arguments m_DataType {M}.
Arguments m_Type {M}. Arguments m_Data {M}. Arguments m_Metadata {M}.

Abbreviation RuleMsg := (RuleMsgOf Metadata).

#[global] Instance RuleMsg_EqDecision : EqDecision RuleMsg.
Proof. solve_decision. Defined.

Definition newMsg {M} (now : Z) (uuid : string)
    (id : string) (ts : Z) (msgType : string) (dataType : DataType) (metaData : M) (data : string)
    : RuleMsgOf M :=
  {| m_Ts := if bool_decide (ts ≤ 0)%Z then now else ts;
     m_Id := if bool_decide (id = "") then uuid else id;
     m_Type := msgType;
     m_DataType := dataType;
     m_Data := data;
     m_Metadata := metaData |}.

Definition NewMsg {M} (now : Z) (uuid uuid' : string)
    (ts : Z) (msgType : string) (dataType : DataType) (metaData : M) (data : string) : RuleMsgOf M :=
  newMsg now uuid' uuid ts msgType dataType metaData data.

Definition RuleMsg_Copy (now : Z) (uuid : string) (m : RuleMsg) : RuleMsg :=
  newMsg now uuid (m_Id m) (m_Ts m) (m_Type m) (m_DataType m) (Metadata_Copy (m_Metadata m)) (m_Data m).

Record WrapperMsg : Type := mkWrapper {
  w_Msg : RuleMsg;
  w_Err : string;
  w_NodeId : string
}.

(** Field updates of a message held in a local variable. *)
Definition set_Data {M} (d : string) (m : RuleMsgOf M) : RuleMsgOf M :=
  mkMsg (m_Ts m) (m_Id m) (m_DataType m) (m_Type m) d (m_Metadata m).
Definition set_Type {M} (t : string) (m : RuleMsgOf M) : RuleMsgOf M :=
  mkMsg (m_Ts m) (m_Id m) (m_DataType m) t (m_Data m) (m_Metadata m).
Definition set_DataType {M} (t : DataType) (m : RuleMsgOf M) : RuleMsgOf M :=
  mkMsg (m_Ts m) (m_Id m) t (m_Type m) (m_Data m) (m_Metadata m).
Definition set_Metadata {M N} (md : N) (m : RuleMsgOf M) : RuleMsgOf N :=
  mkMsg (m_Ts m) (m_Id m) (m_DataType m) (m_Type m) (m_Data m) md.

(** ** The reference view

    A Go [Metadata] is a reference to a map: passing a [RuleMsg] by value shares
    it.  The store maps the addresses of maps to their contents. *)
Abbreviation MetaStore := (gmap nat Metadata).
Abbreviation RuleMsgRef := (RuleMsgOf nat).

Definition deref (h : MetaStore) (m : RuleMsgRef) : RuleMsg :=
  set_Metadata (default ∅ (h !! m_Metadata m)) m.

(** [make(Metadata)] followed by the copying loop, at the fresh address [l]. *)
Definition Metadata_Copy_ref (l : nat) (md : nat) (h : MetaStore) : MetaStore :=
  <[l := BuildMetadata (default ∅ (h !! md))]> h.

Definition RuleMsg_Copy_ref (now : Z) (uuid : string) (l : nat) (m : RuleMsgRef) (h : MetaStore)
    : RuleMsgRef * MetaStore :=
  (newMsg now uuid (m_Id m) (m_Ts m) (m_Type m) (m_DataType m) l (m_Data m),
   Metadata_Copy_ref l (m_Metadata m) h).

Definition PutValue_ref (md : nat) (key value : string) (h : MetaStore) : MetaStore :=
  alter (λ m, Metadata_PutValue m key value) md h.

(** ** Lemmas *)

Lemma BuildMetadata_id md : BuildMetadata md = md.
Proof.
  unfold BuildMetadata.
  apply (map_fold_weak_ind (λ r m, r = m)); [done|].
  intros k v m r Hm ->. done.
Qed.

Lemma Metadata_PutValue_lookup md k v k' :
  Metadata_PutValue md k v !! k' = if bool_decide (k ≠ "" ∧ k = k') then Some v else md !! k'.
Proof.
  unfold Metadata_PutValue. repeat case_bool_decide; try naive_solver.
  - destruct_and!; subst. by rewrite lookup_insert_eq.
  - rewrite lookup_insert_ne; naive_solver.
Qed.

(** A message that carries its identity: what [NewMsg] always produces. *)
Definition identified {M} (m : RuleMsgOf M) : Prop := (0 < m_Ts m)%Z ∧ m_Id m ≠ "".

Lemma RuleMsg_Copy_identified now uuid m : identified m → RuleMsg_Copy now uuid m = m.
Proof.
  intros [Hts Hid]. unfold RuleMsg_Copy, newMsg, Metadata_Copy. rewrite BuildMetadata_id.
  rewrite !bool_decide_false by (done || lia). by destruct m.
Qed.

Lemma NewMsg_identified {M} now uuid uuid' ts ty dt (md : M) data :
  (0 < now)%Z → uuid ≠ "" → identified (NewMsg now uuid uuid' ts ty dt md data).
Proof.
  intros. unfold identified; simpl. rewrite (bool_decide_false (uuid = "")) by done.
  case_bool_decide; split; auto; lia.
Qed.

(** ** Properties *)

(** [Copy] of a message that carries a timestamp and an id is the same
    message; a message without one gets the clock's time or a new id, everything
    else is kept. *)
Theorem RuleMsg_Copy_spec now uuid m :
  (identified m → RuleMsg_Copy now uuid m = m) ∧
  m_Metadata (RuleMsg_Copy now uuid m) = m_Metadata m ∧
  m_Data (RuleMsg_Copy now uuid m) = m_Data m ∧
  m_Type (RuleMsg_Copy now uuid m) = m_Type m ∧
  ((m_Ts m ≤ 0)%Z → m_Ts (RuleMsg_Copy now uuid m) = now) ∧
  (m_Id m = "" → m_Id (RuleMsg_Copy now uuid m) = uuid).
Proof.
  split; [apply RuleMsg_Copy_identified|].
  unfold RuleMsg_Copy, newMsg, Metadata_Copy; simpl. rewrite BuildMetadata_id.
  repeat split; intros; by rewrite bool_decide_true.
Qed.

Lemma RuleMsg_Copy_spec_witness :
  RuleMsg_Copy 5 "u" (mkMsg 7%Z "id" JSON "T" "{}" {["k" := "v"]}) =
    mkMsg 7%Z "id" JSON "T" "{}" {["k" := "v"]} ∧
  m_Ts (RuleMsg_Copy 5 "u" (mkMsg 0%Z "" JSON "T" "{}" ∅)) = 5%Z.
Proof.
  destruct (RuleMsg_Copy_spec 5 "u" (mkMsg 7%Z "id" JSON "T" "{}" {["k" := "v"]})) as [H _].
  destruct (RuleMsg_Copy_spec 5 "u" (mkMsg 0%Z "" JSON "T" "{}" ∅)) as (_ & _ & _ & _ & H2 & _).
  split; [apply H; split; [simpl; lia|simpl; discriminate]|apply H2; simpl; lia].
Defined.

(** C24. The copy handed to another node is isolated: after [Copy] to a fresh
    map, a write through either message's metadata is invisible through the
    other one, and the copy reads as the value-level copy of the original. *)
Theorem RuleMsg_Copy_isolated now uuid l m h key v :
  h !! l = None → is_Some (h !! m_Metadata m) →
  let '(c, h') := RuleMsg_Copy_ref now uuid l m h in
  deref h' c = RuleMsg_Copy now uuid (deref h m) ∧
  deref h' m = deref h m ∧
  deref (PutValue_ref (m_Metadata c) key v h') m = deref h m ∧
  deref (PutValue_ref (m_Metadata m) key v h') c = deref h' c.
Proof.
  intros Hl [md Hm]. simpl.
  assert (l ≠ m_Metadata m) as Hne by congruence.
  unfold deref, RuleMsg_Copy, PutValue_ref, Metadata_Copy_ref, Metadata_Copy; simpl.
  rewrite Hm; simpl. rewrite lookup_insert_eq, lookup_insert_ne by done.
  rewrite !lookup_alter_ne by done. rewrite lookup_insert_eq, lookup_insert_ne by done.
  rewrite Hm. done.
Qed.

Lemma RuleMsg_Copy_isolated_witness :
  let m := mkMsg 1%Z "a" JSON "T" "" 0 in
  let h := {[0 := ({["k" := "1"]} : Metadata)]} : MetaStore in
  let h' := (RuleMsg_Copy_ref 5 "u" 1 m h).2 in
  m_Metadata (deref (PutValue_ref 1 "k" "2" h') m) !! "k" = Some "1".
Proof.
  intros m h h'.
  destruct (RuleMsg_Copy_isolated 5 "u" 1 m h "k" "2") as (_ & _ & H & _).
  - reflexivity.
  - eexists; reflexivity.
  - exact (f_equal (λ x, m_Metadata x !! "k") H).
Defined.
