(* ===== verification/Config.v ===== *)
(** * Engine configuration and aspect lists

    [src/api/types/config.go], the aspect interfaces of
    [src/api/types/aspect.go], and [rulego.NewConfig] of [src/engine.go]. *)

From S2P Require Import Prelude Sorting Value Msg.

(** ** Aspects

    An aspect value is known to the configuration by its order and by the
    interfaces it implements (the type assertions of the [Get...Aspects]
    methods); [a_id] is the identity of the object.  What an aspect does is
    given where it is called. *)
Inductive AspectKind : Type :=
| AroundAspect | BeforeAspect | AfterAspect
| StartAspect | EndAspect | CompletedAspect
| OnCreatedAspect | OnReloadAspect | OnDestroyAspect.

Record Aspect : Type := mkAspect {
  a_id : nat;
  a_Order : Z;
  a_implements : AspectKind → bool
}.

(** Aspects are sorted with [sort.Slice]; a list of more than twelve is sorted too, with
    ties in unspecified order. *)
Definition aspect_less (a b : Aspect) : bool := bool_decide (a_Order a < a_Order b)%Z.

Definition select_aspects (k : AspectKind) (l : list Aspect) : list Aspect :=
  filter (λ a, a_implements a k = true) l.

(** ** Configuration *)

Inductive ParserRef : Type := JsonParser | CustomParser (id : nat).
Inductive RegistryRef : Type := DefaultRegistry | CustomRegistry (id : nat).
Inductive PoolRef : Type := DefaultWorkerPool (maxWorkersCount : Z) | CustomPool (id : nat).
Inductive LoggerRef : Type := DefaultLogger | CustomLogger (id : nat).

(** Function-valued fields are [Some id] when set; a nil map is [None]. *)
Record Config : Type := mkConfig {
  c_OnDebug : option nat;
  c_OnEnd : option nat;
  c_ScriptMaxExecutionTime : Z; (* milliseconds *)
  c_Pool : option PoolRef;
  c_ComponentsRegistry : option RegistryRef;
  c_Parser : option ParserRef;
  c_Logger : option LoggerRef;
  c_Properties : option Metadata;
  c_Udf : option (gmap string value);
  c_Aspects : list Aspect
}.

(** An [Option] modifies the configuration; its error is ignored. *)
Abbreviation Option := (Config → Config).

Definition zeroConfig : Config :=
  mkConfig None None 0 None None None None None None [].

Definition types_NewConfig (opts : list Option) : Config :=
  let c := {| c_OnDebug := None; c_OnEnd := None;
              c_ScriptMaxExecutionTime := 2000;
              c_Pool := None; c_ComponentsRegistry := None; c_Parser := None;
              c_Logger := Some DefaultLogger;
              c_Properties := Some NewMetadata;
              c_Udf := None; c_Aspects := [] |} in
  foldl (λ c opt, opt c) c opts.

Definition with_Parser (parser : option ParserRef) : Option := λ c,
  mkConfig (c_OnDebug c) (c_OnEnd c) (c_ScriptMaxExecutionTime c) (c_Pool c)
    (c_ComponentsRegistry c) parser (c_Logger c) (c_Properties c) (c_Udf c) (c_Aspects c).
Definition with_Registry (r : option RegistryRef) : Option := λ c,
  mkConfig (c_OnDebug c) (c_OnEnd c) (c_ScriptMaxExecutionTime c) (c_Pool c)
    r (c_Parser c) (c_Logger c) (c_Properties c) (c_Udf c) (c_Aspects c).
Definition with_Aspects (l : list Aspect) : Option := λ c,
  mkConfig (c_OnDebug c) (c_OnEnd c) (c_ScriptMaxExecutionTime c) (c_Pool c)
    (c_ComponentsRegistry c) (c_Parser c) (c_Logger c) (c_Properties c) (c_Udf c) l.
Definition with_Udf (u : option (gmap string value)) : Option := λ c,
  mkConfig (c_OnDebug c) (c_OnEnd c) (c_ScriptMaxExecutionTime c) (c_Pool c)
    (c_ComponentsRegistry c) (c_Parser c) (c_Logger c) (c_Properties c) u (c_Aspects c).
Definition with_Pool (p : option PoolRef) : Option := λ c,
  mkConfig (c_OnDebug c) (c_OnEnd c) (c_ScriptMaxExecutionTime c) p
    (c_ComponentsRegistry c) (c_Parser c) (c_Logger c) (c_Properties c) (c_Udf c) (c_Aspects c).

Definition WithComponentsRegistry (r : RegistryRef) : Option := with_Registry (Some r).
Definition WithPool (p : PoolRef) : Option := with_Pool (Some p).
Definition WithDefaultPool : Option := with_Pool (Some (DefaultWorkerPool (2^31 - 1))).
Definition WithParser (p : ParserRef) : Option := with_Parser (Some p).
Definition WithAspects (aspects : list Aspect) : Option := with_Aspects aspects.
Definition WithOnDebug (f : nat) : Option := λ c,
  mkConfig (Some f) (c_OnEnd c) (c_ScriptMaxExecutionTime c) (c_Pool c)
    (c_ComponentsRegistry c) (c_Parser c) (c_Logger c) (c_Properties c) (c_Udf c) (c_Aspects c).
Definition WithScriptMaxExecutionTime (ms : Z) : Option := λ c,
  mkConfig (c_OnDebug c) (c_OnEnd c) ms (c_Pool c)
    (c_ComponentsRegistry c) (c_Parser c) (c_Logger c) (c_Properties c) (c_Udf c) (c_Aspects c).
Definition WithLogger (l : LoggerRef) : Option := λ c,
  mkConfig (c_OnDebug c) (c_OnEnd c) (c_ScriptMaxExecutionTime c) (c_Pool c)
    (c_ComponentsRegistry c) (c_Parser c) (Some l) (c_Properties c) (c_Udf c) (c_Aspects c).

(** [rulego.NewConfig] *)
Definition NewConfig (opts : list Option) : Config :=
  let c := types_NewConfig opts in
  let c := match c_Parser c with None => with_Parser (Some JsonParser) c | Some _ => c end in
  match c_ComponentsRegistry c with
  | None => with_Registry (Some DefaultRegistry) c
  | Some _ => c
  end.

(** The key under which a user function is stored. *)
Definition udf_key (name : string) (v : value) : string :=
  match v with
  | VScript type _ => type +:+ ScriptFuncSeparator +:+ name
  | _ => name
  end.

Definition RegisterUdf (name : string) (v : value) (c : Config) : Config :=
  let udf := default ∅ (c_Udf c) in
  with_Udf (Some (<[udf_key name v := v]> udf)) c.

(** The three getters sort the (shared) aspect slice in place and then select;
    the configuration they leave is returned with the lists. *)
Definition sort_Aspects (c : Config) : Config := with_Aspects (sort_Slice aspect_less (c_Aspects c)) c.

Definition GetNodeAspects (c : Config) : (list Aspect * list Aspect * list Aspect) * Config :=
  let c := sort_Aspects c in
  ((select_aspects AroundAspect (c_Aspects c),
    select_aspects BeforeAspect (c_Aspects c),
    select_aspects AfterAspect (c_Aspects c)), c).

Definition GetChainAspects (c : Config) : (list Aspect * list Aspect * list Aspect) * Config :=
  let c := sort_Aspects c in
  ((select_aspects StartAspect (c_Aspects c),
    select_aspects EndAspect (c_Aspects c),
    select_aspects CompletedAspect (c_Aspects c)), c).

Definition GetEngineAspects (c : Config) : (list Aspect * list Aspect * list Aspect) * Config :=
  let c := sort_Aspects c in
  ((select_aspects OnCreatedAspect (c_Aspects c),
    select_aspects OnReloadAspect (c_Aspects c),
    select_aspects OnDestroyAspect (c_Aspects c)), c).

(** ** Sorting lemmas *)

Definition aspect_le (a b : Aspect) : Prop := (a_Order a ≤ a_Order b)%Z.

#[global] Instance aspect_less_le : LessFor aspect_less aspect_le.
Proof.
  split; unfold aspect_less, aspect_le; [intros a b c; lia|..]; intros a b.
  - intros H%bool_decide_eq_true. lia.
  - rewrite bool_decide_eq_false. lia.
Qed.

Lemma sort_aspects_sorted l : StronglySorted aspect_le (sort_Slice aspect_less l).
Proof. apply sort_Slice_StronglySorted, _. Qed.

(** ** Properties *)

(** Each aspect list the engine executes is in non-decreasing [Order], holds
    exactly the configured aspects that implement the interface, and does not
    depend on which getter sorted the shared slice before. *)
Theorem GetNodeAspects_sorted_complete c :
  let '((around, before, after), c') := GetNodeAspects c in
  StronglySorted aspect_le around ∧ StronglySorted aspect_le before ∧ StronglySorted aspect_le after ∧
  (∀ a, a ∈ around ↔ a ∈ c_Aspects c ∧ a_implements a AroundAspect = true) ∧
  (∀ a, a ∈ before ↔ a ∈ c_Aspects c ∧ a_implements a BeforeAspect = true) ∧
  (∀ a, a ∈ after ↔ a ∈ c_Aspects c ∧ a_implements a AfterAspect = true) ∧
  (GetNodeAspects c').1 = (around, before, after) ∧
  (GetChainAspects c').1 = (GetChainAspects c).1 ∧ (GetEngineAspects c').1 = (GetEngineAspects c).1.
Proof.
  simpl. unfold select_aspects.
  assert (∀ k a, a ∈ filter (λ a, a_implements a k = true) (sort_Slice aspect_less (c_Aspects c))
     ↔ a ∈ c_Aspects c ∧ a_implements a k = true) as Hin.
  { intros k a. rewrite list_elem_of_filter, sort_Slice_perm. naive_solver. }
  rewrite !(sort_sorted_id aspect_less aspect_le (sort_Slice aspect_less (c_Aspects c))) by apply sort_aspects_sorted.
  split_and!; auto using filter_StronglySorted, sort_aspects_sorted.
Qed.

(** [NewConfig] always yields a usable configuration: a parser, a component
    registry, and whatever an option set is kept. *)
Theorem NewConfig_defaults opts :
  is_Some (c_Parser (NewConfig opts)) ∧ is_Some (c_ComponentsRegistry (NewConfig opts)) ∧
  (∀ p, c_Parser (types_NewConfig opts) = Some p → c_Parser (NewConfig opts) = Some p) ∧
  (∀ r, c_ComponentsRegistry (types_NewConfig opts) = Some r → c_ComponentsRegistry (NewConfig opts) = Some r) ∧
  c_Aspects (NewConfig opts) = c_Aspects (types_NewConfig opts) ∧
  c_Pool (NewConfig opts) = c_Pool (types_NewConfig opts).
Proof.
  unfold NewConfig. generalize (types_NewConfig opts); intros c.
  destruct (c_Parser c) eqn:Ep; [|simpl]; destruct (c_ComponentsRegistry c) eqn:Er; simpl;
    rewrite ?Ep, ?Er; repeat split; eauto; intros; congruence.
Qed.

Lemma NewConfig_defaults_witness :
  c_Parser (NewConfig [WithParser (CustomParser 3); WithDefaultPool]) = Some (CustomParser 3).
Proof.
  apply (NewConfig_defaults [WithParser (CustomParser 3); WithDefaultPool]). reflexivity.
Defined.

(** Functions of different script types with one name do not overwrite each
    other, and a registered function is found under its key. *)
Theorem RegisterUdf_lookup name v name' v' c :
  let c1 := RegisterUdf name v c in
  let c2 := RegisterUdf name' v' c1 in
  (default ∅ (c_Udf c1)) !! udf_key name v = Some v ∧
  (udf_key name v ≠ udf_key name' v' → (default ∅ (c_Udf c2)) !! udf_key name v = Some v) ∧
  c_Aspects c2 = c_Aspects c ∧ c_Properties c2 = c_Properties c.
Proof.
  simpl. rewrite lookup_insert_eq. repeat split. intros Hne.
  by rewrite lookup_insert_ne, lookup_insert_eq.
Qed.

Lemma RegisterUdf_lookup_witness :
  default ∅ (c_Udf (RegisterUdf "add" (VScript Lua (VString "l"))
      (RegisterUdf "add" (VScript Js (VString "j")) zeroConfig))) !! "Js#add"
  = Some (VScript Js (VString "j")).
Proof.
  apply (RegisterUdf_lookup "add" (VScript Js (VString "j")) "add" (VScript Lua (VString "l")) zeroConfig).
  discriminate.
Defined.
