(* ===== verification/Registry.v ===== *)
(** * Registries

    The component registry with its plugins ([src/registry.go]), the component
    slices the packages fill at start ([SafeComponentSlice] of
    [src/api/types/component.go]), the function registry of the [functions] node
    ([src/components/action/functions_node.go]) and the endpoint registry
    ([src/endpoint/registry.go]).

    A Go map that is nil reads as the empty map, so the lazily created maps are
    [gmap]s that start empty. *)

From S2P Require Import Prelude Value Msg.

(** What the registries use of [types.Node]. *)
Class NodeClass (Node : Type) : Type := {
  node_Type : Node → string;
  node_New : Node → Node
}.

Section Components.
Context {Node : Type} `{NC : NodeClass Node}.

(** ** [SafeComponentSlice] *)

Definition SafeComponentSlice_Add (nodes : list Node) (components : list Node) : list Node :=
  foldl (λ cs node, cs ++ [node]) components nodes.
Definition SafeComponentSlice_Components (components : list Node) : list Node := components.

(** ** [RuleComponentRegistry] *)

Record RuleComponentRegistry : Type := mkRegistry {
  r_components : gmap string Node;
  r_plugins : gmap string (list Node)
}.

Definition emptyRegistry : RuleComponentRegistry := mkRegistry ∅ ∅.

Definition err_exists (t : string) : string := "the component already exists. nodeType=" +:+ t.
Definition err_not_found (t : string) : string := "component not found.componentType=" +:+ t.

Definition Register (node : Node) (r : RuleComponentRegistry) : error * RuleComponentRegistry :=
  match r_components r !! node_Type node with
  | Some _ => (Some (err_exists (node_Type node)), r)
  | None => (None, mkRegistry (<[node_Type node := node]> (r_components r)) (r_plugins r))
  end.

(** The registration of the built-in components in [init]: errors are ignored. *)
Definition register_defaults (components : list Node) (r : RuleComponentRegistry) : RuleComponentRegistry :=
  foldl (λ r node, (Register node r).2) r components.

(** What [loadPlugin] uses of package [plugin]: opening a file, looking up a
    symbol, and the type of the symbol ([Some cs]: a [PluginRegistry] whose
    [Components()] is [cs]). *)
Variable plugin_Open : string → result (string → result (option (list Node))).

Definition PluginsSymbol : string := "Plugins".

Definition loadPlugin (file : string) : result (list Node) :=
  let? p := plugin_Open file in
  let? sym := p PluginsSymbol in
  match sym with
  | Some components => Ok components
  | None => Err "invalid plugin"
  end.

(** The builder of a plugin: its registry is nil until [Init] has loaded the file. *)
Record PluginComponentRegistry : Type := mkBuilder {
  pc_name : string;
  pc_file : string;
  pc_registry : option (list Node)
}.
Definition PluginComponentRegistry_Init (p : PluginComponentRegistry) : error * PluginComponentRegistry :=
  match loadPlugin (pc_file p) with
  | Err err => (Some err, p)
  | Ok pluginRegistry => (None, mkBuilder (pc_name p) (pc_file p) (Some pluginRegistry))
  end.
Definition PluginComponentRegistry_Components (p : PluginComponentRegistry) : list Node :=
  match pc_registry p with Some components => components | None => [] end.

(** The first loop of [RegisterPlugin]: the first component already present. *)
Fixpoint first_existing (components : list Node) (r : RuleComponentRegistry) : option string :=
  match components with
  | [] => None
  | node :: rest => match r_components r !! node_Type node with
                    | Some _ => Some (err_exists (node_Type node))
                    | None => first_existing rest r
                    end
  end.

(** The second loop: stops at the first error. *)
Fixpoint register_all (components : list Node) (r : RuleComponentRegistry) : error * RuleComponentRegistry :=
  match components with
  | [] => (None, r)
  | node :: rest => match Register node r with
                    | (Some err, r') => (Some err, r')
                    | (None, r') => register_all rest r'
                    end
  end.

Definition RegisterPlugin (name file : string) (r : RuleComponentRegistry) : error * RuleComponentRegistry :=
  match PluginComponentRegistry_Init (mkBuilder name file None) with
  | (Some err, _) => (Some err, r)
  | (None, builder) =>
      let components := PluginComponentRegistry_Components builder in
      match first_existing components r with
      | Some err => (Some err, r)
      | None =>
          match register_all components r with
          | (Some err, r') => (Some err, r')
          | (None, r') => (None, mkRegistry (r_components r') (<[name := components]> (r_plugins r')))
          end
      end
  end.

Definition delete_types (nodes : list Node) (m : gmap string Node) : gmap string Node :=
  foldl (λ m node, delete (node_Type node) m) m nodes.

Definition Unregister (componentType : string) (r : RuleComponentRegistry) : error * RuleComponentRegistry :=
  let '(removed, r) :=
    match r_plugins r !! componentType with
    | Some nodes => (true, mkRegistry (delete_types nodes (r_components r)) (delete componentType (r_plugins r)))
    | None => (false, r)
    end in
  let '(removed, r) :=
    match r_components r !! componentType with
    | Some _ => (true, mkRegistry (delete componentType (r_components r)) (r_plugins r))
    | None => (removed, r)
    end in
  (if (removed : bool) then None else Some (err_not_found componentType), r).

Definition NewNode (nodeType : string) (r : RuleComponentRegistry) : result Node :=
  match r_components r !! nodeType with
  | None => Err (err_not_found nodeType)
  | Some node => Ok (node_New node)
  end.

(** A fresh copy of the component map. *)
Definition GetComponents (r : RuleComponentRegistry) : gmap string Node :=
  map_fold (λ k v components, <[k := v]> components) ∅ (r_components r).

Lemma delete_types_lookup nodes (m : gmap string Node) t :
  delete_types nodes m !! t = if bool_decide (t ∈ node_Type <$> nodes) then None else m !! t.
Proof.
  unfold delete_types. revert m. induction nodes as [|n ns IH]; intros m; simpl; [done|].
  rewrite IH. destruct (decide (t = node_Type n)) as [->|Hne].
  - rewrite lookup_delete_eq. by repeat case_bool_decide; try set_solver.
  - rewrite lookup_delete_ne by done. repeat case_bool_decide; set_solver.
Qed.

Lemma find_type_None (cs : list Node) t :
  t ∉ (node_Type <$> cs) → list_find (λ n, node_Type n = t) cs = None.
Proof.
  intros Hcs. apply list_find_None, Forall_forall. intros n Hn <-. apply Hcs, list_elem_of_fmap. eauto.
Qed.

(** [register_all] of components with distinct, new types succeeds and adds them. *)
Lemma register_all_fresh components r :
  NoDup (node_Type <$> components) →
  Forall (λ n, r_components r !! node_Type n = None) components →
  ∃ r', register_all components r = (None, r') ∧ r_plugins r' = r_plugins r ∧
    (∀ t, r_components r' !! t =
       match list_find (λ n, node_Type n = t) components with
       | Some (_, n) => Some n
       | None => r_components r !! t
       end).
Proof.
  revert r. induction components as [|n cs IH]; intros r Hnd Hf; simpl; [eauto|].
  apply NoDup_cons in Hnd as [Hn Hnd]. apply Forall_cons in Hf as [Hn0 Hf].
  unfold Register. rewrite Hn0.
  destruct (IH (mkRegistry (<[node_Type n := n]> (r_components r)) (r_plugins r))) as (r' & E & Hp & Hl); [done| |].
  { rewrite Forall_forall in Hf |- *. intros m Hm. simpl. rewrite lookup_insert_ne; [auto|].
    intros Heq. apply Hn. rewrite Heq. apply list_elem_of_fmap. eauto. }
  exists r'. split; [done|]. split; [done|]. intros t. rewrite Hl; simpl.
  destruct (decide (node_Type n = t)) as [Ht|Ht].
  - subst t. rewrite find_type_None by done. by rewrite lookup_insert_eq.
  - destruct (list_find (λ m, node_Type m = t) cs) as [[? ?]|]; simpl; [done|].
    by rewrite lookup_insert_ne.
Qed.

Lemma first_existing_None components r :
  first_existing components r = None ↔ Forall (λ n, r_components r !! node_Type n = None) components.
Proof.
  induction components as [|n cs IH]; simpl; [split; [constructor|done]|].
  rewrite Forall_cons, <- IH. destruct (r_components r !! node_Type n); naive_solver.
Qed.

(** [Register] adds exactly one component and never replaces one: a known
    type is refused and leaves the registry as it was. *)
Theorem Register_spec node r :
  (is_Some (r_components r !! node_Type node) →
     Register node r = (Some (err_exists (node_Type node)), r)) ∧
  (r_components r !! node_Type node = None →
     (Register node r).1 = None ∧
     NewNode (node_Type node) (Register node r).2 = Ok (node_New node) ∧
     (∀ t, t ≠ node_Type node → NewNode t (Register node r).2 = NewNode t r)).
Proof.
  unfold Register, NewNode. split.
  - by intros [c ->].
  - intros ->. simpl. rewrite lookup_insert_eq. repeat split; [done..|].
    intros t Ht. by rewrite lookup_insert_ne.
Qed.

(** What a registry serves once components are added to it. *)
Definition offered (components : list Node) (r : RuleComponentRegistry) (t : string) : result Node :=
  match list_find (λ n, node_Type n = t) components with
  | Some (_, n) => Ok (node_New n)
  | None => NewNode t r
  end.
Definition is_new (r : RuleComponentRegistry) (n : Node) : Prop := r_components r !! node_Type n = None.

Lemma RegisterPlugin_loaded name file r components :
  loadPlugin file = Ok components → Forall (is_new r) components →
  RegisterPlugin name file r =
    match register_all components r with
    | (Some err, r') => (Some err, r')
    | (None, r') => (None, mkRegistry (r_components r') (<[name := components]> (r_plugins r')))
    end.
Proof.
  intros Hl Hf. unfold RegisterPlugin, PluginComponentRegistry_Init. cbn [pc_file]. rewrite Hl.
  cbn [PluginComponentRegistry_Components pc_registry]. by rewrite (proj2 (first_existing_None _ _) Hf).
Qed.

Lemma first_existing_at r pre n post :
  Forall (is_new r) pre → is_Some (r_components r !! node_Type n) →
  first_existing (pre ++ n :: post) r = Some (err_exists (node_Type n)).
Proof.
  intros Hf [x Hx]. induction Hf as [|m pre Hm _ IH]; simpl; [by rewrite Hx|]. unfold is_new in Hm. by rewrite Hm.
Qed.

Lemma register_all_app l1 l2 r r' : register_all l1 r = (None, r') → register_all (l1 ++ l2) r = register_all l2 r'.
Proof.
  revert r. induction l1 as [|n l1 IH]; intros r H; simplify_eq/=; [done|].
  destruct (Register n r) as [[err|] r1]; [done|]. by apply IH.
Qed.

Lemma Unregister_plugin name r r' components :
  Forall (is_new r) components → r_plugins r !! name = None → r_components r !! name = None → name ∉ (node_Type <$> components) →
  r_plugins r' = <[name := components]> (r_plugins r) →
  (∀ t, r_components r' !! t = match list_find (λ n, node_Type n = t) components with
                               | Some (_, n) => Some n | None => r_components r !! t end) →
  Unregister name r' = (None, r).
Proof.
  intros Hf Hp Hname Hnin Hp' Hl. unfold Unregister. rewrite Hp', lookup_insert_eq. cbn [r_components r_plugins].
  rewrite delete_types_lookup, bool_decide_false by done. rewrite Hl, find_type_None by done.
  rewrite Hname, delete_insert_id by done. f_equal.
  destruct r as [cs ps]; simpl in *. f_equal. apply map_eq. intros t.
  rewrite delete_types_lookup, Hl. case_bool_decide as Ht.
  - apply list_elem_of_fmap in Ht as (n & -> & Hn). rewrite Forall_forall in Hf. by rewrite (Hf n Hn).
  - by rewrite find_type_None.
Qed.


(** The interface documents that loading a plugin under a used name is an
    error; the code accepts it and overwrites the entry, so the components of the
    first plugin can no longer be removed through the plugin name. *)
Theorem RegisterPlugin_name_reused name file1 file2 r cs1 cs2 :
  loadPlugin file1 = Ok cs1 → loadPlugin file2 = Ok cs2 →
  NoDup (node_Type <$> (cs1 ++ cs2)) →
  Forall (λ n, r_components r !! node_Type n = None) (cs1 ++ cs2) →
  name ∉ (node_Type <$> (cs1 ++ cs2)) → r_components r !! name = None →
  ∃ r1 r2 r3,
    RegisterPlugin name file1 r = (None, r1) ∧ RegisterPlugin name file2 r1 = (None, r2) ∧
    Unregister name r2 = (None, r3) ∧ r_plugins r3 !! name = None ∧
    Forall (λ n, NewNode (node_Type n) r3 = NewNode (node_Type n) r1) cs1.
Proof.
  intros H1 H2 Hnd Hf Hnin Hname.
  rewrite fmap_app in Hnd, Hnin. apply NoDup_app in Hnd as (Hnd1 & Hdisj & Hnd2).
  apply Forall_app in Hf as [Hf1 Hf2].
  destruct (register_all_fresh cs1 r Hnd1 Hf1) as (r1 & E1 & Hp1 & Hl1).
  set (r1' := mkRegistry (r_components r1) (<[name := cs1]> (r_plugins r1))).
  assert (Forall (λ n, r_components r1' !! node_Type n = None) cs2) as Hf2'.
  { rewrite Forall_forall in Hf2 |- *. intros n Hn. simpl. rewrite Hl1, find_type_None; [auto|].
    intros ?. apply (Hdisj (node_Type n)); [done|]. apply list_elem_of_fmap; eauto. }
  destruct (register_all_fresh cs2 r1' Hnd2 Hf2') as (r2 & E2 & Hp2 & Hl2).
  eexists r1', (mkRegistry (r_components r2) (<[name := cs2]> (r_plugins r2))), _.
  unfold RegisterPlugin, PluginComponentRegistry_Init. simpl. rewrite H1, H2. cbn [PluginComponentRegistry_Components pc_registry]. rewrite (proj2 (first_existing_None _ _) Hf1), E1.
  fold r1'. rewrite (proj2 (first_existing_None _ _) Hf2'), E2.
  split; [done|]. split; [done|]. unfold Unregister; simpl.
  rewrite lookup_insert_eq; simpl. rewrite delete_types_lookup, bool_decide_false by set_solver.
  assert (r_components r2 !! name = None) as ->.
  { rewrite Hl2. simpl. by rewrite Hl1, !find_type_None by set_solver. }
  split; [done|]. simpl. split; [by rewrite lookup_delete_eq|].
  apply Forall_forall. intros n Hn. unfold NewNode; simpl.
  assert (node_Type n ∉ (node_Type <$> cs2)) as Hn2.
  { intros ?. apply (Hdisj (node_Type n)); [apply list_elem_of_fmap; eauto|done]. }
  rewrite delete_types_lookup, bool_decide_false by done. by rewrite Hl2, find_type_None.
Qed.

End Components.

(** ** [FunctionsRegistry] *)

Section Functions.
Context {F : Type}.

Definition FunctionsRegistry_Register (functionName : string) (f : F) (x : gmap string F) : gmap string F :=
  <[functionName := f]> x.
Definition FunctionsRegistry_UnRegister (functionName : string) (x : gmap string F) : gmap string F :=
  delete functionName x.
Definition FunctionsRegistry_Get (functionName : string) (x : gmap string F) : option F :=
  x !! functionName.

End Functions.

(** ** Endpoint registry: [endpoint.ComponentRegistry] *)

Section Endpoints.
Context {Endpoint Cfg : Type} `{NC : NodeClass Endpoint}.

(** [Init] of a new endpoint instance, and [maps.Map2Struct] of a configuration
    that is not a [types.Configuration] (both outside this component). *)
Variable ep_Init : Endpoint → list (string * value) → result Endpoint.
Variable Map2Configuration : Cfg → result (list (string * value)).

Definition ep_exists (t : string) : string := "the component already exists. type=" +:+ t.
Definition ep_not_found (t : string) : string := "component not found. type=" +:+ t.

Definition EndpointRegistry_Register (ep : Endpoint) (r : gmap string Endpoint) : error * gmap string Endpoint :=
  match r !! node_Type ep with
  | Some _ => (Some (ep_exists (node_Type ep)), r)
  | None => (None, <[node_Type ep := ep]> r)
  end.

Definition EndpointRegistry_Unregister (t : string) (r : gmap string Endpoint) : error * gmap string Endpoint :=
  match r !! t with
  | Some _ => (None, delete t r)
  | None => (Some (ep_not_found t), r)
  end.

(** [configuration] is nil, a [types.Configuration], or another value. *)
Inductive ep_configuration : Type :=
| CfgNil
| CfgMap (m : list (string * value))
| CfgOther (c : Cfg).

Definition EndpointRegistry_New (componentType : string) (configuration : ep_configuration)
    (r : gmap string Endpoint) : result Endpoint :=
  match r !! componentType with
  | None => Err (ep_not_found componentType)
  | Some node =>
      let? config := match configuration with
                     | CfgNil => Ok []
                     | CfgMap c => Ok c
                     | CfgOther c => Map2Configuration c
                     end in
      ep_Init (node_New node) config
  end.

End Endpoints.

(** ** Witnesses *)

Module RegistryExample.
Record comp := { comp_type : string; comp_gen : nat }.
#[local] Instance comp_class : NodeClass comp :=
  {| node_Type := comp_type; node_New := λ c, Build_comp (comp_type c) (S (comp_gen c)) |}.
Definition a1 : comp := Build_comp "p/a" 0.
Definition b1 : comp := Build_comp "p/b" 0.
Definition c1 : comp := Build_comp "q/c" 0.
Definition open (file : string) : result (string → result (option (list comp))) :=
  if bool_decide (file = "p.so") then Ok (λ _, Ok (Some [a1; b1]))
  else if bool_decide (file = "q.so") then Ok (λ _, Ok (Some [c1]))
  else if bool_decide (file = "dup.so") then Ok (λ _, Ok (Some [a1; Build_comp "p/a" 7]))
  else Err "no such file".

Lemma Register_spec_witness :
  Register a1 (Register a1 emptyRegistry).2 =
    (Some (err_exists "p/a"), (Register a1 emptyRegistry).2) ∧
  NewNode "p/b" (Register b1 emptyRegistry).2 = Ok (node_New b1).
Proof.
  destruct (Register_spec a1 (Register a1 emptyRegistry).2) as [H1 _].
  destruct (Register_spec b1 emptyRegistry) as [_ H2].
  split.
  - apply H1. exists a1. reflexivity.
  - apply H2. reflexivity.
Defined.


Lemma RegisterPlugin_name_reused_witness :
  ∃ r1 r2 r3 : RuleComponentRegistry,
    RegisterPlugin open "p" "p.so" emptyRegistry = (None, r1) ∧
    RegisterPlugin open "p" "q.so" r1 = (None, r2) ∧
    Unregister "p" r2 = (None, r3) ∧ r_plugins r3 !! "p" = None ∧
    Forall (λ n, NewNode (node_Type n) r3 = NewNode (node_Type n) r1) [a1; b1].
Proof.
  apply (RegisterPlugin_name_reused open "p" "p.so" "q.so" emptyRegistry [a1; b1] [c1]);
    first [reflexivity | by_decide | repeat constructor].
Defined.

End RegistryExample.
