(* ===== verification/Dsl.v ===== *)
(** * Rule chain definitions (the DSL structures of [src/dsl.go])

    [RuleMetadata.Nodes] is a slice of pointers: the type of its elements is a
    parameter, [RuleNode] for a definition as it is parsed and printed, an
    address for one that is loaded.  The flags [md_NodesNil] and [md_ConnectionsNil] say
    that a slice is nil and not just empty: the encoder tells them apart.  The maps and
    the slice that are left out of the text when they are empty need no such flag. *)

From S2P Require Import Prelude Value Msg.

Abbreviation Configuration := (gmap string value).

Record NodeAdditionalInfo : Type := mkAdditionalInfo {
  ai_Description : string;
  ai_LayoutX : Z;
  ai_LayoutY : Z
}.

Record RuleNode : Type := mkRuleNode {
  n_Id : string;
  n_AdditionalInfo : NodeAdditionalInfo;
  n_Type : string;
  n_Name : string;
  n_DebugMode : bool;
  n_Configuration : option Configuration
}.

Record NodeConnection : Type := mkConnection {
  nc_FromId : string;
  nc_ToId : string;
  nc_Type : string
}.

Record RuleChainConnection : Type := mkChainConnection {
  rc_FromId : string;
  rc_ToId : string;
  rc_Type : string
}.

Record RuleMetadata (N : Type) : Type := mkRuleMetadata {
  md_FirstNodeIndex : Z;
  md_Nodes : list N;
  md_Connections : list NodeConnection;
  md_RuleChainConnections : list RuleChainConnection;
  md_NodesNil : bool;
  md_ConnectionsNil : bool
}.
Arguments mkRuleMetadata {N}.
Arguments md_FirstNodeIndex {N}. Arguments md_Nodes {N}.
Arguments md_Connections {N}. Arguments md_RuleChainConnections {N}.
Arguments md_NodesNil {N}. Arguments md_ConnectionsNil {N}.

Record RuleChainBaseInfo : Type := mkBaseInfo {
  bi_ID : string;
  bi_AdditionalInfo : option (gmap string string);
  bi_Name : string;
  bi_DebugMode : bool;
  bi_Root : bool;
  bi_Configuration : option Configuration
}.

Record RuleChain (N : Type) : Type := mkRuleChain {
  rc_RuleChain : RuleChainBaseInfo;
  rc_Metadata : RuleMetadata N
}.
Arguments mkRuleChain {N}.
Arguments rc_RuleChain {N}. Arguments rc_Metadata {N}.

(** The definition as text sees it. *)
Abbreviation RuleChainDef := (RuleChain RuleNode).
(** A definition as the decoder leaves it: a node that is [null] in the text is a nil
    pointer. *)
Abbreviation ParsedChain := (RuleChain (option RuleNode)).

Definition RuleChain_map {N N'} (f : list N → list N') (c : RuleChain N) : RuleChain N' :=
  mkRuleChain (rc_RuleChain c)
    (mkRuleMetadata (md_FirstNodeIndex (rc_Metadata c)) (f (md_Nodes (rc_Metadata c)))
       (md_Connections (rc_Metadata c)) (md_RuleChainConnections (rc_Metadata c))
       (md_NodesNil (rc_Metadata c)) (md_ConnectionsNil (rc_Metadata c))).

Definition set_n_Id (id : string) (n : RuleNode) : RuleNode :=
  mkRuleNode id (n_AdditionalInfo n) (n_Type n) (n_Name n) (n_DebugMode n) (n_Configuration n).
Definition set_n_Configuration (c : option Configuration) (n : RuleNode) : RuleNode :=
  mkRuleNode (n_Id n) (n_AdditionalInfo n) (n_Type n) (n_Name n) (n_DebugMode n) c.

(** ** Nil nodes *)

Fixpoint all_some {A} (l : list (option A)) : option (list A) :=
  match l with
  | [] => Some []
  | None :: _ => None
  | Some a :: l => r ← all_some l; Some (a :: r)
  end.
(** The definition, when none of its nodes is nil. *)
Definition present (d : ParsedChain) : option RuleChainDef :=
  ns ← all_some (md_Nodes (rc_Metadata d)); Some (RuleChain_map (λ _, ns) d).
Definition some_nodes (d : RuleChainDef) : ParsedChain := RuleChain_map (fmap Some) d.

Lemma all_some_fmap {A} (l : list (option A)) r : all_some l = Some r → l = Some <$> r.
Proof.
  revert r. induction l as [|[a|] l IH]; intros r H; simplify_eq/=; [done|].
  destruct (all_some l) as [r'|]; simplify_eq/=. by rewrite (IH r').
Qed.
Lemma all_some_of_fmap {A} (l : list A) : all_some (Some <$> l) = Some l.
Proof. induction l as [|a l IH]; [done|]. csimpl. by rewrite IH. Qed.

Lemma present_some d d' : present d = Some d' → d = some_nodes d'.
Proof.
  unfold present. destruct (all_some (md_Nodes (rc_Metadata d))) as [ns|] eqn:E; [|done]. simpl. intros [= <-].
  apply all_some_fmap in E. destruct d as [b [f l cs ccs nn cn]]. unfold some_nodes, RuleChain_map. simpl in *. by rewrite E.
Qed.
Lemma present_some_nodes d : present (some_nodes d) = Some d.
Proof.
  destruct d as [b [f l cs ccs nn cn]]. unfold present, some_nodes, RuleChain_map. simpl. by rewrite all_some_of_fmap.
Qed.
#[global] Instance some_nodes_inj : Inj (=) (=) some_nodes.
Proof. intros d d' H. apply (f_equal present) in H. rewrite !present_some_nodes in H. by simplify_eq. Qed.
