(* ===== verification/World.v ===== *)
(** * The objects of a running program and the monad of its control operations

    The control side of the engine (loading, reloading and stopping chains)
    shares objects by pointer: node definitions, node contexts, chain contexts,
    engines and pools are addresses into a [World].  Operations that return an
    error or panic keep the changes made before. *)

From S2P Require Import Prelude Value Msg Config Dsl.

(** The outcome of a call: it returns a value, returns an error, or panics. *)
Inductive res (A : Type) : Type :=
| ROk (a : A)
| RErr (e : string)
| RPanic (why : string).
#[global] Arguments ROk {A} a.
#[global] Arguments RErr {A} e.
#[global] Arguments RPanic {A} why.

Definition res_bind {A B} (r : res A) (k : A → res B) : res B :=
  match r with ROk a => k a | RErr e => RErr e | RPanic why => RPanic why end.
Definition to_res {A} (r : result A) : res A := match r with Ok a => ROk a | Err e => RErr e end.
Definition is_done {A} (r : res A) : bool := match r with ROk _ => true | _ => false end.
Notation "'let!' x ':=' m 'in' k" := (res_bind m (fun x => k))
  (at level 200, x name, m at level 100, k at level 200) : go_scope.

Lemma res_bind_ok {A B} (r : res A) (k : A → res B) b : res_bind r k = ROk b → ∃ a, r = ROk a ∧ k a = ROk b.
Proof. destruct r; simpl; naive_solver. Qed.

(** A component instance, with what the engine calls of it: [NewNode] of the
    configured registry, [Init] and (for [OnMsg]) see [RuleCtx].  [Init] works on
    the fresh instance and yields its initialised state or an error, or panics. *)
Class Components : Type := {
  Comp : Type;
  comp_NewNode : option RegistryRef → string → result Comp;
  comp_Init : Config → Configuration → Comp → res Comp
}.

Section World.
Context `{C : Components}.

(** [types.NodeCtx]: a pointer to a node context or to a chain context. *)
Inductive NodeRef : Type :=
| NCnode (p : nat)
| NCchain (p : nat).

#[global] Instance NodeRef_EqDecision : EqDecision NodeRef.
Proof. solve_decision. Defined.

Record RuleNodeCtx : Type := mkNodeCtx {
  nx_Node : Comp;
  nx_SelfDefinition : nat;
  nx_Config : Config
}.

(** The fields of [DefaultRuleContext] that the stored root context carries. *)
Record RootRuleContext : Type := mkRootCtx {
  rx_config : Config;
  rx_ruleChainCtx : nat;
  rx_self : NodeRef;
  rx_pool : option PoolRef
}.

Record RuleChainCtx : Type := mkChainCtx {
  cx_Id : RuleNodeId;
  cx_SelfDefinition : RuleChain nat;
  cx_Config : Config;
  cx_initialized : bool;
  cx_componentsRegistry : option RegistryRef;
  cx_nodeIds : list RuleNodeId;
  cx_nodes : gmap RuleNodeId nat;
  cx_nodeRoutes : gmap RuleNodeId (list RuleNodeRelation);
  cx_relationCache : gmap (RuleNodeId * string) (list NodeRef);
  cx_rootRuleContext : option RootRuleContext;
  cx_ruleChainPool : option nat;
  cx_reloadAspects : list Aspect;
  cx_destroyAspects : list Aspect
}.

Record RuleEngine : Type := mkEngine {
  e_Id : string;
  e_Config : Config;
  e_RuleChainPool : option nat;
  e_rootRuleChainCtx : option nat;
  e_startAspects : list Aspect;
  e_endAspects : list Aspect;
  e_completedAspects : list Aspect
}.

(** What an observer of the control operations sees: components destroyed,
    aspects called, log lines. *)
Inductive Event : Type :=
| EvDestroy (c : Comp)
| EvOnCreated (a : Aspect) (chain : nat)
| EvOnReload (a : Aspect) (parent : NodeRef) (ctx : NodeRef) (err : error)
| EvOnDestroy (a : Aspect) (chain : nat)
| EvLog (text : string).

Record World : Type := mkWorld {
  w_defs : gmap nat RuleNode;
  w_nodes : gmap nat RuleNodeCtx;
  w_chains : gmap nat RuleChainCtx;
  w_engines : gmap nat RuleEngine;
  w_pools : gmap nat (gmap string nat);
  w_next : nat;
  w_log : list Event
}.

(** The address of [rulego.DefaultRuleGo]. *)
Definition DefaultRuleGo : nat := 0.

Definition initialWorld : World := mkWorld ∅ ∅ ∅ ∅ {[DefaultRuleGo := ∅]} 1 [].

(** ** The monad *)

Definition M (A : Type) : Type := World → res A * World.

Definition ret {A} (a : A) : M A := λ w, (ROk a, w).
Definition fail {A} (e : string) : M A := λ w, (RErr e, w).
Definition panic {A} (why : string) : M A := λ w, (RPanic why, w).
Definition bind {A B} (m : M A) (k : A → M B) : M B := λ w,
  match m w with
  | (ROk a, w') => k a w'
  | (RErr e, w') => (RErr e, w')
  | (RPanic p, w') => (RPanic p, w')
  end.
(** Run [m] and hand its error, if any, to [k] ([v, err := m]; a panic unwinds). *)
Definition try {A B} (m : M A) (k : result A → M B) : M B := λ w,
  match m w with
  | (ROk a, w') => k (Ok a) w'
  | (RErr e, w') => k (Err e) w'
  | (RPanic p, w') => (RPanic p, w')
  end.
Definition of_result {A} (r : result A) : M A :=
  match r with Ok a => ret a | Err e => fail e end.
Definition of_res {A} (r : res A) : M A := λ w, (r, w).
Definition get_world : M World := λ w, (ROk w, w).

End World.

Notation "'do' x <- m ;; k" := (bind m (fun x => k))
  (at level 100, x name, m at level 99, k at level 200, right associativity) : go_scope.
Notation "'do_' m ;; k" := (bind m (fun _ => k))
  (at level 100, m at level 99, k at level 200, right associativity) : go_scope.

Section Heap.
Context `{C : Components}.

Definition deref_or_panic {A} (o : option A) : M A :=
  match o with Some a => ret a | None => panic "nil pointer dereference" end.

Definition alloc : M nat := λ w,
  (ROk (w_next w), mkWorld (w_defs w) (w_nodes w) (w_chains w) (w_engines w) (w_pools w) (S (w_next w)) (w_log w)).

Definition get_def (p : nat) : M RuleNode := λ w, deref_or_panic (w_defs w !! p) w.
Definition put_def (p : nat) (d : RuleNode) : M unit := λ w,
  (ROk tt, mkWorld (<[p := d]> (w_defs w)) (w_nodes w) (w_chains w) (w_engines w) (w_pools w) (w_next w) (w_log w)).
Definition del_def (p : nat) : M unit := λ w,
  (ROk tt, mkWorld (delete p (w_defs w)) (w_nodes w) (w_chains w) (w_engines w) (w_pools w) (w_next w) (w_log w)).

Definition get_node (p : nat) : M RuleNodeCtx := λ w, deref_or_panic (w_nodes w !! p) w.
Definition put_node (p : nat) (n : RuleNodeCtx) : M unit := λ w,
  (ROk tt, mkWorld (w_defs w) (<[p := n]> (w_nodes w)) (w_chains w) (w_engines w) (w_pools w) (w_next w) (w_log w)).

Definition get_chain (p : nat) : M RuleChainCtx := λ w, deref_or_panic (w_chains w !! p) w.
Definition put_chain (p : nat) (c : RuleChainCtx) : M unit := λ w,
  (ROk tt, mkWorld (w_defs w) (w_nodes w) (<[p := c]> (w_chains w)) (w_engines w) (w_pools w) (w_next w) (w_log w)).

Definition get_engine (p : nat) : M RuleEngine := λ w, deref_or_panic (w_engines w !! p) w.
Definition put_engine (p : nat) (e : RuleEngine) : M unit := λ w,
  (ROk tt, mkWorld (w_defs w) (w_nodes w) (w_chains w) (<[p := e]> (w_engines w)) (w_pools w) (w_next w) (w_log w)).

Definition get_pool (p : nat) : M (gmap string nat) := λ w, deref_or_panic (w_pools w !! p) w.
Definition put_pool (p : nat) (g : gmap string nat) : M unit := λ w,
  (ROk tt, mkWorld (w_defs w) (w_nodes w) (w_chains w) (w_engines w) (<[p := g]> (w_pools w)) (w_next w) (w_log w)).

Definition emit (ev : Event) : M unit := λ w,
  (ROk tt, mkWorld (w_defs w) (w_nodes w) (w_chains w) (w_engines w) (w_pools w) (w_next w) (w_log w ++ [ev])).

Fixpoint mapM_ {A} (f : A → M unit) (l : list A) : M unit :=
  match l with [] => ret tt | x :: l' => do_ f x ;; mapM_ f l' end.

Fixpoint mapM {A B} (f : A → M B) (l : list A) : M (list B) :=
  match l with
  | [] => ret []
  | x :: l' => do y <- f x ;; do ys <- mapM f l' ;; ret (y :: ys)
  end.

End Heap.

(** ** Reasoning about the monad *)

Section Laws.
Context `{C : Components}.

Lemma bind_ok_inv {A B} (m : M A) (k : A → M B) w b w' :
  bind m k w = (ROk b, w') → ∃ a w1, m w = (ROk a, w1) ∧ k a w1 = (ROk b, w').
Proof. unfold bind. destruct (m w) as [[] ?]; naive_solver. Qed.

Lemma bind_err_inv {A B} (m : M A) (k : A → M B) w e w' :
  bind m k w = (RErr e, w') →
  m w = (RErr e, w') ∨ ∃ a w1, m w = (ROk a, w1) ∧ k a w1 = (RErr e, w').
Proof. unfold bind. destruct (m w) as [[] ?]; naive_solver. Qed.

Lemma bind_ok {A B} (m : M A) (k : A → M B) w a w1 :
  m w = (ROk a, w1) → bind m k w = k a w1.
Proof. unfold bind. by intros ->. Qed.

Lemma bind_bind {A B D} (m : M A) (k : A → M B) (h : B → M D) w :
  bind (bind m k) h w = bind m (λ a, bind (k a) h) w.
Proof. unfold bind. by destruct (m w) as [[] ?]. Qed.

Lemma get_def_ok p w d : get_def p w = (ROk d, w) ↔ w_defs w !! p = Some d.
Proof. unfold get_def, deref_or_panic. destruct (w_defs w !! p); unfold ret, panic; split; intros; by simplify_eq. Qed.
Lemma get_node_ok p w n : get_node p w = (ROk n, w) ↔ w_nodes w !! p = Some n.
Proof. unfold get_node, deref_or_panic. destruct (w_nodes w !! p); unfold ret, panic; split; intros; by simplify_eq. Qed.
Lemma get_chain_ok p w c : get_chain p w = (ROk c, w) ↔ w_chains w !! p = Some c.
Proof. unfold get_chain, deref_or_panic. destruct (w_chains w !! p); unfold ret, panic; split; intros; by simplify_eq. Qed.
Lemma get_engine_ok p w c : get_engine p w = (ROk c, w) ↔ w_engines w !! p = Some c.
Proof. unfold get_engine, deref_or_panic. destruct (w_engines w !! p); unfold ret, panic; split; intros; by simplify_eq. Qed.
Lemma get_pool_ok p w c : get_pool p w = (ROk c, w) ↔ w_pools w !! p = Some c.
Proof. unfold get_pool, deref_or_panic. destruct (w_pools w !! p); unfold ret, panic; split; intros; by simplify_eq. Qed.

Lemma deref_inv {A} (o : option A) w a w' :
  deref_or_panic o w = (ROk a, w') → o = Some a ∧ w' = w.
Proof. destruct o; unfold deref_or_panic, ret, panic; naive_solver. Qed.
Lemma deref_no_err {A} (o : option A) w e w' : deref_or_panic o w = (RErr e, w') → False.
Proof. destruct o; unfold deref_or_panic, ret, panic; naive_solver. Qed.

Lemma of_result_inv {A} (r : result A) w a w' :
  of_result r w = (ROk a, w') → r = Ok a ∧ w' = w.
Proof. destruct r; unfold of_result, ret, fail; naive_solver. Qed.
Lemma of_result_err_inv {A} (r : result A) w e w' :
  of_result r w = (RErr e, w') → r = Err e ∧ w' = w.
Proof. destruct r; unfold of_result, ret, fail; naive_solver. Qed.

Lemma mapM_app {A B} (f : A → M B) l1 l2 w :
  mapM f (l1 ++ l2) w = bind (mapM f l1) (λ ys, bind (mapM f l2) (λ zs, ret (ys ++ zs))) w.
Proof.
  revert w. induction l1 as [|x l1 IH]; intros w; simpl.
  - unfold bind, ret. by destruct (mapM f l2 w) as [[] ?].
  - unfold bind in *. destruct (f x w) as [[a| |] w1]; [|done|done]. rewrite IH.
    destruct (mapM f l1 w1) as [[ys| |] w2]; [|done|done]. simpl.
    by destruct (mapM f l2 w2) as [[zs| |] w3].
Qed.

(** *** Running a computation *)

Lemma bind_ret {A B} (a : A) (k : A → M B) w : bind (ret a) k w = k a w.
Proof. done. Qed.
Lemma bind_of_Ok {A B} (a : A) (k : A → M B) w : bind (of_result (Ok a)) k w = k a w.
Proof. done. Qed.
Lemma bind_of_Err {A B} e (k : A → M B) w : bind (of_result (Err e)) k w = (RErr e, w).
Proof. done. Qed.
Lemma bind_of_ROk {A B} (a : A) (k : A → M B) w : bind (of_res (ROk a)) k w = k a w.
Proof. done. Qed.
Lemma bind_of_RErr {A B} e (k : A → M B) w : bind (of_res (RErr e)) k w = (RErr e, w).
Proof. done. Qed.
Lemma bind_of_RPanic {A B} why (k : A → M B) w : bind (of_res (RPanic why)) k w = (RPanic why, w).
Proof. done. Qed.
Lemma bind_deref_Some {A B} (a : A) (k : A → M B) w : bind (deref_or_panic (Some a)) k w = k a w.
Proof. done. Qed.
Lemma bind_alloc {B} (k : nat → M B) w :
  bind alloc k w = k (w_next w) (mkWorld (w_defs w) (w_nodes w) (w_chains w) (w_engines w) (w_pools w) (S (w_next w)) (w_log w)).
Proof. done. Qed.
Lemma bind_put_def {B} p d (k : unit → M B) w :
  bind (put_def p d) k w = k tt (mkWorld (<[p := d]> (w_defs w)) (w_nodes w) (w_chains w) (w_engines w) (w_pools w) (w_next w) (w_log w)).
Proof. done. Qed.
Lemma bind_put_node {B} p d (k : unit → M B) w :
  bind (put_node p d) k w = k tt (mkWorld (w_defs w) (<[p := d]> (w_nodes w)) (w_chains w) (w_engines w) (w_pools w) (w_next w) (w_log w)).
Proof. done. Qed.
Lemma bind_put_chain {B} p d (k : unit → M B) w :
  bind (put_chain p d) k w = k tt (mkWorld (w_defs w) (w_nodes w) (<[p := d]> (w_chains w)) (w_engines w) (w_pools w) (w_next w) (w_log w)).
Proof. done. Qed.
Lemma bind_put_engine {B} p d (k : unit → M B) w :
  bind (put_engine p d) k w = k tt (mkWorld (w_defs w) (w_nodes w) (w_chains w) (<[p := d]> (w_engines w)) (w_pools w) (w_next w) (w_log w)).
Proof. done. Qed.
Lemma bind_put_pool {B} p d (k : unit → M B) w :
  bind (put_pool p d) k w = k tt (mkWorld (w_defs w) (w_nodes w) (w_chains w) (w_engines w) (<[p := d]> (w_pools w)) (w_next w) (w_log w)).
Proof. done. Qed.
Lemma bind_emit {B} ev (k : unit → M B) w :
  bind (emit ev) k w = k tt (mkWorld (w_defs w) (w_nodes w) (w_chains w) (w_engines w) (w_pools w) (w_next w) (w_log w ++ [ev])).
Proof. done. Qed.
Lemma bind_get_def {B} p d (k : RuleNode → M B) w : w_defs w !! p = Some d → bind (get_def p) k w = k d w.
Proof. intros H. unfold bind, get_def. by rewrite H. Qed.
Lemma bind_get_node {B} p d (k : RuleNodeCtx → M B) w : w_nodes w !! p = Some d → bind (get_node p) k w = k d w.
Proof. intros H. unfold bind, get_node. by rewrite H. Qed.
Lemma bind_get_chain {B} p d (k : RuleChainCtx → M B) w : w_chains w !! p = Some d → bind (get_chain p) k w = k d w.
Proof. intros H. unfold bind, get_chain. by rewrite H. Qed.
Lemma bind_get_engine {B} p d (k : RuleEngine → M B) w : w_engines w !! p = Some d → bind (get_engine p) k w = k d w.
Proof. intros H. unfold bind, get_engine. by rewrite H. Qed.
Lemma bind_get_pool {B} p d (k : gmap string nat → M B) w : w_pools w !! p = Some d → bind (get_pool p) k w = k d w.
Proof. intros H. unfold bind, get_pool. by rewrite H. Qed.

(** *** Frames

    [untouched base w w']: from [w] to [w'] nothing below address [base] changed
    (engines and pools not at all), and nothing was observed. *)
Definition untouched (base : nat) (w w' : World) : Prop :=
  (∀ p, p < base → w_defs w' !! p = w_defs w !! p ∧ w_nodes w' !! p = w_nodes w !! p
                    ∧ w_chains w' !! p = w_chains w !! p) ∧
  w_engines w' = w_engines w ∧ w_pools w' = w_pools w ∧ w_log w' = w_log w ∧
  w_next w ≤ w_next w'.

Lemma untouched_refl base w : untouched base w w.
Proof. repeat split; auto. Qed.
Lemma untouched_trans base w1 w2 w3 :
  untouched base w1 w2 → untouched base w2 w3 → untouched base w1 w3.
Proof.
  intros (HA & ? & ? & ? & ?) (HB & ? & ? & ? & ?).
  split_and!; try congruence; try lia.
  intros p Hp. destruct (HA p Hp) as (? & ? & ?), (HB p Hp) as (? & ? & ?). split_and!; congruence.
Qed.

(** A computation that, run with the allocator at or above [base], only touches
    addresses from [base] on, whatever its outcome. *)
Definition fresh_only {A} (base : nat) (m : M A) : Prop :=
  ∀ w, base ≤ w_next w → untouched base w (m w).2.

Lemma fresh_ret {A} base (a : A) : fresh_only base (ret a).
Proof. intros w _. apply untouched_refl. Qed.
Lemma fresh_fail {A} base e : fresh_only base (@fail _ A e).
Proof. intros w _. apply untouched_refl. Qed.
Lemma fresh_panic {A} base e : fresh_only base (@panic _ A e).
Proof. intros w _. apply untouched_refl. Qed.
Lemma fresh_bind {A B} base (m : M A) (k : A → M B) :
  fresh_only base m → (∀ a, fresh_only base (k a)) → fresh_only base (bind m k).
Proof.
  intros Hm Hk w Hw. unfold bind. specialize (Hm w Hw). destruct (m w) as [[a| |] w1]; [|done|done].
  simpl in *. eapply untouched_trans; [done|]. apply Hk.
  destruct Hm as (_ & _ & _ & _ & ?). lia.
Qed.
Lemma fresh_alloc {B} base (k : nat → M B) :
  (∀ p, base ≤ p → fresh_only base (k p)) → fresh_only base (bind alloc k).
Proof.
  intros Hk w Hw. unfold bind, alloc. simpl.
  eapply untouched_trans; [|apply Hk; simpl; lia]. repeat split; simpl; auto.
Qed.
Lemma fresh_of_result {A} base (r : result A) : fresh_only base (of_result r).
Proof. destruct r; [apply fresh_ret|apply fresh_fail]. Qed.
Lemma fresh_of_res {A} base (r : res A) : fresh_only base (of_res r).
Proof. intros w _. apply untouched_refl. Qed.
Lemma fresh_deref {A} base (o : option A) : fresh_only base (deref_or_panic o).
Proof. destruct o; [apply fresh_ret|apply fresh_panic]. Qed.
Lemma fresh_get_def base p : fresh_only base (get_def p).
Proof. intros w ?. unfold get_def. by apply fresh_deref. Qed.
Lemma fresh_get_node base p : fresh_only base (get_node p).
Proof. intros w ?. unfold get_node. by apply fresh_deref. Qed.
Lemma fresh_get_chain base p : fresh_only base (get_chain p).
Proof. intros w ?. unfold get_chain. by apply fresh_deref. Qed.
Lemma fresh_get_pool base p : fresh_only base (get_pool p).
Proof. intros w ?. unfold get_pool. by apply fresh_deref. Qed.
Lemma fresh_get_engine base p : fresh_only base (get_engine p).
Proof. intros w ?. unfold get_engine. by apply fresh_deref. Qed.
Lemma fresh_put_def base p d : base ≤ p → fresh_only base (put_def p d).
Proof.
  intros Hp w ?. split_and!; simpl; auto. intros q Hq. rewrite lookup_insert_ne by lia. auto.
Qed.
Lemma fresh_del_def base p : base ≤ p → fresh_only base (del_def p).
Proof.
  intros Hp w ?. split_and!; simpl; auto. intros q Hq. rewrite lookup_delete_ne by lia. auto.
Qed.
Lemma fresh_put_node base p d : base ≤ p → fresh_only base (put_node p d).
Proof.
  intros Hp w ?. split_and!; simpl; auto. intros q Hq. rewrite lookup_insert_ne by lia. auto.
Qed.
Lemma fresh_put_chain base p d : base ≤ p → fresh_only base (put_chain p d).
Proof.
  intros Hp w ?. split_and!; simpl; auto. intros q Hq. rewrite lookup_insert_ne by lia. auto.
Qed.
Lemma fresh_mapM_ {A} base (f : A → M unit) l :
  (∀ x, x ∈ l → fresh_only base (f x)) → fresh_only base (mapM_ f l).
Proof.
  induction l as [|x l IH]; intros H; simpl; [apply fresh_ret|].
  apply fresh_bind; [apply H; set_solver|intros _; apply IH; set_solver].
Qed.

End Laws.

#[export] Hint Resolve fresh_ret fresh_fail fresh_panic fresh_of_result fresh_of_res fresh_deref
  fresh_get_def fresh_get_node fresh_get_chain fresh_get_pool fresh_get_engine
  fresh_put_def fresh_del_def fresh_put_node fresh_put_chain : heap.

(** Heap lookups through the writes made before. *)
Ltac heap_lookup :=
  simpl; repeat (rewrite lookup_insert_eq || rewrite lookup_insert_ne by (lia || congruence)); eassumption || reflexivity.

(** Run the computation on the goal's left-hand side. *)
Ltac run_step :=
  first
  [ rewrite bind_bind | rewrite bind_ret | rewrite bind_of_Ok | rewrite bind_of_Err
  | rewrite bind_of_ROk | rewrite bind_of_RErr | rewrite bind_of_RPanic | rewrite bind_deref_Some
  | rewrite bind_alloc | rewrite bind_put_def | rewrite bind_put_node | rewrite bind_put_chain
  | rewrite bind_put_engine | rewrite bind_put_pool | rewrite bind_emit
  | erewrite bind_get_def by heap_lookup | erewrite bind_get_node by heap_lookup
  | erewrite bind_get_chain by heap_lookup | erewrite bind_get_engine by heap_lookup
  | erewrite bind_get_pool by heap_lookup ].
Ltac run := repeat run_step.

(** Decompose a computation that is to touch only fresh addresses. *)
Ltac fresh_step :=
  match goal with
  | |- fresh_only _ (bind alloc _) => apply fresh_alloc; intros ? ?
  | |- fresh_only _ (bind _ _) => apply fresh_bind; [|intros ?]
  | |- fresh_only _ (match ?x with _ => _ end) => destruct x eqn:?
  | |- fresh_only _ _ => solve [eauto with heap]
  end.
Ltac fresh_all := repeat fresh_step.

(** Take apart [m w = (ROk a, w')] hypotheses. *)
Ltac inv_m :=
  repeat match goal with
  | H : bind _ _ _ = (ROk _, _) |- _ => apply bind_ok_inv in H as (? & ? & ? & H)
  | H : ret _ _ = (ROk _, _) |- _ => unfold ret in H; simplify_eq/=
  | H : of_result _ _ = (ROk _, _) |- _ => apply of_result_inv in H as [? ->]
  | H : get_def _ _ = (ROk _, _) |- _ => apply deref_inv in H as [? ->]
  | H : get_node _ _ = (ROk _, _) |- _ => apply deref_inv in H as [? ->]
  | H : get_chain _ _ = (ROk _, _) |- _ => apply deref_inv in H as [? ->]
  | H : get_engine _ _ = (ROk _, _) |- _ => apply deref_inv in H as [? ->]
  | H : get_pool _ _ = (ROk _, _) |- _ => apply deref_inv in H as [? ->]
  | H : deref_or_panic _ _ = (ROk _, _) |- _ => apply deref_inv in H as [? ->]
  | H : alloc _ = (ROk _, _) |- _ => unfold alloc in H; simplify_eq/=
  | H : put_def _ _ _ = (ROk _, _) |- _ => unfold put_def in H; simplify_eq/=
  | H : put_node _ _ _ = (ROk _, _) |- _ => unfold put_node in H; simplify_eq/=
  | H : put_chain _ _ _ = (ROk _, _) |- _ => unfold put_chain in H; simplify_eq/=
  | H : put_engine _ _ _ = (ROk _, _) |- _ => unfold put_engine in H; simplify_eq/=
  | H : put_pool _ _ _ = (ROk _, _) |- _ => unfold put_pool in H; simplify_eq/=
  | H : emit _ _ = (ROk _, _) |- _ => unfold emit in H; simplify_eq/=
  end.
