(* ===== verification/Node.v ===== *)
(** * Node contexts ([src/node.go]) *)

From S2P Require Import Prelude GoStrings Value Str Msg Config Dsl World.

(** [processGlobalPlaceholders]: string values of the configuration have their
    [${global.key}] placeholders replaced; other values are kept. *)
Definition processGlobalPlaceholders (config : Config) (configuration : Configuration) : Configuration :=
  match c_Properties config with
  | Some properties =>
      (λ v, match v with
            | VString strV => VString (SprintfVar strV "global." (Metadata_Values properties))
            | _ => v
            end) <$> configuration
  | None => configuration
  end.

Section Node.
Context `{C : Components}.

(** [InitRuleNodeCtx(config, selfDefinition)]; the definition is at [d]. *)
Definition InitRuleNodeCtx (config : Config) (d : nat) : M nat :=
  do selfDefinition <- get_def d ;;
  do node <- of_result (comp_NewNode (c_ComponentsRegistry config) (n_Type selfDefinition)) ;;
  do_ (match n_Configuration selfDefinition with
       | None => put_def d (set_n_Configuration (Some ∅) selfDefinition)
       | Some _ => ret tt
       end) ;;
  do node <- of_res (comp_Init config
       (processGlobalPlaceholders config (default ∅ (n_Configuration selfDefinition))) node) ;;
  do p <- alloc ;;
  do_ put_node p (mkNodeCtx node d config) ;;
  ret p.

Definition RuleNodeCtx_IsDebugMode (p : nat) : M bool :=
  do rn <- get_node p ;; do d <- get_def (nx_SelfDefinition rn) ;; ret (n_DebugMode d).

Definition RuleNodeCtx_GetNodeId (p : nat) : M RuleNodeId :=
  do rn <- get_node p ;; do d <- get_def (nx_SelfDefinition rn) ;; ret (mkNodeId (n_Id d) NODE).

Definition RuleNodeCtx_Destroy (p : nat) : M unit :=
  do rn <- get_node p ;; emit (EvDestroy (nx_Node rn)).

(** [rn.Copy(newCtx)]: the instance is taken over, and every field of the
    definition but its id. *)
Definition RuleNodeCtx_Copy (p newp : nat) : M unit :=
  do rn <- get_node p ;;
  do newCtx <- get_node newp ;;
  do d <- get_def (nx_SelfDefinition rn) ;;
  do d' <- get_def (nx_SelfDefinition newCtx) ;;
  do_ put_node p (mkNodeCtx (nx_Node newCtx) (nx_SelfDefinition rn) (nx_Config rn)) ;;
  put_def (nx_SelfDefinition rn)
    (mkRuleNode (n_Id d) (n_AdditionalInfo d') (n_Type d') (n_Name d') (n_DebugMode d') (n_Configuration d')).

(** What the configured parser makes of a text: [ParserRuleNode] and
    [ParserRuleChain] of the JSON parser, before the contexts are built (a node of a
    chain may be nil); and the text it prints for a definition.  A nil parser is a nil
    dereference. *)
Class Parsers : Type := {
  parse_node : ParserRef → string → result RuleNode;
  parse_chain : ParserRef → string → result ParsedChain;
  encode_node : ParserRef → RuleNode → string;
  encode_chain : ParserRef → RuleChainDef → string
}.
Context `{P : Parsers}.

Definition DecodeRuleNode (config : Config) (dsl : string) : M nat :=
  do parser <- deref_or_panic (c_Parser config) ;;
  do node <- of_result (parse_node parser dsl) ;;
  do d <- alloc ;;
  do_ put_def d node ;;
  InitRuleNodeCtx config d.

Definition RuleNodeCtx_ReloadSelf (p : nat) (def : string) : M unit :=
  do rn <- get_node p ;;
  do newp <- DecodeRuleNode (nx_Config rn) def ;;
  do_ RuleNodeCtx_Destroy p ;;
  RuleNodeCtx_Copy p newp.

Definition RuleNodeCtx_ReloadChild : M unit := fail "not support this func".

Definition RuleNodeCtx_DSL (p : nat) : M string :=
  do rn <- get_node p ;;
  do d <- get_def (nx_SelfDefinition rn) ;;
  do parser <- deref_or_panic (c_Parser (nx_Config rn)) ;;
  ret (encode_node parser d).


(** ** Specifications *)

(** The component a definition stands for; an error or a panic when there is none. *)
Definition new_component (config : Config) (n : RuleNode) : res Comp :=
  let! node := to_res (comp_NewNode (c_ComponentsRegistry config) (n_Type n)) in
  comp_Init config (processGlobalPlaceholders config (default ∅ (n_Configuration n))) node.

(** The definition after loading: a missing configuration is an empty map. *)
Definition with_configuration (n : RuleNode) : RuleNode :=
  set_n_Configuration (Some (default ∅ (n_Configuration n))) n.

(** What loading a node text yields: its definition and its component. *)
Definition load_node (config : Config) (parser : ParserRef) (dsl : string) : res (RuleNode * Comp) :=
  let! n := to_res (parse_node parser dsl) in
  let! c := new_component config n in
  ROk (with_configuration n, c).

Lemma with_configuration_id n c : n_Configuration n = Some c → with_configuration n = n.
Proof. destruct n; unfold with_configuration, set_n_Configuration; simpl. by intros ->. Qed.

Lemma InitRuleNodeCtx_ok config d w n c :
  w_defs w !! d = Some n → new_component config n = ROk c →
  InitRuleNodeCtx config d w =
    (ROk (w_next w),
     mkWorld (<[d := with_configuration n]> (w_defs w)) (<[w_next w := mkNodeCtx c d config]> (w_nodes w))
       (w_chains w) (w_engines w) (w_pools w) (S (w_next w)) (w_log w)).
Proof.
  intros Hd Hc. unfold InitRuleNodeCtx, new_component in *.
  run. destruct (comp_NewNode _ _) as [c0|]; [|done]. simpl in Hc. run.
  destruct (n_Configuration n) as [cf|] eqn:Hcf; simpl in Hc |- *; run; rewrite Hc; run.
  - by rewrite (with_configuration_id n cf), (insert_id (w_defs w)).
  - unfold with_configuration. by rewrite Hcf.
Qed.

Lemma InitRuleNodeCtx_err config d w n e :
  w_defs w !! d = Some n → new_component config n = RErr e →
  (InitRuleNodeCtx config d w).1 = RErr e.
Proof.
  intros Hd Hc. unfold InitRuleNodeCtx, new_component in *.
  run. destruct (comp_NewNode _ _) as [c0|]; [|by simplify_eq/=]. simpl in Hc. run.
  destruct (n_Configuration n) as [cf|] eqn:Hcf; simpl in Hc |- *; run; by rewrite Hc.
Qed.

Lemma InitRuleNodeCtx_panic config d w n why :
  w_defs w !! d = Some n → new_component config n = RPanic why →
  (InitRuleNodeCtx config d w).1 = RPanic why.
Proof.
  intros Hd Hc. unfold InitRuleNodeCtx, new_component in *.
  run. destruct (comp_NewNode _ _) as [c0|]; [|by simplify_eq/=]. simpl in Hc. run.
  destruct (n_Configuration n) as [cf|] eqn:Hcf; simpl in Hc |- *; run; by rewrite Hc.
Qed.

Lemma InitRuleNodeCtx_fresh base config d : base ≤ d → fresh_only base (InitRuleNodeCtx config d).
Proof. intros Hd. unfold InitRuleNodeCtx. fresh_all. Qed.

Lemma DecodeRuleNode_fresh base config dsl : fresh_only base (DecodeRuleNode config dsl).
Proof. unfold DecodeRuleNode. fresh_all. by apply InitRuleNodeCtx_fresh. Qed.

Lemma DecodeRuleNode_ok config parser dsl w n c :
  c_Parser config = Some parser → load_node config parser dsl = ROk (n, c) →
  DecodeRuleNode config dsl w =
    (ROk (S (w_next w)),
     mkWorld (<[w_next w := n]> (w_defs w)) (<[S (w_next w) := mkNodeCtx c (w_next w) config]> (w_nodes w))
       (w_chains w) (w_engines w) (w_pools w) (S (S (w_next w))) (w_log w)).
Proof.
  intros Hp Hl. unfold DecodeRuleNode, load_node in *. rewrite Hp.
  destruct (parse_node parser dsl) as [n0|] eqn:Hn; [|done]. simpl in Hl.
  destruct (new_component config n0) as [c0| |] eqn:Hc; simplify_eq/=.
  run. rewrite Hn. run.
  erewrite InitRuleNodeCtx_ok; [|simpl; by rewrite lookup_insert_eq|done].
  simpl. by rewrite insert_insert_eq.
Qed.

Lemma DecodeRuleNode_err config parser dsl w e :
  c_Parser config = Some parser → load_node config parser dsl = RErr e →
  (DecodeRuleNode config dsl w).1 = RErr e.
Proof.
  intros Hp Hl. unfold DecodeRuleNode, load_node in *. rewrite Hp.
  destruct (parse_node parser dsl) as [n0|] eqn:Hn; [|simplify_eq/=; run; by rewrite Hn]. simpl in Hl.
  destruct (new_component config n0) as [c0| |] eqn:Hc; simplify_eq/=.
  run. rewrite Hn. run.
  eapply InitRuleNodeCtx_err; [|done]. simpl. by rewrite lookup_insert_eq.
Qed.

Lemma DecodeRuleNode_panic config parser dsl w why :
  c_Parser config = Some parser → load_node config parser dsl = RPanic why →
  (DecodeRuleNode config dsl w).1 = RPanic why.
Proof.
  intros Hp Hl. unfold DecodeRuleNode, load_node in *. rewrite Hp.
  destruct (parse_node parser dsl) as [n0|] eqn:Hn; [|done]. simpl in Hl.
  destruct (new_component config n0) as [c0| |] eqn:Hc; simplify_eq/=.
  run. rewrite Hn. run.
  eapply InitRuleNodeCtx_panic; [|done]. simpl. by rewrite lookup_insert_eq.
Qed.

(** The definition a reload leaves behind: the new one under the old id. *)
Definition reloaded_def (old new : RuleNode) : RuleNode := set_n_Id (n_Id old) new.

Lemma RuleNodeCtx_ReloadSelf_ok p def w rn d parser n c :
  w_nodes w !! p = Some rn → w_defs w !! nx_SelfDefinition rn = Some d →
  p < w_next w → nx_SelfDefinition rn < w_next w →
  c_Parser (nx_Config rn) = Some parser → load_node (nx_Config rn) parser def = ROk (n, c) →
  ∃ w', RuleNodeCtx_ReloadSelf p def w = (ROk tt, w') ∧
    w_nodes w' !! p = Some (mkNodeCtx c (nx_SelfDefinition rn) (nx_Config rn)) ∧
    w_defs w' !! nx_SelfDefinition rn = Some (reloaded_def d n) ∧
    w_log w' = w_log w ++ [EvDestroy (nx_Node rn)] ∧
    w_chains w' = w_chains w ∧ w_engines w' = w_engines w ∧ w_pools w' = w_pools w ∧ w_next w ≤ w_next w' ∧
    (∀ q, q < w_next w → q ≠ p → w_nodes w' !! q = w_nodes w !! q) ∧
    (∀ q, q < w_next w → q ≠ nx_SelfDefinition rn → w_defs w' !! q = w_defs w !! q).
Proof.
  intros Hn Hd Hp Hq Hpar Hl. unfold RuleNodeCtx_ReloadSelf.
  run. rewrite (bind_ok _ _ _ _ _ (DecodeRuleNode_ok _ _ _ w _ _ Hpar Hl)).
  unfold RuleNodeCtx_Destroy, RuleNodeCtx_Copy. run.
  eexists. split; [reflexivity|]. simpl. rewrite !lookup_insert_eq. split_and!; try done; [lia| |].
  - intros q ? ?. by rewrite !lookup_insert_ne by lia.
  - intros q ? ?. by rewrite !lookup_insert_ne by lia.
Qed.

Lemma RuleNodeCtx_ReloadSelf_panic p def w rn parser why :
  w_nodes w !! p = Some rn →
  c_Parser (nx_Config rn) = Some parser → load_node (nx_Config rn) parser def = RPanic why →
  ∃ w', RuleNodeCtx_ReloadSelf p def w = (RPanic why, w') ∧ untouched (w_next w) w w'.
Proof.
  intros Hn Hpar Hl. unfold RuleNodeCtx_ReloadSelf.
  run.
  pose proof (DecodeRuleNode_panic _ _ _ w _ Hpar Hl) as He.
  pose proof (DecodeRuleNode_fresh (w_next w) (nx_Config rn) def w (le_n _)) as Hf.
  unfold bind. destruct (DecodeRuleNode _ _ _) as [r w']. simpl in *. subst r. eauto.
Qed.

Lemma RuleNodeCtx_ReloadSelf_err p def w rn parser e :
  w_nodes w !! p = Some rn →
  c_Parser (nx_Config rn) = Some parser → load_node (nx_Config rn) parser def = RErr e →
  ∃ w', RuleNodeCtx_ReloadSelf p def w = (RErr e, w') ∧ untouched (w_next w) w w'.
Proof.
  intros Hn Hpar Hl. unfold RuleNodeCtx_ReloadSelf.
  run.
  pose proof (DecodeRuleNode_err _ _ _ w _ Hpar Hl) as He.
  pose proof (DecodeRuleNode_fresh (w_next w) (nx_Config rn) def w (le_n _)) as Hf.
  unfold bind. destruct (DecodeRuleNode _ _ _) as [r w']. simpl in *. subst r. eauto.
Qed.

(** Reloading a node from a text: when the text loads (it parses, its type is
    registered and the component accepts the configuration), the old component is
    destroyed exactly once, the node gets the new component, its definition takes
    every field of the text but the id, and no other node, definition, chain,
    engine or pool changes.  When it does not load, the error is returned (or the panic of
    the component goes on) and nothing that existed is changed or destroyed. *)
Theorem RuleNodeCtx_ReloadSelf_spec p def w rn d parser :
  w_nodes w !! p = Some rn → w_defs w !! nx_SelfDefinition rn = Some d →
  p < w_next w → nx_SelfDefinition rn < w_next w → c_Parser (nx_Config rn) = Some parser →
  match load_node (nx_Config rn) parser def with
  | ROk (n, c) =>
      ∃ w', RuleNodeCtx_ReloadSelf p def w = (ROk tt, w') ∧
        w_nodes w' !! p = Some (mkNodeCtx c (nx_SelfDefinition rn) (nx_Config rn)) ∧
        w_defs w' !! nx_SelfDefinition rn = Some (reloaded_def d n) ∧
        w_log w' = w_log w ++ [EvDestroy (nx_Node rn)] ∧
        w_chains w' = w_chains w ∧ w_engines w' = w_engines w ∧ w_pools w' = w_pools w ∧ w_next w ≤ w_next w' ∧
        (∀ q, q < w_next w → q ≠ p → w_nodes w' !! q = w_nodes w !! q) ∧
        (∀ q, q < w_next w → q ≠ nx_SelfDefinition rn → w_defs w' !! q = w_defs w !! q)
  | RErr e => ∃ w', RuleNodeCtx_ReloadSelf p def w = (RErr e, w') ∧ untouched (w_next w) w w'
  | RPanic why => ∃ w', RuleNodeCtx_ReloadSelf p def w = (RPanic why, w') ∧ untouched (w_next w) w w'
  end.
Proof.
  intros. destruct (load_node _ _ _) as [[n c]|e|why] eqn:Hl.
  - by apply (RuleNodeCtx_ReloadSelf_ok p def w rn d parser n c).
  - by apply (RuleNodeCtx_ReloadSelf_err p def w rn parser e).
  - by apply (RuleNodeCtx_ReloadSelf_panic p def w rn parser why).
Qed.

End Node.
