(* ===== verification/Samples.v ===== *)
(** * A concrete component library and parser

    Instances of the interfaces [Components] and [Parsers], small enough to run:
    the witnesses evaluate the operations on them.  They model no code of the
    repository. *)

From S2P Require Import Prelude GoStrings Value Msg Config Dsl World Node.

Module Samples.

(** A component is its type and the configuration it was initialised with; the
    type [bad] cannot be initialised, initialising the type [crash] panics, types beginning
    with [x] are unknown. *)
#[export] Instance sampleComponents : Components := {|
  Comp := string * Configuration;
  comp_NewNode := λ r t,
    if HasPrefix "x" t then Err ("component not found.componentType=" +:+ t) else Ok (t, ∅);
  comp_Init := λ cfg conf c,
    if bool_decide (c.1 = "bad") then RErr "init failed" else if bool_decide (c.1 = "crash") then RPanic "crash" else ROk (c.1, conf)
|}.

Definition comp (type : string) : @Comp sampleComponents := (type, ∅ : Configuration).
Definition info : NodeAdditionalInfo := mkAdditionalInfo "" 0 0.
Definition node (id type : string) : RuleNode := mkRuleNode id info type "" false None.
Definition base (id : string) : RuleChainBaseInfo := mkBaseInfo id None "" false true None.
Definition conn (a b r : string) : NodeConnection := mkConnection a b r.
Definition cconn (a b r : string) : RuleChainConnection := mkChainConnection a b r.

Definition chain (id : string) (first : Z) (nodes : list RuleNode) (cs : list NodeConnection)
    (ccs : list RuleChainConnection) : RuleChainDef :=
  mkRuleChain (base id) (mkRuleMetadata first nodes cs ccs false false).

Definition comma : Ascii.ascii := Ascii.ascii_of_nat 44.

(** Two nodes without ids, a transition and a call of the chain [sub]. *)
Definition chain_main : RuleChainDef :=
  chain "main" 0 [node "" "filter"; node "" "log"; node "s3" "log"]
    [conn "node0" "node1" "Success"; conn "node0" "s3" "Success"; conn "node0" "s3" "Failure"]
    [cconn "node1" "sub" "Success"].

(** A chain whose second node is [null]. *)
Definition chain_null : ParsedChain :=
  mkRuleChain (base "null") (mkRuleMetadata 0 [Some (node "a" "log"); None] [] [] false false).

(** A node text is the type of the node; chain texts are named. *)
#[export] Instance sampleParsers : Parsers := {|
  parse_node := λ _ s, if bool_decide (s = "{") then Err "unexpected end of JSON input" else Ok (node "n" s);
  parse_chain := λ _ s,
    if bool_decide (s = "main") then Ok (some_nodes chain_main)
    else if bool_decide (s = "sub") then Ok (some_nodes (chain "sub" 0 [node "a" "log"] [] []))
    else if bool_decide (s = "empty") then Ok (some_nodes (chain "empty" 0 [] [] []))
    else if bool_decide (s = "negative") then Ok (some_nodes (chain "negative" (-1) [node "a" "log"] [] []))
    else if bool_decide (s = "unknown") then Ok (some_nodes (chain "unknown" 0 [node "a" "log"; node "b" "xyz"] [] []))
    else if bool_decide (s = "noid") then Ok (some_nodes (chain "" 0 [node "a" "log"] [] []))
    else if bool_decide (s = "null") then Ok chain_null
    else Err "unexpected end of JSON input";
  encode_node := λ _ n, n_Id n +:+ ":" +:+ n_Type n;
  encode_chain := λ _ c, bi_ID (rc_RuleChain c) +:+ "["
     +:+ Join (map (λ n, n_Id n +:+ ":" +:+ n_Type n) (md_Nodes (rc_Metadata c))) comma +:+ "]"
|}.

Definition cfg : Config := NewConfig [].

Definition run {A} (m : M A) : res A * World := m initialWorld.

(** A world with one loaded node. *)
Definition one_node : World := (DecodeRuleNode cfg "log" initialWorld).2.

End Samples.

Import Samples.

Lemma RuleNodeCtx_ReloadSelf_witness :
  (∃ w', RuleNodeCtx_ReloadSelf 2 "filter" one_node = (ROk tt, w') ∧
     n_Id <$> w_defs w' !! 1 = Some "n" ∧ w_log w' = [EvDestroy (comp "log")]) ∧
  (∃ w', RuleNodeCtx_ReloadSelf 2 "bad" one_node = (RErr "init failed", w') ∧ w_nodes w' !! 2 = w_nodes one_node !! 2).
Proof.
  split.
  - destruct (RuleNodeCtx_ReloadSelf_spec 2 "filter" one_node (mkNodeCtx (comp "log") 1 cfg)
      (with_configuration (node "n" "log")) JsonParser) as (w' & H1 & _ & H2 & H3 & _);
      [reflexivity|reflexivity|vm_compute; lia|vm_compute; lia|reflexivity|].
    exists w'. split_and!; [exact H1|exact (f_equal (fmap n_Id) H2)|exact H3].
  - destruct (RuleNodeCtx_ReloadSelf_spec 2 "bad" one_node (mkNodeCtx (comp "log") 1 cfg)
      (with_configuration (node "n" "log")) JsonParser) as (w' & H1 & H2);
      [reflexivity|reflexivity|vm_compute; lia|vm_compute; lia|reflexivity|].
    exists w'. split; [done|]. apply H2. vm_compute. lia.
Defined.
