(* ===== verification/Chain.v ===== *)
(** * Rule chain contexts ([src/chain.go])

    A chain context owns the node contexts of its definition, the routing table
    built from the connections and a cache of routing answers.  Contexts are
    addresses of the [World]; the chain context that a stored root context routes
    with is an address too, and need not be the chain it is stored in. *)

From S2P Require Import Prelude GoStrings Value Msg Config Dsl World Node.

Definition defaultNodeIdPrefix : string := "node".
Definition default_node_id (index : nat) : string := defaultNodeIdPrefix +:+ Itoa (Z.of_nat index).

(** ** The routing table *)

Definition node_relation (item : NodeConnection) : RuleNodeRelation :=
  mkRelation (mkNodeId (nc_FromId item) NODE) (mkNodeId (nc_ToId item) NODE) (nc_Type item).
Definition chain_relation (item : RuleChainConnection) : RuleNodeRelation :=
  mkRelation (mkNodeId (rc_FromId item) NODE) (mkNodeId (rc_ToId item) CHAIN) (rc_Type item).

(** The body of both connection loops: append to the relations of the in-node. *)
Definition add_route (routes : gmap RuleNodeId (list RuleNodeRelation)) (r : RuleNodeRelation) :
    gmap RuleNodeId (list RuleNodeRelation) :=
  match routes !! rr_InId r with
  | Some nodeRelations => <[rr_InId r := nodeRelations ++ [r]]> routes
  | None => <[rr_InId r := [r]]> routes
  end.

Definition load_routes {N} (def : RuleChain N) : gmap RuleNodeId (list RuleNodeRelation) :=
  let routes := foldl (λ m item, add_route m (node_relation item)) ∅ (md_Connections (rc_Metadata def)) in
  foldl (λ m item, add_route m (chain_relation item)) routes (md_RuleChainConnections (rc_Metadata def)).

Section Chain.
Context `{C : Components}.

Definition RuleChainCtx_GetRuleChainPool (rc : RuleChainCtx) : nat :=
  match cx_ruleChainPool rc with None => DefaultRuleGo | Some p => p end.

(** [RuleGo.Get]: the engine stored under an id. *)
Definition RuleGo_Get (g : nat) (id : string) : M (option nat) :=
  do engines <- get_pool g ;; ret (engines !! id).

Definition GetNodeById (p : nat) (id : RuleNodeId) : M (option NodeRef) :=
  do rc <- get_chain p ;;
  match rn_Type id with
  | CHAIN =>
      do e <- RuleGo_Get (RuleChainCtx_GetRuleChainPool rc) (rn_Id id) ;;
      match e with
      | Some e =>
          do engine <- get_engine e ;;
          ret (NCchain <$> e_rootRuleChainCtx engine)
      | None => ret None
      end
  | NODE => ret (NCnode <$> cx_nodes rc !! id)
  end.

(** An index beyond the end is not found; a negative one is out of range. *)
Definition GetNodeByIndex (p : nat) (index : Z) : M (option NodeRef) :=
  do rc <- get_chain p ;;
  if bool_decide (Z.of_nat (length (cx_nodeIds rc)) ≤ index)%Z then ret None
  else if bool_decide (index < 0)%Z then panic "index out of range"
  else match cx_nodeIds rc !! Z.to_nat index with
       | Some id => GetNodeById p id
       | None => panic "index out of range"
       end.

Definition GetFirstNode (p : nat) : M (option NodeRef) :=
  do rc <- get_chain p ;;
  GetNodeByIndex p (md_FirstNodeIndex (rc_Metadata (cx_SelfDefinition rc))).

Definition GetNodeRoutes (p : nat) (id : RuleNodeId) : M (option (list RuleNodeRelation)) :=
  do rc <- get_chain p ;; ret (cx_nodeRoutes rc !! id).

Definition set_relationCache (rc : RuleChainCtx) (cache : gmap (RuleNodeId * string) (list NodeRef)) : RuleChainCtx :=
  mkChainCtx (cx_Id rc) (cx_SelfDefinition rc) (cx_Config rc) (cx_initialized rc) (cx_componentsRegistry rc)
    (cx_nodeIds rc) (cx_nodes rc) (cx_nodeRoutes rc) cache (cx_rootRuleContext rc) (cx_ruleChainPool rc)
    (cx_reloadAspects rc) (cx_destroyAspects rc).

(** The loop over the relations of a node: those of the type that resolve. *)
Fixpoint resolve_relations (p : nat) (relationType : string) (relations : list RuleNodeRelation) : M (list NodeRef) :=
  match relations with
  | [] => ret []
  | item :: rest =>
      if bool_decide (rr_RelationType item = relationType) then
        do o <- GetNodeById p (rr_OutId item) ;;
        do l <- resolve_relations p relationType rest ;;
        ret (match o with Some nodeCtx => nodeCtx :: l | None => l end)
      else resolve_relations p relationType rest
  end.

(** [GetNextNodes(id, relationType)]: the nodes, and whether there are any (a nil
    list is the empty one: a list is only built by appending). *)
Definition GetNextNodes (p : nat) (id : RuleNodeId) (relationType : string) : M (list NodeRef * bool) :=
  do rc <- get_chain p ;;
  match cx_relationCache rc !! (id, relationType) with
  | Some nodeCtxList => ret (nodeCtxList, negb (bool_decide (nodeCtxList = [])))
  | None =>
      do relations <- GetNodeRoutes p id ;;
      do nodeCtxList <- (match relations with
                         | Some relations => resolve_relations p relationType relations
                         | None => ret []
                         end) ;;
      do rc <- get_chain p ;;
      do_ put_chain p (set_relationCache rc (<[(id, relationType) := nodeCtxList]> (cx_relationCache rc))) ;;
      ret (nodeCtxList, negb (bool_decide (nodeCtxList = [])))
  end.

(** ** Loading a chain *)

(** One turn of the node loop: a missing id is written into the definition. *)
Definition load_node_item (config : Config) (index : nat) (item : nat) : M (RuleNodeId * nat) :=
  do d <- get_def item ;;
  do_ (if bool_decide (n_Id d = "") then put_def item (set_n_Id (default_node_id index) d) else ret tt) ;;
  do d <- get_def item ;;
  do ruleNodeCtx <- InitRuleNodeCtx config item ;;
  ret (mkNodeId (n_Id d) NODE, ruleNodeCtx).

Fixpoint load_nodes (config : Config) (index : nat) (items : list nat)
    (nodeIds : list RuleNodeId) (nodes : gmap RuleNodeId nat) : M (list RuleNodeId * gmap RuleNodeId nat) :=
  match items with
  | [] => ret (nodeIds, nodes)
  | item :: rest =>
      do r <- load_node_item config index item ;;
      load_nodes config (S index) rest (nodeIds ++ [r.1]) (<[r.1 := r.2]> nodes)
  end.

Definition new_chain_ctx (config : Config) (def : RuleChain nat)
    (nodeIds : list RuleNodeId) (nodes : gmap RuleNodeId nat) : RuleChainCtx :=
  mkChainCtx
    (if bool_decide (bi_ID (rc_RuleChain def) = "") then mkNodeId "" NODE else mkNodeId (bi_ID (rc_RuleChain def)) CHAIN)
    def config true (c_ComponentsRegistry config) nodeIds nodes (load_routes def) ∅ None None [] [].

Definition set_root (rc : RuleChainCtx) (root : option RootRuleContext) (reload destroy : list Aspect) : RuleChainCtx :=
  mkChainCtx (cx_Id rc) (cx_SelfDefinition rc) (cx_Config rc) (cx_initialized rc) (cx_componentsRegistry rc)
    (cx_nodeIds rc) (cx_nodes rc) (cx_nodeRoutes rc) (cx_relationCache rc) root (cx_ruleChainPool rc)
    reload destroy.

Definition InitRuleChainCtx (config : Config) (ruleChainDef : RuleChain nat) : M nat :=
  do p <- alloc ;;
  do ns <- load_nodes config 0 (md_Nodes (rc_Metadata ruleChainDef)) [] ∅ ;;
  let rc := new_chain_ctx config ruleChainDef ns.1 ns.2 in
  do_ put_chain p rc ;;
  do firstNode <- GetFirstNode p ;;
  let root := (λ self, mkRootCtx config p self (c_Pool config)) <$> firstNode in
  let '((_, reloadAspects, destroyAspects), _) := GetEngineAspects config in
  do_ put_chain p (set_root rc root reloadAspects destroyAspects) ;;
  ret p.

(** ** Operations on a loaded chain *)

Definition RuleChainCtx_Destroy (p : nat) : M unit :=
  do rc <- get_chain p ;;
  do_ mapM_ (λ kv, RuleNodeCtx_Destroy kv.2) (map_to_list (cx_nodes rc)) ;;
  mapM_ (λ aop, emit (EvOnDestroy aop p)) (cx_destroyAspects rc).

Definition RuleChainCtx_IsDebugMode (p : nat) : M bool :=
  do rc <- get_chain p ;; ret (bi_DebugMode (rc_RuleChain (cx_SelfDefinition rc))).

Definition RuleChainCtx_GetNodeId (p : nat) : M RuleNodeId :=
  do rc <- get_chain p ;; ret (cx_Id rc).

(** [rc.Copy(newCtx)]: everything but the cache, which is emptied. *)
Definition RuleChainCtx_Copy (p newp : nat) : M unit :=
  do rc <- get_chain p ;;
  do newCtx <- get_chain newp ;;
  put_chain p
    (mkChainCtx (cx_Id newCtx) (cx_SelfDefinition newCtx) (cx_Config newCtx) (cx_initialized newCtx)
       (cx_componentsRegistry newCtx) (cx_nodeIds newCtx) (cx_nodes newCtx) (cx_nodeRoutes newCtx) ∅
       (cx_rootRuleContext newCtx) (cx_ruleChainPool newCtx) (cx_reloadAspects newCtx) (cx_destroyAspects newCtx)).

Definition SetRuleChainPool (p : nat) (ruleChainPool : option nat) : M unit :=
  do rc <- get_chain p ;;
  put_chain p
    (mkChainCtx (cx_Id rc) (cx_SelfDefinition rc) (cx_Config rc) (cx_initialized rc) (cx_componentsRegistry rc)
       (cx_nodeIds rc) (cx_nodes rc) (cx_nodeRoutes rc) (cx_relationCache rc) (cx_rootRuleContext rc)
       ruleChainPool (cx_reloadAspects rc) (cx_destroyAspects rc)).

(** [Init]: the definition is the entry [selfDefinition] of the configuration, if
    it is there and is a rule chain. *)
Definition RuleChainCtx_Init (p : nat) (selfDefinition : option (RuleChain nat)) : M unit :=
  match selfDefinition with
  | Some def =>
      do rc <- get_chain p ;;
      do newp <- InitRuleChainCtx (cx_Config rc) def ;;
      RuleChainCtx_Copy p newp
  | None => ret tt
  end.

Context `{P : Parsers}.

Definition alloc_def (n : RuleNode) : M nat :=
  do p <- alloc ;; do_ put_def p n ;; ret p.

(** The node pointers of a decoded chain: a nil pointer is an address at which there is
    nothing. *)
Definition alloc_pointer (o : option RuleNode) : M nat :=
  match o with
  | Some n => alloc_def n
  | None => do p <- alloc ;; do_ del_def p ;; ret p
  end.

(** [JsonParser.DecodeRuleChain]: parse, then build the context. *)
Definition DecodeRuleChain (config : Config) (dsl : string) : M nat :=
  do parser <- deref_or_panic (c_Parser config) ;;
  do rootRuleChainDef <- of_result (parse_chain parser dsl) ;;
  do nodes <- mapM alloc_pointer (md_Nodes (rc_Metadata rootRuleChainDef)) ;;
  InitRuleChainCtx config (RuleChain_map (λ _, nodes) rootRuleChainDef).

Definition to_error {A} (r : result A) : error := match r with Ok _ => None | Err e => Some e end.

Definition call_OnReload (p : nat) (ctx : NodeRef) (err : error) (aspects : list Aspect) : M unit :=
  mapM_ (λ aop, emit (EvOnReload aop (NCchain p) ctx err)) aspects.

Definition return_error (err : error) : M unit :=
  match err with None => ret tt | Some e => fail e end.

Definition RuleChainCtx_ReloadSelf (p : nat) (def : string) : M unit :=
  do rc <- get_chain p ;;
  try (DecodeRuleChain (cx_Config rc) def) (λ r,
    do_ (match r with
         | Ok newp => do_ RuleChainCtx_Destroy p ;; RuleChainCtx_Copy p newp
         | Err _ => ret tt
         end) ;;
    do rc <- get_chain p ;;
    do_ call_OnReload p (NCchain p) (to_error r) (cx_reloadAspects rc) ;;
    return_error (to_error r)).

(** The methods of [types.NodeCtx], dispatched on the object. *)
Definition NodeCtx_ReloadSelf (n : NodeRef) (def : string) : M unit :=
  match n with
  | NCnode q => RuleNodeCtx_ReloadSelf q def
  | NCchain q => RuleChainCtx_ReloadSelf q def
  end.

Definition RuleChainCtx_ReloadChild (p : nat) (ruleNodeId : RuleNodeId) (def : string) : M unit :=
  do o <- GetNodeById p ruleNodeId ;;
  match o with
  | Some node =>
      try (NodeCtx_ReloadSelf node def) (λ r,
        do rc <- get_chain p ;;
        do_ call_OnReload p node (to_error r) (cx_reloadAspects rc) ;;
        return_error (to_error r))
  | None => ret tt
  end.

(** The definition as the encoder sees it: the nodes as they are now. *)
Definition current_definition (p : nat) : M RuleChainDef :=
  do rc <- get_chain p ;;
  do nodes <- mapM get_def (md_Nodes (rc_Metadata (cx_SelfDefinition rc))) ;;
  ret (RuleChain_map (λ _, nodes) (cx_SelfDefinition rc)).

Definition RuleChainCtx_DSL (p : nat) : M string :=
  do rc <- get_chain p ;;
  do parser <- deref_or_panic (c_Parser (cx_Config rc)) ;;
  do def <- current_definition p ;;
  ret (encode_chain parser def).

Definition NodeCtx_DSL (n : NodeRef) : M string :=
  match n with
  | NCnode q => RuleNodeCtx_DSL q
  | NCchain q => RuleChainCtx_DSL q
  end.

Definition NodeCtx_GetNodeById (n : NodeRef) (id : RuleNodeId) : M (option NodeRef) :=
  match n with
  | NCnode _ => ret None
  | NCchain q => GetNodeById q id
  end.

Definition NodeCtx_GetNodeId (n : NodeRef) : M RuleNodeId :=
  match n with
  | NCnode q => RuleNodeCtx_GetNodeId q
  | NCchain q => RuleChainCtx_GetNodeId q
  end.

End Chain.
