(* ===== verification/ChainProps.v ===== *)
(** * Properties of rule chain contexts

    The routing table, the routing cache, loading, and reloading of chains and
    of their nodes. *)

From S2P Require Import Prelude GoStrings Value Msg Config Dsl World Node Chain.

(** ** The routing table *)

(** Every relation of a definition, in the order of the text: connections first,
    then calls of sub-chains. *)
Definition all_relations {N} (def : RuleChain N) : list RuleNodeRelation :=
  map node_relation (md_Connections (rc_Metadata def)) ++
  map chain_relation (md_RuleChainConnections (rc_Metadata def)).

Definition relations_of (id : RuleNodeId) (l : list RuleNodeRelation) : list RuleNodeRelation :=
  filter (λ r, rr_InId r = id) l.

Definition nonempty {A} (l : list A) : option (list A) := match l with [] => None | _ => Some l end.

Lemma add_route_lookup m r id :
  add_route m r !! id =
    if decide (rr_InId r = id) then Some (default [] (m !! id) ++ [r]) else m !! id.
Proof.
  unfold add_route. case_decide as E.
  - subst. destruct (m !! rr_InId r); by rewrite lookup_insert_eq.
  - destruct (m !! rr_InId r); by rewrite lookup_insert_ne.
Qed.

Lemma add_routes_lookup l m id :
  default [] (foldl add_route m l !! id) = default [] (m !! id) ++ relations_of id l ∧
  (foldl add_route m l !! id = None ↔ m !! id = None ∧ relations_of id l = []).
Proof.
  revert m. induction l as [|r l IH]; intros m; simpl.
  - rewrite app_nil_r. naive_solver.
  - destruct (IH (add_route m r)) as [IH1 IH2]. rewrite IH1, IH2, add_route_lookup.
    unfold relations_of. rewrite filter_cons. repeat case_decide; simpl; [|done].
    rewrite <- (assoc_L (++)). naive_solver.
Qed.

Lemma foldl_map {A B D} (f : D → B → D) (g : A → B) l d :
  foldl (λ m x, f m (g x)) d l = foldl f d (map g l).
Proof. revert d. induction l; intros; simpl; auto. Qed.

Lemma load_routes_all {N} (def : RuleChain N) : load_routes def = foldl add_route ∅ (all_relations def).
Proof. unfold load_routes, all_relations. by rewrite foldl_app, <- !foldl_map. Qed.

(** The routing table maps a node to exactly its outgoing connections, in the
    order of the definition, node connections before sub-chain connections; a node
    without connections has no entry. *)
Theorem load_routes_spec {N} (def : RuleChain N) id :
  load_routes def !! id = nonempty (relations_of id (all_relations def)).
Proof.
  rewrite load_routes_all. destruct (add_routes_lookup (all_relations def) ∅ id) as [H1 H2].
  rewrite lookup_empty in H1, H2. simpl in H1.
  destruct (foldl add_route ∅ (all_relations def) !! id) as [l|] eqn:E.
  - simpl in H1. subst. destruct (relations_of id (all_relations def)); [|done].
    exfalso. naive_solver.
  - destruct H2 as [H2 _]. by destruct (H2 eq_refl) as [_ ->].
Qed.

Section ChainProps.
Context `{C : Components}.

(** ** Routing answers *)

(** What [GetNodeById] finds in a world. *)
Definition resolve (w : World) (rc : RuleChainCtx) (id : RuleNodeId) : option NodeRef :=
  match rn_Type id with
  | NODE => NCnode <$> cx_nodes rc !! id
  | CHAIN =>
      g ← w_pools w !! RuleChainCtx_GetRuleChainPool rc;
      e ← g !! rn_Id id;
      engine ← w_engines w !! e;
      NCchain <$> e_rootRuleChainCtx engine
  end.

(** The reference definition of routing, without a cache: the targets of the
    node's relations of the given type that resolve. *)
Definition next_nodes (w : World) (rc : RuleChainCtx) (id : RuleNodeId) (relationType : string) : list NodeRef :=
  omap (λ r, resolve w rc (rr_OutId r))
    (filter (λ r, rr_RelationType r = relationType) (default [] (cx_nodeRoutes rc !! id))).

(** The chain's pool is there, and so are its engines. *)
Definition pool_ok (w : World) (rc : RuleChainCtx) : Prop :=
  ∃ g, w_pools w !! RuleChainCtx_GetRuleChainPool rc = Some g ∧
       ∀ id e, g !! id = Some e → is_Some (w_engines w !! e).

(** Every cached answer is the current one. *)
Definition cache_ok (w : World) (rc : RuleChainCtx) : Prop :=
  ∀ id rel l, cx_relationCache rc !! (id, rel) = Some l → l = next_nodes w rc id rel.

Lemma GetNodeById_resolve w p rc id :
  w_chains w !! p = Some rc → pool_ok w rc → GetNodeById p id w = (ROk (resolve w rc id), w).
Proof.
  intros Hp (g & Hg & He). unfold GetNodeById, resolve. run.
  destruct (rn_Type id); [done|]. unfold RuleGo_Get. run. rewrite Hg. simpl.
  destruct (g !! rn_Id id) as [e|] eqn:Hl; [|done]. destruct (He _ _ Hl) as [en Hen]. run. simpl. by rewrite Hen.
Qed.

Lemma resolve_relations_spec w p rc rel l :
  w_chains w !! p = Some rc → pool_ok w rc →
  resolve_relations p rel l w =
    (ROk (omap (λ r, resolve w rc (rr_OutId r)) (filter (λ r, rr_RelationType r = rel) l)), w).
Proof.
  intros Hp Hok. induction l as [|r l IH]; [done|]. simpl. rewrite filter_cons.
  case_decide as E; [rewrite bool_decide_true by done|by rewrite bool_decide_false].
  rewrite (bind_ok _ _ _ _ _ (GetNodeById_resolve _ _ _ _ Hp Hok)), (bind_ok _ _ _ _ _ IH).
  simpl. by destruct (resolve w rc (rr_OutId r)).
Qed.

(** The world with another routing cache in chain [p]. *)
Definition with_cache (w : World) (p : nat) (rc : RuleChainCtx) cache : World :=
  mkWorld (w_defs w) (w_nodes w) (<[p := set_relationCache rc cache]> (w_chains w))
    (w_engines w) (w_pools w) (w_next w) (w_log w).

Lemma next_nodes_with_cache w p rc cache id rel :
  next_nodes (with_cache w p rc cache) (set_relationCache rc cache) id rel = next_nodes w rc id rel.
Proof. done. Qed.

Lemma set_relationCache_twice rc c1 c2 : set_relationCache (set_relationCache rc c1) c2 = set_relationCache rc c2.
Proof. done. Qed.

Lemma set_relationCache_id rc : set_relationCache rc (cx_relationCache rc) = rc.
Proof. by destruct rc. Qed.

Lemma with_cache_id w p rc : w_chains w !! p = Some rc → with_cache w p rc (cx_relationCache rc) = w.
Proof. intros H. unfold with_cache. rewrite set_relationCache_id, insert_id by done. by destruct w. Qed.

Lemma GetNextNodes_step w p rc id rel :
  w_chains w !! p = Some rc → pool_ok w rc → cache_ok w rc →
  ∃ cache, GetNextNodes p id rel w =
      (ROk (next_nodes w rc id rel, negb (bool_decide (next_nodes w rc id rel = []))), with_cache w p rc cache) ∧
    cache_ok (with_cache w p rc cache) (set_relationCache rc cache).
Proof.
  intros Hp Hok Hc. unfold GetNextNodes, GetNodeRoutes. run.
  destruct (cx_relationCache rc !! (id, rel)) as [l|] eqn:El.
  - exists (cx_relationCache rc). rewrite with_cache_id, set_relationCache_id by done. by rewrite <- (Hc _ _ _ El).
  - exists (<[(id, rel) := next_nodes w rc id rel]> (cx_relationCache rc)). split.
    + run. assert ((match cx_nodeRoutes rc !! id with
               | Some relations => resolve_relations p rel relations | None => ret [] end) w
             = (ROk (next_nodes w rc id rel), w)) as E.
      { unfold next_nodes. destruct (cx_nodeRoutes rc !! id); [by apply resolve_relations_spec|done]. }
      rewrite (bind_ok _ _ _ _ _ E). by run.
    + intros id' rel' l Hl. rewrite next_nodes_with_cache. simpl in Hl.
      destruct (decide ((id, rel) = (id', rel'))) as [?|Hne]; [simplify_eq|].
      * rewrite lookup_insert_eq in Hl. by simplify_eq.
      * rewrite lookup_insert_ne in Hl by done. by apply Hc.
Qed.

(** C9. Routing through the cache is routing without it: in a world whose pools
    and engines do not change, any sequence of lookups of a chain whose cache
    holds current answers gives, for each, the reference answer, changes nothing
    but the cache of that chain, and leaves the cache holding current answers. *)
Theorem GetNextNodes_correct w p rc (queries : list (RuleNodeId * string)) :
  w_chains w !! p = Some rc → pool_ok w rc → cache_ok w rc →
  ∃ cache, mapM (λ q, GetNextNodes p q.1 q.2) queries w =
      (ROk (map (λ q, (next_nodes w rc q.1 q.2, negb (bool_decide (next_nodes w rc q.1 q.2 = [])))) queries),
       with_cache w p rc cache) ∧
    cache_ok (with_cache w p rc cache) (set_relationCache rc cache).
Proof.
  intros Hp Hok Hc.
  cut (∀ cache0, cache_ok (with_cache w p rc cache0) (set_relationCache rc cache0) →
    ∃ cache, mapM (λ q, GetNextNodes p q.1 q.2) queries (with_cache w p rc cache0) =
      (ROk (map (λ q, (next_nodes w rc q.1 q.2, negb (bool_decide (next_nodes w rc q.1 q.2 = [])))) queries),
       with_cache w p rc cache) ∧
    cache_ok (with_cache w p rc cache) (set_relationCache rc cache)).
  { intros H. destruct (H (cx_relationCache rc)) as (cache & H1 & H2).
    - by rewrite with_cache_id, set_relationCache_id.
    - rewrite with_cache_id in H1 by done. eauto. }
  induction queries as [|[id rel] qs IH]; intros cache0 H0; [by exists cache0|].
  destruct (GetNextNodes_step (with_cache w p rc cache0) p (set_relationCache rc cache0) id rel)
    as (c1 & E1 & H1); [simpl; by rewrite lookup_insert_eq|exact Hok|done|].
  assert (with_cache (with_cache w p rc cache0) p (set_relationCache rc cache0) c1 = with_cache w p rc c1) as Ew.
  { unfold with_cache. simpl. by rewrite insert_insert_eq. }
  rewrite Ew in E1, H1. destruct (IH c1 H1) as (c2 & E2 & H2).
  exists c2. split; [|done]. simpl. rewrite (bind_ok _ _ _ _ _ E1), (bind_ok _ _ _ _ _ E2).
  by rewrite next_nodes_with_cache.
Qed.


(** ** Loading *)

(** The definition with the id the loader gives a node that has none. *)
Definition with_id (index : nat) (d : RuleNode) : RuleNode :=
  if bool_decide (n_Id d = "") then set_n_Id (default_node_id index) d else d.

Lemma with_id_nonempty index d : n_Id (with_id index d) ≠ "".
Proof. unfold with_id. by case_bool_decide. Qed.

Lemma load_node_item_inv config index item w r w' :
  load_node_item config index item w = (ROk r, w') →
  ∃ d c, w_defs w !! item = Some d ∧ new_component config (with_id index d) = ROk c ∧
    r = (mkNodeId (n_Id (with_id index d)) NODE, w_next w) ∧
    w' = mkWorld (<[item := with_configuration (with_id index d)]> (w_defs w))
           (<[w_next w := mkNodeCtx c item config]> (w_nodes w))
           (w_chains w) (w_engines w) (w_pools w) (S (w_next w)) (w_log w).
Proof.
  unfold load_node_item. intros H. apply bind_ok_inv in H as (d & w1 & Hd & H).
  apply deref_inv in Hd as [Hd ->]. exists d.
  assert (∃ w1, (if bool_decide (n_Id d = "") then put_def item (set_n_Id (default_node_id index) d) else ret tt) w
     = (ROk tt, w1) ∧ w1 = mkWorld (<[item := with_id index d]> (w_defs w)) (w_nodes w)
           (w_chains w) (w_engines w) (w_pools w) (w_next w) (w_log w)) as (w1 & E1 & ->).
  { unfold with_id. case_bool_decide; [by eexists|]. rewrite insert_id by done. exists w. by destruct w. }
  rewrite (bind_ok _ _ _ _ _ E1) in H. erewrite bind_get_def in H by heap_lookup.
  destruct (new_component config (with_id index d)) as [c|e|why] eqn:Ec.
  - erewrite bind_ok in H; [|eapply InitRuleNodeCtx_ok; [heap_lookup|done]].
    unfold ret in H. simplify_eq/=. exists c. split_and!; try done. by rewrite insert_insert_eq.
  - pose proof (InitRuleNodeCtx_err config item (mkWorld (<[item := with_id index d]> (w_defs w)) (w_nodes w)
           (w_chains w) (w_engines w) (w_pools w) (w_next w) (w_log w)) (with_id index d) e) as He.
    unfold bind in H. simpl in He. rewrite lookup_insert_eq in He.
    destruct (InitRuleNodeCtx config item _) as [[] ?]; simplify_eq/=; naive_solver.
  - pose proof (InitRuleNodeCtx_panic config item (mkWorld (<[item := with_id index d]> (w_defs w)) (w_nodes w)
           (w_chains w) (w_engines w) (w_pools w) (w_next w) (w_log w)) (with_id index d) why) as He.
    unfold bind in H. simpl in He. rewrite lookup_insert_eq in He.
    destruct (InitRuleNodeCtx config item _) as [[] ?]; simplify_eq/=; naive_solver.
Qed.

(** What the node loop establishes: ids in order, each definition completed, and
    every node of the map an instance of an item with that id. *)
Record nodes_loaded (config : Config) (index : nat) (items : list nat) (w w' : World)
    (ids0 ids : list RuleNodeId) (nodes0 nodes : gmap RuleNodeId nat) : Prop := {
  nl_prefix : ∃ new, ids = ids0 ++ new ∧ length new = length items;
  nl_defs : ∀ j item, items !! j = Some item → ∃ d,
    w_defs w !! item = Some d ∧ w_defs w' !! item = Some (with_configuration (with_id (index + j) d)) ∧
    ids !! (length ids0 + j) = Some (mkNodeId (n_Id (with_id (index + j) d)) NODE);
  nl_nodes : ∀ id q, nodes !! id = Some q → nodes0 !! id = Some q ∨
    ∃ j item c, items !! j = Some item ∧ ids !! (length ids0 + j) = Some id ∧
      w_nodes w' !! q = Some (mkNodeCtx c item config) ∧ q < w_next w';
  nl_dom : ∀ j id, (length ids0 ≤ j) → ids !! j = Some id → is_Some (nodes !! id);
  nl_keep : ∀ id, is_Some (nodes0 !! id) → is_Some (nodes !! id);
  nl_old_nodes : ∀ q, q < w_next w → w_nodes w' !! q = w_nodes w !! q;
  nl_old_defs : ∀ q, (q ∉ items) → w_defs w' !! q = w_defs w !! q;
  nl_rest : w_chains w' = w_chains w ∧ w_engines w' = w_engines w ∧ w_pools w' = w_pools w ∧
    w_log w' = w_log w ∧ w_next w ≤ w_next w'
}.

Lemma load_nodes_inv config items index ids0 nodes0 w ids nodes w' :
  NoDup items → load_nodes config index items ids0 nodes0 w = (ROk (ids, nodes), w') →
  nodes_loaded config index items w w' ids0 ids nodes0 nodes.
Proof.
  revert index ids0 nodes0 w. induction items as [|item items IH]; intros index ids0 nodes0 w Hnd H; simpl in H.
  - unfold ret in H. simplify_eq. split; [|done|by left| |done|done|done|by split_and!].
    + exists []. by rewrite app_nil_r.
    + intros j id Hj Hl. apply lookup_lt_Some in Hl. lia.
  - apply NoDup_cons in Hnd as [Hni Hnd]. apply bind_ok_inv in H as ([id0 q0] & w1 & H1 & H).
    apply load_node_item_inv in H1 as (d & c & Hd & Hc & Hr & ->). simplify_eq/=.
    apply IH in H; [|done]. destruct H as [(new & -> & Hlen) Hdefs Hnodes Hdom Hkeep Holdn Holdd (?&?&?&?&?)].
    simpl in *. rewrite length_app in *. simpl in *. split.
    + exists (mkNodeId (n_Id (with_id index d)) NODE :: new). rewrite <- (assoc_L (++)). split; [done|].
      simpl. lia.
    + intros [|j] it Hit; simplify_eq/=.
      * exists d. rewrite !Nat.add_0_r. split_and!; [done| |].
        -- rewrite Holdd by done. by rewrite lookup_insert_eq.
        -- rewrite lookup_app_l by (rewrite length_app; simpl; lia). by rewrite list_lookup_middle.
      * destruct (Hdefs j it Hit) as (d' & Hd' & Hd'' & Hid). exists d'.
        assert (item ≠ it) by (intros ->; apply Hni; by eapply list_elem_of_lookup_2).
        rewrite lookup_insert_ne in Hd' by done.
        replace (index + S j) with (S index + j) by lia.
        replace (length ids0 + S j) with (length ids0 + 1 + j) by lia. done.
    + intros id q Hq. destruct (Hnodes id q Hq) as [Hq'|(j & it & c' & ? & ? & ? & ?)].
      * destruct (decide (mkNodeId (n_Id (with_id index d)) NODE = id)) as [<-|Hne].
        -- rewrite lookup_insert_eq in Hq'. simplify_eq. right. exists 0, item, c. rewrite Nat.add_0_r.
           split_and!; [done| | |lia].
           ++ rewrite lookup_app_l by (rewrite length_app; simpl; lia). by rewrite list_lookup_middle.
           ++ rewrite Holdn by lia. by rewrite lookup_insert_eq.
        -- rewrite lookup_insert_ne in Hq' by done. by left.
      * right. exists (S j), it, c'. replace (length ids0 + S j) with (length ids0 + 1 + j) by lia. done.
    + intros j id Hj Hl. destruct (decide (j = length ids0)) as [->|Hne]; [|apply (Hdom j); [lia|done]].
      rewrite lookup_app_l in Hl by (rewrite length_app; simpl; lia).
      rewrite list_lookup_middle in Hl by done. simplify_eq. apply Hkeep.
      rewrite lookup_insert_eq. eauto.
    + intros id Hid. apply Hkeep. apply lookup_insert_is_Some'. by right.
    + intros q Hq. rewrite Holdn by lia. by rewrite lookup_insert_ne by lia.
    + intros q Hq. apply not_elem_of_cons in Hq as [? ?]. rewrite Holdd by done. by rewrite lookup_insert_ne.
    + split_and!; (done || lia).
Qed.

(** A loaded chain is consistent with its definition. *)
Record chain_wf (w : World) (rc : RuleChainCtx) : Prop := {
  wf_ids : ∀ j item, md_Nodes (rc_Metadata (cx_SelfDefinition rc)) !! j = Some item → ∃ d,
    w_defs w !! item = Some d ∧ n_Id d ≠ "" ∧ cx_nodeIds rc !! j = Some (mkNodeId (n_Id d) NODE);
  wf_len : length (cx_nodeIds rc) = length (md_Nodes (rc_Metadata (cx_SelfDefinition rc)));
  wf_dom : ∀ id, id ∈ cx_nodeIds rc → is_Some (cx_nodes rc !! id);
  wf_nodes : ∀ id q, cx_nodes rc !! id = Some q → ∃ rn d,
    w_nodes w !! q = Some rn ∧ nx_SelfDefinition rn ∈ md_Nodes (rc_Metadata (cx_SelfDefinition rc)) ∧
    w_defs w !! nx_SelfDefinition rn = Some d ∧ id = mkNodeId (n_Id d) NODE ∧ q < w_next w;
  wf_bound : Forall (λ item, item < w_next w) (md_Nodes (rc_Metadata (cx_SelfDefinition rc)));
  wf_routes : cx_nodeRoutes rc = load_routes (cx_SelfDefinition rc)
}.


(** The node messages start from. *)
Definition first_node (rc : RuleChainCtx) : option NodeRef :=
  id ← cx_nodeIds rc !! Z.to_nat (md_FirstNodeIndex (rc_Metadata (cx_SelfDefinition rc)));
  NCnode <$> cx_nodes rc !! id.

Lemma GetFirstNode_inv w p rc o w' :
  w_chains w !! p = Some rc → (∀ id, id ∈ cx_nodeIds rc → rn_Type id = NODE) →
  GetFirstNode p w = (ROk o, w') → w' = w ∧ o = first_node rc.
Proof.
  intros Hp Hty. unfold GetFirstNode, GetNodeByIndex, first_node. run.
  repeat case_bool_decide; [|done|].
  - intros ?. unfold ret in *. simplify_eq. split; [done|]. by rewrite lookup_ge_None_2 by lia.
  - destruct (cx_nodeIds rc !! Z.to_nat _) as [id|] eqn:El; [|done]. simpl.
    unfold GetNodeById. run. rewrite (Hty id) by (by eapply list_elem_of_lookup_2).
    intros. unfold ret in *. by simplify_eq.
Qed.

Lemma InitRuleChainCtx_inv config def w p w' :
  NoDup (md_Nodes (rc_Metadata def)) → Forall (λ item, item < w_next w) (md_Nodes (rc_Metadata def)) →
  InitRuleChainCtx config def w = (ROk p, w') →
  ∃ rc, (p = w_next w ∧ p < w_next w') ∧ w_chains w' !! p = Some rc ∧ chain_wf w' rc ∧
    cx_SelfDefinition rc = def ∧ cx_Config rc = config ∧ cx_relationCache rc = ∅ ∧ cx_ruleChainPool rc = None ∧
    cx_Id rc = cx_Id (new_chain_ctx config def [] ∅) ∧
    cx_rootRuleContext rc = (λ self, mkRootCtx config p self (c_Pool config)) <$> first_node rc ∧
    cx_reloadAspects rc = (GetEngineAspects config).1.1.2 ∧ cx_destroyAspects rc = (GetEngineAspects config).1.2 ∧
    (∀ j item, md_Nodes (rc_Metadata def) !! j = Some item → ∃ d,
       w_defs w !! item = Some d ∧ w_defs w' !! item = Some (with_configuration (with_id j d))).
Proof.
  intros Hnd Hlt H. unfold InitRuleChainCtx in H. rewrite bind_alloc in H.
  apply bind_ok_inv in H as ([ids nodes] & w1 & Hl & H).
  apply load_nodes_inv in Hl as [(new & -> & Hlen) Hdefs Hnodes Hdom _ _ _ (_&_&_&_&Hnext)]; [|done]. simpl in *.
  rewrite bind_put_chain in H. apply bind_ok_inv in H as (o & w2 & Hf & H).
  apply (GetFirstNode_inv _ _ (new_chain_ctx config def new nodes)) in Hf as [-> ->]; [|heap_lookup|].
  2:{ simpl. intros id [j Hj]%list_elem_of_lookup. destruct (md_Nodes (rc_Metadata def) !! j) as [item|] eqn:Ei.
      - destruct (Hdefs j item Ei) as (d & _ & _ & ?). by simplify_eq.
      - apply lookup_ge_None in Ei. apply lookup_lt_Some in Hj. lia. }
  unfold bind, put_chain, ret in H. simplify_eq/=. eexists. split; [split; [done|lia]|]. rewrite lookup_insert_eq.
  split; [done|]. split; [|split_and!; try done].
  2:{ intros j item Hj. destruct (Hdefs j item Hj) as (d & ? & ? & _). eauto. }
  split; simpl.
  - intros j item Hj. destruct (Hdefs j item Hj) as (d & _ & ? & Hid). eexists. split_and!; [done| |done].
    unfold with_configuration. simpl. apply with_id_nonempty.
  - done.
  - intros id [j Hj]%list_elem_of_lookup. apply (Hdom j); [lia|done].
  - intros id q Hq. destruct (Hnodes id q Hq) as [?|(j & item & c & Hj & Hid & Hn & Hq')]; [done|].
    destruct (Hdefs j item Hj) as (d & _ & Hd' & Hid'). simplify_eq.
    eexists _, _. split_and!; [done| |done|done|done]. simpl. by eapply list_elem_of_lookup_2.
  - eapply Forall_impl; [done|]. simpl. lia.
  - done.
Qed.

Lemma load_nodes_fresh base config items index ids nodes :
  Forall (λ p, base ≤ p) items → fresh_only base (load_nodes config index items ids nodes).
Proof.
  intros H. revert index ids nodes. induction H as [|item items Hi _ IH]; intros; simpl; [fresh_all|].
  apply fresh_bind; [|intros ?; apply IH]. unfold load_node_item. fresh_all.
  by apply InitRuleNodeCtx_fresh.
Qed.

Lemma GetNodeById_fresh base p id : fresh_only base (GetNodeById p id).
Proof. unfold GetNodeById, RuleGo_Get. fresh_all. Qed.

Lemma GetFirstNode_fresh base p : fresh_only base (GetFirstNode p).
Proof. unfold GetFirstNode, GetNodeByIndex. fresh_all. apply GetNodeById_fresh. Qed.

Lemma InitRuleChainCtx_fresh base config def :
  Forall (λ p, base ≤ p) (md_Nodes (rc_Metadata def)) → fresh_only base (InitRuleChainCtx config def).
Proof.
  intros H. unfold InitRuleChainCtx. apply fresh_alloc. intros p Hp.
  apply fresh_bind; [by apply load_nodes_fresh|intros ns]. fresh_all. apply GetFirstNode_fresh.
Qed.

Context `{P : Parsers}.

(** What allocating the node pointers of a decoded chain leaves: fresh addresses, at which
    the definitions are. *)
Lemma alloc_pointers_spec l w :
  ∃ w', mapM alloc_pointer l w = (ROk (seq (w_next w) (length l)), w') ∧ w_next w' = w_next w + length l ∧
    untouched (w_next w) w w' ∧ Forall2 (λ p o, w_defs w' !! p = o) (seq (w_next w) (length l)) l.
Proof.
  revert w. induction l as [|o l IH]; intros w.
  { exists w. split_and!; [done|simpl; lia|apply untouched_refl|constructor]. }
  assert (∃ w1, alloc_pointer o w = (ROk (w_next w), w1) ∧ w_next w1 = S (w_next w) ∧ w_defs w1 !! w_next w = o ∧
    untouched (w_next w) w w1) as (w1 & E1 & N1 & D1 & U1).
  { destruct o as [n|]; (eexists; split; [reflexivity|]); simpl; split_and!; try done; simpl.
    - apply lookup_insert_eq.
    - split_and!; simpl; try done; [|lia]. intros q Hq. by rewrite lookup_insert_ne by lia.
    - apply lookup_delete_eq.
    - split_and!; simpl; try done; [|lia]. intros q Hq. by rewrite lookup_delete_ne by lia. }
  destruct (IH w1) as (w2 & E2 & N2 & U2 & D2). exists w2. rewrite N1 in *. split_and!.
  - cbn [mapM]. by rewrite (bind_ok _ _ _ _ _ E1), (bind_ok _ _ _ _ _ E2).
  - rewrite N2. simpl. lia.
  - eapply untouched_trans; [exact U1|]. destruct U2 as (H1 & H2). split; [|done]. intros q Hq. apply H1. lia.
  - simpl. constructor; [|exact D2]. destruct U2 as (H1 & _). destruct (H1 (w_next w)) as (-> & _); [lia|done].
Qed.

Lemma DecodeRuleChain_fresh base config dsl : fresh_only base (DecodeRuleChain config dsl).
Proof.
  unfold DecodeRuleChain. fresh_step; [fresh_step|]. fresh_step; [fresh_step|]. intros w Hw.
  destruct (alloc_pointers_spec (md_Nodes (rc_Metadata a0)) w) as (w1 & E1 & N1 & (U1 & U2) & _).
  rewrite (bind_ok _ _ _ _ _ E1).
  eapply untouched_trans; [|apply InitRuleChainCtx_fresh; simpl; [|lia]].
  - split; [|done]. intros p Hp. apply U1. lia.
  - apply Forall_forall. intros q Hq. apply elem_of_seq in Hq. lia.
Qed.


(** The components of a definition, or the first error or panic. *)
Fixpoint components (config : Config) (index : nat) (ds : list RuleNode) : res (list Comp) :=
  match ds with
  | [] => ROk []
  | d :: rest =>
      let! c := new_component config (with_id index d) in
      let! cs := components config (S index) rest in
      ROk (c :: cs)
  end.
(** The same for a decoded definition: reading a nil node panics. *)
Definition nil_dereference : string := "nil pointer dereference".
Fixpoint load_components (config : Config) (index : nat) (ds : list (option RuleNode)) : res (list Comp) :=
  match ds with
  | [] => ROk []
  | None :: _ => RPanic nil_dereference
  | Some d :: rest =>
      let! c := new_component config (with_id index d) in
      let! cs := load_components config (S index) rest in
      ROk (c :: cs)
  end.

Lemma load_components_some config index ds : load_components config index (Some <$> ds) = components config index ds.
Proof.
  revert index. induction ds as [|d ds IH]; intros index; [done|]. csimpl.
  destruct (new_component _ _); simpl; [|done..]. by rewrite IH.
Qed.
Lemma load_components_ok config index ds cs :
  load_components config index ds = ROk cs → ∃ ns, ds = Some <$> ns ∧ components config index ns = ROk cs.
Proof.
  revert index cs. induction ds as [|[d|] ds IH]; intros index cs H; simplify_eq/=; [by exists []|].
  destruct (new_component config (with_id index d)) as [c| |] eqn:Ec; simplify_eq/=.
  destruct (load_components config (S index) ds) as [cs'| |] eqn:Ecs; simplify_eq/=.
  destruct (IH _ _ Ecs) as (ns & -> & Hns). exists (d :: ns). simpl. by rewrite Ec, Hns.
Qed.
Lemma load_components_present config (d : ParsedChain) cs :
  load_components config 0 (md_Nodes (rc_Metadata d)) = ROk cs →
  ∃ d', d = some_nodes d' ∧ components config 0 (md_Nodes (rc_Metadata d')) = ROk cs.
Proof.
  intros (ns & Hns & Hcs)%load_components_ok. exists (RuleChain_map (λ _, ns) d). split; [|done].
  apply present_some. unfold present. by rewrite Hns, all_some_of_fmap.
Qed.

(** ** The program of a definition

    What a definition without sub-chain connections stands for: the ids of its nodes
    (those given by the loader included), their components, its connections and
    the index messages start at.  Nodes are known by their index; when an id is used
    twice, it means the last node that has it. *)
Record program : Type := mkProgram {
  pg_ids : list string;
  pg_comps : list Comp;
  pg_conns : list NodeConnection;
  pg_first : nat
}.

Definition node_ids (index : nat) (ds : list RuleNode) : list string := imap (λ i d, n_Id (with_id (index + i) d)) ds.
Fixpoint node_index (id : string) (ids : list string) : option nat :=
  match ids with
  | [] => None
  | x :: rest => match node_index id rest with
                 | Some i => Some (S i)
                 | None => if bool_decide (x = id) then Some 0 else None
                 end
  end.
Definition program_of (cs : list Comp) (d : RuleChainDef) : program :=
  mkProgram (node_ids 0 (md_Nodes (rc_Metadata d))) cs (md_Connections (rc_Metadata d))
    (Z.to_nat (md_FirstNodeIndex (rc_Metadata d))).

(** The nodes of [pg] are the node contexts at [addrs], found by their ids in [rc]. *)
Record chain_holds (config : Config) (pg : program) (addrs : list nat) (rc : RuleChainCtx) (w : World) : Prop := {
  ch_length : length addrs = length (pg_ids pg);
  ch_distinct : NoDup addrs;
  ch_ids : cx_nodeIds rc = (λ id, mkNodeId id NODE) <$> pg_ids pg;
  ch_nodes : ∀ i a, addrs !! i = Some a → ∃ c item nd,
    pg_comps pg !! i = Some c ∧ w_nodes w !! a = Some (mkNodeCtx c item config) ∧
    w_defs w !! item = Some nd ∧ pg_ids pg !! i = Some (n_Id nd) ∧ a < w_next w ∧ item < w_next w ∧
    item ∈ md_Nodes (rc_Metadata (cx_SelfDefinition rc));
  ch_map : ∀ id, cx_nodes rc !! mkNodeId id NODE = i ← node_index id (pg_ids pg); addrs !! i
}.

Lemma node_ids_cons index d ds : node_ids index (d :: ds) = n_Id (with_id index d) :: node_ids (S index) ds.
Proof.
  unfold node_ids. rewrite imap_cons, Nat.add_0_r. f_equal. apply imap_ext. intros i x _. simpl. by rewrite Nat.add_succ_r.
Qed.
Lemma node_ids_length index ds : length (node_ids index ds) = length ds.
Proof. apply length_imap. Qed.
Lemma node_ids_lookup index ds i d : ds !! i = Some d → node_ids index ds !! i = Some (n_Id (with_id (index + i) d)).
Proof. intros H. unfold node_ids. by rewrite list_lookup_imap, H. Qed.
Lemma node_index_lookup id ids i : node_index id ids = Some i → ids !! i = Some id.
Proof.
  revert i. induction ids as [|x ids IH]; intros i; simpl; [done|]. destruct (node_index id ids) as [j|].
  - intros [= <-]. by apply IH.
  - case_bool_decide; [|done]. intros [= <-]. by subst.
Qed.
Lemma components_length config index ds cs : components config index ds = ROk cs → length cs = length ds.
Proof.
  revert index cs. induction ds as [|d ds IH]; intros index cs; simpl; [by intros [= <-]|].
  destruct (new_component _ _); simpl; [|done..]. destruct (components _ _ _) eqn:E; simpl; [|done..].
  intros [= <-]. simpl. by erewrite IH.
Qed.

Lemma load_node_item_total config index item d w :
  w_defs w !! item = Some d →
  ∃ w', match new_component config (with_id index d) with
        | ROk _ => ∃ r, load_node_item config index item w = (ROk r, w')
        | RErr e => load_node_item config index item w = (RErr e, w')
        | RPanic why => load_node_item config index item w = (RPanic why, w')
        end.
Proof.
  intros Hd. unfold load_node_item. run.
  assert (∃ w1, w_defs w1 !! item = Some (with_id index d) ∧
    (if bool_decide (n_Id d = "") then put_def item (set_n_Id (default_node_id index) d) else ret tt) w = (ROk tt, w1))
    as (w1 & Hd1 & E1).
  { unfold with_id. case_bool_decide; [|by exists w]. eexists. split; [|reflexivity]. apply lookup_insert_eq. }
  rewrite (bind_ok _ _ _ _ _ E1). run.
  destruct (new_component config (with_id index d)) as [c|e|why] eqn:Ec.
  - eexists. eexists. erewrite bind_ok; [reflexivity|]. by eapply InitRuleNodeCtx_ok.
  - pose proof (InitRuleNodeCtx_err _ _ _ _ _ Hd1 Ec) as He. unfold bind.
    destruct (InitRuleNodeCtx config item w1) as [r w']. simpl in He. subst. by eexists.
  - pose proof (InitRuleNodeCtx_panic _ _ _ _ _ Hd1 Ec) as He. unfold bind.
    destruct (InitRuleNodeCtx config item w1) as [r w']. simpl in He. subst. by eexists.
Qed.

Lemma Forall2_defs_insert (m : gmap nat RuleNode) item x items ds :
  (item ∉ items) → Forall2 (λ p o, m !! p = o) items ds →
  Forall2 (λ p o, <[item := x]> m !! p = o) items ds.
Proof.
  intros Hni H. induction H as [|p d items ds Hp _ IH]; constructor; set_unfold in Hni.
  - rewrite lookup_insert_ne; naive_solver.
  - apply IH. naive_solver.
Qed.

Lemma load_nodes_total config items ds index ids nodes w :
  NoDup items → Forall2 (λ p o, w_defs w !! p = o) items ds →
  ∃ w', match load_components config index ds with
        | ROk _ => ∃ r, load_nodes config index items ids nodes w = (ROk r, w')
        | RErr e => load_nodes config index items ids nodes w = (RErr e, w')
        | RPanic why => load_nodes config index items ids nodes w = (RPanic why, w')
        end.
Proof.
  intros Hnd H. revert index ids nodes w Hnd H. revert ds.
  induction items as [|item items IH]; intros ds index ids nodes w Hnd H.
  { apply Forall2_nil_inv_l in H as ->. simpl. unfold ret. eauto. }
  apply Forall2_cons_inv_l in H as (o & ds' & Hd & H & ->). apply NoDup_cons in Hnd as [Hni Hnd].
  destruct o as [d|]; simpl.
  2:{ exists w. unfold load_node_item, bind at 2, get_def, bind. by rewrite Hd. }
  destruct (load_node_item_total config index item d w Hd) as (w1 & E).
  destruct (new_component config (with_id index d)) as [c|e|why] eqn:Ec; simpl;
    [|exists w1; unfold bind; by rewrite E..].
  destruct E as (r & E). rewrite (bind_ok _ _ _ _ _ E). apply load_node_item_inv in E as (d' & c' & ? & ? & -> & ->).
  specialize (IH ds' (S index) (ids ++ [mkNodeId (n_Id (with_id index d')) NODE])
     (<[mkNodeId (n_Id (with_id index d')) NODE := w_next w]> nodes)
     (mkWorld (<[item:=with_configuration (with_id index d')]> (w_defs w))
        (<[w_next w := mkNodeCtx c' item config]> (w_nodes w)) (w_chains w) (w_engines w) (w_pools w)
        (S (w_next w)) (w_log w)) Hnd).
  simpl in *. destruct (load_components config (S index) ds'); simpl; apply IH; by apply Forall2_defs_insert.
Qed.


Lemma Forall2_some (m : gmap nat RuleNode) items ds :
  Forall2 (λ p o, m !! p = o) items (Some <$> ds) ↔ Forall2 (λ p d, m !! p = Some d) items ds.
Proof. by rewrite Forall2_fmap_r. Qed.
Lemma Forall2_some_insert (m : gmap nat RuleNode) item x items ds :
  (item ∉ items) → Forall2 (λ p d, m !! p = Some d) items ds →
  Forall2 (λ p d, <[item := x]> m !! p = Some d) items ds.
Proof. rewrite <- !Forall2_some. apply Forall2_defs_insert. Qed.

(** The node contexts that loading allocates, one after the other. *)
Lemma load_nodes_at config items ds cs index ids nodes w ids' nodes' w' :
  NoDup items → Forall2 (λ p d, w_defs w !! p = Some d) items ds → components config index ds = ROk cs →
  load_nodes config index items ids nodes w = (ROk (ids', nodes'), w') →
  ids' = ids ++ ((λ id, mkNodeId id NODE) <$> node_ids index ds) ∧
  (∀ i c, cs !! i = Some c → ∃ item, items !! i = Some item ∧ w_nodes w' !! (w_next w + i) = Some (mkNodeCtx c item config)) ∧
  (∀ id, nodes' !! mkNodeId id NODE =
     match node_index id (node_ids index ds) with Some i => Some (w_next w + i) | None => nodes !! mkNodeId id NODE end) ∧
  w_next w' = w_next w + length items.
Proof.
  intros Hnd H. revert ds cs index ids nodes w Hnd H.
  induction items as [|item items IH]; intros ds cs index ids nodes w Hnd H Hcs Hl; simpl in Hl.
  { apply Forall2_nil_inv_l in H as ->. simplify_eq/=. unfold ret in Hl. simplify_eq. rewrite app_nil_r, Nat.add_0_r.
    by split_and!. }
  apply Forall2_cons_inv_l in H as (d & ds' & Hd & H & ->). apply NoDup_cons in Hnd as [Hni Hnd]. simpl in Hcs. rewrite node_ids_cons.
  destruct (new_component config (with_id index d)) as [c| |] eqn:Ec; [|done..]. simpl in Hcs.
  destruct (components config (S index) ds') as [cs'| |] eqn:Ecs; [|done..]. simplify_eq/=.
  apply bind_ok_inv in Hl as (r & w1 & E & Hl). apply load_node_item_inv in E as (d' & c' & ? & Hc' & -> & ->). simplify_eq/=.
  rewrite Ec in Hc'. simplify_eq.
  pose proof (load_nodes_inv _ _ _ _ _ _ _ _ _ Hnd Hl) as [_ _ _ _ _ Hold _ _]. simpl in Hold.
  apply (IH ds' cs') in Hl as (-> & Hn & Hm & ->); [|done|by apply Forall2_some_insert|done]. simpl in *.
  split_and!.
  - by rewrite <- (assoc_L (++)).
  - intros [|i] x Hx; simplify_eq/=.
    + exists item. split; [done|]. rewrite Nat.add_0_r, Hold by lia. by rewrite lookup_insert_eq.
    + destruct (Hn i x Hx) as (it & ? & ?). exists it. by rewrite Nat.add_succ_r.
  - intros id. rewrite Hm. simpl. destruct (node_index id (node_ids (S index) ds')) as [i|]; [by rewrite Nat.add_succ_r|].
    case_bool_decide as Hid; [by rewrite <- Hid, lookup_insert_eq, Nat.add_0_r|]. rewrite lookup_insert_ne; [done|]. congruence.
  - lia.
Qed.

Lemma InitRuleChainCtx_holds config def ds cs w p w' :
  NoDup (md_Nodes (rc_Metadata def)) → Forall2 (λ p d, w_defs w !! p = Some d) (md_Nodes (rc_Metadata def)) ds →
  components config 0 ds = ROk cs → Forall (λ item, item < w_next w) (md_Nodes (rc_Metadata def)) →
  InitRuleChainCtx config def w = (ROk p, w') →
  ∃ rc addrs, w_chains w' !! p = Some rc ∧
    chain_holds config (mkProgram (node_ids 0 ds) cs (md_Connections (rc_Metadata def))
      (Z.to_nat (md_FirstNodeIndex (rc_Metadata def)))) addrs rc w'.
Proof.
  intros Hnd Hds Hcs Hb H. unfold InitRuleChainCtx in H. rewrite bind_alloc in H.
  apply bind_ok_inv in H as ([ids nodes] & w1 & Hl & H).
  pose proof (load_nodes_inv _ _ _ _ _ _ _ _ _ Hnd Hl) as [_ Hdefs _ _ _ _ _ _].
  apply (load_nodes_at _ _ ds cs) in Hl as (-> & Hn & Hm & Hnx); [|done..]. simpl in *.
  rewrite bind_put_chain in H. apply bind_ok_inv in H as (o & w2 & Hf & H).
  apply (GetFirstNode_inv _ _ (new_chain_ctx config def ((λ id, mkNodeId id NODE) <$> node_ids 0 ds) nodes)) in Hf as [-> ->];
    [|heap_lookup|simpl; intros id (x & -> & _)%list_elem_of_fmap; done].
  unfold bind, put_chain, ret in H. simplify_eq/=. eexists _, (seq (S (w_next w)) (length ds)). rewrite lookup_insert_eq.
  split; [reflexivity|]. pose proof (components_length _ _ _ _ Hcs) as Hlen. pose proof (Forall2_length _ _ _ Hds) as Hlen2.
  split; simpl.
  - by rewrite length_seq, node_ids_length.
  - apply NoDup_seq.
  - done.
  - intros i a [-> Hi]%lookup_seq. destruct (lookup_lt_is_Some_2 cs i) as [c Hc]; [lia|].
    destruct (Hn i c Hc) as (item & Hitem & Hnode). destruct (Hdefs i item Hitem) as (d & Hd & Hd' & _).
    rewrite Forall2_lookup in Hds. specialize (Hds i). rewrite Hitem in Hds. inversion Hds as [x d0 Hd0 Ex Ed0|]; subst.
    rewrite Hd in Hd0. simplify_eq. exists c, item, (with_configuration (with_id i d0)). rewrite Forall_forall in Hb.
    pose proof (Hb item (list_elem_of_lookup_2 _ _ _ Hitem)).
    split_and!; [done..| |lia|lia|by eapply list_elem_of_lookup_2]. by rewrite (node_ids_lookup 0 ds i d0).
  - intros id. rewrite Hm. destruct (node_index id (node_ids 0 ds)) as [i|] eqn:Ei; simpl; [|apply lookup_empty].
    apply node_index_lookup, lookup_lt_Some in Ei. rewrite node_ids_length in Ei. symmetry. by apply lookup_seq.
Qed.

Lemma mapM_get_def w items ds :
  Forall2 (λ p d, w_defs w !! p = Some d) items ds → mapM get_def items w = (ROk ds, w).
Proof. induction 1 as [|p d items ds Hp _ IH]; simpl; [done|]. run. by rewrite (bind_ok _ _ _ _ _ IH). Qed.

(** What a loaded chain prints: ids and configurations are filled in. *)
Definition completed_def (def : RuleChainDef) : RuleChainDef :=
  RuleChain_map (imap (λ i d, with_configuration (with_id i d))) def.

Definition out_of_range : string := "index out of range".

Lemma InitRuleChainCtx_total config def ds w :
  NoDup (md_Nodes (rc_Metadata def)) →
  Forall2 (λ p o, w_defs w !! p = o) (md_Nodes (rc_Metadata def)) ds →
  match load_components config 0 ds with
  | RErr e => (InitRuleChainCtx config def w).1 = RErr e
  | RPanic why => (InitRuleChainCtx config def w).1 = RPanic why
  | ROk _ =>
      if bool_decide (md_FirstNodeIndex (rc_Metadata def) < 0)%Z
      then (InitRuleChainCtx config def w).1 = RPanic out_of_range
      else ∃ p, (InitRuleChainCtx config def w).1 = ROk p
  end.
Proof.
  intros Hnd Hds. unfold InitRuleChainCtx. run.
  set (w1 := mkWorld _ _ _ _ _ _ _).
  pose proof (load_nodes_total config (md_Nodes (rc_Metadata def)) ds 0 [] ∅ w1 Hnd Hds) as (w2 & E).
  destruct (load_components config 0 ds) as [cs|e|why]; [|unfold bind; by rewrite E..].
  destruct E as ([ids nodes] & E). rewrite (bind_ok _ _ _ _ _ E).
  pose proof (load_nodes_inv _ _ _ _ _ _ _ _ _ Hnd E) as [(new & -> & Hlen) Hdefs Hnodes Hdom _ _ _ _].
  simpl in *. run. unfold GetFirstNode, GetNodeByIndex. run. simpl. rewrite Hlen.
  repeat case_bool_decide; try lia; unfold bind, panic, ret; simpl; [eauto|eauto|].
  destruct (new !! Z.to_nat _) as [id|] eqn:El.
  - destruct (md_Nodes (rc_Metadata def) !! Z.to_nat (md_FirstNodeIndex (rc_Metadata def))) as [item|] eqn:Ei.
    + destruct (Hdefs _ _ Ei) as (d & _ & _ & Hid). simplify_eq. unfold GetNodeById, bind, get_chain. simpl.
      rewrite lookup_insert_eq. simpl. eauto.
    + apply lookup_ge_None in Ei. lia.
  - apply lookup_ge_None in El. lia.
Qed.


Lemma Forall2_completed w w' items ds :
  Forall2 (λ p d, w_defs w !! p = Some d) items ds →
  (∀ j item, items !! j = Some item → ∃ d,
     w_defs w !! item = Some d ∧ w_defs w' !! item = Some (with_configuration (with_id j d))) →
  Forall2 (λ p d, w_defs w' !! p = Some d) items (imap (λ i d, with_configuration (with_id i d)) ds).
Proof.
  intros H Hc. apply Forall2_same_length_lookup. split.
  - rewrite length_imap. by eapply Forall2_length.
  - intros j item d' Hj Hd'. rewrite list_lookup_imap in Hd'.
    destruct (ds !! j) as [d|] eqn:Ed; simplify_eq/=.
    destruct (Hc j item Hj) as (d0 & Hd0 & ->). pose proof (Forall2_lookup_lr _ _ _ _ _ _ H Hj Ed).
    simpl in *. by simplify_eq.
Qed.

(** The context of a decoded chain is built in a world that has its definitions. *)
Lemma DecodeRuleChain_run config parser dsl def w :
  c_Parser config = Some parser → parse_chain parser dsl = Ok def →
  let items := seq (w_next w) (length (md_Nodes (rc_Metadata def))) in
  ∃ w1, DecodeRuleChain config dsl w = InitRuleChainCtx config (RuleChain_map (λ _, items) def) w1 ∧
    Forall2 (λ p o, w_defs w1 !! p = o) items (md_Nodes (rc_Metadata def)) ∧ Forall (λ p, p < w_next w1) items ∧ w_next w ≤ w_next w1.
Proof.
  intros Hp Hd items. unfold DecodeRuleChain. rewrite Hp. run. rewrite Hd. run.
  destruct (alloc_pointers_spec (md_Nodes (rc_Metadata def)) w) as (w1 & E1 & N1 & _ & D1).
  exists w1. rewrite (bind_ok _ _ _ _ _ E1). split_and!; [done|done| |lia].
  apply Forall_forall. intros q Hq%elem_of_seq. lia.
Qed.

(** A loaded chain as the loader leaves it at [p]. *)
Record chain_loaded (config : Config) (def : RuleChainDef) (p : nat) (w : World) : Prop := {
  cl_ctx : ∃ rc, w_chains w !! p = Some rc ∧ chain_wf w rc ∧ cx_Config rc = config ∧
    cx_relationCache rc = ∅ ∧ cx_ruleChainPool rc = None ∧
    cx_Id rc = (if bool_decide (bi_ID (rc_RuleChain def) = "") then mkNodeId "" NODE
                else mkNodeId (bi_ID (rc_RuleChain def)) CHAIN) ∧
    (* the loaded chain routes with itself, starting from its first node *)
    cx_rootRuleContext rc = (λ self, mkRootCtx config p self (c_Pool config)) <$> first_node rc ∧
    cx_reloadAspects rc = (GetEngineAspects config).1.1.2 ∧ cx_destroyAspects rc = (GetEngineAspects config).1.2 ∧
    all_relations (cx_SelfDefinition rc) = all_relations def;
  cl_def : current_definition p w = (ROk (completed_def def), w);
  cl_program : ∃ rc cs addrs, w_chains w !! p = Some rc ∧ components config 0 (md_Nodes (rc_Metadata def)) = ROk cs ∧
    chain_holds config (program_of cs def) addrs rc w
}.

Lemma DecodeRuleChain_loaded config parser dsl def cs w p w' :
  c_Parser config = Some parser → parse_chain parser dsl = Ok (some_nodes def) →
  components config 0 (md_Nodes (rc_Metadata def)) = ROk cs →
  DecodeRuleChain config dsl w = (ROk p, w') → chain_loaded config def p w' ∧ w_next w ≤ p < w_next w'.
Proof.
  intros Hp Hd Hcs H. destruct (DecodeRuleChain_run _ _ _ _ w Hp Hd) as (w1 & E1 & D1 & B1 & N1).
  rewrite E1 in H. clear E1. simpl in *. set (items := seq _ _) in *. apply Forall2_some in D1.
  pose proof (InitRuleChainCtx_holds config (RuleChain_map (λ _, items) (some_nodes def)) _ cs _ p w' (NoDup_seq _ _) D1 Hcs B1 H)
    as (rc0 & addrs & Hrc0 & Hh).
  apply InitRuleChainCtx_inv in H as (rc & [-> Hb] & Hrc & Hwf & Hdef & Hcf & Hca & Hpo & Hid & Hroot & Hr1 & Hr2 & Hitems);
    [|simpl; apply NoDup_seq|done].
  assert (rc0 = rc) as -> by congruence. clear Hrc0. split; [split|].
  - exists rc. rewrite Hdef. by split_and!.
  - unfold current_definition. run. rewrite Hdef. simpl.
    rewrite (bind_ok _ _ _ _ _ (mapM_get_def _ _ _ (Forall2_completed _ _ _ _ D1 Hitems))). done.
  - by exists rc, cs, addrs.
  - done.
Qed.

(** What loading a chain text yields: its definition, or the error or the panic that
    stopped it, whichever comes first: the text does not parse, a node is nil, of an
    unknown type or not initialised, the index of the first node is negative. *)
Definition load_chain (config : Config) (parser : ParserRef) (dsl : string) : res RuleChainDef :=
  let! parsed := to_res (parse_chain parser dsl) in
  let! _ := load_components config 0 (md_Nodes (rc_Metadata parsed)) in
  if bool_decide (md_FirstNodeIndex (rc_Metadata parsed) < 0)%Z then RPanic out_of_range
  else match present parsed with Some def => ROk def | None => RPanic nil_dereference end.

Lemma load_chain_ok config parser dsl def :
  load_chain config parser dsl = ROk def ↔
  parse_chain parser dsl = Ok (some_nodes def) ∧ is_done (components config 0 (md_Nodes (rc_Metadata def))) = true ∧
  (0 ≤ md_FirstNodeIndex (rc_Metadata def))%Z.
Proof.
  unfold load_chain. split.
  - destruct (parse_chain parser dsl) as [parsed|]; [|done]. simpl.
    destruct (load_components config 0 (md_Nodes (rc_Metadata parsed))) as [cs| |] eqn:Ecs; simpl; [|done..].
    case_bool_decide; [done|]. destruct (load_components_present _ _ _ Ecs) as (d' & -> & Hcs).
    rewrite present_some_nodes. intros [= <-]. rewrite Hcs. split_and!; [done..|]. simpl in *. lia.
  - intros (-> & Hcs & Hi). simpl. rewrite load_components_some, present_some_nodes, bool_decide_false by lia.
    by destruct (components _ _ _).
Qed.

Lemma DecodeRuleChain_total config parser dsl w :
  c_Parser config = Some parser →
  let r := DecodeRuleChain config dsl w in
  untouched (w_next w) w r.2 ∧
  match parse_chain parser dsl with
  | Err e => r.1 = RErr e
  | Ok parsed =>
      match load_components config 0 (md_Nodes (rc_Metadata parsed)) with
      | RErr e => r.1 = RErr e
      | RPanic why => r.1 = RPanic why
      | ROk _ =>
          if bool_decide (md_FirstNodeIndex (rc_Metadata parsed) < 0)%Z then r.1 = RPanic out_of_range
          else ∃ def p, parsed = some_nodes def ∧ r.1 = ROk p ∧ w_next w ≤ p < w_next r.2 ∧ chain_loaded config def p r.2
      end
  end.
Proof.
  intros Hp. simpl. split; [by apply DecodeRuleChain_fresh|].
  destruct (parse_chain parser dsl) as [parsed|e] eqn:Hd.
  2:{ unfold DecodeRuleChain. rewrite Hp. run. rewrite Hd. by run. }
  destruct (DecodeRuleChain_run config parser dsl parsed w Hp Hd) as (w1 & E1 & D1 & _ & _).
  pose proof (InitRuleChainCtx_total config (RuleChain_map (λ _, seq (w_next w) (length (md_Nodes (rc_Metadata parsed)))) parsed)
     _ w1 (NoDup_seq _ _) D1) as Ht. rewrite <- E1 in Ht. simpl in Ht.
  destruct (load_components config 0 (md_Nodes (rc_Metadata parsed))) as [cs| |] eqn:Ecs; [|done..].
  case_bool_decide; [done|]. destruct Ht as [p Ht]. destruct (load_components_present _ _ _ Ecs) as (def & -> & Hcs).
  exists def, p. split; [done|]. split; [done|].
  destruct (DecodeRuleChain config dsl w) as [r w'] eqn:E. simpl in Ht. subst r.
  by apply (DecodeRuleChain_loaded _ _ _ _ _ _ _ _ Hp Hd Hcs) in E as [? ?].
Qed.

(** The same, by what loading the text yields. *)
Lemma DecodeRuleChain_load config parser dsl w :
  c_Parser config = Some parser →
  let r := DecodeRuleChain config dsl w in
  untouched (w_next w) w r.2 ∧
  match load_chain config parser dsl with
  | RErr e => r.1 = RErr e
  | RPanic why => r.1 = RPanic why
  | ROk def => ∃ p, r.1 = ROk p ∧ w_next w ≤ p < w_next r.2 ∧ chain_loaded config def p r.2
  end.
Proof.
  intros Hp. destruct (DecodeRuleChain_total config parser dsl w Hp) as [Hu Ht]. split; [done|]. unfold load_chain.
  destruct (parse_chain parser dsl) as [parsed|]; [|done]. simpl.
  destruct (load_components config 0 (md_Nodes (rc_Metadata parsed))); simpl; [|done..].
  case_bool_decide; [done|]. destruct Ht as (def & p & -> & ?). rewrite present_some_nodes. by exists p.
Qed.

(** C6. Loading a chain text, on every branch.  A text that does not parse gives
    the parser's error.  Nodes are loaded in order, and the first that cannot be loaded
    decides: a node of an unknown type, or whose component rejects its configuration, gives
    that error; a node that is [null] in the text, or whose component panics in [Init],
    panics.  Then a negative first-node index panics.  Otherwise the chain loads: no node
    is nil, its context is consistent with the definition, every node without an id has the
    default id in the context and in the definition it prints, the routing table has exactly
    the connections of the text, messages start from the first node, and the cache is empty.
    On every branch nothing that existed before is changed. *)
Theorem DecodeRuleChain_spec config parser dsl w :
  c_Parser config = Some parser →
  let r := DecodeRuleChain config dsl w in
  untouched (w_next w) w r.2 ∧
  match parse_chain parser dsl with
  | Err e => r.1 = RErr e
  | Ok parsed =>
      match load_components config 0 (md_Nodes (rc_Metadata parsed)) with
      | RErr e => r.1 = RErr e
      | RPanic why => r.1 = RPanic why
      | ROk _ =>
          if bool_decide (md_FirstNodeIndex (rc_Metadata parsed) < 0)%Z then r.1 = RPanic out_of_range
          else ∃ def p, parsed = some_nodes def ∧ r.1 = ROk p ∧ w_next w ≤ p < w_next r.2 ∧ chain_loaded config def p r.2
      end
  end.
Proof. apply DecodeRuleChain_total. Qed.

End ChainProps.
