(* ===== verification/Reload.v ===== *)
(** * Reloading chains and nodes

    [RuleChainCtx.Destroy], [ReloadSelf] and [ReloadChild] of [src/chain.go]: what
    they change, what they destroy and what they report, on every branch. *)

From S2P Require Import Prelude GoStrings Value Msg Config Dsl World Node Chain ChainProps.

Section Reload.
Context `{C : Components} `{P : Parsers}.

Definition add_log (w : World) (evs : list Event) : World :=
  mkWorld (w_defs w) (w_nodes w) (w_chains w) (w_engines w) (w_pools w) (w_next w) (w_log w ++ evs).

Lemma add_log_nil w : add_log w [] = w.
Proof. unfold add_log. rewrite app_nil_r. by destruct w. Qed.

Lemma mapM_emit {A} (f : A → Event) l w : mapM_ (λ a, emit (f a)) l w = (ROk tt, add_log w (map f l)).
Proof.
  revert w. induction l as [|a l IH]; intros w; simpl; [by rewrite add_log_nil|].
  run. rewrite IH. unfold add_log. simpl. by rewrite <- (assoc_L (++)).
Qed.

(** The components of a chain, in the order [Destroy] visits them. *)
Definition node_components (w : World) (rc : RuleChainCtx) : list Comp :=
  omap (λ kv, nx_Node <$> w_nodes w !! kv.2) (map_to_list (cx_nodes rc)).

(** [Destroy] destroys every node once, then tells the aspects. *)
Lemma Destroy_spec w p rc :
  w_chains w !! p = Some rc → (∀ id q, cx_nodes rc !! id = Some q → is_Some (w_nodes w !! q)) →
  RuleChainCtx_Destroy p w =
    (ROk tt, add_log w (map EvDestroy (node_components w rc) ++ map (λ a, EvOnDestroy a p) (cx_destroyAspects rc))).
Proof.
  intros Hp Hn. unfold RuleChainCtx_Destroy. run.
  assert (∀ l w0, w_nodes w0 = w_nodes w → (∀ kv, kv ∈ l → is_Some (w_nodes w !! kv.2)) →
    mapM_ (λ kv : RuleNodeId * nat, RuleNodeCtx_Destroy kv.2) l w0 =
      (ROk tt, add_log w0 (map EvDestroy (omap (λ kv, nx_Node <$> w_nodes w !! kv.2) l)))) as Hl.
  { induction l as [|[id q] l IH]; intros w0 E0 Hex; simpl; [by rewrite add_log_nil|].
    destruct (Hex (id, q)) as [rn Hrn]; [set_solver|]. simpl in Hrn.
    unfold RuleNodeCtx_Destroy at 1. rewrite <- E0 in Hrn. run. rewrite E0 in Hrn. rewrite IH.
    - rewrite Hrn. simpl. unfold add_log. simpl. by rewrite <- (assoc_L (++)).
    - done.
    - intros kv Hkv. apply Hex. set_solver. }
  erewrite bind_ok; [|apply Hl; [done|]].
  - rewrite mapM_emit. unfold add_log, node_components. simpl. by rewrite <- (assoc_L (++)).
  - intros [id q] Hkv%elem_of_map_to_list. eauto.
Qed.

(** Every component of a chain is destroyed exactly once: the events are in
    bijection with the nodes of the chain. *)
Lemma node_components_length w rc :
  (∀ id q, cx_nodes rc !! id = Some q → is_Some (w_nodes w !! q)) →
  length (node_components w rc) = size (cx_nodes rc).
Proof.
  intros Hn. unfold node_components. rewrite <- length_map_to_list.
  assert (∀ kv, kv ∈ map_to_list (cx_nodes rc) → is_Some (w_nodes w !! kv.2)) as H.
  { intros [id q] Hkv%elem_of_map_to_list. eauto. }
  induction (map_to_list (cx_nodes rc)) as [|kv l IH]; [done|]. simpl.
  destruct (H kv) as [rn ->]; [set_solver|]. simpl. f_equal. apply IH. intros kv' ?. apply H. set_solver.
Qed.

(** A reload that failed: only the reload aspects saw it. *)
Definition reload_failed (p : nat) (rc : RuleChainCtx) (e : string) (w : World) (r : res unit * World) : Prop :=
  r.1 = RErr e ∧
  (∀ q, q < w_next w → w_defs r.2 !! q = w_defs w !! q ∧ w_nodes r.2 !! q = w_nodes w !! q
                        ∧ w_chains r.2 !! q = w_chains w !! q) ∧
  w_engines r.2 = w_engines w ∧ w_pools r.2 = w_pools w ∧ w_next w ≤ w_next r.2 ∧
  w_log r.2 = w_log w ++ map (λ a, EvOnReload a (NCchain p) (NCchain p) (Some e)) (cx_reloadAspects rc).

Lemma ReloadSelf_decode_err p def w rc e w1 :
  w_chains w !! p = Some rc → p < w_next w →
  DecodeRuleChain (cx_Config rc) def w = (RErr e, w1) → untouched (w_next w) w w1 →
  reload_failed p rc e w (RuleChainCtx_ReloadSelf p def w).
Proof.
  intros Hp Hlt E (Hu & ? & ? & Hlog & ?). unfold RuleChainCtx_ReloadSelf. run. unfold try. rewrite E.
  destruct (Hu p Hlt) as (_ & _ & Hp1). rewrite Hp in Hp1. run. simpl.
  unfold call_OnReload. rewrite (bind_ok _ _ _ _ _ (mapM_emit _ _ _)). simpl.
  unfold reload_failed, fail. simpl. rewrite Hlog. split_and!; auto.
Qed.

Lemma ReloadSelf_decode_panic p def w rc why w1 :
  w_chains w !! p = Some rc → DecodeRuleChain (cx_Config rc) def w = (RPanic why, w1) →
  RuleChainCtx_ReloadSelf p def w = (RPanic why, w1).
Proof. intros Hp E. unfold RuleChainCtx_ReloadSelf. run. unfold try. by rewrite E. Qed.

Lemma mapM_get_def_frame defs l :
  ∃ r, ∀ w, w_defs w = defs → mapM get_def l w = (r, w).
Proof.
  induction l as [|x l [r IH]]; [by exists (ROk [])|]. destruct (defs !! x) as [d|] eqn:E.
  - exists (match r with ROk ds => ROk (d :: ds) | RErr e => RErr e | RPanic y => RPanic y end).
    intros w Hw. simpl. rewrite <- Hw in E. run. unfold bind. rewrite IH by done. by destruct r.
  - exists (RPanic "nil pointer dereference"). intros w <-. simpl. unfold bind, get_def. by rewrite E.
Qed.

Lemma current_definition_frame p w w' :
  w_defs w' = w_defs w → w_chains w' !! p = w_chains w !! p →
  (current_definition p w').1 = (current_definition p w).1 ∧ (current_definition p w').2 = w'.
Proof.
  intros Hd Hp. unfold current_definition, bind, get_chain. rewrite Hp.
  destruct (w_chains w !! p) as [rc|]; [|done]. simpl.
  destruct (mapM_get_def_frame (w_defs w) (md_Nodes (rc_Metadata (cx_SelfDefinition rc)))) as [r Hr].
  rewrite !Hr by done. by destruct r.
Qed.

Lemma chain_wf_frame w w' rc :
  w_defs w' = w_defs w → w_nodes w' = w_nodes w → w_next w ≤ w_next w' → chain_wf w rc → chain_wf w' rc.
Proof.
  intros Hd Hn Hle [? ? ? Hnodes Hb ?]. split; rewrite ?Hd, ?Hn; try done.
  - intros id q Hq. destruct (Hnodes id q Hq) as (rn & d & ? & ? & ? & ? & ?). exists rn, d. split_and!; (done || lia).
  - eapply Forall_impl; [done|]. simpl. lia.
Qed.

Lemma chain_holds_below config pg addrs rc w w' :
  (∀ q, q < w_next w → w_defs w' !! q = w_defs w !! q ∧ w_nodes w' !! q = w_nodes w !! q) → w_next w ≤ w_next w' →
  chain_holds config pg addrs rc w → chain_holds config pg addrs rc w'.
Proof.
  intros Hu Hle [? ? ? Hn ?]. split; try done. intros i a Ha. destruct (Hn i a Ha) as (c & item & nd & Hc & Hw & Hd & Hid & Hb1 & Hb2 & ?).
  exists c, item, nd. destruct (Hu a Hb1) as [_ ->], (Hu item Hb2) as [-> _]. split_and!; (done || lia).
Qed.

Lemma chain_loaded_frame cfg def p w w' :
  w_defs w' = w_defs w → w_nodes w' = w_nodes w → w_chains w' !! p = w_chains w !! p →
  w_next w ≤ w_next w' → chain_loaded cfg def p w → chain_loaded cfg def p w'.
Proof.
  intros Hd Hn Hp Hle [(rc & Hrc & Hwf & Hrest) Hdef (rc2 & cs & addrs & Hrc2 & Hcs & Hh)]. split.
  - exists rc. rewrite Hp. split_and!; try tauto. by eapply chain_wf_frame.
  - destruct (current_definition_frame p w w' Hd Hp) as [E1 E2]. rewrite Hdef in E1.
    destruct (current_definition p w'); simpl in *; congruence.
  - exists rc2, cs, addrs. rewrite Hp. split_and!; try done. eapply chain_holds_below; [|done|exact Hh]. by rewrite Hd, Hn.
Qed.

(** A reload that succeeded: the chain at [p] has become the freshly loaded one. *)
Definition reload_done (p : nat) (rc : RuleChainCtx) (d : RuleChainDef) (w : World) (r : res unit * World) : Prop :=
  ∃ newp rc', r.1 = ROk tt ∧ w_next w ≤ newp < w_next r.2 ∧
    chain_loaded (cx_Config rc) d newp r.2 ∧
    w_chains r.2 !! newp = Some rc' ∧ w_chains r.2 !! p = Some rc' ∧
    (∀ q, q < w_next w → q ≠ p → w_chains r.2 !! q = w_chains w !! q) ∧
    (∀ q, q < w_next w → w_nodes r.2 !! q = w_nodes w !! q ∧ w_defs r.2 !! q = w_defs w !! q) ∧
    w_engines r.2 = w_engines w ∧ w_pools r.2 = w_pools w ∧
    w_log r.2 = w_log w ++ map EvDestroy (node_components w rc)
                        ++ map (λ a, EvOnDestroy a p) (cx_destroyAspects rc)
                        ++ map (λ a, EvOnReload a (NCchain p) (NCchain p) None) (cx_reloadAspects rc').

Lemma ReloadSelf_decode_ok p def d w rc newp w1 :
  w_chains w !! p = Some rc → p < w_next w → chain_wf w rc →
  DecodeRuleChain (cx_Config rc) def w = (ROk newp, w1) → untouched (w_next w) w w1 →
  chain_loaded (cx_Config rc) d newp w1 → w_next w ≤ newp < w_next w1 →
  reload_done p rc d w (RuleChainCtx_ReloadSelf p def w).
Proof.
  intros Hp Hlt Hwf E (Hu & He & Hpo & Hlog & _) Hcl [Hnew Hnew2].
  pose proof Hcl as [(rc' & Hrc' & _ & _ & Hca & _) _ _].
  unfold RuleChainCtx_ReloadSelf. run. unfold try. rewrite E.
  destruct (Hu p Hlt) as (_ & _ & Hp1). rewrite Hp in Hp1.
  assert (∀ id q, cx_nodes rc !! id = Some q → w_nodes w1 !! q = w_nodes w !! q ∧ is_Some (w_nodes w1 !! q)) as Hn.
  { intros id q Hq. destruct (wf_nodes _ _ Hwf id q Hq) as (rn & _ & Hrn & _ & _ & _ & Hql).
    destruct (Hu q Hql) as (_ & Hq1 & _). rewrite Hq1, Hrn. eauto. }
  run. erewrite bind_ok; [|apply (Destroy_spec _ _ _ Hp1); intros id q Hq; by apply (Hn id q Hq)].
  unfold RuleChainCtx_Copy. run. simpl. unfold call_OnReload. rewrite (bind_ok _ _ _ _ _ (mapM_emit _ _ _)).
  simpl. unfold reload_done, ret. simpl. exists newp, rc'.
  assert (rc' = mkChainCtx (cx_Id rc') (cx_SelfDefinition rc') (cx_Config rc') (cx_initialized rc')
       (cx_componentsRegistry rc') (cx_nodeIds rc') (cx_nodes rc') (cx_nodeRoutes rc') ∅
       (cx_rootRuleContext rc') (cx_ruleChainPool rc') (cx_reloadAspects rc') (cx_destroyAspects rc')) as Erc.
  { rewrite <- Hca. by destruct rc'. }
  rewrite <- Erc. rewrite lookup_insert_eq. rewrite lookup_insert_ne by lia.
  split_and!; try done.
  - eapply chain_loaded_frame; [| | | |exact Hcl]; [done|done| |done]. simpl. by rewrite lookup_insert_ne by lia.
  - intros q ? ?. rewrite lookup_insert_ne by done. by apply Hu.
  - intros q ?. destruct (Hu q) as (? & ? & ?); auto.
  - rewrite Hlog, <- !(assoc_L (++)). do 3 f_equal. unfold node_components.
    apply list_omap_ext. apply Forall_Forall2_diag. apply Forall_forall. intros [id q] Hkv%elem_of_map_to_list. simpl. f_equal.
    by apply (Hn id q).
Qed.


(** C10. Reloading a chain, on every branch.  When loading the new text gives an error (it
    does not parse, a node is of an unknown type or rejects its configuration), the
    error is returned, the running chain, its nodes and everything else stay as
    they are, nothing is destroyed, and the reload aspects are told the error.  When
    loading it panics (a node is [null], a component panics in [Init], the index of the
    first node is negative), the panic goes on, everything stays as it is and no aspect
    is told.  When it loads, every component of the old chain is destroyed once, then the
    destroy aspects run, the chain becomes the freshly loaded one (with an empty
    routing cache) and the reload aspects of the new configuration are told. *)
Theorem RuleChainCtx_ReloadSelf_spec p def w rc parser :
  w_chains w !! p = Some rc → p < w_next w → chain_wf w rc → c_Parser (cx_Config rc) = Some parser →
  match load_chain (cx_Config rc) parser def with
  | RErr e => reload_failed p rc e w (RuleChainCtx_ReloadSelf p def w)
  | RPanic why => ∃ w', RuleChainCtx_ReloadSelf p def w = (RPanic why, w') ∧ untouched (w_next w) w w'
  | ROk d => reload_done p rc d w (RuleChainCtx_ReloadSelf p def w)
  end.
Proof.
  intros Hp Hlt Hwf Hpar. pose proof (DecodeRuleChain_load (cx_Config rc) parser def w Hpar) as [Hu Hs].
  destruct (DecodeRuleChain (cx_Config rc) def w) as [r w1] eqn:E. simpl in *.
  destruct (load_chain (cx_Config rc) parser def) as [d|e|why].
  - destruct Hs as (newp & -> & ? & ?). by eapply ReloadSelf_decode_ok.
  - subst. by eapply ReloadSelf_decode_err.
  - subst. exists w1. split; [|done]. by eapply ReloadSelf_decode_panic.
Qed.

(** ** Reloading a node of a chain *)

Lemma chain_wf_node_reload w w' rc q rn d n c :
  chain_wf w rc → w_nodes w !! q = Some rn → w_defs w !! nx_SelfDefinition rn = Some d →
  w_nodes w' !! q = Some (mkNodeCtx c (nx_SelfDefinition rn) (nx_Config rn)) →
  w_defs w' !! nx_SelfDefinition rn = Some (reloaded_def d n) →
  (∀ q', q' < w_next w → q' ≠ q → w_nodes w' !! q' = w_nodes w !! q') →
  (∀ q', q' < w_next w → q' ≠ nx_SelfDefinition rn → w_defs w' !! q' = w_defs w !! q') →
  w_next w ≤ w_next w' → chain_wf w' rc.
Proof.
  intros [Hids ? ? Hnodes Hb ?] Hq Hd Hq' Hd' Hn Hdd Hle.
  assert (∀ item d0, item < w_next w → w_defs w !! item = Some d0 →
    ∃ d1, w_defs w' !! item = Some d1 ∧ n_Id d1 = n_Id d0) as Hdef.
  { intros item d0 Hi Hd0. destruct (decide (item = nx_SelfDefinition rn)) as [->|Hne].
    - simplify_eq. eauto.
    - rewrite Hdd by done. eauto. }
  rewrite Forall_forall in Hb. split; try done.
  - intros j item Hj. destruct (Hids j item Hj) as (d0 & Hd0 & Hne & Hid).
    destruct (Hdef item d0) as (d1 & Hd1 & E); [apply Hb; by eapply list_elem_of_lookup_2|done|].
    exists d1. by rewrite E.
  - intros id q0 Hq0. destruct (Hnodes id q0 Hq0) as (rn0 & d0 & Hrn0 & Hin & Hd0 & -> & Hlt).
    destruct (Hdef _ _ (Hb _ Hin) Hd0) as (d1 & Hd1 & E).
    destruct (decide (q0 = q)) as [->|Hne].
    + simplify_eq. eexists _, _. split_and!; [done..|lia].
    + exists rn0, d1. rewrite Hn, E by done. split_and!; [done..|lia].
  - apply Forall_forall. intros x Hx. specialize (Hb x Hx). lia.
Qed.

Lemma chain_wf_below w w' rc :
  chain_wf w rc → (∀ q, q < w_next w → w_defs w' !! q = w_defs w !! q ∧ w_nodes w' !! q = w_nodes w !! q) →
  w_next w ≤ w_next w' → chain_wf w' rc.
Proof.
  intros [Hids ? ? Hnodes Hb ?] Hu Hle. rewrite Forall_forall in Hb. split; try done.
  - intros j item Hj. destruct (Hids j item Hj) as (d & ? & ?). exists d.
    assert (item ∈ md_Nodes (rc_Metadata (cx_SelfDefinition rc))) by (by eapply list_elem_of_lookup_2).
    destruct (Hu item) as (-> & _); auto.
  - intros id q Hq. destruct (Hnodes id q Hq) as (rn & d & ? & ? & ? & ? & ?). exists rn, d.
    destruct (Hu q) as (_ & ->); [done|]. destruct (Hu (nx_SelfDefinition rn)) as (-> & _); [auto|].
    split_and!; (done || lia).
  - apply Forall_forall. intros x Hx. specialize (Hb x Hx). lia.
Qed.

Lemma untouched_chain_wf w w' rc : chain_wf w rc → untouched (w_next w) w w' → chain_wf w' rc.
Proof.
  intros Hwf (Hu & _ & _ & _ & Hle). apply (chain_wf_below w); [done| |done]. intros q Hq. by destruct (Hu q Hq) as (? & ? & _).
Qed.

(** Every node can be reloaded: its configuration names a parser. *)
Definition has_parsers (w : World) (rc : RuleChainCtx) : Prop :=
  ∀ id q rn, cx_nodes rc !! id = Some q → w_nodes w !! q = Some rn → is_Some (c_Parser (nx_Config rn)).

(** The outcome of reloading node [q] of chain [p] with [def]. *)
Definition child_reloaded (p q : nat) (rc : RuleChainCtx) (rn : RuleNodeCtx) (parser : ParserRef) (def : string)
    (w : World) (r : res unit * World) : Prop :=
  (∀ q', q' < w_next w → w_chains r.2 !! q' = w_chains w !! q') ∧
  w_engines r.2 = w_engines w ∧ w_pools r.2 = w_pools w ∧ w_next w ≤ w_next r.2 ∧
  chain_wf r.2 rc ∧
  (∀ q', q' < w_next w → q' ≠ q → w_nodes r.2 !! q' = w_nodes w !! q') ∧
  match load_node (nx_Config rn) parser def with
  | ROk (n, c) =>
      r.1 = ROk tt ∧ w_nodes r.2 !! q = Some (mkNodeCtx c (nx_SelfDefinition rn) (nx_Config rn)) ∧
      (∀ item d, item ∈ md_Nodes (rc_Metadata (cx_SelfDefinition rc)) → w_defs w !! item = Some d →
         w_defs r.2 !! item = Some (if decide (item = nx_SelfDefinition rn) then reloaded_def d n else d)) ∧
      w_log r.2 = w_log w ++ EvDestroy (nx_Node rn) ::
         map (λ a, EvOnReload a (NCchain p) (NCnode q) None) (cx_reloadAspects rc)
  | RErr e =>
      r.1 = RErr e ∧ w_nodes r.2 !! q = Some rn ∧
      (∀ item, item < w_next w → w_defs r.2 !! item = w_defs w !! item) ∧
      w_log r.2 = w_log w ++ map (λ a, EvOnReload a (NCchain p) (NCnode q) (Some e)) (cx_reloadAspects rc)
  | RPanic why =>
      r.1 = RPanic why ∧ w_nodes r.2 !! q = Some rn ∧
      (∀ item, item < w_next w → w_defs r.2 !! item = w_defs w !! item) ∧ w_log r.2 = w_log w
  end.

Lemma ReloadChild_node p id q def w rc rn parser :
  w_chains w !! p = Some rc → p < w_next w → chain_wf w rc → rn_Type id = NODE →
  cx_nodes rc !! id = Some q → w_nodes w !! q = Some rn → c_Parser (nx_Config rn) = Some parser →
  child_reloaded p q rc rn parser def w (RuleChainCtx_ReloadChild p id def w).
Proof.
  intros Hp Hlt Hwf Hty Hq Hrn Hpar.
  destruct (wf_nodes _ _ Hwf _ _ Hq) as (rn' & d & ? & Hin & Hd & Hid & Hql). simplify_eq.
  pose proof (wf_bound _ _ Hwf) as Hb. rewrite Forall_forall in Hb.
  unfold RuleChainCtx_ReloadChild, GetNodeById. run. rewrite Hty. run. rewrite Hq. simpl. unfold try, child_reloaded.
  destruct (load_node (nx_Config rn) parser def) as [[n c]|e|why] eqn:Hl.
  - destruct (RuleNodeCtx_ReloadSelf_ok q def w rn d parser n c Hrn Hd Hql (Hb _ Hin) Hpar Hl)
      as (w' & -> & Hn' & Hd' & Hlog & Hch & He & Hpo & Hnx & Hnf & Hdf). simpl.
    rewrite <- Hch in Hp. run. unfold call_OnReload. rewrite (bind_ok _ _ _ _ _ (mapM_emit _ _ _)). simpl.
    split_and!; try done; try (by rewrite Hch).
    + eapply chain_wf_frame; [| | |eapply (chain_wf_node_reload w w'); eauto]; done.
    + intros item d0 Hi Hd0. case_decide as E; [simplify_eq; done|]. rewrite Hdf; [done|by apply Hb|done].
    + by rewrite Hlog, <- (assoc_L (++)).
  - destruct (RuleNodeCtx_ReloadSelf_err q def w rn parser e Hrn Hpar Hl) as (w' & -> & Hu).
    pose proof Hu as (Hu' & He & Hpo & Hlog & Hnx). simpl. destruct (Hu' p Hlt) as (_ & _ & Hp').
    rewrite Hp in Hp'. run. unfold call_OnReload. rewrite (bind_ok _ _ _ _ _ (mapM_emit _ _ _)). simpl.
    split_and!; try done.
    + intros q' Hq'. by apply Hu'.
    + eapply chain_wf_frame; [| | |by eapply untouched_chain_wf]; done.
    + intros q' Hq' _. by apply Hu'.
    + rewrite <- Hrn. by apply Hu'.
    + intros item Hi. by apply Hu'.
    + by rewrite Hlog.
  - destruct (RuleNodeCtx_ReloadSelf_panic q def w rn parser why Hrn Hpar Hl) as (w' & -> & Hu).
    pose proof Hu as (Hu' & He & Hpo & Hlog & Hnx). simpl. split_and!; try done.
    + intros q' Hq'. by apply Hu'.
    + by eapply untouched_chain_wf.
    + intros q' Hq' _. by apply Hu'.
    + rewrite <- Hrn. by apply Hu'.
    + intros item Hi. by apply Hu'.
Qed.

(** C11. Reloading one node of a chain: a known node gets the new component and
    definition under its old id (the old component is destroyed once and the
    reload aspects are told), or, when the text does not load, keeps the old ones
    and the error is returned and reported (or a panic of the component's [Init] goes on,
    with nothing destroyed or reported); the other nodes and the chain itself
    are unchanged and the chain stays consistent.  For an id the chain does not
    have, nothing happens and no error is returned. *)
Theorem RuleChainCtx_ReloadChild_spec p id def w rc :
  w_chains w !! p = Some rc → p < w_next w → chain_wf w rc → has_parsers w rc → rn_Type id = NODE →
  match cx_nodes rc !! id with
  | None => RuleChainCtx_ReloadChild p id def w = (ROk tt, w)
  | Some q => ∃ rn parser, w_nodes w !! q = Some rn ∧ c_Parser (nx_Config rn) = Some parser ∧
      child_reloaded p q rc rn parser def w (RuleChainCtx_ReloadChild p id def w)
  end.
Proof.
  intros Hp Hlt Hwf Hpa Hty. destruct (cx_nodes rc !! id) as [q|] eqn:Hq.
  - destruct (wf_nodes _ _ Hwf _ _ Hq) as (rn & d & Hrn & _). destruct (Hpa _ _ _ Hq Hrn) as [parser Hpar].
    exists rn, parser. split_and!; [done..|]. by apply (ReloadChild_node p id).
  - unfold RuleChainCtx_ReloadChild, GetNodeById. run. rewrite Hty. run. by rewrite Hq.
Qed.

(** A client that reloads nodes and goes on after errors. *)
Definition reload_children (p : nat) (l : list (string * string)) : M unit :=
  mapM_ (λ kv, try (RuleChainCtx_ReloadChild p (mkNodeId kv.1 NODE) kv.2) (λ _, ret tt)) l.

(** Any sequence of node reloads, failing or not (without a panic), leaves the chain context as
    it was: the same ids, routes, node objects, root context and routing cache.
    Since nodes are replaced inside their node objects, a cache with current
    answers still has current answers, and the chain stays consistent. *)
Theorem reload_children_preserves p l w rc :
  w_chains w !! p = Some rc → p < w_next w → chain_wf w rc → has_parsers w rc → cache_ok w rc →
  Forall (λ kv, ∀ config parser why, load_node config parser kv.2 ≠ RPanic why) l →
  ∃ w', reload_children p l w = (ROk tt, w') ∧
    w_chains w' !! p = Some rc ∧ chain_wf w' rc ∧ has_parsers w' rc ∧ cache_ok w' rc.
Proof.
  revert w. induction l as [|[id def] l IH]; intros w Hp Hlt Hwf Hpa Hc Hnp; [by exists w|].
  apply Forall_cons in Hnp as [Hnp Hnps]. simpl in Hnp. unfold reload_children. simpl.
  assert (∃ r w', RuleChainCtx_ReloadChild p (mkNodeId id NODE) def w = (r, w') ∧ (∀ why, r ≠ RPanic why) ∧
     w_chains w' !! p = Some rc ∧ p < w_next w' ∧ chain_wf w' rc ∧ has_parsers w' rc ∧ cache_ok w' rc)
    as (r & w' & E & Hr & Hp' & Hlt' & Hwf' & Hpa' & Hc').
  { destruct (cx_nodes rc !! mkNodeId id NODE) as [q|] eqn:Hq.
    - destruct (wf_nodes _ _ Hwf _ _ Hq) as (rn & d & Hrn & _). destruct (Hpa _ _ _ Hq Hrn) as [parser Hpar].
      pose proof (ReloadChild_node p (mkNodeId id NODE) q def w rc rn parser Hp Hlt Hwf eq_refl Hq Hrn Hpar)
        as (Hch & He & Hpo & Hnx & Hwf' & Hnf & Hres).
      destruct (RuleChainCtx_ReloadChild p _ def w) as [r w']. simpl in *. exists r, w'.
      split_and!; [done| |by rewrite Hch|lia|done| |].
      + intros why ->. by destruct (load_node _ _ _) as [[]| |] eqn:El; destruct Hres; [..|by apply Hnp in El].
      + intros id' q' rn' Hq' Hrn'. destruct (decide (q' = q)) as [->|Hne].
        * destruct (load_node _ _ _) as [[n c]| |]; destruct Hres as (_ & Hq2 & _);
            rewrite Hq2 in Hrn'; simplify_eq/=; eauto.
        * rewrite Hnf in Hrn'; [by eapply Hpa| |done].
          by destruct (wf_nodes _ _ Hwf _ _ Hq') as (? & ? & ? & ? & ? & ? & ?).
      + intros id' rel' l' Hl'. rewrite (Hc _ _ _ Hl'). unfold next_nodes, resolve. by rewrite He, Hpo.
    - exists (ROk tt), w. split_and!; try done. unfold RuleChainCtx_ReloadChild, GetNodeById. run. simpl. run.
      by rewrite Hq. }
  destruct (IH w' Hp' Hlt' Hwf' Hpa' Hc' Hnps) as (w2 & E2 & ?). exists w2. split; [|done].
  unfold bind, try. rewrite E. destruct r; [exact E2|exact E2|naive_solver].
Qed.

End Reload.
