(* ===== verification/ChainExamples.v ===== *)
(** * Chain contexts on concrete texts

    The hypotheses of the chain theorems hold of chains loaded from texts. *)

From S2P Require Import Prelude GoStrings Value Msg Config Dsl World Node Samples Chain ChainProps Reload.
Import Samples.

Definition main_world : World := (DecodeRuleChain cfg "main" initialWorld).2.
Definition main_ctx : RuleChainCtx :=
  default (new_chain_ctx cfg (mkRuleChain (base "") (mkRuleMetadata 0 [] [] [] false false)) [] ∅) (w_chains main_world !! 4).

Lemma main_at : w_chains main_world !! 4 = Some main_ctx.
Proof. vm_compute. reflexivity. Defined.

Lemma main_loaded : chain_loaded cfg chain_main 4 main_world.
Proof.
  destruct (DecodeRuleChain_load cfg JsonParser "main" initialWorld eq_refl) as [_ (p & Hp & _ & H)].
  assert (p = 4) as ->; [|done]. vm_compute in Hp. congruence.
Defined.

Lemma main_wf : chain_wf main_world main_ctx.
Proof.
  destruct main_loaded as [(rc & Hrc & H & _) _]. rewrite main_at in Hrc. congruence.
Defined.

Lemma main_cache : cx_relationCache main_ctx = ∅.
Proof. reflexivity. Defined.

Lemma main_pool : pool_ok main_world main_ctx.
Proof. exists ∅. split; [reflexivity|]. intros id e. by rewrite lookup_empty. Defined.

Lemma main_cache_ok : cache_ok main_world main_ctx.
Proof. intros id rel l. rewrite main_cache. by rewrite lookup_empty. Defined.

Lemma main_parsers : has_parsers main_world main_ctx.
Proof.
  intros id q rn _ Hrn.
  assert (map_Forall (λ _ rn, is_Some (c_Parser (nx_Config rn))) (w_nodes main_world)) as H.
  { by_decide. }
  exact (H q rn Hrn).
Defined.

Lemma GetNextNodes_correct_witness :
  ∃ cache, mapM (λ q, GetNextNodes 4 q.1 q.2)
      [(mkNodeId "node0" NODE, "Success"); (mkNodeId "node1" NODE, "Success"); (mkNodeId "node0" NODE, "Success")]
      main_world =
    (ROk [([NCnode 6; NCnode 7], true); ([], false); ([NCnode 6; NCnode 7], true)],
     with_cache main_world 4 main_ctx cache).
Proof.
  destruct (GetNextNodes_correct main_world 4 main_ctx
     [(mkNodeId "node0" NODE, "Success"); (mkNodeId "node1" NODE, "Success"); (mkNodeId "node0" NODE, "Success")]
     main_at main_pool main_cache_ok) as (cache & H & _).
  exists cache. exact H.
Defined.

Lemma DecodeRuleChain_spec_witness :
  (DecodeRuleChain cfg "main" initialWorld).1 = ROk 4 ∧ (DecodeRuleChain cfg "negative" initialWorld).1 = RPanic out_of_range ∧
  (DecodeRuleChain cfg "null" initialWorld).1 = RPanic nil_dereference ∧
  (DecodeRuleChain cfg "unknown" initialWorld).1 = RErr "component not found.componentType=xyz".
Proof.
  split_and!.
  - destruct (DecodeRuleChain_spec cfg JsonParser "main" initialWorld eq_refl) as [_ (def & p & _ & Hp & _ & _)]. reflexivity.
  - exact (proj2 (DecodeRuleChain_spec cfg JsonParser "negative" initialWorld eq_refl)).
  - exact (proj2 (DecodeRuleChain_spec cfg JsonParser "null" initialWorld eq_refl)).
  - exact (proj2 (DecodeRuleChain_spec cfg JsonParser "unknown" initialWorld eq_refl)).
Defined.

Lemma RuleChainCtx_ReloadSelf_witness :
  reload_failed 4 main_ctx "component not found.componentType=xyz" main_world (RuleChainCtx_ReloadSelf 4 "unknown" main_world) ∧
  (∃ w', RuleChainCtx_ReloadSelf 4 "null" main_world = (RPanic nil_dereference, w')) ∧
  reload_done 4 main_ctx (chain "sub" 0 [node "a" "log"] [] []) main_world (RuleChainCtx_ReloadSelf 4 "sub" main_world).
Proof.
  assert (4 < w_next main_world) as Hlt by (vm_compute; lia). split_and!.
  - exact (RuleChainCtx_ReloadSelf_spec 4 "unknown" main_world main_ctx JsonParser main_at Hlt main_wf eq_refl).
  - destruct (RuleChainCtx_ReloadSelf_spec 4 "null" main_world main_ctx JsonParser main_at Hlt main_wf eq_refl) as (w' & H & _).
    by exists w'.
  - exact (RuleChainCtx_ReloadSelf_spec 4 "sub" main_world main_ctx JsonParser main_at Hlt main_wf eq_refl).
Defined.

Lemma RuleChainCtx_ReloadChild_witness :
  (∃ rn parser, child_reloaded 4 6 main_ctx rn parser "filter" main_world
     (RuleChainCtx_ReloadChild 4 (mkNodeId "node1" NODE) "filter" main_world)) ∧
  RuleChainCtx_ReloadChild 4 (mkNodeId "nosuch" NODE) "filter" main_world = (ROk tt, main_world).
Proof.
  assert (4 < w_next main_world) as Hlt by (vm_compute; lia). split.
  - pose proof (RuleChainCtx_ReloadChild_spec 4 (mkNodeId "node1" NODE) "filter" main_world main_ctx
      main_at Hlt main_wf main_parsers eq_refl) as H.
    assert (cx_nodes main_ctx !! mkNodeId "node1" NODE = Some 6) as E by (vm_compute; reflexivity).
    rewrite E in H. destruct H as (rn & parser & _ & _ & H). eauto.
  - pose proof (RuleChainCtx_ReloadChild_spec 4 (mkNodeId "nosuch" NODE) "filter" main_world main_ctx
      main_at Hlt main_wf main_parsers eq_refl) as H.
    assert (cx_nodes main_ctx !! mkNodeId "nosuch" NODE = None) as E by (vm_compute; reflexivity).
    rewrite E in H. exact H.
Defined.

Lemma reload_children_witness :
  ∃ w', reload_children 4 [("node1", "filter"); ("s3", "bad"); ("zz", "log")] main_world = (ROk tt, w') ∧
    w_chains w' !! 4 = Some main_ctx.
Proof.
  destruct (reload_children_preserves 4 [("node1", "filter"); ("s3", "bad"); ("zz", "log")] main_world main_ctx
    main_at ltac:(vm_compute; lia) main_wf main_parsers main_cache_ok) as (w' & H1 & H2 & _); [|by eauto].
  rewrite !Forall_cons. split_and!; [intros config parser why; vm_compute; discriminate..|constructor].
Defined.
