(* ===== verification/Engine.v ===== *)
(** * Rule engines and the engine pool

    The control side of [src/engine.go] (creating, reloading, stopping an engine)
    and the pool of engines of [src/rulego.go]. *)

From S2P Require Import Prelude GoStrings Value Msg Config Dsl World Node Chain.

Section Engine.
Context `{C : Components} `{P : Parsers}.

(** A [RuleEngineOption]; its error is ignored. *)
Definition RuleEngineOption : Type := RuleEngine → RuleEngine.

Definition set_e_Config (config : Config) (e : RuleEngine) : RuleEngine :=
  mkEngine (e_Id e) config (e_RuleChainPool e) (e_rootRuleChainCtx e) (e_startAspects e) (e_endAspects e) (e_completedAspects e).
Definition set_e_root (root : option nat) (e : RuleEngine) : RuleEngine :=
  mkEngine (e_Id e) (e_Config e) (e_RuleChainPool e) root (e_startAspects e) (e_endAspects e) (e_completedAspects e).
Definition set_e_Id (id : string) (e : RuleEngine) : RuleEngine :=
  mkEngine id (e_Config e) (e_RuleChainPool e) (e_rootRuleChainCtx e) (e_startAspects e) (e_endAspects e) (e_completedAspects e).
Definition set_e_pool (g : option nat) (e : RuleEngine) : RuleEngine :=
  mkEngine (e_Id e) (e_Config e) g (e_rootRuleChainCtx e) (e_startAspects e) (e_endAspects e) (e_completedAspects e).

Definition WithConfig (config : Config) : RuleEngineOption := set_e_Config config.

Definition set_cx_Id (id : RuleNodeId) (rc : RuleChainCtx) : RuleChainCtx :=
  mkChainCtx id (cx_SelfDefinition rc) (cx_Config rc) (cx_initialized rc) (cx_componentsRegistry rc)
    (cx_nodeIds rc) (cx_nodes rc) (cx_nodeRoutes rc) (cx_relationCache rc) (cx_rootRuleContext rc)
    (cx_ruleChainPool rc) (cx_reloadAspects rc) (cx_destroyAspects rc).
Definition set_cx_Config (config : Config) (rc : RuleChainCtx) : RuleChainCtx :=
  mkChainCtx (cx_Id rc) (cx_SelfDefinition rc) config (cx_initialized rc) (cx_componentsRegistry rc)
    (cx_nodeIds rc) (cx_nodes rc) (cx_nodeRoutes rc) (cx_relationCache rc) (cx_rootRuleContext rc)
    (cx_ruleChainPool rc) (cx_reloadAspects rc) (cx_destroyAspects rc).

Definition modify_engine (p : nat) (f : RuleEngine → RuleEngine) : M unit :=
  do e <- get_engine p ;; put_engine p (f e).
Definition modify_chain (p : nat) (f : RuleChainCtx → RuleChainCtx) : M unit :=
  do rc <- get_chain p ;; put_chain p (f rc).

Definition Initialized (e : RuleEngine) : bool :=
  match e_rootRuleChainCtx e with Some _ => true | None => false end.

(** [e.ReloadSelf(def, opts...)] *)
Definition RuleEngine_ReloadSelf (p : nat) (def : string) (opts : list RuleEngineOption) : M unit :=
  do_ modify_engine p (λ e, foldl (λ e opt, opt e) e opts) ;;
  do e <- get_engine p ;;
  match e_rootRuleChainCtx e with
  | Some root =>
      do_ modify_chain root (set_cx_Config (e_Config e)) ;;
      try (RuleChainCtx_ReloadSelf root def) (λ r,
        do_ SetRuleChainPool root (e_RuleChainPool e) ;;
        return_error (to_error r))
  | None =>
      do ctx <- DecodeRuleChain (e_Config e) def ;;
      do_ modify_engine p (set_e_root (Some ctx)) ;;
      do_ SetRuleChainPool ctx (e_RuleChainPool e) ;;
      let '((createdAspects, _, _), _) := GetEngineAspects (e_Config e) in
      mapM_ (λ aop, emit (EvOnCreated aop ctx)) createdAspects
  end.

(** [newRuleEngine(id, def, opts...)]: the engine is returned even with an error. *)
Definition newRuleEngine (id def : string) (opts : list RuleEngineOption) : M (nat * error) :=
  if bool_decide (def = "") then fail "def can not nil"
  else
    do p <- alloc ;;
    do_ put_engine p (mkEngine id (NewConfig []) (Some DefaultRuleGo) None [] [] []) ;;
    try (RuleEngine_ReloadSelf p def opts) (λ r,
      do e <- get_engine p ;;
      do_ (match r, e_rootRuleChainCtx e with
           | Ok _, Some root =>
               if bool_decide (id = "")
               then do rc <- get_chain root ;; put_engine p (set_e_Id (rn_Id (cx_Id rc)) e)
               else modify_chain root (set_cx_Id (mkNodeId id CHAIN))
           | _, _ => ret tt
           end) ;;
      do e <- get_engine p ;;
      let '((startAspects, endAspects, completedAspects), _) := GetChainAspects (e_Config e) in
      do_ put_engine p (mkEngine (e_Id e) (e_Config e) (e_RuleChainPool e) (e_rootRuleChainCtx e)
             startAspects endAspects completedAspects) ;;
      ret (p, to_error r)).

(** [e.ReloadChild(ruleNodeId, dsl)] *)
Definition RuleEngine_ReloadChild (p : nat) (ruleNodeId dsl : string) : M unit :=
  do e <- get_engine p ;;
  if bool_decide (dsl = "") then fail "dsl can not empty"
  else match e_rootRuleChainCtx e with
       | None => fail "ReloadNode error.RuleEngine not initialized"
       | Some root =>
           if bool_decide (ruleNodeId = "") then RuleEngine_ReloadSelf p dsl []
           else RuleChainCtx_ReloadChild root (mkNodeId ruleNodeId NODE) dsl
       end.

(** [DSL] and [NodeDSL]: nil is the empty text. *)
Definition RuleEngine_DSL (p : nat) : M string :=
  do e <- get_engine p ;;
  match e_rootRuleChainCtx e with Some root => RuleChainCtx_DSL root | None => ret "" end.

Definition RuleEngine_NodeDSL (p : nat) (chainId childNodeId : RuleNodeId) : M string :=
  do e <- get_engine p ;;
  match e_rootRuleChainCtx e with
  | None => ret ""
  | Some root =>
      if bool_decide (rn_Id chainId = "") then
        do o <- GetNodeById root childNodeId ;;
        match o with Some node => NodeCtx_DSL node | None => ret "" end
      else
        do o <- GetNodeById root chainId ;;
        match o with
        | Some node =>
            do o <- NodeCtx_GetNodeById node childNodeId ;;
            match o with Some childNode => NodeCtx_DSL childNode | None => ret "" end
        | None => ret ""
        end
  end.

Definition RuleEngine_Stop (p : nat) : M unit :=
  do e <- get_engine p ;;
  match e_rootRuleChainCtx e with
  | Some root => do_ RuleChainCtx_Destroy root ;; modify_engine p (set_e_root None)
  | None => ret tt
  end.

(** The start of [onMsgAndWait]: the context a message is run with.  An engine
    without a chain only logs; a chain without a root context (it has no first
    node) makes the type assertion panic. *)
Definition onMsg_root (p : nat) : M (option (RootRuleContext * option nat)) :=
  do e <- get_engine p ;;
  match e_rootRuleChainCtx e with
  | None => do_ emit (EvLog "onMsg error.RuleEngine not initialized") ;; ret None
  | Some root =>
      do rc <- get_chain root ;;
      match cx_rootRuleContext rc with
      | None => panic "interface conversion: types.RuleContext is nil, not *rulego.DefaultRuleContext"
      | Some rootCtx => ret (Some (rootCtx, e_RuleChainPool e))
      end
  end.

(** ** The pool *)

Definition RuleGo_New (g : nat) (id rootRuleChainSrc : string) (opts : list RuleEngineOption) : M nat :=
  do engines <- get_pool g ;;
  match engines !! id with
  | Some e => ret e
  | None =>
      do r <- newRuleEngine id rootRuleChainSrc opts ;;
      match r.2 with
      | Some err => fail err
      | None =>
          do e <- get_engine r.1 ;;
          do_ (if bool_decide (e_Id e = "") then ret tt
               else do engines <- get_pool g ;; put_pool g (<[e_Id e := r.1]> engines)) ;;
          do_ modify_engine r.1 (set_e_pool (Some g)) ;;
          ret r.1
      end
  end.

Definition RuleGo_Del (g : nat) (id : string) : M unit :=
  do engines <- get_pool g ;;
  match engines !! id with
  | Some e =>
      do_ RuleEngine_Stop e ;;
      do engines <- get_pool g ;;
      put_pool g (delete id engines)
  | None => ret tt
  end.

(** [Range] visits the entries (in an unspecified order); each is stopped and deleted. *)
Definition RuleGo_Stop (g : nat) : M unit :=
  do engines <- get_pool g ;;
  mapM_ (λ kv, do_ RuleEngine_Stop kv.2 ;; do engines <- get_pool g ;; put_pool g (delete kv.1 engines))
    (map_to_list engines).

(** ** Loading a folder *)

(** The file pattern of a folder path. *)
Definition load_pattern (folderPath : string) : string :=
  if HasSuffix "*.json" folderPath || HasSuffix "*.JSON" folderPath then folderPath
  else if HasSuffix "/" folderPath || HasSuffix "\" folderPath then folderPath +:+ "*.json"
  else if bool_decide (folderPath = "") then "./*.json"
  else folderPath +:+ "/*.json".

(** The file system: the paths that match a pattern, and the content of a file
    (nil when it cannot be read). *)
Class FileSystem : Type := {
  fs_GetFilePaths : string → result (list string);
  fs_LoadFile : string → option string
}.
Context `{FS : FileSystem}.

Definition RuleGo_Load (g : nat) (folderPath : string) (opts : list RuleEngineOption) : M unit :=
  do paths <- of_result (fs_GetFilePaths (load_pattern folderPath)) ;;
  mapM_ (λ path, match fs_LoadFile path with
                 | Some b => do_ RuleGo_New g "" b opts ;; ret tt
                 | None => ret tt
                 end) paths.

End Engine.
