(* ===== verification/EngineProps.v ===== *)
(** * Properties of engines and of the engine pool *)

From S2P Require Import Prelude GoStrings Value Msg Config Dsl World Node Samples Chain ChainProps Reload ChainExamples Engine.

Section EngineProps.
Context `{C : Components} `{P : Parsers}.

(** The configuration a list of [WithConfig] options leaves: the last one. *)
Definition final_config (c : Config) (cfgs : list Config) : Config := foldl (λ _ c, c) c cfgs.

Lemma foldl_WithConfig cfgs e :
  foldl (λ e (opt : RuleEngineOption), opt e) e (map WithConfig cfgs) = set_e_Config (final_config (e_Config e) cfgs) e.
Proof. revert e. induction cfgs as [|c cfgs IH]; intros e; simpl; [by destruct e|]. by rewrite IH. Qed.

(** The objects that existed before are as they were. *)
Definition preserved (w w' : World) : Prop :=
  (∀ p, p < w_next w → w_defs w' !! p = w_defs w !! p ∧ w_nodes w' !! p = w_nodes w !! p
                        ∧ w_chains w' !! p = w_chains w !! p ∧ w_engines w' !! p = w_engines w !! p) ∧
  w_next w ≤ w_next w'.

Lemma bind_modify_engine {B} p e f (k : unit → M B) w :
  w_engines w !! p = Some e →
  bind (modify_engine p f) k w =
    k tt (mkWorld (w_defs w) (w_nodes w) (w_chains w) (<[p := f e]> (w_engines w)) (w_pools w) (w_next w) (w_log w)).
Proof. intros H. unfold modify_engine. by run. Qed.

Lemma bind_modify_chain {B} p rc f (k : unit → M B) w :
  w_chains w !! p = Some rc →
  bind (modify_chain p f) k w =
    k tt (mkWorld (w_defs w) (w_nodes w) (<[p := f rc]> (w_chains w)) (w_engines w) (w_pools w) (w_next w) (w_log w)).
Proof. intros H. unfold modify_chain. by run. Qed.

Definition set_pool (g : option nat) (rc : RuleChainCtx) : RuleChainCtx :=
  mkChainCtx (cx_Id rc) (cx_SelfDefinition rc) (cx_Config rc) (cx_initialized rc) (cx_componentsRegistry rc)
    (cx_nodeIds rc) (cx_nodes rc) (cx_nodeRoutes rc) (cx_relationCache rc) (cx_rootRuleContext rc)
    g (cx_reloadAspects rc) (cx_destroyAspects rc).

Lemma bind_SetRuleChainPool {B} p rc g (k : unit → M B) w :
  w_chains w !! p = Some rc →
  bind (SetRuleChainPool p g) k w =
    k tt (mkWorld (w_defs w) (w_nodes w) (<[p := set_pool g rc]> (w_chains w)) (w_engines w) (w_pools w) (w_next w) (w_log w)).
Proof. intros H. unfold SetRuleChainPool. by run. Qed.

Lemma chain_wf_same w w' rc rc' :
  cx_SelfDefinition rc' = cx_SelfDefinition rc → cx_nodeIds rc' = cx_nodeIds rc → cx_nodes rc' = cx_nodes rc →
  cx_nodeRoutes rc' = cx_nodeRoutes rc → w_defs w' = w_defs w → w_nodes w' = w_nodes w → w_next w ≤ w_next w' →
  chain_wf w rc → chain_wf w' rc'.
Proof.
  intros E1 E2 E3 E4 Hd Hn Hle H. apply (chain_wf_frame w w' rc Hd Hn Hle) in H as [? ? ? ? ? ?].
  by split; rewrite ?E1, ?E2, ?E3, ?E4.
Qed.

Lemma chain_holds_same config pg addrs rc rc' w w' :
  cx_SelfDefinition rc' = cx_SelfDefinition rc → cx_nodeIds rc' = cx_nodeIds rc → cx_nodes rc' = cx_nodes rc →
  w_defs w' = w_defs w → w_nodes w' = w_nodes w → w_next w ≤ w_next w' →
  chain_holds config pg addrs rc w → chain_holds config pg addrs rc' w'.
Proof.
  intros E0 E1 E2 Hd Hn Hle H. apply (chain_holds_below _ _ _ _ w w') in H as [? ? ? ? ?]; [|by rewrite Hd, Hn|done].
  by split; rewrite ?E0, ?E1, ?E2.
Qed.

(** The definition a chain prints does not depend on the rest of its context. *)
Lemma current_definition_same w w' p rc rc' d :
  w_chains w !! p = Some rc → w_chains w' !! p = Some rc' → cx_SelfDefinition rc' = cx_SelfDefinition rc →
  w_defs w' = w_defs w → current_definition p w = (ROk d, w) → current_definition p w' = (ROk d, w').
Proof.
  intros Hp Hp' Hs Hd. unfold current_definition. run. rewrite Hs. unfold bind.
  destruct (mapM_get_def_frame (w_defs w) (md_Nodes (rc_Metadata (cx_SelfDefinition rc)))) as [r Hr].
  rewrite !Hr by done. destruct r as [ds|e|why]; unfold ret; intros; by simplify_eq.
Qed.

(** The id of an engine created with [id] from definition [d]. *)
Definition engine_id (id : string) (d : RuleChainDef) : string :=
  if bool_decide (id = "") then bi_ID (rc_RuleChain d) else id.

(** A new engine at [p]: its record, and its chain, which is loaded from [d] and
    answers to the engine's id. *)
Record engine_created (id : string) (cfg : Config) (d : RuleChainDef) (w : World) (p : nat) (w' : World) : Prop := {
  ec_engine : ∃ root, w_next w ≤ root < w_next w' ∧
    w_engines w' = <[p := mkEngine (engine_id id d) cfg (Some DefaultRuleGo) (Some root)
      (GetChainAspects cfg).1.1.1 (GetChainAspects cfg).1.1.2 (GetChainAspects cfg).1.2]> (w_engines w) ∧
    (∃ rc, w_chains w' !! root = Some rc ∧ chain_wf w' rc ∧
      rn_Id (cx_Id rc) = engine_id id d ∧ cx_ruleChainPool rc = Some DefaultRuleGo ∧ cx_relationCache rc = ∅ ∧
      cx_rootRuleContext rc = (λ self, mkRootCtx cfg root self (c_Pool cfg)) <$> first_node rc ∧
      all_relations (cx_SelfDefinition rc) = all_relations d ∧ cx_Config rc = cfg ∧
      ∃ cs addrs, components cfg 0 (md_Nodes (rc_Metadata d)) = ROk cs ∧ chain_holds cfg (program_of cs d) addrs rc w') ∧
    current_definition root w' = (ROk (completed_def d), w') ∧
    w_log w' = w_log w ++ map (λ a, EvOnCreated a root) (GetEngineAspects cfg).1.1.1;
  ec_pools : w_pools w' = w_pools w;
  ec_pres : preserved w w'
}.

Lemma chain_id_of_def (d : RuleChainDef) :
  rn_Id (if bool_decide (bi_ID (rc_RuleChain d) = "") then mkNodeId "" NODE else mkNodeId (bi_ID (rc_RuleChain d)) CHAIN)
  = bi_ID (rc_RuleChain d).
Proof. by case_bool_decide. Qed.

Lemma newRuleEngine_decode id def cfgs w :
  def ≠ "" →
  let cfg := final_config (NewConfig []) cfgs in
  let w1 := mkWorld (w_defs w) (w_nodes w) (w_chains w)
     (<[w_next w := mkEngine id cfg (Some DefaultRuleGo) None [] [] []]> (w_engines w)) (w_pools w) (S (w_next w)) (w_log w) in
  newRuleEngine id def (map WithConfig cfgs) w =
    try (do ctx <- DecodeRuleChain cfg def ;;
         do_ modify_engine (w_next w) (set_e_root (Some ctx)) ;;
         do_ SetRuleChainPool ctx (Some DefaultRuleGo) ;;
         mapM_ (λ aop, emit (EvOnCreated aop ctx)) (GetEngineAspects cfg).1.1.1)
    (λ r,
      do e <- get_engine (w_next w) ;;
      do_ (match r, e_rootRuleChainCtx e with
           | Ok _, Some root =>
               if bool_decide (id = "")
               then do rc <- get_chain root ;; put_engine (w_next w) (set_e_Id (rn_Id (cx_Id rc)) e)
               else modify_chain root (set_cx_Id (mkNodeId id CHAIN))
           | _, _ => ret tt
           end) ;;
      do e <- get_engine (w_next w) ;;
      let '((startAspects, endAspects, completedAspects), _) := GetChainAspects (e_Config e) in
      do_ put_engine (w_next w) (mkEngine (e_Id e) (e_Config e) (e_RuleChainPool e) (e_rootRuleChainCtx e)
             startAspects endAspects completedAspects) ;;
      ret (w_next w, to_error r)) w1.
Proof.
  intros Hne cfg w1. unfold newRuleEngine. rewrite bool_decide_false by done. run.
  unfold try. unfold RuleEngine_ReloadSelf at 1.
  erewrite bind_modify_engine by heap_lookup. rewrite foldl_WithConfig. simpl.
  erewrite bind_get_engine by heap_lookup. simpl. by rewrite insert_insert_eq.
Qed.

Lemma newRuleEngine_ok id def cfgs w parser d :
  let cfg := final_config (NewConfig []) cfgs in
  def ≠ "" → c_Parser cfg = Some parser → load_chain cfg parser def = ROk d →
  ∃ w', newRuleEngine id def (map WithConfig cfgs) w = (ROk (w_next w, None), w') ∧
    engine_created id cfg d w (w_next w) w'.
Proof.
  intros cfg Hne Hpar Hl. rewrite newRuleEngine_decode by done. fold cfg.
  set (w1 := mkWorld _ _ _ _ _ _ _). unfold try.
  destruct (DecodeRuleChain_load cfg parser def w1 Hpar) as [Hu Hs]. rewrite Hl in Hs.
  destruct (DecodeRuleChain cfg def w1) as [r w2] eqn:E. simpl in *. destruct Hs as (ctx & -> & Hge & Hcl).
  destruct Hu as (Hu & He & Hp & Hlog & Hnx). destruct Hcl as [(rc & Hrc & Hwf & Hcc & Hca & _ & Hid & Hroot & _ & _ & Hrel) Hdef (rc2 & cs2 & addrs & Hrc2 & Hcs & Hh)].
  assert (rc2 = rc) as -> by congruence.
  rewrite (bind_ok _ _ _ _ _ E).
  assert (w_engines w2 !! w_next w = Some (mkEngine id cfg (Some DefaultRuleGo) None [] [] [])) as Hen.
  { rewrite He. simpl. by rewrite lookup_insert_eq. }
  erewrite bind_modify_engine by heap_lookup. erewrite bind_SetRuleChainPool by heap_lookup.
  rewrite mapM_emit. unfold add_log. simpl. erewrite bind_get_engine by heap_lookup. simpl.
  simpl in Hu. assert (preserved w w2) as Hpres.
  { split; [|simpl in Hnx; lia]. intros q Hq. destruct (Hu q) as (? & ? & ?); [lia|]. rewrite He. simpl.
    rewrite lookup_insert_ne by lia. auto. }
  apply (f_equal rn_Id) in Hid. rewrite chain_id_of_def in Hid. case_bool_decide as Hi;
    [assert (engine_id id d = bi_ID (rc_RuleChain d)) as Hei by (unfold engine_id; by rewrite bool_decide_true)
    |assert (engine_id id d = id) as Hei by (unfold engine_id; by rewrite bool_decide_false)].
  - run.
    simpl. eexists. split; [reflexivity|]. split; simpl; [|done|].
    + exists ctx. split; [lia|]. rewrite Hei. rewrite !insert_insert_eq, He. simpl. rewrite insert_insert_eq, Hid.
      split_and!; [done| | |by rewrite Hlog];
        [|eapply current_definition_same; [exact Hrc|simpl; apply lookup_insert_eq|done|done|done]].
      eexists. rewrite lookup_insert_eq. split; [done|].
      split_and!; try done; [eapply chain_wf_same; [..|exact Hwf]; done|].
      exists cs2, addrs. split; [done|]. eapply chain_holds_same; [..|exact Hh]; done.
    + destruct Hpres as [Hpr ?]. split; [|done]. intros q Hq. simpl. rewrite !lookup_insert_ne by lia. by apply Hpr.
  - erewrite bind_modify_chain by heap_lookup. erewrite bind_get_engine by heap_lookup. simpl. run.
    eexists. split; [reflexivity|]. split; simpl; [|done|].
    + exists ctx. split; [lia|]. rewrite Hei. rewrite !insert_insert_eq, He. simpl. rewrite insert_insert_eq.
      split_and!; [done| | |by rewrite Hlog];
        [|eapply current_definition_same; [exact Hrc|simpl; apply lookup_insert_eq|done|done|done]].
      eexists. rewrite lookup_insert_eq. split; [done|].
      split_and!; try done; [eapply chain_wf_same; [..|exact Hwf]; done|].
      exists cs2, addrs. split; [done|]. eapply chain_holds_same; [..|exact Hh]; done.
    + destruct Hpres as [Hpr ?]. split; [|done]. intros q Hq. simpl. rewrite !lookup_insert_ne by lia. by apply Hpr.
Qed.


Lemma load_chain_err cfg parser def e w :
  c_Parser cfg = Some parser → load_chain cfg parser def = RErr e →
  ∃ w', DecodeRuleChain cfg def w = (RErr e, w') ∧ untouched (w_next w) w w'.
Proof.
  intros Hp Hl. destruct (DecodeRuleChain_load cfg parser def w Hp) as [Hu Hs]. rewrite Hl in Hs.
  destruct (DecodeRuleChain cfg def w) as [r w']. simpl in *. subst. eauto.
Qed.

Lemma load_chain_panic cfg parser def why w :
  c_Parser cfg = Some parser → load_chain cfg parser def = RPanic why →
  ∃ w', DecodeRuleChain cfg def w = (RPanic why, w') ∧ untouched (w_next w) w w'.
Proof.
  intros Hp Hl. destruct (DecodeRuleChain_load cfg parser def w Hp) as [Hu Hs]. rewrite Hl in Hs.
  destruct (DecodeRuleChain cfg def w) as [r w']. simpl in *. subst. eauto.
Qed.

Lemma newRuleEngine_err id def cfgs w parser e :
  let cfg := final_config (NewConfig []) cfgs in
  def ≠ "" → c_Parser cfg = Some parser → load_chain cfg parser def = RErr e →
  ∃ w', newRuleEngine id def (map WithConfig cfgs) w = (ROk (w_next w, Some e), w') ∧
    preserved w w' ∧ w_pools w' = w_pools w ∧ w_log w' = w_log w.
Proof.
  intros cfg Hne Hpar Hl. rewrite newRuleEngine_decode by done. fold cfg.
  set (w1 := mkWorld _ _ _ _ _ _ _). unfold try.
  destruct (load_chain_err cfg parser def e w1 Hpar Hl) as (w2 & E & Hu & He & Hp & Hlog & Hnx).
  unfold bind at 1. rewrite E. simpl in *.
  assert (w_engines w2 !! w_next w = Some (mkEngine id cfg (Some DefaultRuleGo) None [] [] [])) as Hen.
  { rewrite He. simpl. by rewrite lookup_insert_eq. }
  erewrite bind_get_engine by heap_lookup. simpl. run. eexists. split; [reflexivity|]. simpl.
  split_and!; [|done|done]. split; [|simpl; lia]. intros q Hq. simpl. rewrite He. simpl.
  destruct (Hu q) as (? & ? & ?); [lia|]. by rewrite !lookup_insert_ne by lia.
Qed.

Lemma newRuleEngine_panic id def cfgs w parser why :
  let cfg := final_config (NewConfig []) cfgs in
  def ≠ "" → c_Parser cfg = Some parser → load_chain cfg parser def = RPanic why →
  ∃ w', newRuleEngine id def (map WithConfig cfgs) w = (RPanic why, w') ∧
    preserved w w' ∧ w_pools w' = w_pools w ∧ w_log w' = w_log w.
Proof.
  intros cfg Hne Hpar Hl. rewrite newRuleEngine_decode by done. fold cfg.
  set (w1 := mkWorld _ _ _ _ _ _ _). unfold try.
  destruct (load_chain_panic cfg parser def why w1 Hpar Hl) as (w2 & E & Hu & He & Hp & Hlog & Hnx).
  unfold bind at 1. rewrite E. simpl in *. exists w2. split_and!; [done| |done|done]. split; [|lia].
  intros q Hq. rewrite He. destruct (Hu q) as (? & ? & ?); [lia|]. by rewrite lookup_insert_ne by lia.
Qed.

(** An engine that has definition [d] and prints it; what it is made of is there to stay. *)
Record serves (p : nat) (parser : ParserRef) (d : RuleChainDef) (w : World) : Prop := {
  sv_objects : ∃ e root rc, w_engines w !! p = Some e ∧ e_rootRuleChainCtx e = Some root ∧ w_chains w !! root = Some rc ∧
    c_Parser (cx_Config rc) = Some parser ∧ root < w_next w ∧
    Forall (λ item, item < w_next w) (md_Nodes (rc_Metadata (cx_SelfDefinition rc))) ∧
    current_definition root w = (ROk (completed_def d), w);
  sv_bound : p < w_next w
}.

Lemma serves_DSL p parser d w : serves p parser d w → RuleEngine_DSL p w = (ROk (encode_chain parser (completed_def d)), w).
Proof.
  intros [(e & root & rc & He & Hr & Hrc & Hp & _ & _ & Hd) _]. unfold RuleEngine_DSL. run. rewrite Hr.
  unfold RuleChainCtx_DSL. run. rewrite Hp. run. by rewrite (bind_ok _ _ _ _ _ Hd).
Qed.

Lemma mapM_get_def_preserved w w' items ds :
  (∀ q, q < w_next w → w_defs w' !! q = w_defs w !! q) → Forall (λ item, item < w_next w) items →
  mapM get_def items w = (ROk ds, w) → mapM get_def items w' = (ROk ds, w').
Proof.
  intros Hd Hb. revert ds. induction Hb as [|q items Hq _ IH]; intros ds H; simpl in *; [unfold ret in *; by simplify_eq|].
  destruct (w_defs w !! q) as [d|] eqn:Ed; [|unfold bind, get_def in H; by rewrite Ed in H].
  pose proof (Hd q Hq) as Ed'. rewrite Ed in Ed'. rewrite (bind_get_def _ _ _ _ Ed) in H. rewrite (bind_get_def _ _ _ _ Ed').
  unfold bind in H. destruct (mapM get_def items w) as [[ds'| |] w1] eqn:E; try done. unfold ret in H. simplify_eq.
  by rewrite (bind_ok _ _ _ _ _ (IH ds' eq_refl)).
Qed.

Lemma serves_preserved p parser d w w' : serves p parser d w → preserved w w' → serves p parser d w'.
Proof.
  intros [(e & root & rc & He & Hr & Hrc & Hp & Hb & Hn & Hd) Hlt] [Hpr Hle]. split; [|lia]. exists e, root, rc.
  destruct (Hpr p Hlt) as (_ & _ & _ & ->). destruct (Hpr root Hb) as (_ & _ & Hrc' & _). rewrite Hrc in Hrc'.
  split_and!; try done; [lia|eapply Forall_impl; [done|]; simpl; lia|].
  revert Hd. unfold current_definition. run. unfold bind.
  destruct (mapM get_def _ w) as [[ds| |] w1] eqn:E; try done. unfold ret. intros [HX ->]%pair_equal_spec.
  rewrite (mapM_get_def_preserved w w' _ ds); [by rewrite HX| |done|done]. intros q Hq. by destruct (Hpr q Hq) as (? & _).
Qed.

Lemma RuleGo_New_serves g id def cfgs w engines parser d :
  let cfg := final_config (NewConfig []) cfgs in
  w_pools w !! g = Some engines → def ≠ "" → c_Parser cfg = Some parser → engines !! id = None →
  load_chain cfg parser def = ROk d → engine_id id d ≠ "" →
  ∃ w', RuleGo_New g id def (map WithConfig cfgs) w = (ROk (w_next w), w') ∧ preserved w w' ∧
    w_pools w' = <[g := <[engine_id id d := w_next w]> engines]> (w_pools w) ∧ serves (w_next w) parser d w'.
Proof.
  intros cfg Hg Hne Hpar He Hl Hi. unfold RuleGo_New. run. rewrite He.
  destruct (newRuleEngine_ok id def cfgs w parser d Hne Hpar Hl) as (w' & E & [H1 Hpo Hpr]).
  rewrite (bind_ok _ _ _ _ _ E). simpl. destruct H1 as (root & Hroot & Hen & (rc & Hrc & Hwf & _ & _ & _ & _ & _ & Hcc & _) & Hdef & _).
  erewrite bind_get_engine; [|rewrite Hen; apply lookup_insert_eq]. simpl. rewrite (bool_decide_false (engine_id id d = "")) by done.
  rewrite <- Hpo in Hg. destruct Hpr as [Hpr Hle]. run.
  erewrite bind_modify_engine; [|simpl; rewrite Hen; apply lookup_insert_eq]. simpl.
  eexists. split; [reflexivity|]. split_and!.
  - split; [|done]. intros q Hq. simpl. rewrite Hen, !lookup_insert_ne by lia. by destruct (Hpr q Hq) as (? & ? & ? & ?).
  - simpl. by rewrite Hpo.
  - split; [|simpl; lia]. simpl. eexists _, root, rc. rewrite lookup_insert_eq. rewrite Hcc.
    split_and!; try done; [simpl; lia|apply Hwf|]. eapply current_definition_same; [exact Hrc|simpl; exact Hrc|done|done|exact Hdef].
Qed.

Lemma RuleGo_New_created g id def cfgs w engines parser d :
  let cfg := final_config (NewConfig []) cfgs in
  w_pools w !! g = Some engines → def ≠ "" → c_Parser cfg = Some parser → engines !! id = None →
  load_chain cfg parser def = ROk d → engine_id id d ≠ "" →
  ∃ w', RuleGo_New g id def (map WithConfig cfgs) w = (ROk (w_next w), w') ∧ preserved w w' ∧
    w_pools w' = <[g := <[engine_id id d := w_next w]> engines]> (w_pools w) ∧
    RuleEngine_DSL (w_next w) w' = (ROk (encode_chain parser (completed_def d)), w').
Proof.
  intros cfg Hg Hne Hpar He Hl Hi.
  destruct (RuleGo_New_serves g id def cfgs w engines parser d Hg Hne Hpar He Hl Hi) as (w' & E & Hpr & Hpo & Hs).
  exists w'. split_and!; try done. by apply serves_DSL.
Qed.

(** What [RuleGo_New] leaves of a text that loads: the engine at [p] has the id asked for (or
    that of the text) and the pool, and its chain, which answers to the same id, holds the
    program of the text: its components, ids and connections, from the text's first node
    on; and it prints the definition of the text. *)
Definition engine_stored (g : nat) (id : string) (cfg : Config) (d : RuleChainDef) (p : nat) (w : World) : Prop :=
  ∃ e root rc cs addrs, w_engines w !! p = Some e ∧ e_Id e = engine_id id d ∧ e_RuleChainPool e = Some g ∧ e_Config e = cfg ∧
    e_rootRuleChainCtx e = Some root ∧ w_chains w !! root = Some rc ∧ chain_wf w rc ∧
    rn_Id (cx_Id rc) = engine_id id d ∧ all_relations (cx_SelfDefinition rc) = all_relations d ∧
    components cfg 0 (md_Nodes (rc_Metadata d)) = ROk cs ∧ chain_holds cfg (program_of cs d) addrs rc w ∧
    cx_rootRuleContext rc = (λ self, mkRootCtx cfg root self (c_Pool cfg)) <$> first_node rc ∧
    current_definition root w = (ROk (completed_def d), w).

Lemma engine_stored_new g id cfg d w w' engines :
  w_pools w !! g = Some engines → engine_created id cfg d w (w_next w) w' →
  let r := (do e <- get_engine (w_next w) ;;
            do_ (if bool_decide (e_Id e = "") then ret tt
                 else do engines <- get_pool g ;; put_pool g (<[e_Id e := w_next w]> engines)) ;;
            do_ modify_engine (w_next w) (set_e_pool (Some g)) ;;
            ret (w_next w)) w' in
  r.1 = ROk (w_next w) ∧ preserved w r.2 ∧
  w_pools r.2 = (if bool_decide (engine_id id d = "") then w_pools w
                 else <[g := <[engine_id id d := w_next w]> engines]> (w_pools w)) ∧
  engine_stored g id cfg d (w_next w) r.2.
Proof.
  intros Hg [(root & Hroot & Hen & (rc & Hrc & Hwf & Hid & _ & _ & Hctx & Hrel & _ & cs & addrs & Hcs & Hh) & Hdef & _) Hpo [Hpr Hle]].
  simpl. erewrite bind_get_engine; [|rewrite Hen; apply lookup_insert_eq]. simpl. rewrite <- Hpo in Hg.
  assert (∃ w1, (if bool_decide (engine_id id d = "") then ret tt
     else do engines <- get_pool g ;; put_pool g (<[engine_id id d := w_next w]> engines)) w' = (ROk tt, w1) ∧
     w1 = mkWorld (w_defs w') (w_nodes w') (w_chains w') (w_engines w')
       (if bool_decide (engine_id id d = "") then w_pools w else <[g := <[engine_id id d := w_next w]> engines]> (w_pools w))
       (w_next w') (w_log w')) as (w1 & E1 & ->).
  { rewrite <- Hpo. case_bool_decide; [exists w'; by destruct w'|]. run. by eexists. }
  rewrite (bind_ok _ _ _ _ _ E1). erewrite bind_modify_engine; [|simpl; rewrite Hen; apply lookup_insert_eq].
  simpl. split_and!; [done| |done|].
  - split; [|done]. intros q Hq. simpl. rewrite Hen, !lookup_insert_ne by lia.
    destruct (Hpr q Hq) as (? & ? & ? & ?). done.
  - eexists _, root, rc, cs, addrs. simpl. rewrite lookup_insert_eq. split_and!; try done.
    + eapply chain_wf_frame; [..|exact Hwf]; done.
    + eapply chain_holds_same; [..|exact Hh]; done.
    + eapply current_definition_same; [exact Hrc|simpl; exact Hrc|done|done|exact Hdef].
Qed.

(** C12. Creating an engine in a pool, on every branch, with a configuration that has a
    parser.  An id that is taken returns the engine that has it and changes nothing,
    whatever the text.  Otherwise an empty text gives an error; a text that loads gives a
    new engine, stored in the pool under its id (the one asked for, or the one of the text;
    an engine without an id is not stored) and found by [Get], whose chain has that id and
    holds the program of the text; entries under other ids are kept.  A text that does not
    load gives its error, or its panic goes on, and the pool is as it was.  In no case does
    an existing node, chain or engine change. *)
Theorem RuleGo_New_spec g id def cfgs w engines parser :
  let cfg := final_config (NewConfig []) cfgs in
  w_pools w !! g = Some engines → c_Parser cfg = Some parser →
  let r := RuleGo_New g id def (map WithConfig cfgs) w in
  match engines !! id with
  | Some e => r = (ROk e, w)
  | None =>
      if bool_decide (def = "") then r = (RErr "def can not nil", w)
      else match load_chain cfg parser def with
      | RErr e => r.1 = RErr e ∧ preserved w r.2 ∧ w_pools r.2 = w_pools w
      | RPanic why => r.1 = RPanic why ∧ preserved w r.2 ∧ w_pools r.2 = w_pools w
      | ROk d =>
          let p := w_next w in
          r.1 = ROk p ∧ preserved w r.2 ∧
          w_pools r.2 = (if bool_decide (engine_id id d = "") then w_pools w
                         else <[g := <[engine_id id d := p]> engines]> (w_pools w)) ∧
          (engine_id id d ≠ "" → RuleGo_Get g (engine_id id d) r.2 = (ROk (Some p), r.2)) ∧
          engine_stored g id cfg d p r.2
      end
  end.
Proof.
  intros cfg Hg Hpar r. subst r. unfold RuleGo_New. run.
  destruct (engines !! id) as [e|] eqn:He; [done|].
  case_bool_decide as Hne; [subst; reflexivity|].
  destruct (load_chain cfg parser def) as [d|e|why] eqn:Hl.
  - destruct (newRuleEngine_ok id def cfgs w parser d Hne Hpar Hl) as (w' & E & Hc).
    rewrite (bind_ok _ _ _ _ _ E). cbn [fst snd]. destruct (engine_stored_new g id cfg d w w' engines Hg Hc) as (H1 & H2 & H3 & H4).
    split_and!; try done. intros Hi. unfold RuleGo_Get. erewrite bind_get_pool; [|rewrite H3, bool_decide_false by done; apply lookup_insert_eq].
    by rewrite lookup_insert_eq.
  - destruct (newRuleEngine_err id def cfgs w parser e Hne Hpar Hl) as (w' & E & Hpr & Hpo & _).
    by rewrite (bind_ok _ _ _ _ _ E).
  - destruct (newRuleEngine_panic id def cfgs w parser why Hne Hpar Hl) as (w' & E & Hpr & Hpo & _).
    unfold bind. by rewrite E.
Qed.


(** ** Stopping *)

Definition with_engine (w : World) (p : nat) (e : RuleEngine) : World :=
  mkWorld (w_defs w) (w_nodes w) (w_chains w) (<[p := e]> (w_engines w)) (w_pools w) (w_next w) (w_log w).
Definition with_pool (w : World) (g : nat) (m : gmap string nat) : World :=
  mkWorld (w_defs w) (w_nodes w) (w_chains w) (w_engines w) (<[g := m]> (w_pools w)) (w_next w) (w_log w).

(** The engine's chain, if it has one, is loaded. *)
Definition engine_ok (w : World) (p : nat) (e : RuleEngine) : Prop :=
  w_engines w !! p = Some e ∧
  ∀ r, e_rootRuleChainCtx e = Some r → ∃ rc, w_chains w !! r = Some rc ∧ chain_wf w rc.

(** What stopping an engine reports: its components destroyed, its destroy
    aspects told; nothing when it has no chain. *)
Definition stop_events (w : World) (e : RuleEngine) : list Event :=
  match e_rootRuleChainCtx e with
  | None => []
  | Some r => match w_chains w !! r with
              | None => []
              | Some rc => map EvDestroy (node_components w rc) ++ map (λ a, EvOnDestroy a r) (cx_destroyAspects rc)
              end
  end.

Lemma set_e_root_id e : e_rootRuleChainCtx e = None → set_e_root None e = e.
Proof. destruct e; simpl. by intros ->. Qed.

Lemma RuleEngine_Stop_spec w p e :
  engine_ok w p e →
  RuleEngine_Stop p w = (ROk tt, add_log (with_engine w p (set_e_root None e)) (stop_events w e)).
Proof.
  intros [Hp Hr]. unfold RuleEngine_Stop, stop_events. run.
  destruct (e_rootRuleChainCtx e) as [r|] eqn:Er.
  - destruct (Hr r eq_refl) as (rc & Hrc & Hwf). rewrite Hrc.
    erewrite bind_ok; [|apply (Destroy_spec _ _ _ Hrc)].
    2:{ intros id q Hq. destruct (wf_nodes _ _ Hwf _ _ Hq) as (rn & _ & Hn & _). eauto. }
    unfold modify_engine. by run.
  - unfold with_engine, ret. rewrite set_e_root_id, insert_id by done. rewrite add_log_nil. by destruct w.
Qed.

(** [Del] removes exactly one engine: it is no longer found, its chain is gone and
    every component of the chain is destroyed once; the other entries and
    engines stay.  Deleting an id that is not there does nothing. *)
Theorem RuleGo_Del_spec g id w engines :
  w_pools w !! g = Some engines → (∀ p, engines !! id = Some p → ∃ e, engine_ok w p e) →
  match engines !! id with
  | None => RuleGo_Del g id w = (ROk tt, w)
  | Some p => ∃ e w', engine_ok w p e ∧ RuleGo_Del g id w = (ROk tt, w') ∧
      RuleGo_Get g id w' = (ROk None, w') ∧
      (∀ id', id' ≠ id → (RuleGo_Get g id' w').1 = ROk (engines !! id')) ∧
      w_engines w' = <[p := set_e_root None e]> (w_engines w) ∧ w_chains w' = w_chains w ∧
      w_log w' = w_log w ++ stop_events w e
  end.
Proof.
  intros Hg Hok. unfold RuleGo_Del. run. destruct (engines !! id) as [p|] eqn:Hid; [|done].
  destruct (Hok p eq_refl) as [e He]. exists e. rewrite (bind_ok _ _ _ _ _ (RuleEngine_Stop_spec w p e He)).
  run. eexists. split; [done|]. split; [reflexivity|]. unfold RuleGo_Get. simpl.
  split; [|split; [|done]].
  - erewrite bind_get_pool by heap_lookup. by rewrite lookup_delete_eq.
  - intros id' Hne. erewrite bind_get_pool by heap_lookup. simpl. by rewrite lookup_delete_ne.
Qed.

(** Engines that only lost their chain. *)
Definition only_stopped (w w' : World) : Prop :=
  w_chains w' = w_chains w ∧ w_nodes w' = w_nodes w ∧ w_defs w' = w_defs w ∧ w_next w' = w_next w ∧
  ∀ p e, w_engines w !! p = Some e → w_engines w' !! p = Some e ∨ w_engines w' !! p = Some (set_e_root None e).

Lemma Stop_loop g (l : list (string * nat)) w engines :
  w_pools w !! g = Some engines → (∀ kv, kv ∈ l → ∃ e, engine_ok w kv.2 e) →
  ∃ w', mapM_ (λ kv, do_ RuleEngine_Stop kv.2 ;; do engines <- get_pool g ;; put_pool g (delete kv.1 engines)) l w
      = (ROk tt, w') ∧
    w_pools w' = <[g := foldl (λ m kv, delete kv.1 m) engines l]> (w_pools w) ∧ only_stopped w w' ∧
    (∀ kv, kv ∈ l → ∃ e, w_engines w' !! kv.2 = Some e ∧ e_rootRuleChainCtx e = None).
Proof.
  revert w engines. induction l as [|[id p] l IH]; intros w engines Hg Hok; simpl.
  - exists w. split_and!; [done|by rewrite insert_id| |set_solver]. split_and!; auto.
  - destruct (Hok (id, p)) as [e He]; [set_solver|]. simpl in He.
    rewrite bind_bind, (bind_ok _ _ _ _ _ (RuleEngine_Stop_spec w p e He)). run.
    set (w1 := mkWorld _ _ _ _ _ _ _).
    destruct (IH w1 (delete id engines)) as (w' & E & Hp' & (Hc & Hn & Hd & Hx & Hs) & Hall).
    + simpl. by rewrite lookup_insert_eq.
    + intros [id' p'] Hin. destruct (Hok (id', p')) as [e' [He' Hr']]; [set_solver|]. simpl in *.
      destruct (decide (p' = p)) as [->|Hne].
      * destruct He as [He _]. simplify_eq. exists (set_e_root None e). split; [|done]. simpl. apply lookup_insert_eq.
      * exists e'. split; [simpl; by rewrite lookup_insert_ne|]. intros r Hr. destruct (Hr' r Hr) as (rc & ? & ?).
        exists rc. split; [done|]. by eapply chain_wf_frame; [..|done].
    + exists w'. destruct He as [He _]. split_and!; [done| | |].
      * rewrite Hp'. simpl. by rewrite insert_insert_eq.
      * split_and!; try done. intros q e0 Hq. destruct (decide (q = p)) as [->|Hne].
        -- simplify_eq. right. assert (w_engines w1 !! p = Some (set_e_root None e)) as H1 by (apply lookup_insert_eq).
           by destruct (Hs _ _ H1) as [->| ->].
        -- apply Hs. simpl. by rewrite lookup_insert_ne.
      * intros kv [->|Hin]%elem_of_cons; [|by apply Hall]. simpl.
        assert (w_engines w1 !! p = Some (set_e_root None e)) as H1 by (apply lookup_insert_eq).
        destruct (Hs _ _ H1) as [-> | ->]; eauto.
Qed.

Lemma foldl_delete_all (m : gmap string nat) :
  foldl (λ m kv, delete kv.1 m) m (map_to_list m) = ∅.
Proof.
  apply map_eq. intros k. rewrite lookup_empty.
  assert (∀ (l : list (string * nat)) (m : gmap string nat), (m !! k = None ∨ k ∈ l.*1) →
    foldl (λ m kv, delete kv.1 m) m l !! k = None) as H.
  { induction l as [|[k' v] l IH]; intros m0 Hk; simpl; [set_solver|]. apply IH.
    destruct (decide (k' = k)) as [->|Hne]; [left; by rewrite lookup_delete_eq|].
    rewrite lookup_delete_ne by done. set_solver. }
  apply H. destruct (m !! k) as [v|] eqn:E; [right|by left].
  apply list_elem_of_fmap. exists (k, v). split; [done|]. by apply elem_of_map_to_list.
Qed.

(** [Stop] empties the pool and leaves every engine that was in it without a
    chain; node, chain and definition objects are not modified, and an engine is
    at most stopped. *)
Theorem RuleGo_Stop_spec g w engines :
  w_pools w !! g = Some engines → (∀ id p, engines !! id = Some p → ∃ e, engine_ok w p e) →
  ∃ w', RuleGo_Stop g w = (ROk tt, w') ∧ w_pools w' = <[g := ∅]> (w_pools w) ∧ only_stopped w w' ∧
    (∀ id p, engines !! id = Some p → ∃ e, w_engines w' !! p = Some e ∧ e_rootRuleChainCtx e = None).
Proof.
  intros Hg Hok. unfold RuleGo_Stop. run.
  destruct (Stop_loop g (map_to_list engines) w engines Hg) as (w' & E & Hp & Hs & Hall).
  { intros [id p] Hin%elem_of_map_to_list. eauto. }
  exists w'. rewrite Hp, foldl_delete_all. split_and!; [done|done|done|].
  intros id p Hin. apply (Hall (id, p)). by apply elem_of_map_to_list.
Qed.


(** ** Reloading a running engine *)

Lemma reload_run p def cfgs w e r rc :
  w_engines w !! p = Some e → e_rootRuleChainCtx e = Some r → w_chains w !! r = Some rc →
  let cfg := final_config (e_Config e) cfgs in
  let w1 := mkWorld (w_defs w) (w_nodes w) (<[r := set_cx_Config cfg rc]> (w_chains w))
              (<[p := set_e_Config cfg e]> (w_engines w)) (w_pools w) (w_next w) (w_log w) in
  RuleEngine_ReloadSelf p def (map WithConfig cfgs) w =
    try (RuleChainCtx_ReloadSelf r def) (λ x,
        do_ SetRuleChainPool r (e_RuleChainPool e) ;; return_error (to_error x)) w1.
Proof.
  intros Hp Hr Hrc cfg w1. unfold RuleEngine_ReloadSelf.
  erewrite bind_modify_engine by heap_lookup. rewrite foldl_WithConfig. fold cfg.
  erewrite bind_get_engine by heap_lookup. simpl. rewrite Hr.
  erewrite bind_modify_chain by heap_lookup. done.
Qed.

(** C13. Reloading an engine that is running.  When the text loads, the engine's
    chain is consistent with the new definition and its pool is the engine's; but
    the chain takes the id of the text, whatever the engine's id is, and the
    context its messages are run with routes through a second chain context, whose
    own pool is unset, so that sub-chains are looked up in the default pool and
    not in the engine's.  When the text does not load, the running chain keeps
    its id, nodes, routes and root context, and nothing is destroyed: the error is returned,
    or the panic goes on. *)
Theorem RuleEngine_ReloadSelf_spec p def cfgs w e r rc parser :
  w_engines w !! p = Some e → e_rootRuleChainCtx e = Some r → w_chains w !! r = Some rc → r < w_next w →
  chain_wf w rc →
  let cfg := final_config (e_Config e) cfgs in
  c_Parser cfg = Some parser →
  let x := RuleEngine_ReloadSelf p def (map WithConfig cfgs) w in
  match load_chain cfg parser def with
  | ROk d =>
      x.1 = ROk tt ∧ w_engines x.2 = <[p := set_e_Config cfg e]> (w_engines w) ∧
      ∃ rc' newp newrc, w_chains x.2 !! r = Some rc' ∧ chain_wf x.2 rc' ∧
        cx_ruleChainPool rc' = e_RuleChainPool e ∧ rn_Id (cx_Id rc') = bi_ID (rc_RuleChain d) ∧
        all_relations (cx_SelfDefinition rc') = all_relations d ∧
        cx_rootRuleContext rc' = (λ self, mkRootCtx cfg newp self (c_Pool cfg)) <$> first_node rc' ∧
        newp ≠ r ∧ w_chains x.2 !! newp = Some newrc ∧ RuleChainCtx_GetRuleChainPool newrc = DefaultRuleGo
  | RPanic why =>
      x.1 = RPanic why ∧ w_chains x.2 !! r = Some (set_cx_Config cfg rc) ∧ chain_wf x.2 rc ∧ w_log x.2 = w_log w
  | RErr err =>
      x.1 = RErr err ∧ w_chains x.2 !! r = Some (set_pool (e_RuleChainPool e) (set_cx_Config cfg rc)) ∧
      chain_wf x.2 rc ∧
      w_log x.2 = w_log w ++ map (λ a, EvOnReload a (NCchain r) (NCchain r) (Some err)) (cx_reloadAspects rc)
  end.
Proof.
  intros Hp Hr Hrc Hlt Hwf cfg Hpar x. subst x. rewrite (reload_run p def cfgs w e r rc Hp Hr Hrc). fold cfg.
  set (w1 := mkWorld _ _ _ _ _ _ _).
  assert (w_chains w1 !! r = Some (set_cx_Config cfg rc)) as Hrc1 by (apply lookup_insert_eq).
  assert (chain_wf w1 (set_cx_Config cfg rc)) as Hwf1 by (eapply chain_wf_same; [..|exact Hwf]; done).
  destruct (load_chain cfg parser def) as [d|err|why] eqn:Hl.
  - destruct (DecodeRuleChain_load cfg parser def w1 Hpar) as [Hu Hs]. rewrite Hl in Hs.
    destruct (DecodeRuleChain cfg def w1) as [y w2] eqn:E. simpl in Hs, Hu. destruct Hs as (ctx & -> & Hge & Hcl).
    pose proof (ReloadSelf_decode_ok r def d w1 (set_cx_Config cfg rc) ctx w2 Hrc1 Hlt Hwf1 E Hu Hcl Hge)
      as (newp & rc' & Hy & Hn & [(rc2 & Hrc2 & Hwf2 & Hc2 & _ & Hpool & Hid & Hroot & _ & _ & Hrel) _ _] & Hc' & Hc'' & _ & _ & Heng & _).
    unfold try. destruct (RuleChainCtx_ReloadSelf r def w1) as [y w3]. simpl in *. subst y.
    erewrite bind_SetRuleChainPool by heap_lookup. simpl. split; [done|]. split; [done|]. rewrite Hc' in Hrc2. simplify_eq.
    exists (set_pool (e_RuleChainPool e) rc2), newp, rc2. rewrite lookup_insert_eq, lookup_insert_ne by lia.
    split_and!; try done; try lia.
    + eapply chain_wf_same; [..|exact Hwf2]; done.
    + simpl. by rewrite Hid, chain_id_of_def.
    + unfold RuleChainCtx_GetRuleChainPool. by rewrite Hpool.
  - destruct (load_chain_err cfg parser def err w1 Hpar Hl) as (w2 & E & Hu).
    pose proof (ReloadSelf_decode_err r def w1 (set_cx_Config cfg rc) err w2 Hrc1 Hlt E Hu) as (Hy & Hf & He & Hpo & Hnx & Hlog).
    unfold try. destruct (RuleChainCtx_ReloadSelf r def w1) as [y w3]. simpl in *. subst y.
    destruct (Hf r Hlt) as (_ & _ & Hrc3). rewrite Hrc1 in Hrc3.
    erewrite bind_SetRuleChainPool by heap_lookup. simpl. split_and!; [done|by rewrite lookup_insert_eq| |done].
    eapply chain_wf_same; [done..|lia|]. eapply (chain_wf_below w1).
    + eapply chain_wf_same; [..|exact Hwf]; done.
    + intros q Hq. by destruct (Hf q Hq) as (? & ? & _).
    + done.
  - destruct (load_chain_panic cfg parser def why w1 Hpar Hl) as (w2 & E & Hu).
    unfold try. rewrite (ReloadSelf_decode_panic r def w1 _ why w2 Hrc1 E). simpl.
    pose proof Hu as (Hf & _ & _ & Hlog & _). destruct (Hf r Hlt) as (_ & _ & ->). split_and!; [done..| |done].
    eapply untouched_chain_wf; [|exact Hu]. eapply chain_wf_same; [..|exact Hwf]; done.
Qed.

End EngineProps.

(** ** On concrete texts *)

Module EngineExample.
Import Samples.

(** The engine [e1], made from the text [main], in the default pool. *)
Definition engine_world : World := (RuleGo_New DefaultRuleGo "e1" "main" (map WithConfig [cfg]) initialWorld).2.
Definition engine : RuleEngine :=
  default (mkEngine "" cfg None None [] [] []) (w_engines engine_world !! 1).
Definition root_ctx : RuleChainCtx := default main_ctx (w_chains engine_world !! 5).

Lemma engine_at : w_engines engine_world !! 1 = Some engine.
Proof. vm_compute. reflexivity. Defined.
Lemma root_at : w_chains engine_world !! 5 = Some root_ctx.
Proof. vm_compute. reflexivity. Defined.
Lemma engine_root : e_rootRuleChainCtx engine = Some 5.
Proof. vm_compute. reflexivity. Defined.

Lemma RuleGo_New_witness :
  (RuleGo_New DefaultRuleGo "e1" "main" (map WithConfig [cfg]) initialWorld).1 = ROk 1 ∧
  (RuleGo_New DefaultRuleGo "e1" "{" (map WithConfig [cfg]) initialWorld).1 = RErr "unexpected end of JSON input" ∧
  (RuleGo_New DefaultRuleGo "e1" "negative" (map WithConfig [cfg]) initialWorld).1 = RPanic out_of_range.
Proof.
  split_and!.
  - pose proof (RuleGo_New_spec DefaultRuleGo "e1" "main" [cfg] initialWorld ∅ JsonParser eq_refl eq_refl) as H.
    rewrite lookup_empty, bool_decide_false in H by discriminate.
    assert (load_chain (final_config (NewConfig []) [cfg]) JsonParser "main" = ROk chain_main) as E by (vm_compute; reflexivity).
    rewrite E in H. apply H.
  - pose proof (RuleGo_New_spec DefaultRuleGo "e1" "{" [cfg] initialWorld ∅ JsonParser eq_refl eq_refl) as H.
    rewrite lookup_empty, bool_decide_false in H by discriminate. apply H.
  - pose proof (RuleGo_New_spec DefaultRuleGo "e1" "negative" [cfg] initialWorld ∅ JsonParser eq_refl eq_refl) as H.
    rewrite lookup_empty, bool_decide_false in H by discriminate. apply H.
Defined.

Lemma engine_wf : chain_wf engine_world root_ctx.
Proof.
  destruct (newRuleEngine_ok "e1" "main" [cfg] initialWorld JsonParser chain_main) as (w' & E & [(root & _ & Hen & (rc & Hrc & Hwf & _) & _) _ _]);
    [done|reflexivity|vm_compute; reflexivity|].
  assert (w_defs engine_world = w_defs w' ∧ w_nodes engine_world = w_nodes w' ∧ w_chains engine_world = w_chains w' ∧ w_next engine_world = w_next w')
    as (E1 & E2 & E3 & E4).
  { assert (w' = (newRuleEngine "e1" "main" (map WithConfig [cfg]) initialWorld).2) as -> by (by rewrite E).
    split_and!; vm_compute; reflexivity. }
  assert (root = 5) as ->.
  { assert (e_rootRuleChainCtx <$> (w_engines w' !! w_next initialWorld) = Some (Some root)) as H.
    { rewrite Hen. by rewrite (lookup_insert_eq (w_engines initialWorld) (w_next initialWorld)). }
    assert (w' = (newRuleEngine "e1" "main" (map WithConfig [cfg]) initialWorld).2) as -> by (by rewrite E).
    vm_compute in H. congruence. }
  rewrite <- E3 in Hrc. assert (rc = root_ctx) as -> by (apply Some_inj; by rewrite <- Hrc, root_at).
  eapply chain_wf_frame; [exact E1|exact E2|by rewrite E4|exact Hwf].
Qed.

Lemma RuleGo_Del_witness :
  ∃ w', RuleGo_Del DefaultRuleGo "e1" engine_world = (ROk tt, w') ∧ RuleGo_Get DefaultRuleGo "e1" w' = (ROk None, w').
Proof.
  assert (w_pools engine_world !! DefaultRuleGo = Some {["e1" := 1]}) as Hg by (vm_compute; reflexivity).
  assert (engine_ok engine_world 1 engine) as Hok.
  { split; [exact engine_at|]. rewrite engine_root. intros r [= <-]. exists root_ctx. split; [exact root_at|exact engine_wf]. }
  pose proof (RuleGo_Del_spec DefaultRuleGo "e1" engine_world {["e1" := 1]} Hg) as H.
  rewrite lookup_singleton_eq in H. destruct H as (e & w' & _ & H1 & H2 & _); [|eauto].
  intros p [= <-]. eauto.
Defined.

Lemma RuleGo_Stop_witness :
  ∃ w', RuleGo_Stop DefaultRuleGo engine_world = (ROk tt, w') ∧ w_pools w' !! DefaultRuleGo = Some ∅.
Proof.
  assert (w_pools engine_world !! DefaultRuleGo = Some {["e1" := 1]}) as Hg by (vm_compute; reflexivity).
  assert (engine_ok engine_world 1 engine) as Hok.
  { split; [exact engine_at|]. rewrite engine_root. intros r [= <-]. exists root_ctx. split; [exact root_at|exact engine_wf]. }
  destruct (RuleGo_Stop_spec DefaultRuleGo engine_world {["e1" := 1]} Hg) as (w' & H1 & H2 & _).
  - intros id p [<- <-]%lookup_singleton_Some. eauto.
  - exists w'. split; [done|]. rewrite H2. apply lookup_insert_eq.
Defined.

Lemma RuleEngine_ReloadSelf_witness :
  (RuleEngine_ReloadSelf 1 "sub" (map WithConfig []) engine_world).1 = ROk tt ∧
  (RuleEngine_ReloadSelf 1 "unknown" (map WithConfig []) engine_world).1 = RErr "component not found.componentType=xyz".
Proof.
  assert (5 < w_next engine_world) as Hlt by (vm_compute; lia). split.
  - pose proof (RuleEngine_ReloadSelf_spec 1 "sub" [] engine_world engine 5 root_ctx JsonParser engine_at engine_root root_at
      Hlt engine_wf eq_refl) as H.
    assert (load_chain (final_config (e_Config engine) []) JsonParser "sub" = ROk (chain "sub" 0 [node "a" "log"] [] [])) as E
      by (vm_compute; reflexivity).
    rewrite E in H. apply H.
  - pose proof (RuleEngine_ReloadSelf_spec 1 "unknown" [] engine_world engine 5 root_ctx JsonParser engine_at engine_root root_at
      Hlt engine_wf eq_refl) as H.
    assert (load_chain (final_config (e_Config engine) []) JsonParser "unknown" = RErr "component not found.componentType=xyz") as E
      by (vm_compute; reflexivity).
    rewrite E in H. apply H.
Defined.

(** The engine was created as [e1]; after a reload its chain answers to the id of the text. *)
Example reload_changes_chain_id :
  ((do rc <- get_chain 5 ;; ret (rn_Id (cx_Id rc))) engine_world).1 = ROk "e1" ∧
  ((do_ RuleEngine_ReloadSelf 1 "main" [] ;; do rc <- get_chain 5 ;; ret (rn_Id (cx_Id rc))) engine_world).1 = ROk "main".
Proof. split; vm_compute; reflexivity. Qed.

(** Two engines of one pool that is not the default one: the sub-chain [sub] is
    in the pool of [main], but the connection to it does not resolve. *)
Example subchain_not_found_in_own_pool :
  let w := mkWorld ∅ ∅ ∅ ∅ {[DefaultRuleGo := ∅; 1 := ∅]} 2 [] in
  ((do_ RuleGo_New 1 "sub" "sub" (map WithConfig [cfg]) ;;
    do e <- RuleGo_New 1 "main" "main" (map WithConfig [cfg]) ;;
    do en <- get_engine e ;;
    do root <- deref_or_panic (e_rootRuleChainCtx en) ;;
    do sub <- RuleGo_Get 1 "sub" ;;
    do next <- GetNextNodes root (mkNodeId "node1" NODE) "Success" ;;
    ret (sub, next)) w).1 = ROk (Some 2, ([], false)).
Proof. vm_compute. reflexivity. Qed.

(** The same in the default pool: found, unless the route was asked for before the
    sub-chain was there; the cache then keeps the answer. *)
Example subchain_route_cached :
  ((do e <- RuleGo_New DefaultRuleGo "main" "main" (map WithConfig [cfg]) ;;
    do en <- get_engine e ;;
    do root <- deref_or_panic (e_rootRuleChainCtx en) ;;
    do before <- GetNextNodes root (mkNodeId "node1" NODE) "Success" ;;
    do_ RuleGo_New DefaultRuleGo "sub" "sub" (map WithConfig [cfg]) ;;
    do after <- GetNextNodes root (mkNodeId "node1" NODE) "Success" ;;
    ret (before.2, after.2)) initialWorld).1 = ROk (false, false) ∧
  ((do_ RuleGo_New DefaultRuleGo "sub" "sub" (map WithConfig [cfg]) ;;
    do e <- RuleGo_New DefaultRuleGo "main" "main" (map WithConfig [cfg]) ;;
    do en <- get_engine e ;;
    do root <- deref_or_panic (e_rootRuleChainCtx en) ;;
    do after <- GetNextNodes root (mkNodeId "node1" NODE) "Success" ;;
    ret after.2) initialWorld).1 = ROk true.
Proof. split; vm_compute; reflexivity. Qed.

(** A chain without nodes loads, and panics on its first message. *)
Example empty_chain_panics :
  ∃ why, ((do e <- RuleGo_New DefaultRuleGo "e" "empty" (map WithConfig [cfg]) ;; onMsg_root e) initialWorld).1 = RPanic why.
Proof. eexists. vm_compute. reflexivity. Qed.

(** Loading a second text with the id of a running engine replaces the pool entry
    without stopping the old engine: nothing is destroyed. *)
Example New_without_id_overwrites :
  ((do e1 <- RuleGo_New DefaultRuleGo "" "sub" (map WithConfig [cfg]) ;;
    do e2 <- RuleGo_New DefaultRuleGo "" "sub" (map WithConfig [cfg]) ;;
    do e <- RuleGo_Get DefaultRuleGo "sub" ;;
    do w <- get_world ;;
    ret (bool_decide (e1 = e2), bool_decide (e = Some e2), length (w_log w))) initialWorld).1 = ROk (false, true, 0).
Proof. vm_compute. reflexivity. Qed.

End EngineExample.
