(* ===== verification/RuleCtx.v ===== *)
(** * Running a message: the execution contexts of [src/engine.go]

    [DefaultRuleContext] is the object a node sees while it handles a message.
    Telling the next nodes submits one task per successor to the worker pool, so
    a message is processed by several goroutines that share the contexts, whose
    counters they update atomically.

    The model is a small-step machine.  A goroutine is the list of what it still
    has to do ([instr]); one step of a goroutine is one atomic action of the code:
    a counter update, a submission, a load or a store of the completion flag, a
    callback.  A schedule says which goroutine moves and whether the pool accepts
    the task the step submits, if any. *)

From S2P Require Import Prelude Value Msg Config Dsl World.

(** What a node or an aspect does with the context it was given: it tells the
    next nodes ([TellSuccess], [TellFailure], [TellNext] are all [tell]), asks to
    be called again ([TellSelf]), goes on in another goroutine, or panics. *)
Inductive call : Type :=
| CTell (msg : RuleMsg) (err : error) (relationTypes : option (list string))
| CSelf (msg : RuleMsg)
| CGo (body : list call)
| CPanic (why : string)
| COnMsg (node : NodeRef) (msg : RuleMsg). (* [nextNode.OnMsg(nextCtx, msg)] *)

Definition TellSuccess (msg : RuleMsg) : call := CTell msg None (Some [Success]).
Definition TellFailure (msg : RuleMsg) (err : error) : call := CTell msg err (Some [Failure]).
(** [TellNext(msg, relationTypes...)]; without relation types the variadic slice is nil. *)
Definition TellNext (msg : RuleMsg) (relationTypes : list string) : call :=
  CTell msg None (match relationTypes with [] => None | _ => Some relationTypes end).
Definition TellSelf (msg : RuleMsg) : call := CSelf msg.

(** The node aspects of the configuration, by what they do.  The context they are
    given is known by its current node. *)
Record BeforeAop : Type := mkBefore {
  b_PointCut : option NodeRef → RuleMsg → string → bool;
  b_Before : option NodeRef → RuleMsg → string → RuleMsg
}.
Record AfterAop : Type := mkAfter {
  f_PointCut : option NodeRef → RuleMsg → string → bool;
  f_After : option NodeRef → RuleMsg → error → string → RuleMsg
}.
(** An around aspect may call the context itself; it returns the message and
    whether the engine should go on with the node. *)
Record AroundAop : Type := mkAround {
  r_PointCut : option NodeRef → RuleMsg → string → bool;
  r_Around : option NodeRef → RuleMsg → string → RuleMsg * bool * list call
}.

(** What running a message needs from the rest of the system. *)
Class Runtime : Type := {
  (** [getNextNodes] of the chain: see [ChainRuntime] *)
  rt_next : NodeRef → string → list NodeRef;
  (** a component's [OnMsg] *)
  rt_OnMsg : NodeRef → RuleMsg → list call;
  rt_before : list BeforeAop;
  rt_around : list AroundAop;
  rt_after : list AfterAop;
  (** [msg.Copy()]: clock and id generator for messages that lack them *)
  rt_now : Z;
  rt_uuid : string;
  (** whether [Config.OnEnd] is set *)
  rt_hasOnEnd : bool
}.

(** ** Contexts *)

Record Ctx : Type := mkCtx {
  x_self : option NodeRef;
  x_isFirst : bool;
  x_parentRuleCtx : option nat;
  x_hasOnEnd : bool;              (* [onEnd != nil] *)
  x_hasCompleted : bool;          (* [onAllNodeCompleted != nil] *)
  x_skipTellNext : bool;
  x_waitingCount : Z;
  x_onAllNodeCompletedDone : bool
}.

Definition set_waiting (z : Z) (x : Ctx) : Ctx :=
  mkCtx (x_self x) (x_isFirst x) (x_parentRuleCtx x) (x_hasOnEnd x) (x_hasCompleted x) (x_skipTellNext x) z
    (x_onAllNodeCompletedDone x).
Definition set_completedDone (b : bool) (x : Ctx) : Ctx :=
  mkCtx (x_self x) (x_isFirst x) (x_parentRuleCtx x) (x_hasOnEnd x) (x_hasCompleted x) (x_skipTellNext x)
    (x_waitingCount x) b.

(** [NewRuleContext(..., from = nil, self, ...)] with the callbacks its caller sets. *)
Definition NewRuleContext (self : option NodeRef) (hasOnEnd hasCompleted skipTellNext : bool) : Ctx :=
  mkCtx self true None hasOnEnd hasCompleted skipTellNext 0 false.

(** [ctx.NewNextNodeRuleContext(nextNode)] for the context at [c] *)
Definition NewNextNodeRuleContext (c : nat) (ctx : Ctx) (nextNode : NodeRef) : Ctx :=
  mkCtx (Some nextNode) false (Some c) (x_hasOnEnd ctx) false (x_skipTellNext ctx) 0 false.

(** ** What a goroutine still has to do *)

Inductive instr : Type :=
| ITell (c : nat) (msg : RuleMsg) (err : error) (relationTypes : option (list string))
| ITellFirst (c : nat) (msg : RuleMsg) (err : error)
| IRels (c : nat) (msg : RuleMsg) (err : error) (relationTypes : list string)
| IKids (c : nat) (msg : RuleMsg) (relationType : string) (nodes : list NodeRef)
| ISubmit (task : instr)
| ITellNext (c : nat) (msg : RuleMsg) (nextNode : NodeRef) (relationType : string)
| ICalls (c : nat) (calls : list call) (recover : option nat)
| IDoOnEnd (c : nat) (msg : RuleMsg) (err : error) (relationType : string)
| IEndCallback (c : nat) (msg : RuleMsg) (err : error) (relationType : string)
| IOnEnd (c : nat) (msg : RuleMsg) (err : error) (relationType : string)
| IConfigOnEnd (msg : RuleMsg) (err : error)
| IChildDone (c : nat)
| ICompleted (c : nat)
| IStoreDone (c : nat)
| ICallCompleted (c : nat).

(** What is observed from outside. *)
Inductive event : Type :=
| EvOnMsg (node : NodeRef) (msg : RuleMsg)
| EvOnEnd (msg : RuleMsg) (err : error) (relationType : string)
| EvConfigOnEnd (msg : RuleMsg) (err : error)
| EvCompleted (c : nat).

Section Machine.
Context `{R : Runtime}.

Definition copy (msg : RuleMsg) : RuleMsg := RuleMsg_Copy rt_now rt_uuid msg.

(** [executeAfterAop] *)
Definition executeAfterAop (self : option NodeRef) (msg : RuleMsg) (err : error) (relationType : string) : RuleMsg :=
  foldl (λ msg aop, if f_PointCut aop self msg relationType then f_After aop self msg err relationType else msg)
    msg rt_after.

(** [executeAroundAop]: what the aspects called, and whether to go on.  The
    message they leave is not returned. *)
Definition run_before (self : option NodeRef) (msg : RuleMsg) (relationType : string) : RuleMsg :=
  foldl (λ msg aop, if b_PointCut aop self msg relationType then b_Before aop self msg relationType else msg)
    msg rt_before.
Definition around_step (self : option NodeRef) (relationType : string)
    (acc : RuleMsg * bool * list call) (aop : AroundAop) : RuleMsg * bool * list call :=
  let '(msg, tellNext, calls) := acc in
  if r_PointCut aop self msg relationType then
    let '(msg', showTellNext, calls') := r_Around aop self msg relationType in
    (msg', if showTellNext then tellNext else false, calls ++ calls')
  else acc.
Definition executeAroundAop (self : option NodeRef) (msg : RuleMsg) (relationType : string) : bool * list call :=
  let '(_, tellNext, calls) :=
    foldl (around_step self relationType) (run_before self msg relationType, true, []) rt_around in
  (tellNext, calls).

(** [ctx.getNextNodes(relationType)] *)
Definition getNextNodes (ctx : Ctx) (relationType : string) : list NodeRef :=
  match x_self ctx with None => [] | Some self => rt_next self relationType end.

(** The effect of one atomic action. *)
Record effect : Type := mkEffect {
  ef_ctxs : list Ctx;
  ef_push : list instr;         (* what this goroutine does next *)
  ef_spawn : list (list instr); (* new goroutines *)
  ef_events : list event;
  ef_crash : option string
}.

Definition goes_on (xs : list Ctx) (push : list instr) : effect := mkEffect xs push [] [] None.

(** One call of a node or aspect on its context [c].  A panic unwinds to the
    deferred function of [tellNext] of context [recover], which runs the after
    aspects (whose message is dropped) and [childDone]; without it the program dies. *)
Definition exec_call (xs : list Ctx) (c : nat) (ctx : Ctx) (x : call) (rest : list call) (recover : option nat) : effect :=
  match x with
  | CTell msg err rels => goes_on xs [ITell c msg err rels; ICalls c rest recover]
  | CSelf msg =>
      mkEffect xs [ICalls c rest recover]
        (match x_self ctx with Some self => [[ICalls c [COnMsg self msg] None]] | None => [] end) [] None
  | CGo body => mkEffect xs [ICalls c rest recover] [[ICalls c body None]] [] None
  | CPanic why =>
      match recover with
      | Some p => goes_on xs [IChildDone p]
      | None => mkEffect xs [] [] [] (Some why)
      end
  | COnMsg node msg => mkEffect xs [ICalls c (rt_OnMsg node msg ++ rest) recover] [] [EvOnMsg node msg] None
  end.

(** [ctx.SubmitTack(task)]: a goroutine of its own when the pool accepts the task, or
    when there is no pool; a task the pool refuses is lost, with an entry in the log. *)
Definition SubmitTack (xs : list Ctx) (task : instr) (ok : bool) : effect :=
  if ok then mkEffect xs [] [[task]] [] None else goes_on xs [].

(** [ok]: the pool accepts the task. *)
Definition exec (xs : list Ctx) (i : instr) (ok : bool) : effect :=
  match i with
  | ITell c msg err rels =>
      match xs !! c with
      | None => goes_on xs []
      | Some ctx =>
          if x_isFirst ctx then goes_on xs [ISubmit (ITellFirst c (copy msg) err)]
          else match rels with
               | None => goes_on xs [IDoOnEnd c msg err ""]
               | Some rels => goes_on xs [IRels c msg err rels]
               end
      end
  | ITellFirst c msg err =>
      match xs !! c with
      | None => goes_on xs []
      | Some ctx =>
          match x_self ctx with
          | Some self => goes_on xs [ITellNext c msg self ""]
          | None => goes_on xs [IDoOnEnd c msg err ""]
          end
      end
  | IRels c msg err [] => goes_on xs []
  | IRels c msg err (relationType :: rest) =>
      match xs !! c with
      | None => goes_on xs []
      | Some ctx =>
          let msg := executeAfterAop (x_self ctx) msg err relationType in
          match (if x_skipTellNext ctx then [] else getNextNodes ctx relationType) with
          | [] => goes_on xs [IDoOnEnd c msg err relationType; IRels c msg err rest]
          | nodes => goes_on xs [IKids c msg relationType nodes; IRels c msg err rest]
          end
      end
  | IKids c msg relationType [] => goes_on xs []
  | IKids c msg relationType (item :: rest) =>
      match xs !! c with
      | None => goes_on xs []
      | Some ctx => (* childReady *)
          goes_on (<[c := set_waiting (x_waitingCount ctx + 1) ctx]> xs)
            [ISubmit (ITellNext c (copy msg) item relationType); IKids c msg relationType rest]
      end
  | ISubmit task => SubmitTack xs task ok
  | ITellNext c msg nextNode relationType =>
      match xs !! c with
      | None => goes_on xs []
      | Some ctx =>
          let nextCtx := NewNextNodeRuleContext c ctx nextNode in
          let '(tellNext, calls) := executeAroundAop (Some nextNode) msg relationType in
          goes_on (xs ++ [nextCtx])
            [ICalls (length xs) (calls ++ if tellNext then [COnMsg nextNode msg] else []) (Some c)]
      end
  | ICalls c [] recover => goes_on xs []
  | ICalls c (x :: rest) recover =>
      match xs !! c with
      | None => goes_on xs []
      | Some ctx => exec_call xs c ctx x rest recover
      end
  | IDoOnEnd c msg err relationType =>
      goes_on xs ((if rt_hasOnEnd then [ISubmit (IConfigOnEnd msg err)] else []) ++ [IEndCallback c msg err relationType])
  | IEndCallback c msg err relationType =>
      match xs !! c with
      | None => goes_on xs []
      | Some ctx => goes_on xs [if x_hasOnEnd ctx then ISubmit (IOnEnd c msg err relationType) else IChildDone c]
      end
  | IOnEnd c msg err relationType => mkEffect xs [IChildDone c] [] [EvOnEnd msg err relationType] None
  | IConfigOnEnd msg err => mkEffect xs [] [] [EvConfigOnEnd msg err] None
  | IChildDone c =>
      match xs !! c with
      | None => goes_on xs []
      | Some ctx =>
          let n := (x_waitingCount ctx - 1)%Z in
          goes_on (<[c := set_waiting n ctx]> xs)
            (if bool_decide (n ≤ 0)%Z
             then (match x_parentRuleCtx ctx with Some p => [IChildDone p] | None => [] end) ++ [ICompleted c]
             else [])
      end
  | ICompleted c =>
      match xs !! c with
      | None => goes_on xs []
      | Some ctx =>
          goes_on xs (if x_hasCompleted ctx && negb (x_onAllNodeCompletedDone ctx) then [IStoreDone c] else [])
      end
  | IStoreDone c =>
      match xs !! c with
      | None => goes_on xs []
      | Some ctx => goes_on (<[c := set_completedDone true ctx]> xs) [ICallCompleted c]
      end
  | ICallCompleted c => mkEffect xs [] [] [EvCompleted c] None
  end.

(** ** The machine *)

Record state : Type := mkState {
  s_ctxs : list Ctx;
  s_threads : list (list instr);
  s_trace : list event;
  s_crashed : option string
}.

(** Goroutine [t] makes one step; [None] when it has nothing to do. *)
Definition step (s : state) (t : nat) (ok : bool) : option state :=
  match s_crashed s, s_threads s !! t with
  | None, Some (i :: k) =>
      let ef := exec (s_ctxs s) i ok in
      Some (mkState (ef_ctxs ef) (<[t := ef_push ef ++ k]> (s_threads s) ++ ef_spawn ef)
              (s_trace s ++ ef_events ef) (ef_crash ef))
  | _, _ => None
  end.

(** Run a schedule; steps that are not possible are skipped. *)
Fixpoint run_schedule (s : state) (schedule : list (nat * bool)) : state :=
  match schedule with
  | [] => s
  | (t, ok) :: rest => run_schedule (default s (step s t ok)) rest
  end.

Definition quiescent (s : state) : bool := forallb (λ th, match th with [] => true | _ => false end) (s_threads s).

(** ** Entry points *)

(** [onMsgAndWait]: a root context with both callbacks, told without relation types;
    the caller waits for the completion callback of context 0. *)
Definition onMsg (self : option NodeRef) (msg : RuleMsg) : state :=
  mkState [NewRuleContext self true true false] [[ITell 0 msg None None]] [] None.

(** [ctx.ExecuteNode]: run from a node of the chain, or report that it is not there. *)
Definition ExecuteNode (node : option NodeRef) (nodeId : string) (msg : RuleMsg) (skipTellNext : bool) : state :=
  match node with
  | Some n =>
      mkState [NewRuleContext (Some n) true false skipTellNext] [[ITell 0 msg None (Some [""])]] [] None
  | None => mkState [] [] [EvOnEnd msg (Some ("node id not found nodeId=" +:+ nodeId)) Failure] None
  end.

End Machine.
