(* ===== verification/ChainRuntime.v ===== *)
(** * From a loaded chain to running messages

    The machine of [RuleCtx] asks a [Runtime] for the successors of a node; this
    file gives the one of a loaded chain ([getNextNodes] of [src/engine.go] calls
    [GetNextNodes] of [src/chain.go] with the id of the current node) and shows that
    messages follow the connections of the text. *)

From S2P Require Import Prelude Sorting GoStrings Value Msg Config Dsl World Node Chain ChainProps Samples ChainExamples RuleCtx.

Section Runtime.
Context `{C : Components} `{P : Parsers}.

(** [ctx.self.GetNodeId()] *)
Definition self_id (w : World) (self : NodeRef) : RuleNodeId :=
  match (NodeCtx_GetNodeId self w).1 with ROk id => id | _ => EmptyRuleNodeId end.

Definition chain_next (w : World) (p : nat) (self : NodeRef) (relationType : string) : list NodeRef :=
  match (GetNextNodes p (self_id w self) relationType w).1 with ROk (nodes, _) => nodes | _ => [] end.

(** What the node aspects of a configuration do (the configuration holds the objects). *)
Class NodeAspects : Type := {
  na_Around : Aspect → AroundAop;
  na_Before : Aspect → BeforeAop;
  na_After : Aspect → AfterAop
}.
Context `{NA : NodeAspects}.

(** [aspect.Debug] of [src/aspect/debug_aspect.go]: it runs on every node and hands on the
    message it got; the report to [Config.OnDebug] goes out on a task of its own. *)
Definition debug_before : BeforeAop := mkBefore (λ _ _ _, true) (λ _ msg _, msg).
Definition debug_after : AfterAop := mkAfter (λ _ _ _, true) (λ _ msg _ _, msg).
Definition with_debug {A} (config : Config) (debug : A) (l : list A) : list A :=
  match c_OnDebug config with Some _ => l ++ [debug] | None => l end.

(** What a message is run with, from the root context [rx] of its chain on
    ([NewRuleContext]): the routes of the chain context of [rx], the components' handlers,
    the node aspects and the end callback of its configuration. *)
Definition ChainRuntime (w : World) (rx : RootRuleContext) (OnMsg : Comp → RuleMsg → list call) (now : Z) (uuid : string) : Runtime :=
  let '((aroundAspects, beforeAspects, afterAspects), _) := GetNodeAspects (rx_config rx) in {|
  rt_next := chain_next w (rx_ruleChainCtx rx);
  rt_OnMsg := λ node msg,
    match node with
    | NCnode q => match w_nodes w !! q with Some rn => OnMsg (nx_Node rn) msg | None => [] end
    | NCchain _ => []  (* [RuleChainCtx.OnMsg] starts a separate run *)
    end;
  rt_before := with_debug (rx_config rx) debug_before (map na_Before beforeAspects);
  rt_around := map na_Around aroundAspects;
  rt_after := with_debug (rx_config rx) debug_after (map na_After afterAspects);
  rt_now := now; rt_uuid := uuid;
  rt_hasOnEnd := match c_OnEnd (rx_config rx) with Some _ => true | None => false end
|}.

(** A configuration whose aspects leave the routing of messages alone: none is an around or
    an after aspect, and there is no end callback for all messages.  (Before aspects may be
    there: the message they return is not used for the node.) *)
Definition routes_plainly (config : Config) : bool :=
  forallb (λ a, negb (a_implements a AroundAspect) && negb (a_implements a AfterAspect)) (c_Aspects config) &&
  bool_decide (c_OnEnd config = None).

Lemma no_aspects k config :
  forallb (λ a, negb (a_implements a k)) (c_Aspects config) = true → select_aspects k (c_Aspects (sort_Aspects config)) = [].
Proof.
  rewrite forallb_forall. intros H. unfold select_aspects. simpl.
  apply elem_of_nil_inv. intros a [Hk Ha]%list_elem_of_filter. rewrite sort_Slice_perm in Ha.
  apply list_elem_of_In, H in Ha. by rewrite Hk in Ha.
Qed.

Lemma plain_runtime w rx OnMsg now uuid :
  routes_plainly (rx_config rx) = true →
  let R := ChainRuntime w rx OnMsg now uuid in
  rt_around (Runtime := R) = [] ∧ rt_hasOnEnd (Runtime := R) = false ∧
  ∀ self msg err r, executeAfterAop (R := R) self msg err r = msg.
Proof.
  intros Hp R. unfold routes_plainly in Hp. apply andb_true_iff in Hp as [Ha He%bool_decide_eq_true].
  assert (∀ k, k = AroundAspect ∨ k = AfterAspect → select_aspects k (c_Aspects (sort_Aspects (rx_config rx))) = []) as Hk.
  { intros k Hk. apply no_aspects. rewrite forallb_forall in *. intros a Hin. specialize (Ha a Hin).
    apply andb_true_iff in Ha as [? ?]. by destruct Hk as [-> | ->]. }
  split_and!.
  - simpl. by rewrite Hk by tauto.
  - simpl. by rewrite He.
  - intros self msg err r. unfold executeAfterAop. simpl. rewrite Hk by tauto. unfold with_debug.
    by destruct (c_OnDebug (rx_config rx)).
Qed.

(** ** A run on the objects

    Looking up the next nodes writes the chain's routing cache.  A run of the machine on the
    world: the lookup of a step is made on the world it is at. *)
Definition lookup_of (rx : RootRuleContext) (s : state) (t : nat) : M unit :=
  match s_crashed s, s_threads s !! t with
  | None, Some (IRels c _ _ (relationType :: _) :: _) =>
      match s_ctxs s !! c with
      | Some ctx =>
          match x_self ctx with
          | Some self =>
              do id <- NodeCtx_GetNodeId self ;;
              do_ GetNextNodes (rx_ruleChainCtx rx) id relationType ;;
              ret tt
          | None => ret tt
          end
      | None => ret tt
      end
  | _, _ => ret tt
  end.

Fixpoint run_message (rx : RootRuleContext) (OnMsg : Comp → RuleMsg → list call) (now : Z) (uuid : string)
    (w : World) (s : state) (schedule : list (nat * bool)) : World * state :=
  match schedule with
  | [] => (w, s)
  | (t, ok) :: rest =>
      run_message rx OnMsg now uuid (lookup_of rx s t w).2
        (default s (step (R := ChainRuntime w rx OnMsg now uuid) s t ok)) rest
  end.

(** The connections of a definition from a node under a relation type. *)
Definition connections_from {N} (def : RuleChain N) (id : RuleNodeId) (relationType : string) : list RuleNodeRelation :=
  filter (λ r, rr_InId r = id ∧ rr_RelationType r = relationType) (all_relations def).

Lemma load_routes_default {N} (def : RuleChain N) id :
  default [] (load_routes def !! id) = relations_of id (all_relations def).
Proof.
  rewrite load_routes_all. destruct (add_routes_lookup (all_relations def) ∅ id) as [-> _].
  by rewrite lookup_empty.
Qed.

Lemma next_nodes_connections {N} w rc (def : RuleChain N) id rel :
  cx_nodeRoutes rc = load_routes (cx_SelfDefinition rc) → all_relations (cx_SelfDefinition rc) = all_relations def →
  next_nodes w rc id rel = omap (λ r, resolve w rc (rr_OutId r)) (connections_from def id rel).
Proof.
  intros Hr Ha. unfold next_nodes, connections_from. rewrite Hr, load_routes_default, Ha. f_equal.
  unfold relations_of. rewrite list_filter_filter. apply list_filter_iff. intros; tauto.
Qed.

(** C8. Messages follow the text.  In a chain loaded from a text, the nodes a
    message is passed to when node [id] tells [relationType] are the targets of the
    text's connections from [id] with that type, in the order of the text, node
    connections before sub-chain connections; targets that do not exist are left
    out. *)
Theorem loaded_chain_follows_text config parser dsl def w p w' rc rx id q OnMsg now uuid relationType :
  c_Parser config = Some parser → parse_chain parser dsl = Ok def →
  DecodeRuleChain config dsl w = (ROk p, w') →
  w_chains w' !! p = Some rc → pool_ok w' rc → cx_nodes rc !! id = Some q → rx_ruleChainCtx rx = p →
  rt_next (Runtime := ChainRuntime w' rx OnMsg now uuid) (NCnode q) relationType =
    omap (λ r, resolve w' rc (rr_OutId r)) (connections_from def id relationType).
Proof.
  intros Hp Hd Hl Hrc Hpool Hq <-. pose proof (DecodeRuleChain_total config parser dsl w Hp) as [_ Ht].
  rewrite Hd, Hl in Ht. simpl in Ht. destruct (load_components _ _ _); [|done..]. case_bool_decide; [done|].
  destruct Ht as (d & p & -> & [= <-] & _ & [(rc' & Hrc' & Hwf & _ & Hca & _ & _ & _ & _ & _ & Hrel) _ _]).
  assert (rc' = rc) as -> by congruence.
  assert (self_id w' (NCnode q) = id) as Hid.
  { destruct (wf_nodes _ _ Hwf id q Hq) as (rn & d' & Hn & _ & Hdef & -> & _).
    unfold self_id; simpl. unfold RuleNodeCtx_GetNodeId. by run. }
  simpl. unfold chain_next. rewrite Hid.
  destruct (GetNextNodes_step w' _ rc id relationType Hrc Hpool) as (cache & -> & _).
  { intros i r l. by rewrite Hca, lookup_empty. }
  simpl. apply next_nodes_connections; [apply (wf_routes _ _ Hwf)|done].
Qed.

End Runtime.

Module ChainRuntimeExample.
Import Samples.

(** Aspects that do nothing. *)
#[export] Instance no_aspects : NodeAspects := {|
  na_Around _ := mkAround (λ _ _ _, false) (λ _ msg _, (msg, true, []));
  na_Before _ := debug_before;
  na_After _ := debug_after
|}.

Definition main_root : RootRuleContext := mkRootCtx cfg 4 (NCnode 5) None.

Lemma loaded_chain_follows_text_witness :
  rt_next (Runtime := ChainRuntime main_world main_root (λ _ m, [TellSuccess m]) 5 "u") (NCnode 5) "Success" = [NCnode 6; NCnode 7].
Proof.
  pose proof (loaded_chain_follows_text cfg JsonParser "main" (some_nodes chain_main) initialWorld 4 main_world main_ctx main_root
    (mkNodeId "node0" NODE) 5 (λ _ m, [TellSuccess m]) 5 "u" "Success" eq_refl eq_refl) as H.
  assert (DecodeRuleChain cfg "main" initialWorld = (ROk 4, main_world)) as E by (vm_compute; reflexivity).
  assert (cx_nodes main_ctx !! mkNodeId "node0" NODE = Some 5) as E2 by (vm_compute; reflexivity).
  rewrite (H E main_at main_pool E2 eq_refl). vm_compute. reflexivity.
Defined.

End ChainRuntimeExample.
