(* ===== verification/CtxProps.v ===== *)
(** * Completion: what holds of every interleaving

    The completion callback of a run ([onAllNodeCompleted], the event
    [OnMsgAndWait] waits for) fires whatever the order in which the goroutines
    move, provided every node answers the messages it gets and the pool accepts
    every task.  It may fire too early, and more than once: see [CtxRaces]. *)

From S2P Require Import Prelude Value Msg Config Dsl World RuleCtx.

(** ** Weights of pending work *)

Definition total {A} (f : A → nat) (ths : list (list A)) : nat := sum_list_with (sum_list_with f) ths.

Lemma total_app {A} (f : A → nat) l1 l2 : total f (l1 ++ l2) = total f l1 + total f l2.
Proof. unfold total. by rewrite sum_list_with_app. Qed.

Lemma total_insert {A} (f : A → nat) ths t th th' :
  ths !! t = Some th → total f (<[t := th']> ths) + sum_list_with f th = total f ths + sum_list_with f th'.
Proof. apply sum_with_insert. Qed.

(** The balance of one step: what was consumed, pushed and spawned. *)
Lemma total_step {A} (f : A → nat) ths t i k push spawn :
  ths !! t = Some (i :: k) →
  total f (<[t := push ++ k]> ths ++ spawn) + f i = total f ths + sum_list_with f push + total f spawn.
Proof.
  intros H. rewrite total_app. pose proof (total_insert f ths t (i :: k) (push ++ k) H) as E.
  rewrite sum_list_with_app in E. simpl in E. lia.
Qed.

Lemma total_pos {A} (f : A → nat) ths : 1 ≤ total f ths → ∃ th i, th ∈ ths ∧ i ∈ th ∧ 1 ≤ f i.
Proof.
  unfold total. induction ths as [|th ths IH]; simpl; [lia|]. intros H.
  destruct (decide (1 ≤ sum_list_with f th)) as [Hth|Hth].
  - assert (∃ i, i ∈ th ∧ 1 ≤ f i) as (i & ? & ?); [|exists th, i; set_solver].
    clear -Hth. induction th as [|i th IH]; simpl in *; [lia|].
    destruct (decide (1 ≤ f i)); [exists i; set_solver|]. destruct IH as (j & ? & ?); [lia|]. exists j. set_solver.
  - destruct IH as (th' & i & ? & ? & ?); [lia|]. exists th', i. set_solver.
Qed.

Lemma quiescent_total {A} (f : A → nat) (ths : list (list A)) :
  forallb (λ th : list A, match th with [] => true | _ => false end) ths = true → total f ths = 0.
Proof.
  unfold total. induction ths as [|[|] ths IH]; simpl; [done|done|done].
Qed.

(** Children of context [c] that have not told it they are done.  A ghost list
    records, for each context, its parent and whether it has. *)
Abbreviation ghost := (list (option nat * bool)).
Definition waits_for (c : nat) (g : option nat * bool) : nat :=
  match g with
  | (Some p, false) => if bool_decide (p = c) then 1 else 0
  | _ => 0
  end.
Definition unnotified (gs : ghost) (c : nat) : nat := sum_list_with (waits_for c) gs.

#[local] Arguments waits_for : simpl never.
Lemma waits_for_true c p : waits_for c (p, true) = 0.
Proof. by destruct p. Qed.

Lemma unnotified_snoc gs g c : unnotified (gs ++ [g]) c = unnotified gs c + waits_for c g.
Proof. unfold unnotified. rewrite sum_list_with_app. simpl. lia. Qed.

Lemma unnotified_mark (gs : ghost) k p b c :
  gs !! k = Some (p, b) → unnotified (<[k := (p, true)]> gs) c + waits_for c (p, b) = unnotified gs c.
Proof.
  revert k. induction gs as [|g gs IH]; intros [|k] H; simplify_eq/=; unfold unnotified in *; simpl.
  - rewrite waits_for_true. lia.
  - specialize (IH k H). lia.
Qed.

Lemma waits_for_pos c g : 1 ≤ waits_for c g → g = (Some c, false).
Proof. destruct g as [[p|] []]; unfold waits_for; try case_bool_decide; intros; subst; (done || lia). Qed.

Lemma unnotified_pos gs c : 1 ≤ unnotified gs c → ∃ k, gs !! k = Some (Some c, false).
Proof.
  unfold unnotified. induction gs as [|g gs IH]; simpl; [lia|]. intros H.
  destruct (decide (1 ≤ waits_for c g)) as [Hg|Hg].
  - exists 0. by rewrite (waits_for_pos _ _ Hg).
  - destruct IH as [k Hk]; [lia|]. by exists (S k).
Qed.

(** ** Answering *)

(** [TellNext] with an empty, non-nil list of relation types does nothing. *)
Definition tells (rels : option (list string)) : bool :=
  match rels with Some [] => false | _ => true end.

(** The calls contain one that leads to [childDone]. *)
Fixpoint answers_call (x : call) : bool :=
  match x with
  | CTell _ _ rels => tells rels
  | CGo body => existsb answers_call body
  | CSelf _ | CPanic _ | COnMsg _ _ => true
  end.
Definition answers (calls : list call) : bool := existsb answers_call calls.

(** Every node answers every message, and an around aspect that stops the engine
    from calling the node answers in its place. *)
Class Responsive `{R : Runtime} : Prop := {
  node_answers : ∀ node msg, answers (rt_OnMsg node msg) = true;
  around_answers : ∀ self msg rel calls, executeAroundAop self msg rel = (false, calls) → answers calls = true
}.

Lemma answers_app l1 l2 : answers (l1 ++ l2) = answers l1 || answers l2.
Proof. unfold answers. by rewrite existsb_app. Qed.

Section Completion.
Context `{R : Runtime} {Hresp : Responsive}.

Definition at_ctx (c c' : nat) (b : bool) : nat := if bool_decide (c = c') then if b then 1 else 0 else 0.

(** Pending work on context [c]. *)
Fixpoint act (c : nat) (i : instr) : nat :=
  match i with
  | ITell c' _ _ rels => at_ctx c c' (tells rels)
  | IRels c' _ _ rels => at_ctx c c' (match rels with [] => false | _ => true end)
  | IKids c' _ _ nodes => at_ctx c c' (match nodes with [] => false | _ => true end)
  | ISubmit task => act c task
  | ICalls c' calls _ => at_ctx c c' (answers calls)
  | ITellFirst c' _ _ | ITellNext c' _ _ _ | IDoOnEnd c' _ _ _ | IEndCallback c' _ _ _ | IOnEnd c' _ _ _
  | IChildDone c' => at_ctx c c' true
  | IConfigOnEnd _ _ | ICompleted _ | IStoreDone _ | ICallCompleted _ => 0
  end.

(** Pending decrements of the counter of [c]. *)
Fixpoint owe (c : nat) (i : instr) : nat :=
  match i with
  | ISubmit task => owe c task
  | ITellNext c' _ _ _ | IChildDone c' => at_ctx c c' true
  | _ => 0
  end.

(** Pending completion check of [c], and pending completion callback. *)
Fixpoint check (c : nat) (i : instr) : nat :=
  match i with
  | ISubmit task => check c task
  | ICompleted c' | IStoreDone c' => at_ctx c c' true
  | _ => 0
  end.
Fixpoint callback (c : nat) (i : instr) : nat :=
  match i with
  | ISubmit task => callback c task
  | ICallCompleted c' => at_ctx c c' true
  | _ => 0
  end.

Lemma owe_act c i : owe c i ≤ act c i.
Proof. induction i; simpl; lia. Qed.

Lemma total_owe_act c ths : total (owe c) ths ≤ total (act c) ths.
Proof.
  unfold total. induction ths as [|th ths IH]; simpl; [lia|].
  assert (sum_list_with (owe c) th ≤ sum_list_with (act c) th); [|lia].
  induction th as [|i th IHt]; simpl; [lia|]. pose proof (owe_act c i). lia.
Qed.

(** Instructions refer to contexts that exist; a recovery is of the parent. *)
Fixpoint wf_instr (xs : list Ctx) (i : instr) : Prop :=
  match i with
  | ISubmit task => wf_instr xs task
  | ICalls c _ recover => ∃ x, xs !! c = Some x ∧ is_Some (x_self x) ∧
      match recover with Some p => x_parentRuleCtx x = Some p | None => True end
  | ITell c _ _ _ | IRels c _ _ _ | IKids c _ _ _ | ITellFirst c _ _ | ITellNext c _ _ _ | IDoOnEnd c _ _ _
  | IEndCallback c _ _ _ | IOnEnd c _ _ _ | IChildDone c | ICompleted c | IStoreDone c | ICallCompleted c => c < length xs
  | IConfigOnEnd _ _ => True
  end.

(** Contexts only gain members, and their fixed fields stay. *)
Definition ctx_le (x y : Ctx) : Prop :=
  x_self y = x_self x ∧ x_parentRuleCtx y = x_parentRuleCtx x ∧ x_hasCompleted y = x_hasCompleted x.
Definition ctxs_le (xs ys : list Ctx) : Prop := ∀ c x, xs !! c = Some x → ∃ y, ys !! c = Some y ∧ ctx_le x y.

Lemma ctxs_le_refl xs : ctxs_le xs xs.
Proof. intros c x Hx. exists x. by split_and!. Qed.
Lemma ctxs_le_insert xs c x y : xs !! c = Some x → ctx_le x y → ctxs_le xs (<[c := y]> xs).
Proof.
  intros Hx Hle c' x' Hx'. destruct (decide (c = c')) as [->|Hne].
  - simplify_eq. exists y. rewrite list_lookup_insert_eq by (by eapply lookup_lt_Some). done.
  - exists x'. rewrite list_lookup_insert_ne by done. by split_and!.
Qed.
Lemma ctxs_le_snoc xs y : ctxs_le xs (xs ++ [y]).
Proof. intros c x Hx. exists x. rewrite lookup_app_l by (by eapply lookup_lt_Some). by split_and!. Qed.
Lemma ctxs_le_length xs ys : ctxs_le xs ys → length xs ≤ length ys.
Proof.
  intros H. destruct (decide (length xs ≤ length ys)) as [|Hlt]; [done|].
  destruct (lookup_lt_is_Some_2 xs (length ys)) as [x Hx]; [lia|].
  destruct (H _ _ Hx) as (y & Hy & _). apply lookup_lt_Some in Hy. lia.
Qed.

Lemma wf_instr_mono xs ys i : ctxs_le xs ys → wf_instr xs i → wf_instr ys i.
Proof.
  intros Hle. pose proof (ctxs_le_length _ _ Hle). induction i; simpl; try lia; try done.
  intros (x & Hx & Hs & Hr). destruct (Hle _ _ Hx) as (y & Hy & E1 & E2 & _). exists y.
  split; [done|]. rewrite E1, E2. done.
Qed.


(** ** One action *)

(** Work that an action leaves, on context [c]. *)
Definition left (f : nat → instr → nat) (ef : effect) (c : nat) : nat :=
  sum_list_with (f c) (ef_push ef) + total (f c) (ef_spawn ef).

(** How an action of instruction [i] changes contexts, pending work and ghosts. *)
Record balanced (xs : list Ctx) (gs : ghost) (i : instr) (ef : effect) (gs' : ghost) : Prop := {
  b_par : gs'.*1 = x_parentRuleCtx <$> ef_ctxs ef;
  b_le : ctxs_le xs (ef_ctxs ef);
  b_wf : Forall (wf_instr (ef_ctxs ef)) (ef_push ef) ∧ Forall (Forall (wf_instr (ef_ctxs ef))) (ef_spawn ef);
  b_lt : ∀ c p, c < length (ef_ctxs ef) → gs'.*1 !! c = Some (Some p) → p < c ∨ gs.*1 !! c = Some (Some p);
  (* the counter never exceeds the pending decrements *)
  b_wait : ∀ c x', ef_ctxs ef !! c = Some x' →
    (xs !! c = None ∧ x_waitingCount x' = 0%Z) ∨
    ∃ x, xs !! c = Some x ∧
      (x_waitingCount x' + Z.of_nat (owe c i + unnotified gs c) ≤
       x_waitingCount x + Z.of_nat (left owe ef c + unnotified gs' c))%Z;
  (* a context that is not done has pending work *)
  b_act : ∀ c p, gs' !! c = Some (p, false) →
    1 ≤ left act ef c + unnotified gs' c ∨
    (gs !! c = Some (p, false) ∧ act c i + unnotified gs c ≤ left act ef c + unnotified gs' c) ∨
    (∃ x', ef_ctxs ef !! c = Some x' ∧ (1 ≤ x_waitingCount x')%Z)
}.

Lemma fmap_insert_parent (xs : list Ctx) (c : nat) x y :
  xs !! c = Some x → ctx_le x y → x_parentRuleCtx <$> (<[c := y]> xs) = x_parentRuleCtx <$> xs.
Proof.
  intros Hx (_ & E & _). rewrite list_fmap_insert, E. apply list_insert_id. by rewrite list_lookup_fmap, Hx.
Qed.

(** An action that leaves the contexts alone and loses no work. *)
Lemma balanced_same xs gs i ef :
  gs.*1 = x_parentRuleCtx <$> xs → ef_ctxs ef = xs →
  Forall (wf_instr xs) (ef_push ef) → Forall (Forall (wf_instr xs)) (ef_spawn ef) →
  (∀ c, owe c i ≤ left owe ef c) → (∀ c, act c i ≤ left act ef c) →
  balanced xs gs i ef gs.
Proof.
  intros Hp E Hw1 Hw2 Ho Ha. split; rewrite ?E; try done.
  - apply ctxs_le_refl.
  - intros c p _ ?. by right.
  - intros c x' Hx'. right. exists x'. split; [done|]. specialize (Ho c). lia.
  - intros c p Hc. right. left. split; [done|]. specialize (Ha c). lia.
Qed.

(** The new context of a child. *)
Lemma balanced_child xs gs c x n msg rel calls :
  gs.*1 = x_parentRuleCtx <$> xs → xs !! c = Some x → answers calls = true →
  balanced xs gs (ITellNext c msg n rel)
    (goes_on (xs ++ [NewNextNodeRuleContext c x n]) [ICalls (length xs) calls (Some c)]) (gs ++ [(Some c, false)]).
Proof.
  intros Hp Hx Ha. assert (c < length xs) as Hc by (by eapply lookup_lt_Some).
  assert (length gs = length xs) as Hlen by (rewrite <- (length_fmap fst gs), Hp; by rewrite length_fmap).
  assert (∀ c', waits_for c' (Some c, false) = at_ctx c' c true) as Hw.
  { intros c'. unfold waits_for, at_ctx. repeat case_bool_decide; congruence. }
  split; simpl.
  - rewrite !fmap_app, Hp. done.
  - apply ctxs_le_snoc.
  - split; [|constructor]. constructor; [|constructor]. simpl.
    exists (NewNextNodeRuleContext c x n). rewrite lookup_app_r, Nat.sub_diag by lia. split_and!; [done|by eexists|done].
  - intros c' p Hlt. rewrite fmap_app. intros H. apply lookup_app_Some in H as [H|[Hge H]]; [by right|].
    rewrite length_fmap in *. destruct (c' - length gs) eqn:E; simplify_eq/=. left. lia.
  - intros c' x' H. apply lookup_app_Some in H as [H|[Hge H]].
    + right. exists x'. split; [done|]. rewrite unnotified_snoc, Hw. unfold left. simpl. lia.
    + left. split; [by apply lookup_ge_None|]. destruct (c' - length xs) eqn:E; simplify_eq/=. done.
  - intros c' p H. rewrite unnotified_snoc, Hw. unfold left. simpl. rewrite Ha.
    apply lookup_app_Some in H as [H|[Hge H]].
    + right. left. split; [done|]. lia.
    + destruct (c' - length gs) eqn:E; simplify_eq/=. left. unfold at_ctx.
      rewrite (bool_decide_true (c' = length xs)) by lia. lia.
Qed.

(** A counter update. *)
Lemma balanced_count xs gs c x z i push :
  gs.*1 = x_parentRuleCtx <$> xs → xs !! c = Some x →
  Forall (wf_instr (<[c := set_waiting z x]> xs)) push →
  (∀ c', c' ≠ c → owe c' i ≤ sum_list_with (owe c') push) →
  (z + Z.of_nat (owe c i) ≤ x_waitingCount x + Z.of_nat (sum_list_with (owe c) push))%Z →
  (∀ c', c' ≠ c → act c' i ≤ sum_list_with (act c') push) →
  (act c i ≤ sum_list_with (act c) push ∨ (1 ≤ z)%Z) →
  balanced xs gs i (goes_on (<[c := set_waiting z x]> xs) push) gs.
Proof.
  intros Hp Hx Hw Ho Hoc Ha Hac. assert (c < length xs) as Hc by (by eapply lookup_lt_Some).
  split; simpl; try done.
  - rewrite Hp. symmetry. apply (fmap_insert_parent xs c x); [done|]. by split_and!.
  - apply (ctxs_le_insert xs c x); [done|]. by split_and!.
  - intros c' p _ ?. by right.
  - intros c' x' Hx'. right. unfold left. simpl. destruct (decide (c = c')) as [<-|Hne].
    + rewrite list_lookup_insert_eq in Hx' by done. simplify_eq. exists x. split; [done|]. simpl. lia.
    + rewrite list_lookup_insert_ne in Hx' by done. exists x'. split; [done|]. specialize (Ho c' ltac:(done)). lia.
  - intros c' p H. unfold left. simpl. destruct (decide (c = c')) as [<-|Hne].
    + destruct Hac as [Hac|Hz]; [right; left; split; [done|lia]|]. right. right.
      exists (set_waiting z x). rewrite list_lookup_insert_eq by done. done.
    + right. left. split; [done|]. specialize (Ha c' ltac:(done)). lia.
Qed.


(** Context [c] tells its parent that it is done. *)
Definition notify (parent : option nat) : list instr :=
  match parent with Some p => [IChildDone p] | None => [] end.

Lemma notify_owe parent b c : waits_for c (parent, b) ≤ sum_list_with (owe c) (notify parent).
Proof.
  destruct parent as [p|], b; simpl; unfold waits_for, at_ctx; try lia. repeat case_bool_decide; (congruence || lia).
Qed.
Lemma notify_act parent b c : waits_for c (parent, b) ≤ sum_list_with (act c) (notify parent).
Proof.
  destruct parent as [p|], b; simpl; unfold waits_for, at_ctx; try lia. repeat case_bool_decide; (congruence || lia).
Qed.

Lemma balanced_notify xs gs c x z b i rest :
  gs.*1 = x_parentRuleCtx <$> xs → xs !! c = Some x → gs !! c = Some (x_parentRuleCtx x, b) →
  (∀ p, x_parentRuleCtx x = Some p → p < length xs) → Forall (wf_instr (<[c := set_waiting z x]> xs)) rest →
  (z + Z.of_nat (owe c i) ≤ x_waitingCount x)%Z →
  (∀ c', c' ≠ c → owe c' i = 0 ∧ act c' i = 0) →
  balanced xs gs i (goes_on (<[c := set_waiting z x]> xs) (notify (x_parentRuleCtx x) ++ rest))
    (<[c := (x_parentRuleCtx x, true)]> gs).
Proof.
  intros Hp Hx Hg Hlt Hw Hz Hi. assert (c < length xs) as Hc by (by eapply lookup_lt_Some).
  assert ((<[c := (x_parentRuleCtx x, true)]> gs).*1 = gs.*1) as Hfst.
  { rewrite list_fmap_insert. apply list_insert_id. by rewrite list_lookup_fmap, Hg. }
  pose proof (unnotified_mark gs c (x_parentRuleCtx x) b) as Hm.
  split; simpl.
  - rewrite Hfst, Hp. symmetry. apply (fmap_insert_parent xs c x); [done|]. by split_and!.
  - apply (ctxs_le_insert xs c x); [done|]. by split_and!.
  - split; [|constructor]. apply Forall_app. split; [|done]. destruct (x_parentRuleCtx x) as [p|]; [|constructor].
    constructor; [|constructor]. simpl. rewrite length_insert. by apply Hlt.
  - intros c' p _ ?. right. by rewrite <- Hfst.
  - intros c' x' Hx'. right. unfold left. simpl. rewrite sum_list_with_app. specialize (Hm c' Hg).
    pose proof (notify_owe (x_parentRuleCtx x) b c').
    destruct (decide (c = c')) as [<-|Hne].
    + rewrite list_lookup_insert_eq in Hx' by done. simplify_eq. exists x. split; [done|]. simpl. lia.
    + rewrite list_lookup_insert_ne in Hx' by done. exists x'. split; [done|].
      destruct (Hi c') as [-> _]; [done|]. lia.
  - intros c' p H. unfold left. simpl. rewrite sum_list_with_app. specialize (Hm c' Hg).
    pose proof (notify_act (x_parentRuleCtx x) b c').
    destruct (decide (c = c')) as [<-|Hne].
    + rewrite list_lookup_insert_eq in H by (by eapply lookup_lt_Some). simplify_eq.
    + rewrite list_lookup_insert_ne in H by done. right. left. split; [done|]. destruct (Hi c') as [_ ->]; [done|]. lia.
Qed.

Lemma set_waiting_id x : set_waiting (x_waitingCount x) x = x.
Proof. by destruct x. Qed.

Lemma ghost_parent (xs : list Ctx) (gs : ghost) (c : nat) x :
  gs.*1 = x_parentRuleCtx <$> xs → xs !! c = Some x → ∃ b, gs !! c = Some (x_parentRuleCtx x, b).
Proof.
  intros Hp Hx. assert (gs.*1 !! c = Some (x_parentRuleCtx x)) as H by (by rewrite Hp, list_lookup_fmap, Hx).
  rewrite list_lookup_fmap in H. destruct (gs !! c) as [[p b]|]; simplify_eq/=. eauto.
Qed.

(** Side conditions of the cases where the contexts stay. *)
Ltac flow := unfold left, at_ctx; simpl; unfold total, at_ctx; simpl;
  repeat case_bool_decide; simpl;
  repeat match goal with |- context [if ?b then _ else _] => destruct b; simpl end; (lia || done).
Ltac wf_ctx := repeat (constructor; simpl); try done; try (rewrite ?length_insert; by eapply lookup_lt_Some).

Lemma exec_call_balanced xs gs c x call rest recover :
  gs.*1 = x_parentRuleCtx <$> xs → xs !! c = Some x → is_Some (x_self x) →
  (∀ p, x_parentRuleCtx x = Some p → p < length xs) →
  match recover with Some p => x_parentRuleCtx x = Some p | None => True end →
  ef_crash (exec_call xs c x call rest recover) = None →
  ∃ gs', balanced xs gs (ICalls c (call :: rest) recover) (exec_call xs c x call rest recover) gs' ∧
    (gs' = gs ∨ c < length xs ∧ is_Some (x_parentRuleCtx x) ∧ gs' = <[c := (x_parentRuleCtx x, true)]> gs).
Proof.
  intros Hp Hx [self Hself] Hlt Hrec Hcr.
  assert (wf_instr xs (ICalls c rest recover)) as Hrest by (exists x; split_and!; [done|by eexists|done]).
  assert (c < length xs) as Hc by (by eapply lookup_lt_Some).
  destruct call as [msg err rels|msg|body|why|node msg]; simpl in *.
  - exists gs. split; [|by left]. apply balanced_same; try done; simpl.
    + repeat (constructor; try done).
    + intros c'. unfold left. simpl. destruct (tells rels); flow.
  - exists gs. split; [|by left]. rewrite Hself. apply balanced_same; try done; simpl.
    + by repeat constructor.
    + constructor; [|constructor]. constructor; [|constructor]. exists x. split_and!; [done|by eexists|done].
    + intros c'. flow.
  - exists gs. split; [|by left]. apply balanced_same; try done; simpl.
    + by repeat constructor.
    + constructor; [|constructor]. constructor; [|constructor]. exists x. split_and!; [done|by eexists|done].
    + intros c'. fold (answers body). destruct (answers body) eqn:Eb; flow.
  - destruct recover as [p|]; [|done]. destruct (ghost_parent xs gs c x Hp Hx) as [b Hb].
    exists (<[c := (x_parentRuleCtx x, true)]> gs). split; [|right; rewrite Hrec; eauto].
    pose proof (balanced_notify xs gs c x (x_waitingCount x) b (ICalls c (CPanic why :: rest) (Some p)) []) as HB.
    rewrite set_waiting_id, list_insert_id, Hrec, app_nil_r in HB by done. rewrite Hrec in *. apply HB; try done.
    + simpl. lia.
    + intros c' Hne. split; flow.
  - exists gs. split; [|by left]. apply balanced_same; try done; simpl.
    + constructor; [|constructor]. exists x. split_and!; [done|by eexists|done].
    + intros c'. unfold left. simpl. rewrite answers_app, node_answers. flow.
Qed.


(** The root context becomes done only together with its completion check. *)
Definition root_change (gs : ghost) (ef : effect) (gs' : ghost) : Prop :=
  ∀ p, gs' !! 0 = Some (p, true) → gs !! 0 = Some (p, true) ∨ 1 ≤ left check ef 0.

Lemma root_change_same gs ef : root_change gs ef gs.
Proof. intros p H. by left. Qed.

Lemma around_calls_answer self msg rel node :
  let '(tellNext, calls) := executeAroundAop self msg rel in
  answers (calls ++ if tellNext then [COnMsg node msg] else []) = true.
Proof.
  destruct (executeAroundAop self msg rel) as [[] calls] eqn:E; rewrite answers_app.
  - simpl. by rewrite orb_true_r.
  - by rewrite (around_answers _ _ _ _ E).
Qed.

Lemma exec_balanced xs gs i :
  gs.*1 = x_parentRuleCtx <$> xs → wf_instr xs i →
  (∀ c x p, xs !! c = Some x → x_parentRuleCtx x = Some p → p < length xs) →
  (∀ x, xs !! 0 = Some x → x_parentRuleCtx x = None) →
  ef_crash (exec xs i true) = None →
  ∃ gs', balanced xs gs i (exec xs i true) gs' ∧ root_change gs (exec xs i true) gs'.
Proof.
  intros Hp Hw Hlt Hroot Hcr.
  assert (∀ j, wf_instr xs j → wf_instr xs j) as Hid by done.
  destruct i as [c msg err rels|c msg err|c msg err rels|c msg rel nodes|task|c msg n rel|c calls rec
    |c msg err rel|c msg err rel|c msg err rel|msg err|c|c|c|c]; simpl in Hw, Hcr |- *;
    try (destruct (lookup_lt_is_Some_2 xs c Hw) as [x Hx]; rewrite ?Hx).
  - exists gs. split; [|apply root_change_same].
    destruct (x_isFirst x); [|destruct rels as [rels|]]; (apply balanced_same; try done; simpl; [wf_ctx|intros c'; try flow]).
  - exists gs. split; [|apply root_change_same].
    destruct (x_self x); (apply balanced_same; try done; simpl; [wf_ctx|intros c'; flow..]).
  - exists gs. split; [|apply root_change_same]. destruct rels as [|r rels].
    + apply balanced_same; try done. intros c'; flow.
    + destruct (if x_skipTellNext x then [] else getNextNodes x r);
        (apply balanced_same; try done; simpl; [wf_ctx|intros c'; flow]).
  - exists gs. split; [|apply root_change_same]. destruct nodes as [|n nodes].
    + apply balanced_same; try done. intros c'; flow.
    + apply balanced_count; try done; simpl; try (intros c' Hne); try flow; try (left; flow).
      wf_ctx.
  - exists gs. split; [|apply root_change_same].
    apply balanced_same; try done; simpl; try (intros c'; flow). by repeat constructor.
  - pose proof (around_calls_answer (Some n) msg rel n) as Ha.
    destruct (executeAroundAop (Some n) msg rel) as [tellNext calls].
    eexists. split; [by apply balanced_child|]. intros p Hg. left.
    rewrite lookup_app_l in Hg; [done|]. rewrite <- (length_fmap fst gs), Hp, length_fmap. lia.
  - destruct Hw as (x & Hx & Hs & Hr). destruct calls as [|call rest].
    + exists gs. split; [|apply root_change_same]. apply balanced_same; try done. intros c'; flow.
    + rewrite Hx in Hcr |- *.
      destruct (exec_call_balanced xs gs c x call rest rec) as (gs' & HB & Hg); try done.
      { intros p' Hp'. by eapply Hlt. }
      exists gs'. split; [done|]. destruct Hg as [->|(Hc & [q Hq] & ->)]; [apply root_change_same|].
      intros p' Hg. left. destruct c as [|c]; [|by rewrite list_lookup_insert_ne in Hg by done]. by rewrite (Hroot x Hx) in Hq.
  - exists gs. split; [|apply root_change_same]. destruct rt_hasOnEnd;
    (apply balanced_same; try done; simpl; [wf_ctx|intros c'; flow..]).
  - exists gs. split; [|apply root_change_same]. destruct (x_hasOnEnd x);
    (apply balanced_same; try done; simpl; [wf_ctx|intros c'; flow..]).
  - exists gs. split; [|apply root_change_same]. apply balanced_same; try done; simpl; [wf_ctx|intros c'; flow..].
  - exists gs. split; [|apply root_change_same]. apply balanced_same; try done; simpl; intros c'; flow.
  - destruct (ghost_parent xs gs c x Hp Hx) as [b Hb]. case_bool_decide as Hz.
    + eexists. split; [apply (balanced_notify xs gs c x _ b); try done|].
      * intros p' Hp'. by eapply Hlt.
      * wf_ctx.
      * simpl. unfold at_ctx. rewrite bool_decide_true by done. lia.
      * intros c' Hne. split; flow.
      * intros p' Hg. destruct (decide (c = 0)) as [->|Hne].
        -- right. unfold left. simpl. rewrite sum_list_with_app. simpl. lia.
        -- left. by rewrite list_lookup_insert_ne in Hg.
    + exists gs. split; [|apply root_change_same]. apply balanced_count; try done; simpl; try (intros c' Hne; flow).
      * unfold at_ctx. rewrite bool_decide_true by done. lia.
      * right. lia.
  - exists gs. split; [|apply root_change_same].
    destruct (x_hasCompleted x && negb (x_onAllNodeCompletedDone x));
    (apply balanced_same; try done; simpl; try wf_ctx; intros c'; flow).
  - exists gs. split; [|apply root_change_same].
    split; simpl; try done.
    + rewrite Hp. symmetry. apply (fmap_insert_parent xs c x); [done|]. by split_and!.
    + apply (ctxs_le_insert xs c x); [done|]. by split_and!.
    + split; [|constructor]. constructor; [|constructor]. simpl. by rewrite length_insert.
    + intros c' p' _ ?. by right.
    + intros c' x' Hx'. right. unfold left. simpl. destruct (decide (c = c')) as [<-|Hne].
      * rewrite list_lookup_insert_eq in Hx' by done. simplify_eq. exists x. split; [done|]. simpl. lia.
      * rewrite list_lookup_insert_ne in Hx' by done. exists x'. split; [done|]. lia.
    + intros c' p' H. right. left. split; [done|]. unfold left. simpl. lia.
  - exists gs. split; [|apply root_change_same]. apply balanced_same; try done; simpl; intros c'; flow.
Qed.


(** ** The invariant of a run *)

Record inv (s : state) (gs : ghost) : Prop := {
  i_par : gs.*1 = x_parentRuleCtx <$> s_ctxs s;
  i_wf : Forall (Forall (wf_instr (s_ctxs s))) (s_threads s);
  i_lt : ∀ c p, gs.*1 !! c = Some (Some p) → p < c;
  i_wait : ∀ c x, s_ctxs s !! c = Some x →
    (x_waitingCount x ≤ Z.of_nat (total (owe c) (s_threads s) + unnotified gs c))%Z;
  i_act : ∀ c p, gs !! c = Some (p, false) → 1 ≤ total (act c) (s_threads s) + unnotified gs c;
  i_root : ∃ x, s_ctxs s !! 0 = Some x ∧ x_hasCompleted x = true ∧ x_parentRuleCtx x = None ∧
    (∀ p, gs !! 0 = Some (p, true) → x_onAllNodeCompletedDone x = true ∨ 1 ≤ total (check 0) (s_threads s)) ∧
    (x_onAllNodeCompletedDone x = true → EvCompleted 0 ∈ s_trace s ∨ 1 ≤ total (callback 0) (s_threads s))
}.

(** The completion check of the root is not lost, nor is its callback. *)
Lemma exec_check xs i x :
  xs !! 0 = Some x → x_hasCompleted x = true → wf_instr xs i →
  ∃ x', ef_ctxs (exec xs i true) !! 0 = Some x' ∧
    (check 0 i ≤ left check (exec xs i true) 0 ∨ x_onAllNodeCompletedDone x' = true) ∧
    (x_onAllNodeCompletedDone x = true → x_onAllNodeCompletedDone x' = true) ∧
    (x_onAllNodeCompletedDone x' = true → x_onAllNodeCompletedDone x = true ∨ 1 ≤ left callback (exec xs i true) 0) ∧
    (callback 0 i ≤ left callback (exec xs i true) 0 ∨ EvCompleted 0 ∈ ef_events (exec xs i true)).
Proof.
  intros Hx Hc Hw.
  assert (0 < length xs) as Hlen by (by eapply lookup_lt_Some).
  destruct i as [c msg err rels|c msg err|c msg err rels|c msg rel nodes|task|c msg n rel|c calls rec
    |c msg err rel|c msg err rel|c msg err rel|msg err|c|c|c|c]; simpl in Hw |- *;
    try (destruct (lookup_lt_is_Some_2 xs c Hw) as [y Hy]; rewrite ?Hy).
  - exists x. destruct (x_isFirst y); [|destruct rels]; simpl; split_and!; auto with lia.
  - exists x. destruct (x_self y); simpl; split_and!; auto with lia.
  - exists x. destruct rels as [|r rels]; [|destruct (if x_skipTellNext y then [] else getNextNodes y r)];
      simpl; split_and!; auto with lia.
  - destruct nodes as [|n nodes]; [exists x; simpl; split_and!; auto with lia|]. simpl.
    destruct (decide (c = 0)) as [->|Hne].
    + simplify_eq. eexists. rewrite list_lookup_insert_eq by done. split; [done|]. simpl. split_and!; auto with lia.
    + exists x. rewrite list_lookup_insert_ne by done. split_and!; auto with lia.
  - exists x. split_and!; simpl; auto; unfold left, total; simpl; left; lia.
  - destruct (executeAroundAop (Some n) msg rel) as [tn calls]. exists x. simpl.
    rewrite lookup_app_l by done. split_and!; auto with lia.
  - destruct Hw as (y & Hy & _). exists x. destruct calls as [|call rest]; [simpl; split_and!; auto with lia|].
    rewrite Hy. destruct call; simpl; try (destruct rec); simpl; split_and!; auto with lia.
  - exists x. destruct rt_hasOnEnd; simpl; split_and!; auto with lia.
  - exists x. destruct (x_hasOnEnd y); simpl; split_and!; auto with lia.
  - exists x. split_and!; auto with lia.
  - exists x. split_and!; auto with lia.
  - destruct (decide (c = 0)) as [->|Hne].
    + simplify_eq. eexists. simpl. rewrite list_lookup_insert_eq by done. split; [done|]. simpl. split_and!; auto with lia.
    + exists x. simpl. rewrite list_lookup_insert_ne by done. split_and!; auto with lia.
  - exists x. destruct (decide (c = 0)) as [->|Hne].
    + simplify_eq. rewrite Hc. simpl. destruct (x_onAllNodeCompletedDone x) eqn:Ed; simpl; split_and!; auto with lia.
    + assert (at_ctx 0 c true = 0) as -> by (unfold at_ctx; by rewrite bool_decide_false).
      destruct (x_hasCompleted y && negb (x_onAllNodeCompletedDone y)); split_and!; auto with lia.
  - destruct (decide (c = 0)) as [->|Hne].
    + simplify_eq. eexists. simpl. rewrite list_lookup_insert_eq by done. split; [done|]. simpl.
      unfold left. simpl. split_and!; auto with lia.
    + exists x. simpl. rewrite list_lookup_insert_ne by done.
      assert (at_ctx 0 c true = 0) as -> by (unfold at_ctx; by rewrite bool_decide_false).
      split_and!; auto with lia.
  - exists x. destruct (decide (c = 0)) as [->|Hne]; [split_and!; auto with lia; right; set_solver|].
    assert (at_ctx 0 c true = 0) as -> by (unfold at_ctx; by rewrite bool_decide_false).
    split_and!; auto with lia.
Qed.

Lemma inv_step s gs t s' :
  inv s gs → step s t true = Some s' → s_crashed s' = None → ∃ gs', inv s' gs'.
Proof.
  intros [Hp Hw Hl Hwa Ha (x0 & Hx0 & Hc0 & Hpar0 & Hr1 & Hr2)] Hs Hcr. unfold step in Hs.
  destruct (s_crashed s); [done|]. destruct (s_threads s !! t) as [[|i k]|] eqn:Ht; [done| |done].
  simplify_eq/=. pose proof (Forall_lookup_1 _ _ _ _ Hw Ht) as [Hwi Hwk]%Forall_cons.
  destruct (exec_balanced (s_ctxs s) gs i) as (gs' & [Bp Ble [Bw1 Bw2] Blt Bwa Bact] & Hrc); try done.
  { intros c x p Hx Hxp. assert (gs.*1 !! c = Some (Some p)) as E by (rewrite Hp, list_lookup_fmap, Hx; simpl; by rewrite Hxp).
    apply Hl in E. apply lookup_lt_Some in Hx. lia. }
  { intros x ?. by simplify_eq. }
  destruct (exec_check (s_ctxs s) i x0 Hx0 Hc0 Hwi) as (x0' & Hx0' & Hck & Hd1 & Hd2 & Hcb).
  set (ef := exec (s_ctxs s) i true) in *.
  assert (∀ f, total f (<[t := ef_push ef ++ k]> (s_threads s) ++ ef_spawn ef) + f i =
     total f (s_threads s) + (sum_list_with f (ef_push ef) + total f (ef_spawn ef))) as Htot.
  { intros f. rewrite total_step by done. lia. }
  assert (∀ f c, total (f c) (<[t := ef_push ef ++ k]> (s_threads s) ++ ef_spawn ef) + f c i =
     total (f c) (s_threads s) + left f ef c) as Hleft by (intros; unfold left; apply Htot).
  assert (∀ f, f i ≤ total f (s_threads s)) as Hin.
  { intros f. pose proof (total_insert f (s_threads s) t (i :: k) [] Ht). simpl in *. lia. }
  exists gs'. split; simpl.
  - done.
  - apply Forall_app. split.
    + apply Forall_insert.
      * eapply Forall_impl; [exact Hw|]. intros th Hth. eapply Forall_impl; [exact Hth|]. intros j. by apply wf_instr_mono.
      * apply Forall_app. split; [done|]. eapply Forall_impl; [exact Hwk|]. intros j. by apply wf_instr_mono.
    + done.
  - intros c p Hc. destruct (Blt c p) as [?|?]; [|done|done|by apply Hl].
    apply lookup_lt_Some in Hc. by rewrite Bp, length_fmap in Hc.
  - intros c x' Hx'. specialize (Hleft owe c). destruct (Bwa c x' Hx') as [[Hn ->]|(x & Hx & Hle)]; [lia|].
    specialize (Hwa c x Hx). specialize (Hin (owe c)). lia.
  - assert (∀ c x', ef_ctxs ef !! c = Some x' → (x_waitingCount x' ≤ Z.of_nat (total (owe c) (<[t := ef_push ef ++ k]> (s_threads s) ++ ef_spawn ef) + unnotified gs' c))%Z) as Hwa'.
    { intros c x' Hx'. specialize (Hleft owe c). destruct (Bwa c x' Hx') as [[Hn ->]|(x & Hx & Hle)]; [lia|].
      specialize (Hwa c x Hx). specialize (Hin (owe c)). lia. }
    intros c p Hc. pose proof (Hleft act c). pose proof (Hin (act c)).
    destruct (Bact c p Hc) as [?|[[Hc' ?]|(x' & Hx' & ?)]].
    + lia.
    + specialize (Ha c p Hc'). lia.
    + specialize (Hwa' c x' Hx'). pose proof (total_owe_act c (<[t := ef_push ef ++ k]> (s_threads s) ++ ef_spawn ef)). lia.
  - exists x0'. destruct (Ble _ _ Hx0) as (y & Hy & Es & Ep & Ec). rewrite Hx0' in Hy. simplify_eq.
    pose proof (Hleft check 0). pose proof (Hin (check 0)). pose proof (Hleft callback 0). pose proof (Hin (callback 0)).
    split_and!; [done|congruence|congruence| |].
    + intros p Hg. destruct (Hrc p Hg) as [Hg'|?]; [|lia].
      destruct (Hr1 p Hg') as [?|?]; [by auto|]. destruct Hck; [right; lia|by left].
    + intros Hd. destruct (Hd2 Hd) as [Hd'|?]; [|right; lia].
      destruct (Hr2 Hd') as [?|?]; [left; set_solver|]. destruct Hcb; [right; lia|left; set_solver].
Qed.

Lemma inv_onMsg self msg : inv (onMsg self msg) [(None, false)].
Proof.
  split; simpl.
  - done.
  - repeat constructor.
  - by intros [|c] p Hc; simplify_eq/=.
  - intros [|c] x Hx; simplify_eq/=. unfold total. simpl. lia.
  - intros [|c] p Hc; simplify_eq/=. unfold total. simpl. lia.
  - eexists. split_and!; try done.
Qed.

(** At the end nothing is pending, so every context has told its parent. *)
Lemma quiescent_done s gs : inv s gs → quiescent s = true → ∀ c g, gs !! c = Some g → g.2 = true.
Proof.
  intros [_ _ Hl _ Ha _] Hq.
  assert (∀ n c g, gs !! c = Some g → length gs - c ≤ n → g.2 = true) as H; [|intros; by eapply H].
  induction n as [|n IH]; intros c [p b] Hg Hn; [apply lookup_lt_Some in Hg; lia|].
  destruct b; [done|]. pose proof (Ha c p Hg) as H1. rewrite (quiescent_total (act c)) in H1 by exact Hq.
  destruct (unnotified_pos gs c) as [k Hk]; [lia|].
  assert (c < k) by (apply (Hl k c); by rewrite list_lookup_fmap, Hk).
  exact (IH k _ Hk ltac:(lia)).
Qed.

Lemma step_crashed s t ok : s_crashed s ≠ None → step s t ok = None.
Proof. unfold step. by destruct (s_crashed s). Qed.

Lemma run_crashed schedule s : s_crashed s ≠ None → run_schedule s schedule = s.
Proof.
  revert s. induction schedule as [|[t ok] sch IH]; intros s Hs; simpl; [done|].
  rewrite step_crashed by done. simpl. by apply IH.
Qed.

Lemma inv_run schedule s gs :
  inv s gs → Forall (λ x, x.2 = true) schedule → s_crashed (run_schedule s schedule) = None →
  ∃ gs', inv (run_schedule s schedule) gs'.
Proof.
  revert s gs. induction schedule as [|[t ok] sch IH]; intros s gs Hi Hok Hc; simpl in *; [eauto|].
  apply Forall_cons in Hok as [Ht Hok]. simpl in Ht. subst ok.
  destruct (step s t true) as [s'|] eqn:E; simpl in *; [|by eauto].
  destruct (s_crashed s') as [why|] eqn:Ec; [rewrite run_crashed in Hc; congruence|].
  destruct (inv_step s gs t s' Hi E Ec) as [gs' Hi']. by eapply IH.
Qed.

End Completion.

Lemma completion_called `{R : Runtime} self msg schedule :
  Responsive →
  let s := run_schedule (onMsg self msg) schedule in
  Forall (λ x, x.2 = true) schedule → quiescent s = true → s_crashed s = None → EvCompleted 0 ∈ s_trace s.
Proof.
  intros Hresp s Hok Hq Hc. destruct (inv_run schedule _ _ (inv_onMsg self msg) Hok Hc) as [gs Hi].
  fold s in Hi. pose proof (quiescent_done s gs Hi Hq) as Hd.
  destruct Hi as [Hp _ _ _ _ (x & Hx & _ & _ & H1 & H2)].
  destruct (ghost_parent _ gs 0 x Hp Hx) as [b Hb]. pose proof (Hd 0 _ Hb) as E. simpl in E. subst b.
  destruct (H1 _ Hb) as [Hdone|Hck]; [|rewrite (quiescent_total (check 0)) in Hck by exact Hq; lia].
  destruct (H2 Hdone) as [?|Hcb]; [done|]. rewrite (quiescent_total (callback 0)) in Hcb by exact Hq. lia.
Qed.

(** C3. No completion is lost: take any chain (any graph, cycles included) whose
    nodes answer every message they get, and any order in which the goroutines
    make their steps, with a pool that accepts every task.  When no goroutine has
    anything left to do (and none died from a panic outside the engine's
    recovery), the completion callback of the run has been called, so that
    [OnMsgAndWait] returns. *)
Theorem completion_not_lost `{R : Runtime} self msg schedule :
  Responsive →
  let s := run_schedule (onMsg self msg) schedule in
  Forall (λ x, x.2 = true) schedule → quiescent s = true → s_crashed s = None → EvCompleted 0 ∈ s_trace s.
Proof. apply completion_called. Qed.
