(* ===== verification/CtxRaces.v ===== *)
(** * Completion can come early, and twice

    Concrete interleavings of the machine of [RuleCtx], evaluated. *)

From S2P Require Import Prelude Value Msg Config Dsl World RuleCtx CtxProps.

Module Races.

Definition m : RuleMsg := mkMsg 7%Z "id" JSON "T" "{}" ∅.
Definition n (k : nat) : NodeRef := NCnode k.

(** Node 0 has two successors; every node answers [Success]. *)
#[local] Instance forkRuntime : Runtime := {|
  rt_next := λ node rel, if bool_decide (node = n 0 ∧ rel = Success) then [n 1; n 2] else [];
  rt_OnMsg := λ _ msg, [TellSuccess msg];
  rt_before := []; rt_around := []; rt_after := [];
  rt_now := 5; rt_uuid := "u"; rt_hasOnEnd := false
|}.

#[local] Instance forkResponsive : Responsive.
Proof. by split. Defined.

(** Let goroutine [t] make [k] steps. *)
Definition go (t k : nat) : list (nat * bool) := replicate k (t, true).

(** The goroutine of node 0 submits its first successor; that branch runs to its
    end before the second successor is counted. *)
Definition early : list (nat * bool) := go 0 2 ++ go 1 8 ++ go 2 12 ++ go 3 12 ++ go 1 12 ++ go 4 12 ++ go 5 12.

(** One goroutine after the other. *)
Definition orderly : list (nat * bool) := go 0 2 ++ go 1 15 ++ go 2 12 ++ go 3 12 ++ go 4 12 ++ go 5 12.

(** The first branch has read the completion flag and not yet set it when the
    second one reads it. *)
Definition twice : list (nat * bool) := go 0 2 ++ go 1 8 ++ go 2 12 ++ go 3 5 ++ go 1 12 ++ go 4 12 ++ go 5 12 ++ go 3 12.

(** The pool rejects the task of the second successor. *)
Definition rejecting : list (nat * bool) :=
  go 0 2 ++ go 1 9 ++ [(1, false)] ++ go 1 12 ++ go 2 12 ++ go 3 12.

Definition outcome (schedule : list (nat * bool)) : bool * list event :=
  let s := run_schedule (onMsg (Some (n 0)) m) schedule in (quiescent s, s_trace s).

Lemma completion_not_lost_witness : EvCompleted 0 ∈ s_trace (run_schedule (onMsg (Some (n 0)) m) early).
Proof.
  apply (completion_not_lost (Some (n 0)) m early).
  - exact _.
  - vm_compute. repeat constructor.
  - vm_compute. reflexivity.
  - vm_compute. reflexivity.
Defined.

(** The completion callback can fire while a branch has not started: with two
    successors, when the first branch ends before the loop of [tell] has counted
    the second, [onAllNodeCompleted] runs before the second successor gets the
    message.  Run one goroutine after the other, it is the last event. *)
Theorem completion_can_be_early :
  outcome early = (true, [EvOnMsg (n 0) m; EvOnMsg (n 1) m; EvOnEnd m None Success; EvCompleted 0;
                          EvOnMsg (n 2) m; EvOnEnd m None Success]) ∧
  outcome orderly = (true, [EvOnMsg (n 0) m; EvOnMsg (n 1) m; EvOnMsg (n 2) m; EvOnEnd m None Success;
                            EvOnEnd m None Success; EvCompleted 0]).
Proof. split; vm_compute; reflexivity. Qed.

(** The callback that must run only once can run twice: the flag is read and
    set in two steps. *)
Theorem completion_can_fire_twice :
  outcome twice = (true, [EvOnMsg (n 0) m; EvOnMsg (n 1) m; EvOnEnd m None Success; EvOnMsg (n 2) m;
                          EvOnEnd m None Success; EvCompleted 0; EvCompleted 0]).
Proof. vm_compute. reflexivity. Qed.

(** A task the pool rejects is lost with its branch: everything ends and the
    completion callback never runs, so that [OnMsgAndWait] does not return. *)
Theorem rejected_task_loses_completion :
  outcome rejecting = (true, [EvOnMsg (n 0) m; EvOnMsg (n 1) m; EvOnEnd m None Success]).
Proof. vm_compute. reflexivity. Qed.

End Races.

(** A before aspect and an around aspect replace the message; the node gets the old one. *)
Module AspectMessage.

Definition m1 : RuleMsg := mkMsg 7%Z "id" JSON "T" "original" ∅.
Definition m2 : RuleMsg := mkMsg 7%Z "id" JSON "T" "replaced" ∅.

#[local] Instance aspectRuntime : Runtime := {|
  rt_next := λ _ _, [];
  rt_OnMsg := λ _ msg, [TellSuccess msg];
  rt_before := [mkBefore (λ _ _ _, true) (λ _ _ _, m2)];
  rt_around := [mkAround (λ _ _ _, true) (λ _ _ _, (m2, true, []))];
  rt_after := [];
  rt_now := 5; rt_uuid := "u"; rt_hasOnEnd := false
|}.

(** The message a before or around aspect returns is not the one the node
    gets, nor the one the chain ends with. *)
Theorem aspect_message_not_used :
  let s := run_schedule (onMsg (Some (NCnode 0)) m1) (Races.go 0 2 ++ Races.go 1 12 ++ Races.go 2 12) in
  quiescent s = true ∧ s_trace s = [EvOnMsg (NCnode 0) m1; EvOnEnd m1 None Success; EvCompleted 0].
Proof. split; vm_compute; reflexivity. Qed.

End AspectMessage.
