(* ===== verification/CtxDelivery.v ===== *)
(** * Delivery: which node gets which message does not depend on the schedule

    A sequential reference ([deliver]) follows a message through the chain depth
    first, one branch after the other, without goroutines, contexts or counters.
    Every interleaving of the machine that comes to rest has called the same nodes
    with the same messages, and ended the same branches with the same results, as
    the reference. *)

From S2P Require Import Prelude Value Msg Config Dsl World RuleCtx CtxProps.

(** What a branch needs to know of its context. *)
Record Info : Type := mkInfo {
  o_self : option NodeRef;
  o_isFirst : bool;
  o_hasOnEnd : bool;
  o_skip : bool
}.

Definition info (x : Ctx) : Info := mkInfo (x_self x) (x_isFirst x) (x_hasOnEnd x) (x_skipTellNext x).

(** Work on a message. *)
Inductive work : Type :=
| WTell (o : Info) (msg : RuleMsg) (err : error) (relationTypes : option (list string))
| WTellFirst (o : Info) (msg : RuleMsg) (err : error)
| WRels (o : Info) (msg : RuleMsg) (err : error) (relationTypes : list string)
| WKids (o : Info) (msg : RuleMsg) (relationType : string) (nodes : list NodeRef)
| WTellNext (o : Info) (msg : RuleMsg) (nextNode : NodeRef) (relationType : string)
| WCalls (o : Info) (calls : list call) (recover : bool)
| WDoOnEnd (o : Info) (msg : RuleMsg) (err : error) (relationType : string)
| WEndCallback (o : Info) (msg : RuleMsg) (err : error) (relationType : string)
| WOnEnd (msg : RuleMsg) (err : error) (relationType : string)
| WConfigOnEnd (msg : RuleMsg) (err : error).

Section Delivery.
Context `{R : Runtime}.

Definition child_info (o : Info) (nextNode : NodeRef) : Info := mkInfo (Some nextNode) false (o_hasOnEnd o) (o_skip o).

Definition do_call (o : Info) (x : call) (rest : list call) (recover : bool) : list event * list work :=
  match x with
  | CTell msg err rels => ([], [WTell o msg err rels; WCalls o rest recover])
  | CSelf msg =>
      ([], WCalls o rest recover :: match o_self o with Some self => [WCalls o [COnMsg self msg] false] | None => [] end)
  | CGo body => ([], [WCalls o rest recover; WCalls o body false])
  | CPanic _ => ([], [])
  | COnMsg node msg => ([EvOnMsg node msg], [WCalls o (rt_OnMsg node msg ++ rest) recover])
  end.

(** What a piece of work does itself, and the work it leads to. *)
Definition do_work (w : work) : list event * list work :=
  match w with
  | WTell o msg err rels =>
      if o_isFirst o then ([], [WTellFirst o (copy msg) err])
      else match rels with
           | None => ([], [WDoOnEnd o msg err ""])
           | Some rels => ([], [WRels o msg err rels])
           end
  | WTellFirst o msg err =>
      match o_self o with
      | Some self => ([], [WTellNext o msg self ""])
      | None => ([], [WDoOnEnd o msg err ""])
      end
  | WRels o msg err [] => ([], [])
  | WRels o msg err (r :: rest) =>
      let msg := executeAfterAop (o_self o) msg err r in
      match (if o_skip o then [] else match o_self o with None => [] | Some self => rt_next self r end) with
      | [] => ([], [WDoOnEnd o msg err r; WRels o msg err rest])
      | nodes => ([], [WKids o msg r nodes; WRels o msg err rest])
      end
  | WKids o msg r [] => ([], [])
  | WKids o msg r (n :: rest) => ([], [WTellNext o (copy msg) n r; WKids o msg r rest])
  | WTellNext o msg n r =>
      let '(tellNext, calls) := executeAroundAop (Some n) msg r in
      ([], [WCalls (child_info o n) (calls ++ if tellNext then [COnMsg n msg] else []) true])
  | WCalls o [] recover => ([], [])
  | WCalls o (x :: rest) recover => do_call o x rest recover
  | WDoOnEnd o msg err r =>
      ([], (if rt_hasOnEnd then [WConfigOnEnd msg err] else []) ++ [WEndCallback o msg err r])
  | WEndCallback o msg err r => ([], if o_hasOnEnd o then [WOnEnd msg err r] else [])
  | WOnEnd msg err r => ([EvOnEnd msg err r], [])
  | WConfigOnEnd msg err => ([EvConfigOnEnd msg err], [])
  end.

(** The reference: depth first; [None] when the fuel does not reach the end. *)
Fixpoint deliver (fuel : nat) (w : work) : option (list event) :=
  match fuel with
  | 0 => None
  | S fuel =>
      let '(evs, ws) := do_work w in
      evss ← list.mapM (deliver fuel) ws;
      Some (evs ++ concat evss)
  end.

(** The reference run of a message given to an engine. *)
Definition reference (fuel : nat) (self : option NodeRef) (msg : RuleMsg) : option (list event) :=
  deliver fuel (WTell (mkInfo self true true false) msg None None).

Inductive does : work → list event → Prop :=
| does_intro w evs ws evss :
    do_work w = (evs, ws) → Forall2 does ws evss → does w (evs ++ concat evss).

Lemma deliver_does fuel w evs : deliver fuel w = Some evs → does w evs.
Proof.
  revert w evs. induction fuel as [|fuel IH]; intros w evs H; simpl in H; [done|].
  destruct (do_work w) as [e ws] eqn:E. apply bind_Some in H as (evss & Hm & H). simplify_eq.
  econstructor; [done|]. apply mapM_Some in Hm. eapply Forall2_impl; [exact Hm|]. by apply IH.
Qed.

(** ** The work of the machine *)

Fixpoint erase (xs : list Ctx) (i : instr) : list work :=
  match i with
  | ITell c msg err rels => match xs !! c with Some x => [WTell (info x) msg err rels] | None => [] end
  | ITellFirst c msg err => match xs !! c with Some x => [WTellFirst (info x) msg err] | None => [] end
  | IRels c msg err rels => match xs !! c with Some x => [WRels (info x) msg err rels] | None => [] end
  | IKids c msg r nodes => match xs !! c with Some x => [WKids (info x) msg r nodes] | None => [] end
  | ISubmit task => erase xs task
  | ITellNext c msg n r => match xs !! c with Some x => [WTellNext (info x) msg n r] | None => [] end
  | ICalls c calls recover =>
      match xs !! c with
      | Some x => [WCalls (info x) calls (match recover with Some _ => true | None => false end)]
      | None => []
      end
  | IDoOnEnd c msg err r => match xs !! c with Some x => [WDoOnEnd (info x) msg err r] | None => [] end
  | IEndCallback c msg err r => match xs !! c with Some x => [WEndCallback (info x) msg err r] | None => [] end
  | IOnEnd c msg err r => [WOnEnd msg err r]
  | IConfigOnEnd msg err => [WConfigOnEnd msg err]
  | IChildDone _ | ICompleted _ | IStoreDone _ | ICallCompleted _ => []
  end.

Definition erase_thread (xs : list Ctx) (th : list instr) : list work := concat (map (erase xs) th).
Definition erase_all (xs : list Ctx) (ths : list (list instr)) : list work := concat (map (erase_thread xs) ths).

(** Deliveries and branch ends, without completions. *)
Definition visible (e : event) : bool := match e with EvCompleted _ => false | _ => true end.
Definition visible_events (l : list event) : list event := filter (λ e, visible e = true) l.

(** Contexts that keep what a branch knows of them. *)
Definition info_le (xs ys : list Ctx) : Prop := ∀ c x, xs !! c = Some x → ∃ y, ys !! c = Some y ∧ info y = info x.

Lemma info_le_refl xs : info_le xs xs.
Proof. intros c x Hx. eauto. Qed.
Lemma info_le_insert xs c x y : xs !! c = Some x → info y = info x → info_le xs (<[c := y]> xs).
Proof.
  intros Hx E c' x' Hx'. destruct (decide (c = c')) as [->|Hne].
  - assert (x' = x) as -> by congruence. exists y. split; [|done]. apply list_lookup_insert_eq. by eapply lookup_lt_Some.
  - exists x'. split; [|done]. by rewrite list_lookup_insert_ne.
Qed.
Lemma info_le_snoc xs y : info_le xs (xs ++ [y]).
Proof. intros c x Hx. exists x. split; [|done]. by rewrite lookup_app_l by (by eapply lookup_lt_Some). Qed.

(** Instructions refer to contexts that exist. *)
Fixpoint refers (xs : list Ctx) (i : instr) : Prop :=
  match i with
  | ISubmit task => refers xs task
  | ITell c _ _ _ | IRels c _ _ _ | IKids c _ _ _ | ITellFirst c _ _ | ITellNext c _ _ _ | IDoOnEnd c _ _ _
  | IEndCallback c _ _ _ | IOnEnd c _ _ _ | IChildDone c | ICompleted c | IStoreDone c | ICallCompleted c => c < length xs
  | ICalls c _ recover => c < length xs ∧ match recover with Some p => p < length xs | None => True end
  | IConfigOnEnd _ _ => True
  end.

Lemma info_le_length xs ys : info_le xs ys → length xs ≤ length ys.
Proof.
  intros H. destruct (decide (length xs ≤ length ys)) as [|Hlt]; [done|].
  destruct (lookup_lt_is_Some_2 xs (length ys)) as [x Hx]; [lia|].
  destruct (H _ _ Hx) as (y & Hy & _). apply lookup_lt_Some in Hy. lia.
Qed.

Lemma refers_mono xs ys i : info_le xs ys → refers xs i → refers ys i.
Proof.
  intros Hle. pose proof (info_le_length _ _ Hle). induction i; simpl; try lia; try done.
  intros [? Hr]. split; [lia|]. destruct recover; [lia|done].
Qed.

Lemma erase_mono xs ys i : info_le xs ys → refers xs i → erase ys i = erase xs i.
Proof.
  intros Hle. induction i; simpl; try done; intros Hr;
    try (destruct Hr as [Hr _]);
    destruct (lookup_lt_is_Some_2 xs _ Hr) as [x Hx]; destruct (Hle _ _ Hx) as (y & Hy & E); by rewrite Hx, Hy, E.
Qed.


Lemma erase_thread_mono xs ys th :
  info_le xs ys → Forall (refers xs) th → erase_thread ys th = erase_thread xs th.
Proof.
  intros Hle H. unfold erase_thread. induction H as [|i th Hi _ IH]; simpl; [done|].
  by rewrite (erase_mono xs ys), IH.
Qed.

Lemma erase_all_mono xs ys ths :
  info_le xs ys → Forall (Forall (refers xs)) ths → erase_all ys ths = erase_all xs ths.
Proof.
  intros Hle H. unfold erase_all. induction H as [|th ths Hth _ IH]; simpl; [done|].
  by rewrite (erase_thread_mono xs ys), IH.
Qed.

Lemma erase_all_app xs l1 l2 : erase_all xs (l1 ++ l2) = erase_all xs l1 ++ erase_all xs l2.
Proof. unfold erase_all. by rewrite map_app, concat_app. Qed.
Lemma erase_thread_app xs l1 l2 : erase_thread xs (l1 ++ l2) = erase_thread xs l1 ++ erase_thread xs l2.
Proof. unfold erase_thread. by rewrite map_app, concat_app. Qed.

Lemma erase_all_insert xs ths t th th' :
  ths !! t = Some th → ∃ rest, erase_all xs ths ≡ₚ erase_thread xs th ++ rest ∧
    erase_all xs (<[t := th']> ths) ≡ₚ erase_thread xs th' ++ rest.
Proof.
  revert t. induction ths as [|th0 ths IH]; intros [|t] H; simplify_eq/=.
  - exists (erase_all xs ths). unfold erase_all. simpl. done.
  - destruct (IH t H) as (rest & E1 & E2). exists (erase_thread xs th0 ++ rest).
    unfold erase_all in *. simpl. rewrite E1, E2. split; by rewrite !(Permutation_app_swap_app (erase_thread xs th0)).
Qed.

(** What one action does to the work: the instruction's own work is replaced by
    what it leads to; counters and completion have no part in it. *)
Definition conforms (xs : list Ctx) (i : instr) (ef : effect) : Prop :=
  info_le xs (ef_ctxs ef) ∧ Forall (refers (ef_ctxs ef)) (ef_push ef) ∧ Forall (Forall (refers (ef_ctxs ef))) (ef_spawn ef) ∧
  let next := erase_thread (ef_ctxs ef) (ef_push ef) ++ erase_all (ef_ctxs ef) (ef_spawn ef) in
  match erase xs i with
  | [] => visible_events (ef_events ef) = [] ∧ next = []
  | [w] => (visible_events (ef_events ef) = [] ∧ next = [w]) ∨ do_work w = (visible_events (ef_events ef), next)
  | _ => False
  end.

Lemma erase_short xs i : erase xs i = [] ∨ ∃ w, erase xs i = [w].
Proof. induction i; simpl; eauto; destruct (xs !! c); eauto. Qed.

(** Discharge [refers] of a literal list. *)
Ltac refs := repeat first [done | apply Forall_nil_2 | apply Forall_cons_2 | split]; try done; try (by eapply lookup_lt_Some).

(** Parents exist. *)
Definition parents_ok (xs : list Ctx) : Prop := ∀ c x p, xs !! c = Some x → x_parentRuleCtx x = Some p → p < length xs.

Lemma exec_call_conforms xs c x call rest recover :
  xs !! c = Some x → match recover with Some p => p < length xs | None => True end →
  ef_crash (exec_call xs c x call rest recover) = None →
  conforms xs (ICalls c (call :: rest) recover) (exec_call xs c x call rest recover).
Proof.
  intros Hx Hr Hcr. assert (c < length xs) as Hc by (by eapply lookup_lt_Some).
  unfold conforms. simpl. rewrite Hx.
  destruct call as [msg err rels|msg|body|why|node msg]; simpl; unfold erase_thread, erase_all; simpl.
  - rewrite !Hx. split_and!; [apply info_le_refl|refs|refs|by right].
  - destruct (x_self x) eqn:Es; simpl; unfold erase_thread; simpl; rewrite !Hx; simpl;
      (split_and!; [apply info_le_refl|refs|refs|right; unfold do_call; simpl; by rewrite ?Es]).
  - unfold erase_thread. simpl. rewrite !Hx. split_and!; [apply info_le_refl|refs|refs|by right].
  - destruct recover as [p|]; [|done]. simpl. split_and!; [apply info_le_refl|refs|refs|by right].
  - rewrite !Hx. split_and!; [apply info_le_refl|refs|refs|by right].
Qed.


Lemma lookup_snoc {A} (xs : list A) y : (xs ++ [y]) !! length xs = Some y.
Proof. by rewrite lookup_app_r, Nat.sub_diag. Qed.

Lemma exec_conforms xs i :
  parents_ok xs → refers xs i → ef_crash (exec xs i true) = None → conforms xs i (exec xs i true).
Proof.
  intros Hpar Hr Hcr.
  destruct i as [c msg err rels|c msg err|c msg err rels|c msg rel nodes|task|c msg n rel|c calls rec
    |c msg err rel|c msg err rel|c msg err rel|msg err|c|c|c|c]; simpl in Hr, Hcr |- *;
    try (destruct (lookup_lt_is_Some_2 xs c Hr) as [x Hx]; rewrite ?Hx).
  - destruct (x_isFirst x) eqn:E1; [|destruct rels as [rels|]];
      (unfold conforms, erase_thread, erase_all; simpl; rewrite !Hx; simpl; split_and!;
       [apply info_le_refl|refs|refs|right; unfold do_work; simpl; by rewrite ?E1]).
  - destruct (x_self x) eqn:E1;
      (unfold conforms, erase_thread, erase_all; simpl; rewrite !Hx; simpl; split_and!;
       [apply info_le_refl|refs|refs|right; unfold do_work; simpl; by rewrite ?E1]).
  - destruct rels as [|r rels].
    + unfold conforms, erase_thread, erase_all; simpl; rewrite !Hx. split_and!; [apply info_le_refl|refs|refs|by right].
    + unfold conforms. simpl. rewrite Hx. unfold getNextNodes. simpl. cbn [do_work o_skip o_self info].
      destruct (if x_skipTellNext x then [] else match x_self x with Some self => rt_next self r | None => [] end) as [|k ks];
        unfold erase_thread, erase_all; simpl; rewrite !Hx; simpl;
        (split_and!; [apply info_le_refl|refs|refs|by right]).
  - destruct nodes as [|n nodes].
    + unfold conforms, erase_thread, erase_all; simpl; rewrite !Hx. split_and!; [apply info_le_refl|refs|refs|by right].
    + unfold conforms, erase_thread, erase_all; simpl; rewrite !Hx.
      rewrite !list_lookup_insert_eq by done. simpl. split_and!.
      * by apply (info_le_insert xs c x).
      * refs; simpl; by rewrite length_insert.
      * refs.
      * by right.
  - unfold conforms. simpl. destruct (erase_short xs task) as [E|[w E]]; rewrite E;
      unfold erase_thread, erase_all, erase_thread; simpl; rewrite E; simpl;
      (split; [apply info_le_refl|split; [refs|split; [by repeat (apply Forall_cons_2 || apply Forall_nil_2)|]]]); [by split|by left; split].
  - unfold conforms. simpl. rewrite Hx. cbn [do_work].
    destruct (executeAroundAop (Some n) msg rel) as [tn calls]. simpl. unfold erase_thread, erase_all. simpl.
    rewrite lookup_snoc. simpl. split_and!.
    + apply info_le_snoc.
    + refs; simpl; rewrite length_app; simpl; lia.
    + refs.
    + by right.
  - destruct Hr as [Hc Hrec]. destruct (lookup_lt_is_Some_2 xs c Hc) as [x Hx]. rewrite Hx in Hcr |- *.
    destruct calls as [|call rest].
    + unfold conforms, erase_thread, erase_all; simpl; rewrite !Hx. split_and!; [apply info_le_refl|refs|refs|by right].
    + by apply exec_call_conforms.
  - unfold conforms. simpl. rewrite Hx. cbn [do_work].
    destruct rt_hasOnEnd; unfold erase_thread, erase_all; simpl; rewrite Hx; simpl;
      (split_and!; [apply info_le_refl|refs|refs|by right]).
  - unfold conforms. simpl. rewrite Hx. cbn [do_work info o_hasOnEnd].
    destruct (x_hasOnEnd x); unfold erase_thread, erase_all; simpl;
      (split_and!; [apply info_le_refl|refs|refs|by right]).
  - unfold conforms, erase_thread, erase_all. simpl. split_and!; [apply info_le_refl|refs|refs|by right].
  - unfold conforms, erase_thread, erase_all. simpl. split_and!; [apply info_le_refl|refs|refs|by right].
  - unfold conforms. simpl. split_and!; [by apply (info_le_insert xs c x)| |refs|done|].
    + case_bool_decide; [|refs]. apply Forall_app. split; [|refs; simpl; by rewrite length_insert].
      destruct (x_parentRuleCtx x) as [p|] eqn:Ep; [|refs]. refs. simpl. rewrite length_insert. by eapply Hpar.
    + unfold erase_thread, erase_all. case_bool_decide; [|done]. by destruct (x_parentRuleCtx x).
  - unfold conforms, erase_thread, erase_all. simpl.
    destruct (x_hasCompleted x && negb (x_onAllNodeCompletedDone x));
      (split_and!; [apply info_le_refl|refs|refs|done|done]).
  - unfold conforms, erase_thread, erase_all. simpl.
    split_and!; [by apply (info_le_insert xs c x)|refs; simpl; by rewrite length_insert|refs|done|done].
  - unfold conforms, erase_thread, erase_all. simpl. split_and!; [apply info_le_refl|refs|refs|done|done].
Qed.


Lemma parents_insert xs c x y :
  xs !! c = Some x → x_parentRuleCtx y = x_parentRuleCtx x → parents_ok xs → parents_ok (<[c := y]> xs).
Proof.
  intros Hx E Hp c' x' p Hx' Hp'. rewrite length_insert. destruct (decide (c = c')) as [->|Hne].
  - rewrite list_lookup_insert_eq in Hx' by (by eapply lookup_lt_Some). injection Hx' as <-.
    rewrite E in Hp'. by eapply Hp.
  - rewrite list_lookup_insert_ne in Hx' by done. by eapply Hp.
Qed.

Lemma exec_parents xs i ok : parents_ok xs → refers xs i → parents_ok (ef_ctxs (exec xs i ok)).
Proof.
  intros Hp Hr.
  destruct i as [c msg err rels|c msg err|c msg err rels|c msg rel nodes|task|c msg n rel|c calls rec
    |c msg err rel|c msg err rel|c msg err rel|msg err|c|c|c|c]; simpl in Hr |- *;
    try (destruct (lookup_lt_is_Some_2 xs c Hr) as [x Hx]; rewrite ?Hx).
  - destruct (x_isFirst x); [|destruct rels]; done.
  - by destruct (x_self x).
  - destruct rels; [done|]. by destruct (if x_skipTellNext x then [] else _).
  - destruct nodes; [done|]. by apply (parents_insert xs c x).
  - by destruct ok.
  - destruct (executeAroundAop (Some n) msg rel). simpl. intros c' x' p Hx' Hp'. rewrite length_app. simpl.
    apply lookup_app_Some in Hx' as [Hx'|[_ Hx']]; [specialize (Hp _ _ _ Hx' Hp'); lia|].
    destruct (c' - length xs); simplify_eq/=. lia.
  - destruct calls as [|call rest]; [done|]. destruct (xs !! c) as [x|]; [|done].
    destruct call; try done. by destruct rec.
  - done.
  - done.
  - done.
  - done.
  - by apply (parents_insert xs c x).
  - done.
  - by apply (parents_insert xs c x).
  - done.
Qed.

Lemma does_permutation L L' evss :
  L ≡ₚ L' → Forall2 does L evss → ∃ evss', Forall2 does L' evss' ∧ concat evss ≡ₚ concat evss'.
Proof.
  intros HP. revert evss. induction HP as [|w L L' _ IH|w1 w2 L|L1 L2 L3 _ IH1 _ IH2]; intros evss H.
  - eauto.
  - apply Forall2_cons_inv_l in H as (e & es & He & H & ->). destruct (IH es H) as (es' & H' & E).
    exists (e :: es'). split; [by constructor|]. simpl. by rewrite E.
  - apply Forall2_cons_inv_l in H as (e1 & es & He1 & H & ->).
    apply Forall2_cons_inv_l in H as (e2 & es' & He2 & H & ->).
    exists (e2 :: e1 :: es'). split; [by repeat constructor|]. simpl. apply Permutation_app_swap_app.
  - destruct (IH1 _ H) as (es & H2 & E1). destruct (IH2 _ H2) as (es' & H3 & E2). exists es'. split; [done|]. by etrans.
Qed.

(** What has happened and what is still to happen make up the reference run. *)
Record delivers (s : state) (T : list event) : Prop := {
  d_parents : parents_ok (s_ctxs s);
  d_refers : Forall (Forall (refers (s_ctxs s))) (s_threads s);
  d_total : ∃ evss, Forall2 does (erase_all (s_ctxs s) (s_threads s)) evss ∧ visible_events (s_trace s) ++ concat evss ≡ₚ T
}.

Lemma visible_app l1 l2 : visible_events (l1 ++ l2) = visible_events l1 ++ visible_events l2.
Proof. apply filter_app. Qed.

Lemma conforms_events xs i ef evss0 :
  conforms xs i ef → Forall2 does (erase xs i) evss0 →
  ∃ evss1, Forall2 does (erase_thread (ef_ctxs ef) (ef_push ef) ++ erase_all (ef_ctxs ef) (ef_spawn ef)) evss1 ∧
    visible_events (ef_events ef) ++ concat evss1 ≡ₚ concat evss0.
Proof.
  intros (_ & _ & _ & H) Hd. simpl in H. destruct (erase_short xs i) as [E|[w E]]; rewrite E in H, Hd.
  - destruct H as [-> ->]. apply Forall2_nil_inv_l in Hd as ->. by exists [].
  - destruct H as [[-> ->]|H]; [by exists evss0|].
    apply Forall2_cons_inv_l in Hd as (e & es & Hw & Hd & ->). apply Forall2_nil_inv_l in Hd as ->.
    inversion Hw as [? evs ws evss Hdo Hall]; subst. rewrite H in Hdo. simplify_eq. exists evss. split; [done|].
    simpl. by rewrite app_nil_r.
Qed.

Lemma delivers_step s T t s' :
  delivers s T → step s t true = Some s' → s_crashed s' = None → delivers s' T.
Proof.
  intros [Hp Hr (evss & Hd & HT)] Hs Hcr. unfold step in Hs.
  destruct (s_crashed s); [done|]. destruct (s_threads s !! t) as [[|i k]|] eqn:Ht; [done| |done].
  simplify_eq/=. pose proof (Forall_lookup_1 _ _ _ _ Hr Ht) as [Hri Hrk]%Forall_cons.
  pose proof (exec_conforms (s_ctxs s) i Hp Hri Hcr) as Hc.
  pose proof (exec_parents (s_ctxs s) i true Hp Hri) as Hp'.
  set (ef := exec (s_ctxs s) i true) in *. pose proof Hc as (Hle & Hw1 & Hw2 & _).
  split; simpl.
  - done.
  - apply Forall_app. split; [|done]. apply Forall_insert.
    + eapply Forall_impl; [exact Hr|]. intros th Hth. eapply Forall_impl; [exact Hth|]. intros j. by apply refers_mono.
    + apply Forall_app. split; [done|]. eapply Forall_impl; [exact Hrk|]. intros j. by apply refers_mono.
  - destruct (erase_all_insert (s_ctxs s) (s_threads s) t (i :: k) k Ht) as (rest & E1 & E2).
    destruct (does_permutation _ _ _ E1 Hd) as (evss' & Hd' & EP).
    unfold erase_thread in Hd'. simpl in Hd'. rewrite <- (assoc_L (++)) in Hd'.
    apply Forall2_app_inv_l in Hd' as (e0 & er & He0 & Her & ->).
    destruct (conforms_events _ _ _ _ Hc He0) as (e1 & He1 & EP1).
    assert (erase_all (ef_ctxs ef) (<[t := ef_push ef ++ k]> (s_threads s) ++ ef_spawn ef) ≡ₚ
       (erase_thread (ef_ctxs ef) (ef_push ef) ++ erase_all (ef_ctxs ef) (ef_spawn ef)) ++
       (erase_thread (s_ctxs s) k ++ rest)) as EE.
    { rewrite erase_all_app.
      destruct (erase_all_insert (ef_ctxs ef) (s_threads s) t (i :: k) (ef_push ef ++ k) Ht) as (rest' & F1 & F2).
      rewrite F2, erase_thread_app, (erase_thread_mono (s_ctxs s) (ef_ctxs ef) k Hle Hrk).
      rewrite (erase_all_mono (s_ctxs s) (ef_ctxs ef) (s_threads s) Hle Hr), E1 in F1.
      assert (erase_thread (ef_ctxs ef) (i :: k) = erase_thread (s_ctxs s) (i :: k)) as Ei.
      { apply erase_thread_mono; [done|]. by constructor. }
      rewrite Ei in F1. apply Permutation_app_inv_l in F1. rewrite <- F1. solve_Permutation. }
    symmetry in EE. destruct (does_permutation _ _ (e1 ++ er) EE) as (ef1 & Hf1 & EPf).
    { apply Forall2_app; [done|]. exact Her. }
    exists ef1. split; [done|]. rewrite visible_app, <- (assoc_L (++)), <- EPf, concat_app, (assoc_L (++) _ (concat e1)), EP1.
    rewrite <- HT, EP, concat_app. done.
Qed.


Lemma delivers_onMsg self msg T :
  does (WTell (mkInfo self true true false) msg None None) T → delivers (onMsg self msg) T.
Proof.
  intros H. split; simpl.
  - intros [|c] x p Hx Hp; simplify_eq/=.
  - repeat constructor.
  - exists [T]. split; [by repeat constructor|]. simpl. by rewrite app_nil_r.
Qed.

Lemma delivers_run schedule s T :
  delivers s T → Forall (λ x, x.2 = true) schedule → s_crashed (run_schedule s schedule) = None →
  delivers (run_schedule s schedule) T.
Proof.
  revert s. induction schedule as [|[t ok] sch IH]; intros s Hi Hok Hc; simpl in *; [done|].
  apply Forall_cons in Hok as [Ht Hok]. simpl in Ht. subst ok.
  destruct (step s t true) as [s'|] eqn:E; simpl in *; [|by eauto].
  destruct (s_crashed s') as [why|] eqn:Ec; [rewrite run_crashed in Hc; congruence|].
  apply IH; [by eapply delivers_step|done|done].
Qed.

Lemma quiescent_no_work xs ths :
  forallb (λ th : list instr, match th with [] => true | _ => false end) ths = true → erase_all xs ths = [].
Proof. unfold erase_all. induction ths as [|[|] ths IH]; simpl; [done|done|done]. Qed.

Lemma delivery_complete fuel self msg T schedule :
  reference fuel self msg = Some T → Forall (λ x, x.2 = true) schedule →
  let s := run_schedule (onMsg self msg) schedule in
  s_crashed s = None →
  (quiescent s = true → visible_events (s_trace s) ≡ₚ T) ∧ visible_events (s_trace s) ⊆+ T.
Proof.
  intros HT Hok s Hc. apply deliver_does, delivers_onMsg in HT.
  destruct (delivers_run schedule _ _ HT Hok Hc) as [_ _ (evss & Hd & E)]. fold s in Hd, E. split.
  - intros Hq. rewrite quiescent_no_work in Hd by exact Hq. apply Forall2_nil_inv_l in Hd as ->.
    rewrite app_nil_r in E. exact E.
  - rewrite <- E. by apply submseteq_inserts_r.
Qed.

(** C1. Delivery does not depend on the schedule.  When the sequential reference
    run of a message ends, every interleaving of the engine's goroutines (with a
    pool that accepts every task) has, once nothing is left to do, called exactly
    the nodes of the reference with exactly its messages, and ended exactly its
    branches with their messages, errors and relation types, each as often as the
    reference.  At every moment before, what has happened is part of it. *)
Theorem delivery_schedule_independent fuel self msg T schedule :
  reference fuel self msg = Some T → Forall (λ x, x.2 = true) schedule →
  let s := run_schedule (onMsg self msg) schedule in
  s_crashed s = None →
  (quiescent s = true → visible_events (s_trace s) ≡ₚ T) ∧ visible_events (s_trace s) ⊆+ T.
Proof. apply delivery_complete. Qed.

End Delivery.

(** A fork whose second branch fails. *)
Module DeliveryExample.

Definition m : RuleMsg := mkMsg 7%Z "id" JSON "T" "{}" ∅.

#[local] Instance forkRuntime : Runtime := {|
  rt_next := λ node rel, if bool_decide (node = NCnode 0 ∧ rel = Success) then [NCnode 1; NCnode 2] else [];
  rt_OnMsg := λ node msg, if bool_decide (node = NCnode 2) then [TellFailure msg (Some "no")] else [TellSuccess msg];
  rt_before := []; rt_around := []; rt_after := [];
  rt_now := 5; rt_uuid := "u"; rt_hasOnEnd := false
|}.

Definition schedule : list (nat * bool) :=
  replicate 2 (0, true) ++ replicate 15 (1, true) ++ replicate 12 (3, true) ++ replicate 12 (2, true) ++ replicate 12 (4, true)
  ++ replicate 12 (5, true).

Lemma delivery_schedule_independent_witness :
  visible_events (s_trace (run_schedule (onMsg (Some (NCnode 0)) m) schedule)) ≡ₚ
  [EvOnMsg (NCnode 0) m; EvOnMsg (NCnode 1) m; EvOnEnd m None Success; EvOnMsg (NCnode 2) m; EvOnEnd m (Some "no") Failure].
Proof.
  apply (delivery_schedule_independent 30 (Some (NCnode 0)) m _ schedule).
  - vm_compute. reflexivity.
  - vm_compute. repeat constructor.
  - vm_compute. reflexivity.
  - vm_compute. reflexivity.
Defined.

End DeliveryExample.
