(* ===== verification/CtxTermination.v ===== *)
(** * Running a message ends

    When the sequential reference run of a message ends, so does every run of the
    machine of [RuleCtx]: there is a bound on the number of steps its goroutines can
    make together, whatever the interleaving and whichever tasks the pool refuses.
    The bound is a weight of what is left to do, which every step decreases. *)

From S2P Require Import Prelude Value Msg Config Dsl World RuleCtx CtxProps CtxDelivery.

Section Termination.
Context `{R : Runtime}.

(** ** Depth of a context *)

Inductive depth_of (xs : list Ctx) : nat → nat → Prop :=
| depth_root c x : xs !! c = Some x → x_parentRuleCtx x = None → depth_of xs c 0
| depth_child c x p k : xs !! c = Some x → x_parentRuleCtx x = Some p → depth_of xs p k → depth_of xs c (S k).

(** What a step may change of the contexts. *)
Definition ctx_le (xs ys : list Ctx) : Prop := ∀ c x, xs !! c = Some x →
  ∃ y, ys !! c = Some y ∧ info y = info x ∧ x_parentRuleCtx y = x_parentRuleCtx x.

Lemma ctx_le_refl xs : ctx_le xs xs.
Proof. intros c x Hx. eauto. Qed.
Lemma ctx_le_snoc xs y : ctx_le xs (xs ++ [y]).
Proof. intros c x Hx. exists x. by rewrite lookup_app_l by (by eapply lookup_lt_Some). Qed.
Lemma ctx_le_insert xs c x y :
  xs !! c = Some x → info y = info x → x_parentRuleCtx y = x_parentRuleCtx x → ctx_le xs (<[c := y]> xs).
Proof.
  intros Hx Hi Hp c' x' Hx'. destruct (decide (c = c')) as [->|Hne].
  - assert (x' = x) as -> by congruence. exists y. split; [|done]. apply list_lookup_insert_eq. by eapply lookup_lt_Some.
  - exists x'. by rewrite list_lookup_insert_ne.
Qed.

Lemma depth_mono xs ys c k : ctx_le xs ys → depth_of xs c k → depth_of ys c k.
Proof.
  intros Hle. induction 1 as [c x Hx Hp|c x p k Hx Hp _ IH]; destruct (Hle _ _ Hx) as (y & Hy & _ & E).
  - eapply depth_root; [done|congruence].
  - eapply depth_child; [done| |exact IH]. congruence.
Qed.

(** ** Weights *)

(** The weight of [childDone] in a context of depth [k]: it may go up to the root. *)
Definition done_weight (k : nat) : nat := 4 * S k.

(** The weight of work in a context of depth [k]: every piece pays for its own step, for being
    submitted and for one [childDone]. *)
Definition work_depth (k : nat) (w : work) : nat := match w with WTellNext _ _ _ _ => S k | _ => k end.
Inductive bounded : nat → work → nat → Prop :=
| bounded_intro k w evs ws Ns :
    do_work w = (evs, ws) → Forall2 (bounded (work_depth k w)) ws Ns → bounded k w (2 + done_weight k + sum_list Ns).

Lemma deliver_bounded fuel k w T : deliver fuel w = Some T → ∃ N, bounded k w N.
Proof.
  revert k w T. induction fuel as [|fuel IH]; intros k w T H; simpl in H; [done|].
  destruct (do_work w) as [evs ws] eqn:E. apply bind_Some in H as (evss & Hm & _). apply mapM_Some in Hm.
  assert (∃ Ns, Forall2 (bounded (work_depth k w)) ws Ns) as [Ns HN].
  { clear E. induction Hm as [|v T' vs Ts Hv _ [Ns HN]]; [by exists []|].
    destruct (IH (work_depth k w) v T' Hv) as [N ?]. exists (N :: Ns). by constructor. }
  eexists. by econstructor.
Qed.

(** The weight of what a goroutine still has to do. *)
Inductive instr_bound (xs : list Ctx) : instr → nat → Prop :=
| ib_Tell c k x msg err rels N :
    xs !! c = Some x → depth_of xs c k → bounded k (WTell (info x) msg err rels) N → instr_bound xs (ITell c msg err rels) N
| ib_TellFirst c k x msg err N :
    xs !! c = Some x → depth_of xs c k → bounded k (WTellFirst (info x) msg err) N → instr_bound xs (ITellFirst c msg err) N
| ib_Rels c k x msg err rels N :
    xs !! c = Some x → depth_of xs c k → bounded k (WRels (info x) msg err rels) N → instr_bound xs (IRels c msg err rels) N
| ib_Kids c k x msg r l N :
    xs !! c = Some x → depth_of xs c k → bounded k (WKids (info x) msg r l) N → instr_bound xs (IKids c msg r l) N
| ib_Submit i N : instr_bound xs i N → instr_bound xs (ISubmit i) (S N)
| ib_TellNext c k x msg n r N :
    xs !! c = Some x → depth_of xs c k → bounded k (WTellNext (info x) msg n r) N → instr_bound xs (ITellNext c msg n r) N
| ib_Calls c k x calls recover N :
    xs !! c = Some x → depth_of xs c k → (∀ p, recover = Some p → ∃ kp, depth_of xs p kp ∧ kp ≤ k) →
    bounded k (WCalls (info x) calls (match recover with Some _ => true | None => false end)) N →
    instr_bound xs (ICalls c calls recover) N
| ib_DoOnEnd c k x msg err r N :
    xs !! c = Some x → depth_of xs c k → bounded k (WDoOnEnd (info x) msg err r) N → instr_bound xs (IDoOnEnd c msg err r) N
| ib_EndCallback c k x msg err r N :
    xs !! c = Some x → depth_of xs c k → bounded k (WEndCallback (info x) msg err r) N →
    instr_bound xs (IEndCallback c msg err r) N
| ib_OnEnd c k msg err r N : depth_of xs c k → bounded k (WOnEnd msg err r) N → instr_bound xs (IOnEnd c msg err r) N
| ib_ConfigOnEnd k msg err N : bounded k (WConfigOnEnd msg err) N → instr_bound xs (IConfigOnEnd msg err) N
| ib_ChildDone c k : depth_of xs c k → instr_bound xs (IChildDone c) (done_weight k)
| ib_Completed c : instr_bound xs (ICompleted c) 3
| ib_StoreDone c : instr_bound xs (IStoreDone c) 2
| ib_CallCompleted c : instr_bound xs (ICallCompleted c) 1.

Definition all_bound (xs : list Ctx) (l : list instr) (N : nat) : Prop := ∃ Ns, Forall2 (instr_bound xs) l Ns ∧ sum_list Ns = N.

Lemma all_bound_nil xs : all_bound xs [] 0.
Proof. by exists []. Qed.
Lemma all_bound_cons xs i l N M : instr_bound xs i N → all_bound xs l M → all_bound xs (i :: l) (N + M).
Proof. intros Hi (Ns & H & <-). exists (N :: Ns). split; [by constructor|done]. Qed.
Lemma all_bound_app xs l js N M : all_bound xs l N → all_bound xs js M → all_bound xs (l ++ js) (N + M).
Proof. intros (Ns & H & <-) (Ms & H' & <-). exists (Ns ++ Ms). split; [by apply Forall2_app|]. apply sum_list_with_app with (f := id). Qed.
Lemma all_bound_app_inv xs l js N : all_bound xs (l ++ js) N → ∃ N1 N2, N = N1 + N2 ∧ all_bound xs l N1 ∧ all_bound xs js N2.
Proof.
  intros (Ns & H & <-). apply Forall2_app_inv_l in H as (N1 & N2 & H1 & H2 & ->). exists (sum_list N1), (sum_list N2).
  split_and!; [apply sum_list_with_app with (f := id)|by exists N1|by exists N2].
Qed.
Lemma all_bound_cons_inv xs i l N : all_bound xs (i :: l) N → ∃ N1 N2, N = N1 + N2 ∧ instr_bound xs i N1 ∧ all_bound xs l N2.
Proof.
  intros (Ns & H & <-). apply Forall2_cons_inv_l in H as (n & Ns' & Hi & H & ->). exists n, (sum_list Ns').
  split_and!; [done..|by exists Ns'].
Qed.

Lemma instr_bound_mono xs ys i N : ctx_le xs ys → instr_bound xs i N → instr_bound ys i N.
Proof.
  intros Hle. induction 1; repeat match goal with
    | H : xs !! _ = Some _ |- _ => destruct (Hle _ _ H) as (? & ? & ? & ?); clear H
    | H : depth_of xs _ _ |- _ => apply (depth_mono _ _ _ _ Hle) in H
    | E : info _ = info _ |- _ => rewrite <- E in *; clear E
    end; try (econstructor; eassumption).
  - econstructor; [eassumption..| |eassumption]. intros p Hp. destruct (H1 p Hp) as (kp & Hk & ?). eauto using depth_mono.
Qed.

Lemma all_bound_mono xs ys l N : ctx_le xs ys → all_bound xs l N → all_bound ys l N.
Proof. intros Hle (Ns & H & <-). exists Ns. split; [|done]. eapply Forall2_impl; [exact H|]. intros ? ?. by apply instr_bound_mono. Qed.

(** ** Every step decreases the weight *)

Lemma bounded_inv k w N : bounded k w N →
  ∃ Ns, Forall2 (bounded (work_depth k w)) (do_work w).2 Ns ∧ N = 2 + done_weight k + sum_list Ns.
Proof. destruct 1 as [k w evs ws Ns E H]. exists Ns. by rewrite E. Qed.

Definition decreases (xs : list Ctx) (ef : effect) (N : nat) : Prop :=
  ctx_le xs (ef_ctxs ef) ∧ ∃ M, all_bound (ef_ctxs ef) (ef_push ef ++ concat (ef_spawn ef)) M ∧ M < N.

(** Instructions that start the work of a list weigh what the work weighs. *)
Definition starts (xs : list Ctx) (k : nat) (i : instr) (w : work) : Prop := ∀ N, bounded k w N → instr_bound xs i N.

Lemma works_weigh xs k l ws Ns :
  Forall2 (starts xs k) l ws → Forall2 (bounded k) ws Ns → all_bound xs l (sum_list Ns).
Proof.
  intros H. revert Ns. induction H as [|i w l ws Hi _ IH]; intros Ns HN.
  - apply Forall2_nil_inv_l in HN as ->. apply all_bound_nil.
  - apply Forall2_cons_inv_l in HN as (N & Ns' & HN & H & ->). simpl. apply all_bound_cons; auto.
Qed.
Lemma submitted_weighs xs k i w l ws Ns :
  starts xs k i w → Forall2 (starts xs k) l ws → Forall2 (bounded k) (w :: ws) Ns →
  all_bound xs (ISubmit i :: l) (S (sum_list Ns)).
Proof.
  intros Hi Hl H. apply Forall2_cons_inv_l in H as (N & Ns' & HN & H & ->).
  apply (all_bound_cons _ _ _ (S N)); [by constructor; apply Hi|by eapply works_weigh].
Qed.
Lemma weight_lt {xs l n m} : all_bound xs l n → n < m → ∃ M, all_bound xs l M ∧ M < m.
Proof. eauto. Qed.

(** The instructions a step leads to start the work it leads to. *)
Ltac starts_works := repeat first [apply Forall2_nil_2 | apply Forall2_cons_2; [intros ? ?; by econstructor|]].
Ltac same_work H := eapply weight_lt; [eapply works_weigh; [|exact H]; starts_works|simpl; lia].

Lemma exec_call_decreases xs c k x y rest recover N :
  xs !! c = Some x → depth_of xs c k → (∀ p, recover = Some p → ∃ kp, depth_of xs p kp ∧ kp ≤ k) →
  bounded k (WCalls (info x) (y :: rest) (match recover with Some _ => true | None => false end)) N →
  decreases xs (exec_call xs c x y rest recover) N.
Proof.
  intros Hx Hk Hrec H. split; [destruct y; simpl; repeat case_match; apply ctx_le_refl|].
  apply bounded_inv in H as (Ns & H & ->). destruct y as [msg err rels|msg|body|why|n msg]; simpl in H |- *.
  - same_work H.
  - destruct (x_self x) as [self|]; simpl in *; same_work H.
  - same_work H.
  - destruct recover as [p|]; simpl; [|exists 0; split; [apply all_bound_nil|lia]].
    destruct (Hrec p eq_refl) as (kp & Hkp & Hle). exists (done_weight kp + 0). split; [|unfold done_weight; lia].
    apply all_bound_cons; [by constructor|apply all_bound_nil].
  - same_work H.
Qed.

Lemma exec_decreases xs i ok N : instr_bound xs i N → decreases xs (exec xs i ok) N.
Proof.
  destruct 1 as [c k x msg err rels N Hx Hk H|c k x msg err N Hx Hk H|c k x msg err rels N Hx Hk H|c k x msg r l N Hx Hk H
    |i N Hi|c k x msg n r N Hx Hk H|c k x calls recover N Hx Hk Hrec H|c k x msg err r N Hx Hk H|c k x msg err r N Hx Hk H
    |c k msg err r N Hk H|k msg err N H|c k Hk|c|c|c]; simpl.
  - rewrite Hx. apply bounded_inv in H as (Ns & H & ->). simpl in H.
    destruct (x_isFirst x); [|destruct rels]; (split; [apply ctx_le_refl|]); simpl in *; [|same_work H..].
    eapply weight_lt; [eapply submitted_weighs; [intros ? ?; by econstructor|apply Forall2_nil_2|exact H]|unfold done_weight; lia].
  - rewrite Hx. apply bounded_inv in H as (Ns & H & ->). simpl in H.
    destruct (x_self x); (split; [apply ctx_le_refl|]); simpl in *; same_work H.
  - apply bounded_inv in H as (Ns & H & ->). destruct rels as [|r rest]; simpl in *.
    + split; [apply ctx_le_refl|]. same_work H.
    + rewrite Hx. unfold getNextNodes.
      destruct (if x_skipTellNext x then [] else match x_self x with None => [] | Some self => rt_next self r end) as [|n l];
        (split; [apply ctx_le_refl|]); simpl in *; same_work H.
  - apply bounded_inv in H as (Ns & H & ->). destruct l as [|n l]; simpl in *; [split; [apply ctx_le_refl|]; same_work H|].
    rewrite Hx. pose proof (ctx_le_insert xs c x (set_waiting (x_waitingCount x + 1) x) Hx eq_refl eq_refl) as Hle.
    split; [exact Hle|]. simpl. destruct (Hle c x Hx) as (y & Hy & Hi & _). apply (depth_mono _ _ _ _ Hle) in Hk. rewrite <- Hi in H.
    eapply weight_lt; [eapply submitted_weighs; [intros ? ?; by econstructor| |exact H]; starts_works|unfold done_weight; lia].
  - unfold SubmitTack. destruct ok; (split; [apply ctx_le_refl|]); simpl.
    + exists (N + 0). split; [|lia]. by apply all_bound_cons, all_bound_nil.
    + exists 0. split; [apply all_bound_nil|lia].
  - rewrite Hx. apply bounded_inv in H as (Ns & H & ->). simpl in H.
    destruct (executeAroundAop (Some n) msg r) as [tellNext calls]. simpl in *.
    pose proof (ctx_le_snoc xs (NewNextNodeRuleContext c x n)) as Hle. split; [exact Hle|]. simpl.
    pose proof (lookup_snoc xs (NewNextNodeRuleContext c x n)) as Hnew. apply (depth_mono _ _ _ _ Hle) in Hk.
    assert (depth_of (xs ++ [NewNextNodeRuleContext c x n]) (length xs) (S k)) as Hk' by (by eapply depth_child).
    change (child_info (info x) n) with (info (NewNextNodeRuleContext c x n)) in H.
    eapply weight_lt; [eapply works_weigh; [|exact H]|simpl; lia].
    apply Forall2_cons_2; [|apply Forall2_nil_2]. intros ? ?. econstructor; [done|done| |done]. intros p [= <-]. eauto.
  - destruct calls as [|y rest]; simpl.
    + apply bounded_inv in H as (Ns & H & ->). split; [apply ctx_le_refl|]. simpl in *. same_work H.
    + rewrite Hx. by eapply exec_call_decreases.
  - apply bounded_inv in H as (Ns & H & ->). split; [apply ctx_le_refl|]. simpl in *.
    destruct rt_hasOnEnd; simpl in *; [|same_work H].
    eapply weight_lt; [eapply submitted_weighs; [intros ? ?; by econstructor| |exact H]; starts_works|unfold done_weight; lia].
  - rewrite Hx. apply bounded_inv in H as (Ns & H & ->). split; [apply ctx_le_refl|]. simpl in *. destruct (x_hasOnEnd x).
    + eapply weight_lt; [eapply submitted_weighs; [intros ? ?; by econstructor|apply Forall2_nil_2|exact H]|unfold done_weight; lia].
    + exists (done_weight k + 0). split; [|unfold done_weight; simpl; lia]. apply all_bound_cons; [by constructor|apply all_bound_nil].
  - apply bounded_inv in H as (Ns & _ & ->). split; [apply ctx_le_refl|]. exists (done_weight k + 0). split; [|unfold done_weight; simpl; lia].
    apply all_bound_cons; [by constructor|apply all_bound_nil].
  - apply bounded_inv in H as (Ns & _ & ->). split; [apply ctx_le_refl|]. exists 0. split; [apply all_bound_nil|lia].
  - destruct Hk as [c x Hx Hp|c x p k Hx Hp Hk]; rewrite Hx;
      pose proof (ctx_le_insert xs c x (set_waiting (x_waitingCount x - 1) x) Hx eq_refl eq_refl) as Hle; (split; [exact Hle|]); simpl.
    + rewrite Hp. case_bool_decide; simpl; [exists (3 + 0)|exists 0]; (split; [|unfold done_weight; lia]);
        repeat first [apply all_bound_nil|apply all_bound_cons; [constructor|]].
    + rewrite Hp. case_bool_decide; simpl; [exists (done_weight k + (3 + 0))|exists 0]; (split; [|unfold done_weight; lia]);
        repeat first [apply all_bound_nil|apply all_bound_cons; [constructor|]]. by eapply depth_mono.
  - destruct (xs !! c) as [x|]; (split; [apply ctx_le_refl|]); [|exists 0; split; [apply all_bound_nil|lia]]. simpl.
    destruct (_ && _); simpl; [exists (2 + 0)|exists 0]; (split; [|lia]);
      repeat first [apply all_bound_nil|apply all_bound_cons; [constructor|]].
  - destruct (xs !! c) as [x|] eqn:Hx; [|split; [apply ctx_le_refl|]; exists 0; split; [apply all_bound_nil|lia]].
    split; [by eapply ctx_le_insert|]. simpl. exists (1 + 0). split; [|lia]. apply all_bound_cons; [constructor|apply all_bound_nil].
  - split; [apply ctx_le_refl|]. exists 0. split; [apply all_bound_nil|lia].
Qed.

(** ** Runs *)

Definition state_bound (s : state) (N : nat) : Prop := all_bound (s_ctxs s) (concat (s_threads s)) N.

Lemma step_decreases s t ok s' N : state_bound s N → step s t ok = Some s' → ∃ M, state_bound s' M ∧ M < N.
Proof.
  unfold state_bound, step. intros Hb Hs. destruct (s_crashed s); [done|].
  destruct (s_threads s !! t) as [[|i th]|] eqn:Et; simplify_eq/=.
  rewrite <- (take_drop_middle _ _ _ Et) in Hb. rewrite concat_app in Hb. simpl in Hb.
  apply all_bound_app_inv in Hb as (N1 & N2 & -> & H1 & H2). apply all_bound_cons_inv in H2 as (N3 & N4 & -> & H3 & H4).
  apply all_bound_app_inv in H4 as (N5 & N6 & -> & H5 & H6).
  destruct (exec_decreases _ _ ok _ H3) as (Hle & M & HM & Hlt).
  apply all_bound_app_inv in HM as (M1 & M2 & -> & HM1 & HM2).
  rewrite insert_take_drop by (by eapply lookup_lt_Some). rewrite !concat_app. simpl.
  exists (N1 + (M1 + N5 + N6) + M2). split; [|lia].
  repeat apply all_bound_app; try done; by eapply all_bound_mono.
Qed.

(** The steps a schedule really makes. *)
Fixpoint steps_taken (s : state) (schedule : list (nat * bool)) : nat :=
  match schedule with
  | [] => 0
  | (t, ok) :: rest => match step s t ok with Some s' => S (steps_taken s' rest) | None => steps_taken s rest end
  end.

Lemma steps_bounded schedule s N : state_bound s N → steps_taken s schedule ≤ N.
Proof.
  revert s N. induction schedule as [|[t ok] rest IH]; intros s N Hb; simpl; [lia|].
  destruct (step s t ok) as [s'|] eqn:E; [|by apply IH]. destruct (step_decreases _ _ _ _ _ Hb E) as (M & HM & Hlt).
  specialize (IH s' M HM). lia.
Qed.

Lemma run_bounded schedule s N : state_bound s N → ∃ M, state_bound (run_schedule s schedule) M.
Proof.
  revert s N. induction schedule as [|[t ok] rest IH]; intros s N Hb; simpl; [eauto|].
  destruct (step s t ok) as [s'|] eqn:E; simpl; [|by eapply IH]. destruct (step_decreases _ _ _ _ _ Hb E) as (M & HM & _). by eapply IH.
Qed.

Lemma progress s : quiescent s = false → s_crashed s = None → ∃ t s', step s t true = Some s'.
Proof.
  unfold quiescent. intros Hq Hc. assert (∃ t i th, s_threads s !! t = Some (i :: th)) as (t & i & th & Ht).
  { induction (s_threads s) as [|[|i th] ths IH]; simpl in Hq; [done| |by exists 0, i, th].
    destruct (IH Hq) as (t & i & th & Ht). by exists (S t), i, th. }
  exists t. unfold step. rewrite Hc, Ht. eauto.
Qed.

Lemma comes_to_rest s N : state_bound s N →
  ∃ schedule, Forall (λ x, x.2 = true) schedule ∧
    (quiescent (run_schedule s schedule) = true ∨ is_Some (s_crashed (run_schedule s schedule))).
Proof.
  revert s. induction (lt_wf N) as [N _ IH]; intros s Hb. destruct (s_crashed s) eqn:Hc.
  { exists []. split; [constructor|]. right. simpl. rewrite Hc. eauto. }
  destruct (quiescent s) eqn:Hq; [exists []; split; [constructor|by left]|].
  destruct (progress s Hq Hc) as (t & s' & E). destruct (step_decreases _ _ _ _ _ Hb E) as (M & HM & Hlt).
  destruct (IH M Hlt s' HM) as (schedule & Hok & H). exists ((t, true) :: schedule). split; [by constructor|]. simpl. by rewrite E.
Qed.

Lemma onMsg_bounded fuel self msg T : reference fuel self msg = Some T → ∃ N, state_bound (onMsg self msg) N.
Proof.
  intros HT. destruct (deliver_bounded fuel 0 _ _ HT) as [N HN]. exists (N + 0).
  apply all_bound_cons; [|apply all_bound_nil]. eapply ib_Tell; [reflexivity|by eapply depth_root|exact HN].
Qed.

Lemma run_app s l1 l2 : run_schedule s (l1 ++ l2) = run_schedule (run_schedule s l1) l2.
Proof. revert s. induction l1 as [|[t ok] l1 IH]; intros s; [done|]. simpl. apply IH. Qed.

Lemma message_ends fuel self msg T :
  reference fuel self msg = Some T →
  (∃ N, ∀ schedule, steps_taken (onMsg self msg) schedule ≤ N) ∧
  ∀ schedule, ∃ more, Forall (λ x, x.2 = true) more ∧
    let s := run_schedule (onMsg self msg) (schedule ++ more) in quiescent s = true ∨ is_Some (s_crashed s).
Proof.
  intros HT. destruct (onMsg_bounded fuel self msg T HT) as [N HN]. split.
  - exists N. intros schedule. by apply steps_bounded.
  - intros schedule. destruct (run_bounded schedule _ _ HN) as [M HM]. destruct (comes_to_rest _ _ HM) as (more & Hok & H).
    exists more. split; [done|]. by rewrite run_app.
Qed.

(** A run that comes to rest: no interleaving goes on for ever, every one can be continued to
    its end, and [P] holds whenever nothing is left to do. *)
Definition settles (s0 : state) (P : state → Prop) : Prop :=
  (∃ N, ∀ schedule, steps_taken s0 schedule ≤ N) ∧
  (∀ schedule, ∃ more, Forall (λ x, x.2 = true) more ∧
     let s := run_schedule s0 (schedule ++ more) in quiescent s = true ∨ is_Some (s_crashed s)) ∧
  ∀ schedule, Forall (λ x, x.2 = true) schedule →
    let s := run_schedule s0 schedule in s_crashed s = None → quiescent s = true → P s.

Lemma message_settles fuel self msg T :
  reference fuel self msg = Some T → settles (onMsg self msg) (λ s, visible_events (s_trace s) ≡ₚ T).
Proof.
  intros HT. destruct (message_ends fuel self msg T HT) as [H1 H2]. split; [done|]. split; [done|].
  intros schedule Hok s Hc Hq. destruct (delivery_complete fuel self msg T schedule HT Hok Hc) as [Hd _]. by apply Hd.
Qed.
Lemma settles_impl s0 (P Q : state → Prop) : (∀ s, P s → Q s) → settles s0 P → settles s0 Q.
Proof. intros HPQ (H1 & H2 & H3). split; [done|]. split; [done|]. intros schedule Hok s Hc Hq. apply HPQ. by apply H3. Qed.

(** C4. Processing a message ends.  When its sequential reference run ends, there is a bound on
    the steps that the goroutines of the engine can make, whatever the interleaving and
    whichever tasks the pool refuses; and from wherever an interleaving has got to, the run can
    go on until nothing is left to do, unless a component panics outside the recovery of the engine. *)
Theorem message_terminates fuel self msg T :
  reference fuel self msg = Some T →
  (∃ N, ∀ schedule, steps_taken (onMsg self msg) schedule ≤ N) ∧
  ∀ schedule, ∃ more, Forall (λ x, x.2 = true) more ∧
    let s := run_schedule (onMsg self msg) (schedule ++ more) in quiescent s = true ∨ is_Some (s_crashed s).
Proof. apply message_ends. Qed.

End Termination.

(** The fork of [CtxDelivery]. *)
Module TerminationExample.
Import DeliveryExample.
#[local] Existing Instance forkRuntime.

Lemma message_terminates_witness :
  ∃ N, ∀ schedule, steps_taken (onMsg (Some (NCnode 0)) m) schedule ≤ N.
Proof.
  destruct (message_terminates 40 (Some (NCnode 0)) m
    (default [] (reference 40 (Some (NCnode 0)) m))) as [H _]; [vm_compute; reflexivity|exact H].
Defined.

End TerminationExample.
