(* ===== verification/EngineMsg.v ===== *)
(** * Handing a message to an engine

    [onMsgAndWait] of [src/engine.go] and the engine's start, end and completed
    aspects: what the caller of [OnMsg] and [OnMsgAndWait] observes of a run of the
    machine of [RuleCtx]. *)

From S2P Require Import Prelude Value Msg Config Dsl World RuleCtx CtxProps CtxDelivery.

(** The engine aspects by what they do; the context they get is the root context. *)
Record StartAop : Type := mkStart { s_PointCut : RuleMsg → bool; s_Start : RuleMsg → RuleMsg }.
Record EndAop : Type := mkEnd {
  e_PointCut : RuleMsg → string → bool;
  e_End : RuleMsg → error → string → RuleMsg
}.
Record CompletedAop : Type := mkCompleted { c_PointCut : RuleMsg → bool; c_Completed : RuleMsg → RuleMsg }.

Section EngineMsg.
Context `{R : Runtime}.
Variables (startAspects : list StartAop) (endAspects : list EndAop) (completedAspects : list CompletedAop).

Definition onStart (msg : RuleMsg) : RuleMsg :=
  foldl (λ msg aop, if s_PointCut aop msg then s_Start aop msg else msg) msg startAspects.
Definition onEnd (msg : RuleMsg) (err : error) (relationType : string) : RuleMsg :=
  foldl (λ msg aop, if e_PointCut aop msg relationType then e_End aop msg err relationType else msg) msg endAspects.
Definition onAllNodeCompleted (msg : RuleMsg) : RuleMsg :=
  foldl (λ msg aop, if c_PointCut aop msg then c_Completed aop msg else msg) msg completedAspects.

(** [onMsgAndWait] of an engine whose chain starts at [self]: the run it starts. *)
Definition onMsgAndWait (self : option NodeRef) (msg : RuleMsg) : state := onMsg self (onStart msg).

(** The calls of the caller's end function ([customOnEndFunc]) and of its
    completion function ([customFunc]; in wait mode the channel is closed with it),
    which gets the message after the completed aspects. *)
Definition user_end (e : event) : option (RuleMsg * error * string) :=
  match e with
  | EvOnEnd msg err relationType => Some (onEnd msg err relationType, err, relationType)
  | _ => None
  end.
Definition user_ends (trace : list event) : list (RuleMsg * error * string) := omap user_end trace.
Definition user_completed (msg : RuleMsg) (trace : list event) : list RuleMsg :=
  omap (λ e, match e with EvCompleted 0 => Some (onAllNodeCompleted msg) | _ => None end) trace.

Lemma user_ends_visible trace : user_ends (visible_events trace) = user_ends trace.
Proof.
  unfold user_ends, visible_events. induction trace as [|e trace IH]; [done|].
  rewrite filter_cons. case_decide as Hv; [destruct e; simpl; try exact IH; by f_equal|]. destruct e; [by destruct Hv..|exact IH].
Qed.

Lemma user_ends_perm T T' : T ≡ₚ T' → user_ends T ≡ₚ user_ends T'.
Proof.
  unfold user_ends. induction 1 as [|e T T' _ IH|e1 e2 T|T1 T2 T3 _ IH1 _ IH2]; simpl; [done|..].
  - case_match; [by rewrite IH|done].
  - repeat case_match; [apply perm_swap|done..].
  - by rewrite IH1.
Qed.

(** The contract of [OnMsgAndWait].  Take a chain whose nodes answer every
    message, and a message (after the start aspects) whose sequential reference run
    ends.  Whatever the interleaving of the goroutines, once nothing is left to do
    the caller's end function has been called exactly for the branch ends of the
    reference, each with the message its end aspects made of it, and the completion
    function has been called, so that the caller waits no longer. *)
Theorem OnMsgAndWait_contract fuel self msg T schedule :
  Responsive → reference fuel self (onStart msg) = Some T → Forall (λ x, x.2 = true) schedule →
  let s := run_schedule (onMsgAndWait self msg) schedule in
  quiescent s = true → s_crashed s = None →
  user_ends (s_trace s) ≡ₚ user_ends T ∧ onAllNodeCompleted msg ∈ user_completed msg (s_trace s).
Proof.
  intros Hresp HT Hok s Hq Hc. split.
  - destruct (delivery_complete fuel self (onStart msg) T schedule HT Hok Hc) as [Hd _].
    rewrite <- user_ends_visible. by apply user_ends_perm, Hd.
  - apply list_elem_of_omap. exists (EvCompleted 0). split; [|done].
    by apply (completion_called self (onStart msg) schedule).
Qed.

End EngineMsg.

(** A chain of two nodes after a start aspect that changes the data. *)
Module EngineMsgExample.

Definition m (data : string) : RuleMsg := mkMsg 7%Z "id" JSON "T" data ∅.

#[local] Instance lineRuntime : Runtime := {|
  rt_next := λ node rel, if bool_decide (node = NCnode 0 ∧ rel = Success) then [NCnode 1] else [];
  rt_OnMsg := λ node msg, [TellSuccess msg];
  rt_before := []; rt_around := []; rt_after := [];
  rt_now := 5; rt_uuid := "u"; rt_hasOnEnd := false
|}.

#[local] Instance lineResponsive : Responsive.
Proof. split; [done|]. intros self msg rel calls H. discriminate H. Defined.

Definition start_aop : StartAop := mkStart (λ _, true) (set_Data "started").
Definition end_aop : EndAop := mkEnd (λ _ rel, bool_decide (rel = Success)) (λ m _ _, set_Data "ended" m).
Definition schedule : list (nat * bool) := concat (replicate 40 [(0, true); (1, true); (2, true); (3, true)]).

Lemma OnMsgAndWait_contract_witness :
  user_ends [end_aop] (s_trace (run_schedule (onMsgAndWait [start_aop] (Some (NCnode 0)) (m "in")) schedule)) ≡ₚ
    [(m "ended", None, Success)].
Proof.
  destruct (OnMsgAndWait_contract [start_aop] [end_aop] [] 40 (Some (NCnode 0)) (m "in")
    [EvOnMsg (NCnode 0) (m "started"); EvOnMsg (NCnode 1) (m "started"); EvOnEnd (m "started") None Success] schedule
    lineResponsive) as [H _]; [vm_compute; reflexivity|by_decide|vm_compute; reflexivity|vm_compute; reflexivity|].
  exact H.
Defined.

End EngineMsgExample.
