(* ===== verification/MsgOptions.v ===== *)
(** * The options a message is handed over with

    The entry points of an engine ([OnMsg], [OnMsgAndWait], [OnMsgWithEndFunc],
    [OnMsgWithOptions] of [src/engine.go]), the options of a message
    ([WithEndFunc], [WithOnEnd], [WithContext], [WithOnAllNodeCompleted] of
    [src/api/types/types.go]) and the setters of [DefaultRuleContext] they call.
    What the caller sees is the list of calls of the functions it handed over,
    read off a run of the machine of [RuleCtx]. *)

From S2P Require Import Prelude Value Msg Config Dsl World RuleCtx CtxProps CtxDelivery EngineMsg.

(** ** Functions of the caller

    A function of the caller is known by a number; [None] is the nil function.  An
    end function takes the relation type too; [WithEndFunc] wraps one that does not
    into a closure, which is not nil even when the function is. *)
Inductive OnEndFunc : Type :=
| OnEnd (f : nat)
| EndFunc (f : option nat).

(** The part of a root context that options change.  [mc_context] is the value of
    [context.Context]. *)
Record MsgCtx : Type := mkMsgCtx {
  mc_context : nat;
  mc_onEnd : option OnEndFunc;
  mc_onAllNodeCompleted : option nat
}.

Definition SetEndFunc (onEndFunc : option OnEndFunc) (ctx : MsgCtx) : MsgCtx :=
  mkMsgCtx (mc_context ctx) onEndFunc (mc_onAllNodeCompleted ctx).
Definition GetEndFunc (ctx : MsgCtx) : option OnEndFunc := mc_onEnd ctx.
Definition SetContext (c : nat) (ctx : MsgCtx) : MsgCtx := mkMsgCtx c (mc_onEnd ctx) (mc_onAllNodeCompleted ctx).
Definition GetContext (ctx : MsgCtx) : nat := mc_context ctx.
Definition SetOnAllNodeCompleted (f : option nat) (ctx : MsgCtx) : MsgCtx := mkMsgCtx (mc_context ctx) (mc_onEnd ctx) f.
Definition SetAllCompletedFunc (f : option nat) (ctx : MsgCtx) : MsgCtx := mkMsgCtx (mc_context ctx) (mc_onEnd ctx) f.

Definition RuleContextOption : Type := MsgCtx → MsgCtx.
Definition WithEndFunc (endFunc : option nat) : RuleContextOption := SetEndFunc (Some (EndFunc endFunc)).
Definition WithOnEnd (endFunc : option nat) : RuleContextOption := SetEndFunc (OnEnd <$> endFunc).
Definition WithContext (c : nat) : RuleContextOption := SetContext c.
Definition WithOnAllNodeCompleted (onAllNodeCompleted : option nat) : RuleContextOption :=
  SetOnAllNodeCompleted onAllNodeCompleted.

(** ** Calls the caller sees *)

Inductive user_call : Type :=
| UOnEnd (f : nat) (msg : RuleMsg) (err : error) (relationType : string)
| UEnd (f : nat) (msg : RuleMsg) (err : error)
| UNil                              (* a call of the nil function, which panics *)
| UCompleted (f : nat).

Definition call_end (f : OnEndFunc) (msg : RuleMsg) (err : error) (relationType : string) : user_call :=
  match f with
  | OnEnd f => UOnEnd f msg err relationType
  | EndFunc (Some f) => UEnd f msg err
  | EndFunc None => UNil
  end.

(** The root context of the chain an engine has loaded, and its first node. *)
Record engine_root : Type := mkRoot { er_ctx : MsgCtx; er_self : option NodeRef }.

Section MsgOptions.
Context `{R : Runtime}.
Variables (startAspects : list StartAop) (endAspects : list EndAop).

(** What an engine is left with after [onMsgAndWait] has told the first node: the
    functions that its closures captured, the run, and whether the caller waits. *)
Record handed : Type := mkHanded {
  h_customOnEndFunc : option OnEndFunc;
  h_customFunc : option nat;
  h_context : nat;
  h_run : state;
  h_wait : bool
}.

(** [rootCtxCopy] with the options applied in their order: [NewRuleContext] takes
    over the context value and the end function, not the completion function.
    Without a chain the message is only logged. *)
Definition rootCtxCopy (root : MsgCtx) (opts : list RuleContextOption) : MsgCtx :=
  foldl (λ ctx opt, opt ctx) (mkMsgCtx (GetContext root) (mc_onEnd root) None) opts.
Definition RuleEngine_onMsgAndWait (root : option engine_root) (msg : RuleMsg) (wait : bool)
    (opts : list RuleContextOption) : option handed :=
  match root with
  | Some r =>
      let ctx := rootCtxCopy (er_ctx r) opts in
      Some (mkHanded (mc_onEnd ctx) (mc_onAllNodeCompleted ctx) (mc_context ctx)
              (onMsgAndWait startAspects (er_self r) msg) wait)
  | None => None
  end.

Definition RuleEngine_OnMsg (root : option engine_root) (msg : RuleMsg) (opts : list RuleContextOption) : option handed :=
  RuleEngine_onMsgAndWait root msg false opts.
Definition RuleEngine_OnMsgAndWait (root : option engine_root) (msg : RuleMsg) (opts : list RuleContextOption) :
    option handed :=
  RuleEngine_onMsgAndWait root msg true opts.
Definition RuleEngine_OnMsgWithEndFunc (root : option engine_root) (msg : RuleMsg) (endFunc : option nat) : option handed :=
  RuleEngine_OnMsg root msg [WithOnEnd endFunc].
Definition RuleEngine_OnMsgWithOptions (root : option engine_root) (msg : RuleMsg) (opts : list RuleContextOption) :
    option handed :=
  RuleEngine_onMsgAndWait root msg false opts.

(** The closures [onMsgAndWait] puts in the root context, by the call of the
    caller's function they end with. *)
Definition closure_call (h : handed) (e : event) : option user_call :=
  match e with
  | EvOnEnd msg err relationType =>
      (λ f, call_end f (onEnd endAspects msg err relationType) err relationType) <$> h_customOnEndFunc h
  | EvCompleted 0 => UCompleted <$> h_customFunc h
  | _ => None
  end.
Definition user_calls (h : handed) (trace : list event) : list user_call := omap (closure_call h) trace.
(** In wait mode the call returns when the channel is closed, after the completion
    function; otherwise at once. *)
Definition call_returned (h : handed) (trace : list event) : bool :=
  negb (h_wait h) || existsb (λ e, match e with EvCompleted 0 => true | _ => false end) trace.

(** Where the closures panic: the closure of [WithEndFunc(nil)] calls the nil function at a
    branch end, and in wait mode a second completion closes the channel again.  A run is
    that of the code up to the first such place. *)
Definition ends_in (trace : list event) : bool := existsb (λ e, match e with EvOnEnd _ _ _ => true | _ => false end) trace.
Definition completions (trace : list event) : nat :=
  length (omap (M := list) (λ e, match e with EvCompleted 0 => Some tt | _ => None end) trace).
Definition closure_panics (h : handed) (trace : list event) : bool :=
  match h_customOnEndFunc h with Some (EndFunc None) => ends_in trace | _ => false end ||
  (h_wait h && Nat.ltb 1 (completions trace)).

(** ** The options as a list of requests *)

Inductive msg_option : Type :=
| OEndFunc (f : option nat)
| OOnEnd (f : option nat)
| OContext (c : nat)
| OCompleted (f : option nat).
Definition option_of (o : msg_option) : RuleContextOption :=
  match o with
  | OEndFunc f => WithEndFunc f
  | OOnEnd f => WithOnEnd f
  | OContext c => WithContext c
  | OCompleted f => WithOnAllNodeCompleted f
  end.

Definition end_request (o : msg_option) : option (option OnEndFunc) :=
  match o with OEndFunc f => Some (Some (EndFunc f)) | OOnEnd f => Some (OnEnd <$> f) | _ => None end.
Definition completed_request (o : msg_option) : option (option nat) := match o with OCompleted f => Some f | _ => None end.
Definition context_request (o : msg_option) : option nat := match o with OContext c => Some c | _ => None end.
(** The last request of a kind, or the value there was. *)
Definition last_request {A} (request : msg_option → option A) (old : A) (opts : list msg_option) : A :=
  default old (last (omap request opts)).

Lemma last_request_snoc {A} (request : msg_option → option A) old opts o :
  last_request request old (opts ++ [o]) = default (last_request request old opts) (request o).
Proof.
  unfold last_request. rewrite omap_app. simpl. destruct (request o); simpl; [by rewrite last_snoc|by rewrite app_nil_r].
Qed.

(** The options of a kind do not disturb those of another: each field is that of
    its last request. *)
Lemma rootCtxCopy_last root opts :
  rootCtxCopy root (option_of <$> opts) =
    mkMsgCtx (last_request context_request (mc_context root) opts)
      (last_request end_request (mc_onEnd root) opts) (last_request completed_request None opts).
Proof.
  induction opts as [|o opts IH] using rev_ind; [done|]. unfold rootCtxCopy in *.
  rewrite fmap_app, foldl_app, IH, !last_request_snoc. by destruct o.
Qed.

Lemma user_calls_ends h trace :
  omap (λ c, match c with UCompleted _ => None | _ => Some c end) (user_calls h trace) =
    match h_customOnEndFunc h with
    | Some f => (λ x, call_end f x.1.1 x.1.2 x.2) <$> user_ends endAspects trace
    | None => []
    end.
Proof.
  unfold user_calls, user_ends. induction trace as [|e trace IH]; [by destruct (h_customOnEndFunc h)|].
  destruct e as [| msg err rel | |[|c]]; csimpl; try exact IH.
  - destruct (h_customOnEndFunc h) as [f|]; csimpl; [|exact IH].
    rewrite IH. by destruct f as [|[]].
  - destruct (h_customFunc h); exact IH.
Qed.

(** C5. A message handed to an engine with any options: take a chain whose nodes
    answer every message, and a message (after the start aspects) whose sequential
    reference run ends.  Whatever the interleaving in which every task is accepted and no
    goroutine has crashed: once nothing is left to do, and if none of the closures the engine
    made of the options has panicked on the way, the
    end function of the last [WithEndFunc] or [WithOnEnd] (of the chain's own root
    context when there is none) has been called exactly once for each branch end of
    the reference, with the message the end aspects made of it, and no other end
    function has; the completion function of the last [WithOnAllNodeCompleted] has
    been called; and the call has returned, in wait mode too.  The closures cannot panic
    in a call that does not wait and whose last end function is not [WithEndFunc(nil)]; with
    it, every branch end is a call of the nil function, and a call that waits panics when the
    completion is reported twice.  (The functions of the caller are taken to return.) *)
Theorem OnMsg_options_contract fuel r msg wait opts T schedule :
  Responsive → reference fuel (er_self r) (onStart startAspects msg) = Some T → Forall (λ x, x.2 = true) schedule →
  ∃ h, RuleEngine_onMsgAndWait (Some r) msg wait (option_of <$> opts) = Some h ∧
  let s := run_schedule (h_run h) schedule in
  (quiescent s = true → s_crashed s = None → closure_panics h (s_trace s) = false →
   omap (λ c, match c with UCompleted _ => None | _ => Some c end) (user_calls h (s_trace s)) ≡ₚ
     match last_request end_request (mc_onEnd (er_ctx r)) opts with
     | Some f => (λ x, call_end f x.1.1 x.1.2 x.2) <$> user_ends endAspects T
     | None => []
     end ∧
   (∀ f, last_request completed_request None opts = Some f → UCompleted f ∈ user_calls h (s_trace s)) ∧
   call_returned h (s_trace s) = true) ∧
  (closure_panics h (s_trace s) = true ↔
   last_request end_request (mc_onEnd (er_ctx r)) opts = Some (EndFunc None) ∧ ends_in (s_trace s) = true ∨
   wait = true ∧ 1 < completions (s_trace s)).
Proof.
  intros Hresp HT Hok. eexists. split; [done|]. rewrite rootCtxCopy_last. intros s. split.
  - intros Hq Hc _.
    assert (Hdone : EvCompleted 0 ∈ s_trace s) by (by apply (completion_called (er_self r) (onStart startAspects msg) schedule)).
    split_and!.
    + rewrite user_calls_ends. cbn [h_customOnEndFunc mc_onEnd].
      destruct (last_request end_request _ opts) as [f|]; [|done]. apply fmap_Permutation.
      destruct (delivery_complete fuel _ _ T schedule HT Hok Hc) as [Hd _].
      rewrite <- user_ends_visible. by apply user_ends_perm, Hd.
    + intros f Hf. apply list_elem_of_omap. exists (EvCompleted 0). split; [done|]. cbn. by rewrite Hf.
    + unfold call_returned. apply orb_true_intro. right. apply existsb_exists. exists (EvCompleted 0).
      split; [by apply list_elem_of_In|done].
  - unfold closure_panics. cbn [h_customOnEndFunc mc_onEnd h_wait]. rewrite orb_true_iff, andb_true_iff, Nat.ltb_lt.
    destruct (last_request end_request _ opts) as [[|[]]|]; naive_solver.
Qed.

(** [OnMsgWithEndFunc] is [OnMsgWithOptions] with one option; an engine without a
    chain drops the message, whichever entry point is used. *)
Lemma OnMsgWithEndFunc_options root msg f :
  RuleEngine_OnMsgWithEndFunc root msg f = RuleEngine_OnMsgWithOptions root msg (option_of <$> [OOnEnd f]).
Proof. done. Qed.

End MsgOptions.

(** Two end functions are given; only the second one is called. *)
Module MsgOptionsExample.
Import EngineMsgExample.
#[local] Existing Instance lineRuntime.

Definition opts : list msg_option := [OEndFunc (Some 1); OCompleted (Some 7); OOnEnd (Some 2)].
Definition root : engine_root := mkRoot (mkMsgCtx 0 None None) (Some (NCnode 0)).

Lemma OnMsg_options_contract_witness : ∃ h,
  RuleEngine_OnMsgAndWait [start_aop] (Some root) (m "in") (option_of <$> opts) = Some h ∧
  let s := run_schedule (h_run h) schedule in
  omap (λ c, match c with UCompleted _ => None | _ => Some c end) (user_calls [end_aop] h (s_trace s)) ≡ₚ
    [UOnEnd 2 (m "ended") None Success] ∧ call_returned h (s_trace s) = true.
Proof.
  destruct (OnMsg_options_contract [start_aop] [end_aop] 40 root (m "in") true opts
    [EvOnMsg (NCnode 0) (m "started"); EvOnMsg (NCnode 1) (m "started"); EvOnEnd (m "started") None Success] schedule
    lineResponsive) as (h & Hh & H); [vm_compute; reflexivity|by_decide|].
  exists h. split; [exact Hh|]. injection Hh as <-.
  destruct H as [H _]. destruct H as (H1 & _ & H3); [vm_compute; reflexivity|vm_compute; reflexivity|vm_compute; reflexivity|].
  split; [exact H1|exact H3].
Defined.

End MsgOptionsExample.
