(* ===== verification/WorkerPool.v ===== *)
(** * The worker pool ([src/pool/workerpool.go])

    Workers are goroutines that receive tasks from a channel of their own; idle
    workers' channels are on the [ready] stack.  [Submit] takes a channel and then
    sends; a worker runs the task and puts its channel back; [clean] and [Stop]
    send the nil function that ends a worker.  The lock makes [getCh], the tail of
    [release], the selection of [clean] and the loop of [Stop] atomic; everything
    between them interleaves, and is a step of its own here.  Channels have
    capacity one (several processors). *)

From S2P Require Import Prelude.

Abbreviation task := nat (only parsing).

(** What the goroutine of a worker is doing. *)
Inductive worker : Type :=
| WNone                  (* no goroutine *)
| WRecv                  (* receiving from its channel *)
| WRun (t : task)        (* running a task *)
| WRelease               (* task done, [lastUseTime] set, about to take the lock *)
| WExit.                 (* out of the loop, about to decrement [workersCount] *)

(** A [workerChan] with its worker; the buffer of the channel holds at most one
    function, [Some None] being nil. *)
Record workerChan : Type := mkChan {
  lastUseTime : Z;
  ch : option (option task);
  wk : worker
}.

Record WorkerPool : Type := mkPool {
  MaxWorkersCount : Z;
  MaxIdleWorkerDuration : Z;
  workersCount : Z;
  mustStop : bool;
  started : bool;                     (* [stopCh != nil] *)
  startOnce : bool;
  ready : list nat;
  chans : list workerChan;            (* every channel made, by index *)
  workerChanPool : list nat;          (* channels put back for reuse *)
  sends : list (nat * option task);   (* goroutines about to send to a channel they hold *)
  now : Z;
  accepted : list task;
  executed : list task
}.

Definition newPool (max idle : Z) : WorkerPool := mkPool max idle 0 false false false [] [] [] [] 0 [] [].

Definition getMaxIdleWorkerDuration (wp : WorkerPool) : Z :=
  if bool_decide (MaxIdleWorkerDuration wp ≤ 0)%Z then 10000000000 else MaxIdleWorkerDuration wp.

(** ** Field updates *)

Definition set_ready (l : list nat) (wp : WorkerPool) : WorkerPool :=
  mkPool (MaxWorkersCount wp) (MaxIdleWorkerDuration wp) (workersCount wp) (mustStop wp) (started wp) (startOnce wp)
    l (chans wp) (workerChanPool wp) (sends wp) (now wp) (accepted wp) (executed wp).
Definition set_chans (l : list workerChan) (wp : WorkerPool) : WorkerPool :=
  mkPool (MaxWorkersCount wp) (MaxIdleWorkerDuration wp) (workersCount wp) (mustStop wp) (started wp) (startOnce wp)
    (ready wp) l (workerChanPool wp) (sends wp) (now wp) (accepted wp) (executed wp).
Definition set_sends (l : list (nat * option task)) (wp : WorkerPool) : WorkerPool :=
  mkPool (MaxWorkersCount wp) (MaxIdleWorkerDuration wp) (workersCount wp) (mustStop wp) (started wp) (startOnce wp)
    (ready wp) (chans wp) (workerChanPool wp) l (now wp) (accepted wp) (executed wp).
Definition set_count (z : Z) (wp : WorkerPool) : WorkerPool :=
  mkPool (MaxWorkersCount wp) (MaxIdleWorkerDuration wp) z (mustStop wp) (started wp) (startOnce wp)
    (ready wp) (chans wp) (workerChanPool wp) (sends wp) (now wp) (accepted wp) (executed wp).
Definition set_pool (l : list nat) (wp : WorkerPool) : WorkerPool :=
  mkPool (MaxWorkersCount wp) (MaxIdleWorkerDuration wp) (workersCount wp) (mustStop wp) (started wp) (startOnce wp)
    (ready wp) (chans wp) l (sends wp) (now wp) (accepted wp) (executed wp).
Definition set_stop (stop start once : bool) (wp : WorkerPool) : WorkerPool :=
  mkPool (MaxWorkersCount wp) (MaxIdleWorkerDuration wp) (workersCount wp) stop start once
    (ready wp) (chans wp) (workerChanPool wp) (sends wp) (now wp) (accepted wp) (executed wp).
Definition set_now (z : Z) (wp : WorkerPool) : WorkerPool :=
  mkPool (MaxWorkersCount wp) (MaxIdleWorkerDuration wp) (workersCount wp) (mustStop wp) (started wp) (startOnce wp)
    (ready wp) (chans wp) (workerChanPool wp) (sends wp) z (accepted wp) (executed wp).
Definition set_log (acc exe : list task) (wp : WorkerPool) : WorkerPool :=
  mkPool (MaxWorkersCount wp) (MaxIdleWorkerDuration wp) (workersCount wp) (mustStop wp) (started wp) (startOnce wp)
    (ready wp) (chans wp) (workerChanPool wp) (sends wp) (now wp) acc exe.

(** ** Operations *)

Definition Start (wp : WorkerPool) : WorkerPool :=
  if started wp then wp
  else if startOnce wp then wp
  else set_stop (mustStop wp) true true wp.

(** Channel [c] with another buffer or worker. *)
Definition set_ch (b : option (option task)) (x : workerChan) : workerChan := mkChan (lastUseTime x) b (wk x).
Definition set_wk (w : worker) (x : workerChan) : workerChan := mkChan (lastUseTime x) (ch x) w.

(** [ch <- v]: blocked while the buffer is full. *)
Definition send (l : list workerChan) (c : nat) (v : option task) : option (list workerChan) :=
  x ← l !! c;
  match ch x with
  | None => Some (<[c := set_ch (Some v) x]> l)
  | Some _ => None
  end.

(** The loop of [Stop]: nil to every ready worker. *)
Fixpoint send_all (l : list workerChan) (cs : list nat) : option (list workerChan) :=
  match cs with
  | [] => Some l
  | c :: rest => l' ← send l c None; send_all l' rest
  end.

Definition Stop (wp : WorkerPool) : option WorkerPool :=
  if started wp then
    l ← send_all (chans wp) (ready wp);
    Some (set_stop true false (startOnce wp) (set_ready [] (set_chans l wp)))
  else Some wp.

(** What [getCh] gives: a channel, none, or a panic, because the pool was never
    started and [workerChanPool] has no [New]. *)
Inductive got : Type :=
| GotCh (c : nat)
| NoWorker
| NotStarted.

(** [getCh], with [reuse]: whether [sync.Pool] hands out a channel that was put
    back (it may have dropped it). *)
Definition getCh (reuse : bool) (wp : WorkerPool) : got * WorkerPool :=
  match reverse (ready wp) with
  | c :: rest => (GotCh c, set_ready (reverse rest) wp)
  | [] =>
      if bool_decide (workersCount wp < MaxWorkersCount wp)%Z then
        let wp := set_count (workersCount wp + 1) wp in
        match (if reuse then workerChanPool wp else []) with
        | c :: rest =>
            (GotCh c, set_pool rest (set_chans (alter (set_wk WRecv) c (chans wp)) wp))
        | [] =>
            if startOnce wp
            then (GotCh (length (chans wp)), set_chans (chans wp ++ [mkChan 0 None WRecv]) wp)
            else (NotStarted, wp)
        end
      else (NoWorker, wp)
  end.

(** [Submit] up to the send, which is then pending; or the error, or the panic. *)
Definition Submit (fn : task) (reuse : bool) (wp : WorkerPool) : outcome (result unit) * WorkerPool :=
  match getCh reuse wp with
  | (GotCh c, wp) =>
      (Returns (Ok tt), set_log (fn :: accepted wp) (executed wp) (set_sends (sends wp ++ [(c, Some fn)]) wp))
  | (NoWorker, wp) => (Returns (Err "no idle workers"), wp)
  | (NotStarted, wp) => (Panics "interface conversion: interface {} is nil, not *pool.workerChan", wp)
  end.

(** The binary search of [clean] over [lastUseTime]s, with [l], [r] as in the loop. *)
Fixpoint search (fuel : nat) (times : list Z) (criticalTime l r : Z) : option Z :=
  if bool_decide (l ≤ r)%Z then
    match fuel with
    | 0 => None
    | S fuel =>
        let mid := ((l + r) / 2)%Z in
        match times !! Z.to_nat mid with
        | None => None
        | Some t =>
            if bool_decide (t < criticalTime)%Z then search fuel times criticalTime (mid + 1) r
            else search fuel times criticalTime l (mid - 1)
        end
    end
  else Some r.

Definition use_time (wp : WorkerPool) (c : nat) : Z := from_option lastUseTime 0%Z (chans wp !! c).

(** [clean]: the workers up to the index found are told to stop. *)
Definition clean (wp : WorkerPool) : option WorkerPool :=
  let criticalTime := (now wp - getMaxIdleWorkerDuration wp)%Z in
  let n := length (ready wp) in
  i ← search (S n) (use_time wp <$> ready wp) criticalTime 0 (Z.of_nat n - 1);
  if bool_decide (i = -1)%Z then Some wp
  else
    let k := Z.to_nat (i + 1) in
    Some (set_sends (sends wp ++ ((λ c, (c, None)) <$> take k (ready wp))) (set_ready (drop k (ready wp)) wp)).

(** A step of the pool and its goroutines. *)
Inductive pool_op : Type :=
| OSubmit (fn : task) (reuse : bool)
| OSend (k : nat)       (* the [k]-th pending send goes through *)
| ORecv (c : nat)       (* worker [c] receives *)
| ODone (c : nat)       (* worker [c]'s task returns *)
| ORelease (c : nat)    (* worker [c] takes the lock in [release] *)
| OExit (c : nat)       (* worker [c] decrements [workersCount] and ends *)
| OClean
| OStart
| OStop
| OTick (d : N).

(** [None]: the step is blocked, or panics.  A task submitted before [Start] panics; the
    panic is taken to end the program (recovered, it would leave the worker count one too high). *)
Definition pool_step (wp : WorkerPool) (op : pool_op) : option WorkerPool :=
  match op with
  | OSubmit fn reuse =>
      match Submit fn reuse wp with
      | (Returns _, wp') => Some wp'
      | (Panics _, _) => None
      end
  | OSend k =>
      s ← sends wp !! k;
      l ← send (chans wp) s.1 s.2;
      Some (set_sends (delete k (sends wp)) (set_chans l wp))
  | ORecv c =>
      x ← chans wp !! c;
      match wk x, ch x with
      | WRecv, Some (Some fn) => Some (set_chans (<[c := mkChan (lastUseTime x) None (WRun fn)]> (chans wp)) wp)
      | WRecv, Some None => Some (set_chans (<[c := mkChan (lastUseTime x) None WExit]> (chans wp)) wp)
      | _, _ => None
      end
  | ODone c =>
      x ← chans wp !! c;
      match wk x with
      | WRun fn => Some (set_log (accepted wp) (fn :: executed wp)
                           (set_chans (<[c := mkChan (now wp) (ch x) WRelease]> (chans wp)) wp))
      | _ => None
      end
  | ORelease c =>
      x ← chans wp !! c;
      match wk x with
      | WRelease =>
          if mustStop wp then Some (set_chans (<[c := set_wk WExit x]> (chans wp)) wp)
          else Some (set_ready (ready wp ++ [c]) (set_chans (<[c := set_wk WRecv x]> (chans wp)) wp))
      | _ => None
      end
  | OExit c =>
      x ← chans wp !! c;
      match wk x with
      | WExit => Some (set_pool (c :: workerChanPool wp) (set_count (workersCount wp - 1)
                          (set_chans (<[c := set_wk WNone x]> (chans wp)) wp)))
      | _ => None
      end
  | OClean => if startOnce wp then clean wp else None
  | OStart => Some (Start wp)
  | OStop => Stop wp
  | OTick d => Some (set_now (now wp + Z.of_N d) wp)
  end.

Inductive reachable (max idle : Z) : WorkerPool → Prop :=
| reach_new : reachable max idle (newPool max idle)
| reach_step wp op wp' : reachable max idle wp → pool_step wp op = Some wp' → reachable max idle wp'.

(** ** Counting *)

Definition cnt {A} `{EqDecision A} (a : A) (l : list A) : nat :=
  sum_list_with (λ b, if bool_decide (b = a) then 1 else 0) l.
Definition scnt (c : nat) (l : list (nat * option task)) : nat := cnt c l.*1.

Lemma cnt_app {A} `{EqDecision A} (a : A) l1 l2 : cnt a (l1 ++ l2) = cnt a l1 + cnt a l2.
Proof. apply sum_list_with_app. Qed.
Lemma cnt_zero {A} `{EqDecision A} (a : A) l : (a ∉ l) → cnt a l = 0.
Proof.
  unfold cnt. induction l as [|b l IH]; simpl; [done|]. intros H. apply not_elem_of_cons in H as [? ?].
  rewrite bool_decide_false by done. auto.
Qed.
Lemma cnt_pos {A} `{EqDecision A} (a : A) l : 1 ≤ cnt a l → a ∈ l.
Proof. intros H. destruct (decide (a ∈ l)) as [|Hn]; [done|]. rewrite cnt_zero in H by done. lia. Qed.
Lemma cnt_in {A} `{EqDecision A} (a : A) l : a ∈ l → 1 ≤ cnt a l.
Proof.
  intros H. unfold cnt. pose proof (sum_list_with_in a (λ b, if bool_decide (b = a) then 1 else 0) l H) as E.
  simpl in E. by rewrite bool_decide_true in E.
Qed.
Lemma cnt_delete {A} `{EqDecision A} (a b : A) l k :
  l !! k = Some b → cnt a (delete k l) + (if bool_decide (b = a) then 1 else 0) = cnt a l.
Proof.
  intros H. rewrite <- (take_drop_middle l k b H) at 2. rewrite delete_take_drop, !cnt_app.
  unfold cnt. simpl. lia.
Qed.

(** ** The invariant *)

Definition full (x : workerChan) : nat := match ch x with Some _ => 1 | None => 0 end.
Definition receiving (x : workerChan) : nat := match wk x with WRecv => 1 | _ => 0 end.
Definition live (x : workerChan) : nat := match wk x with WNone => 0 | _ => 1 end.
(** The occurrences of a task in a channel or its worker, and in a pending send. *)
Definition holds (t : task) (x : workerChan) : nat :=
  (match ch x with Some (Some t') => if bool_decide (t' = t) then 1 else 0 | _ => 0 end) +
  (match wk x with WRun t' => if bool_decide (t' = t) then 1 else 0 | _ => 0 end).
Definition carries (t : task) (s : nat * option task) : nat :=
  match s.2 with Some t' => if bool_decide (t' = t) then 1 else 0 | None => 0 end.

Record pool_inv (wp : WorkerPool) : Prop := {
  (* a receiving worker's channel is in exactly one place: the ready stack, the
     hands of one sender, or filled; the channel of any other worker is nowhere *)
  v_one : ∀ c x, chans wp !! c = Some x →
    cnt c (ready wp) + scnt c (sends wp) + full x = receiving x;
  v_dom : ∀ c, c ∈ ready wp ∨ c ∈ (sends wp).*1 ∨ c ∈ workerChanPool wp → c < length (chans wp);
  v_count : workersCount wp = Z.of_nat (sum_list_with live (chans wp));
  v_max : (workersCount wp ≤ Z.max 0 (MaxWorkersCount wp))%Z;
  v_free : NoDup (workerChanPool wp) ∧ ∀ c x, c ∈ workerChanPool wp → chans wp !! c = Some x → wk x = WNone;
  v_tasks : ∀ t, cnt t (accepted wp) =
    cnt t (executed wp) + sum_list_with (carries t) (sends wp) + sum_list_with (holds t) (chans wp)
}.

Lemma pool_inv_new max idle : pool_inv (newPool max idle).
Proof. split; simpl; try done; try lia; [set_solver|]. split; [constructor|set_solver]. Qed.

(** One channel changes hands. *)
Lemma inv_chan wp wp' c x y :
  pool_inv wp → chans wp !! c = Some x → chans wp' = <[c := y]> (chans wp) → MaxWorkersCount wp' = MaxWorkersCount wp →
  (∀ d, d ≠ c → cnt d (ready wp') + scnt d (sends wp') = cnt d (ready wp) + scnt d (sends wp)) →
  cnt c (ready wp') + scnt c (sends wp') + full y = receiving y →
  (∀ d, d ∈ ready wp' ∨ d ∈ (sends wp').*1 → d = c ∨ d ∈ ready wp ∨ d ∈ (sends wp).*1) →
  (workersCount wp' + Z.of_nat (live x) = workersCount wp + Z.of_nat (live y))%Z →
  (workersCount wp' ≤ Z.max 0 (MaxWorkersCount wp))%Z →
  (NoDup (workerChanPool wp') ∧ ∀ d, d ∈ workerChanPool wp' → (d = c ∧ wk y = WNone) ∨ (d ≠ c ∧ d ∈ workerChanPool wp)) →
  (∀ t, cnt t (accepted wp') + (cnt t (executed wp) + sum_list_with (carries t) (sends wp) + holds t x) =
        cnt t (accepted wp) + (cnt t (executed wp') + sum_list_with (carries t) (sends wp') + holds t y)) →
  pool_inv wp'.
Proof.
  intros [Hone Hdom Hcount Hmax [Hnd Hfree] Htasks] Hx Ech Emax Hother Hc Hdom' Hlive Hmax' [Hnd' Hfree'] Htasks'.
  assert (c < length (chans wp)) as Hlt by (by eapply lookup_lt_Some).
  split; rewrite ?Ech.
  - intros d z Hz. destruct (decide (c = d)) as [<-|Hne].
    + rewrite list_lookup_insert_eq in Hz by done. by simplify_eq.
    + rewrite list_lookup_insert_ne in Hz by done. rewrite Hother by done. by apply Hone.
  - intros d Hd. rewrite length_insert. destruct Hd as [Hd|[Hd|Hd]].
    + destruct (Hdom' d) as [->|?]; [by left|done|]. apply Hdom. tauto.
    + destruct (Hdom' d) as [->|?]; [by right|done|]. apply Hdom. tauto.
    + destruct (Hfree' d Hd) as [[-> _]|[_ ?]]; [done|]. apply Hdom. tauto.
  - pose proof (sum_with_insert live (chans wp) c x y Hx). lia.
  - by rewrite Emax.
  - split; [done|]. intros d z Hd Hz. destruct (Hfree' d Hd) as [[-> Hw]|[Hne Hd']].
    + rewrite list_lookup_insert_eq in Hz by done. by simplify_eq.
    + rewrite list_lookup_insert_ne in Hz by done. by eapply Hfree.
  - intros t. specialize (Htasks t). specialize (Htasks' t). pose proof (sum_with_insert (holds t) (chans wp) c x y Hx). lia.
Qed.

(** The fields the invariant speaks of. *)
Lemma inv_ext wp wp' :
  chans wp' = chans wp → ready wp' = ready wp → sends wp' = sends wp → workerChanPool wp' = workerChanPool wp →
  workersCount wp' = workersCount wp → MaxWorkersCount wp' = MaxWorkersCount wp → accepted wp' = accepted wp →
  executed wp' = executed wp → pool_inv wp → pool_inv wp'.
Proof. intros E1 E2 E3 E4 E5 E6 E7 E8 [? ? ? ? ? ?]. split; rewrite ?E1, ?E2, ?E3, ?E4, ?E5, ?E6, ?E7, ?E8; done. Qed.

Lemma ready_chan wp c : pool_inv wp → c ∈ ready wp →
  ∃ x, chans wp !! c = Some x ∧ wk x = WRecv ∧ ch x = None ∧ scnt c (sends wp) = 0 ∧ cnt c (ready wp) = 1.
Proof.
  intros [Hone Hdom _ _ _ _] Hc. destruct (lookup_lt_is_Some_2 (chans wp) c) as [x Hx]; [apply Hdom; by left|].
  exists x. specialize (Hone c x Hx). apply cnt_in in Hc. unfold full, receiving in Hone.
  destruct (wk x), (ch x); simpl in *; split_and!; try done; lia.
Qed.

Lemma send_chan wp c v : pool_inv wp → (c, v) ∈ sends wp →
  ∃ x, chans wp !! c = Some x ∧ wk x = WRecv ∧ ch x = None ∧ cnt c (ready wp) = 0 ∧ scnt c (sends wp) = 1.
Proof.
  intros [Hone Hdom _ _ _ _] Hc. assert (c ∈ (sends wp).*1) as Hc' by (apply list_elem_of_fmap; by exists (c, v)).
  destruct (lookup_lt_is_Some_2 (chans wp) c) as [x Hx]; [apply Hdom; tauto|].
  exists x. specialize (Hone c x Hx). apply cnt_in in Hc'. unfold full, receiving, scnt in *.
  destruct (wk x), (ch x); simpl in *; split_and!; try done; lia.
Qed.

(** Split a goal about counts. *)
Ltac counts := unfold scnt, full, receiving, live, holds, carries, set_ch, set_wk in *; simpl in *;
  repeat match goal with H : wk ?x = _ |- _ => rewrite H in * | H : ch ?x = _ |- _ => rewrite H in * end; simpl in *.

Lemma inv_send wp k wp' : pool_inv wp → pool_step wp (OSend k) = Some wp' → pool_inv wp'.
Proof.
  intros Hi H. simpl in H. apply bind_Some in H as ([c v] & Hk & H). simpl in H.
  unfold send in H. destruct (send_chan wp c v Hi) as (x & Hx & Hw & Hch & Hr & Hs); [by eapply list_elem_of_lookup_2|].
  rewrite Hx in H. simpl in H. rewrite Hch in H. simplify_eq/=.
  pose proof (v_max _ Hi). pose proof (v_free _ Hi) as [Hnd Hfree].
  assert (∀ d, scnt d (delete k (sends wp)) + (if bool_decide (c = d) then 1 else 0) = scnt d (sends wp)) as Hd.
  { intros d. unfold scnt. rewrite list_fmap_delete. apply (cnt_delete d c). by rewrite list_lookup_fmap, Hk. }
  apply (inv_chan wp _ c x (set_ch (Some v) x) Hi Hx); simpl; try done.
  - intros d Hne. specialize (Hd d). rewrite bool_decide_false in Hd by done. lia.
  - specialize (Hd c). rewrite bool_decide_true in Hd by done. counts. lia.
  - intros d [?|Hdd]; [tauto|]. right. right. rewrite list_fmap_delete in Hdd.
    assert ((sends wp).*1 !! k = Some c) as Hk1 by (by rewrite list_lookup_fmap, Hk).
    rewrite delete_take_drop in Hdd. rewrite <- (take_drop_middle _ _ _ Hk1). set_solver.
  - split; [done|]. intros d Hdd. right. split; [|done]. intros ->. specialize (Hfree _ _ Hdd Hx). congruence.
  - intros t. assert (sum_list_with (carries t) (sends wp) = sum_list_with (carries t) (delete k (sends wp)) + carries t (c, v)) as ->.
    { rewrite <- (take_drop_middle (sends wp) k (c, v) Hk) at 1. rewrite delete_take_drop, !sum_list_with_app. simpl. lia. }
    counts. destruct v; simpl; lia.
Qed.

Lemma inv_worker wp op c wp' :
  op = ORecv c ∨ op = ODone c ∨ op = ORelease c ∨ op = OExit c →
  pool_inv wp → pool_step wp op = Some wp' → pool_inv wp'.
Proof.
  intros Hop Hi H. pose proof (v_max _ Hi). pose proof (v_free _ Hi) as [Hnd Hfree].
  assert (∀ x w, chans wp !! c = Some x → wk x ≠ WNone → ∀ d, d ∈ workerChanPool wp → (d = c ∧ w = WNone) ∨ (d ≠ c ∧ d ∈ workerChanPool wp)) as Hfr.
  { intros x w Hx Hw d Hd. right. split; [|done]. intros ->. specialize (Hfree _ _ Hd Hx). congruence. }
  destruct Hop as [->|[->|[->| ->]]]; simpl in H; apply bind_Some in H as (x & Hx & H);
    pose proof (v_one _ Hi c x Hx) as Hone.
  - destruct (wk x) eqn:Hw; try done. destruct (ch x) as [[t0|]|] eqn:Hch; simplify_eq/=;
      (eapply (inv_chan wp _ c x); [done|done|reflexivity|..]; simpl; try done;
       [counts; lia|tauto|counts; lia|split; [done|eapply Hfr; [done|congruence]]|intros t; counts; lia]).
  - destruct (wk x) eqn:Hw; try done. simplify_eq/=.
    eapply (inv_chan wp _ c x); [done|done|reflexivity|..]; simpl; try done.
    + counts. lia.
    + tauto.
    + counts. lia.
    + split; [done|]. eapply Hfr; [done|congruence].
    + intros t0. counts. unfold cnt. simpl. lia.
  - destruct (wk x) eqn:Hw; try done. destruct (mustStop wp); simplify_eq/=.
    + eapply (inv_chan wp _ c x); [done|done|reflexivity|..]; simpl; try done;
       [counts; lia|tauto|counts; lia|split; [done|eapply Hfr; [done|congruence]]|intros t; counts; lia].
    + eapply (inv_chan wp _ c x); [done|done|reflexivity|..]; simpl; try done.
      * intros d Hne. rewrite cnt_app. unfold cnt at 2. simpl. rewrite bool_decide_false by done. lia.
      * rewrite cnt_app. unfold cnt at 2. simpl. rewrite bool_decide_true by done. counts. lia.
      * intros d. set_solver.
      * counts. lia.
      * split; [done|]. eapply Hfr; [done|congruence].
      * intros t. counts. lia.
  - destruct (wk x) eqn:Hw; try done. simplify_eq/=.
    eapply (inv_chan wp _ c x); [done|done|reflexivity|..]; simpl; try done.
    + counts. lia.
    + tauto.
    + counts. lia.
    + lia.
    + split.
      * constructor; [|done]. intros Hd. specialize (Hfree _ _ Hd Hx). congruence.
      * intros d [->|Hd]%elem_of_cons; [by left|]. eapply Hfr; [done|congruence|done].
    + intros t. counts. lia.
Qed.

(** A channel taken from the ready stack goes to a sender. *)
Lemma cnt_single {A} `{EqDecision A} (a b : A) : cnt a [b] = if bool_decide (b = a) then 1 else 0.
Proof. unfold cnt. simpl. lia. Qed.

Lemma inv_pop wp c rest fn :
  pool_inv wp → ready wp = rest ++ [c] →
  pool_inv (set_log (fn :: accepted wp) (executed wp) (set_sends (sends wp ++ [(c, Some fn)]) (set_ready rest wp))).
Proof.
  intros Hi Er. destruct (ready_chan wp c Hi) as (x & Hx & Hw & Hch & Hs & Hr); [rewrite Er; set_solver|].
  pose proof (v_max _ Hi). pose proof (v_free _ Hi) as [Hnd Hfree].
  apply (inv_chan wp _ c x x Hi Hx); simpl; try done.
  - by rewrite list_insert_id.
  - intros d Hne. rewrite Er. unfold scnt. rewrite fmap_app. simpl. rewrite !cnt_app, !cnt_single, bool_decide_false by done. lia.
  - rewrite Er, cnt_app, cnt_single, bool_decide_true in Hr by done. unfold scnt. rewrite fmap_app. simpl.
    rewrite cnt_app, cnt_single, bool_decide_true by done. counts. lia.
  - intros d. rewrite Er, fmap_app. set_solver.
  - split; [done|]. intros d Hd. right. split; [|done]. intros ->. specialize (Hfree _ _ Hd Hx). congruence.
  - intros t. rewrite sum_list_with_app. unfold cnt. simpl. unfold carries at 3. simpl. lia.
Qed.

Lemma inv_reuse wp c rest fn :
  pool_inv wp → workerChanPool wp = c :: rest → (workersCount wp < MaxWorkersCount wp)%Z →
  pool_inv (set_log (fn :: accepted wp) (executed wp) (set_sends (sends wp ++ [(c, Some fn)])
    (set_pool rest (set_chans (alter (set_wk WRecv) c (chans wp)) (set_count (workersCount wp + 1) wp))))).
Proof.
  intros Hi Ep Hlt. pose proof (v_free _ Hi) as [Hnd Hfree]. rewrite Ep in Hnd. apply NoDup_cons in Hnd as [Hni Hnd].
  destruct (lookup_lt_is_Some_2 (chans wp) c) as [x Hx]; [apply (v_dom _ Hi); rewrite Ep; set_solver|].
  assert (wk x = WNone) as Hw by (apply (Hfree c); [rewrite Ep; set_solver|done]).
  pose proof (v_one _ Hi c x Hx) as Hone.
  apply (inv_chan wp _ c x (set_wk WRecv x) Hi Hx); simpl; try done.
  - apply list_eq. intros d.
    destruct (decide (c = d)) as [<-|Hne].
    + rewrite list_lookup_insert_eq by (by eapply lookup_lt_Some). 
      by rewrite list_lookup_alter_eq, Hx.
    + rewrite list_lookup_insert_ne by done. 
      by rewrite list_lookup_alter_ne.
  - intros d Hne. unfold scnt. rewrite fmap_app. simpl. rewrite !cnt_app, !cnt_single, bool_decide_false by done. lia.
  - unfold scnt. rewrite fmap_app. simpl. rewrite cnt_app, cnt_single, bool_decide_true by done. counts. lia.
  - intros d. rewrite fmap_app. set_solver.
  - counts. lia.
  - lia.
  - split; [done|]. intros d Hd. right. rewrite Ep. set_solver.
  - intros t. rewrite sum_list_with_app. unfold cnt. simpl. unfold carries at 3. simpl. counts. lia.
Qed.

Lemma inv_fresh wp fn :
  pool_inv wp → (workersCount wp < MaxWorkersCount wp)%Z →
  pool_inv (set_log (fn :: accepted wp) (executed wp) (set_sends (sends wp ++ [(length (chans wp), Some fn)])
    (set_chans (chans wp ++ [mkChan 0 None WRecv]) (set_count (workersCount wp + 1) wp)))).
Proof.
  intros [Hone Hdom Hcount Hmax [Hnd Hfree] Htasks] Hlt.
  assert (length (chans wp) ∉ ready wp) as Hr by (intros H; specialize (Hdom _ (or_introl H)); lia).
  assert (length (chans wp) ∉ (sends wp).*1) as Hs by (intros H; specialize (Hdom _ (or_intror (or_introl H))); lia).
  split; simpl.
  - intros c x Hx. unfold scnt. rewrite fmap_app. simpl. rewrite cnt_app, cnt_single.
    apply lookup_app_Some in Hx as [Hx|[Hge Hx]].
    + rewrite bool_decide_false by (apply lookup_lt_Some in Hx; lia). specialize (Hone c x Hx). unfold scnt in Hone. lia.
    + destruct (c - length (chans wp)) eqn:E; simplify_eq/=. assert (c = length (chans wp)) as -> by lia.
      rewrite bool_decide_true, (cnt_zero _ _ Hr), (cnt_zero _ _ Hs) by done. done.
  - intros c Hc. rewrite length_app. simpl. rewrite fmap_app in Hc. simpl in Hc.
    assert (c = length (chans wp) ∨ c < length (chans wp)) as [->|?]; [|lia|lia].
    destruct Hc as [Hc|[Hc|Hc]]; [right; apply Hdom; tauto| |right; apply Hdom; tauto].
    apply elem_of_app in Hc as [Hc|Hc]; [right; apply Hdom; tauto|left; set_solver].
  - rewrite sum_list_with_app. simpl. change (live (mkChan 0 None WRecv)) with 1. lia.
  - lia.
  - split; [done|]. intros c x Hc Hx. apply lookup_app_Some in Hx as [Hx|[Hge Hx]]; [by eapply Hfree|].
    assert (c < length (chans wp)) by (apply Hdom; tauto). lia.
  - intros t. rewrite !sum_list_with_app. specialize (Htasks t). unfold cnt in *. simpl.
    change (carries t (length (chans wp), Some fn)) with (if bool_decide (fn = t) then 1 else 0).
    change (holds t (mkChan 0 None WRecv)) with 0. lia.
Qed.

Lemma reverse_cons_inv {A} (l : list A) x rest : reverse l = x :: rest → l = reverse rest ++ [x].
Proof. intros H. rewrite <- (reverse_involutive l), H. apply reverse_cons. Qed.

Lemma inv_submit wp fn reuse wp' : pool_inv wp → pool_step wp (OSubmit fn reuse) = Some wp' → pool_inv wp'.
Proof.
  intros Hi H. simpl in H. unfold Submit, getCh in H.
  destruct (reverse (ready wp)) as [|c rest] eqn:Er.
  - case_bool_decide as Hlt; [|by simplify_eq]. destruct reuse; simpl in H.
    + destruct (workerChanPool wp) as [|c rest] eqn:Ep.
      * destruct (startOnce wp); simplify_eq/=. by apply inv_fresh.
      * simplify_eq/=. by apply inv_reuse.
    + destruct (startOnce wp); simplify_eq/=. by apply inv_fresh.
  - apply reverse_cons_inv in Er. simplify_eq/=. by apply inv_pop.
Qed.

(** ** The binary search of [clean] *)

Lemma search_total fuel times crit l r :
  (0 ≤ l)%Z → (r < Z.of_nat (length times))%Z → (l ≤ r + 1)%Z → (r - l + 1 ≤ Z.of_nat fuel)%Z →
  ∃ i, search fuel times crit l r = Some i ∧ (l - 1 ≤ i ≤ r)%Z.
Proof.
  revert l r. induction fuel as [|fuel IH]; intros l r Hl Hr Hlr Hf; simpl.
  - rewrite bool_decide_false by lia. exists r. split; [done|lia].
  - case_bool_decide as Hle; [|exists r; split; [done|lia]].
    assert (l ≤ (l + r) / 2 ≤ r)%Z as Hmid.
    { split; [apply Z.div_le_lower_bound; lia|apply Z.div_le_upper_bound; lia]. }
    destruct (lookup_lt_is_Some_2 times (Z.to_nat ((l + r) / 2))) as [t ->]; [lia|].
    case_bool_decide.
    + destruct (IH ((l + r) / 2 + 1)%Z r) as (i & E & ?); [lia..|]. exists i. split; [done|lia].
    + destruct (IH l ((l + r) / 2 - 1)%Z) as (i & E & ?); [lia..|]. exists i. split; [done|lia].
Qed.

(** On sorted times the index found splits old from recent. *)
Lemma search_sorted fuel times crit l r i :
  (∀ j k t u, j ≤ k → times !! j = Some t → times !! k = Some u → (t ≤ u)%Z) → (0 ≤ l)%Z →
  (∀ j t, times !! j = Some t → (Z.of_nat j < l)%Z → (t < crit)%Z) →
  (∀ j t, times !! j = Some t → (r < Z.of_nat j)%Z → (crit ≤ t)%Z) →
  (l ≤ r + 1)%Z →
  search fuel times crit l r = Some i →
  (∀ j t, times !! j = Some t → (Z.of_nat j ≤ i)%Z → (t < crit)%Z) ∧
  (∀ j t, times !! j = Some t → (i < Z.of_nat j)%Z → (crit ≤ t)%Z).
Proof.
  intros Hs. revert l r. induction fuel as [|fuel IH]; intros l r Hl Hlo Hhi Hlr H; simpl in H.
  - case_bool_decide; simplify_eq. split; [intros; eapply Hlo; [done|lia]|done].
  - case_bool_decide as Hle; [|simplify_eq; split; [intros; eapply Hlo; [done|lia]|done]].
    assert (l ≤ (l + r) / 2 ≤ r)%Z as Hmid.
    { split; [apply Z.div_le_lower_bound; lia|apply Z.div_le_upper_bound; lia]. }
    destruct (times !! Z.to_nat ((l + r) / 2)) as [m|] eqn:Em; [|done]. case_bool_decide as Hm.
    + apply IH in H; [done|lia| |done|lia]. intros j t Hj Hlt.
      pose proof (Hs j (Z.to_nat ((l + r) / 2)) t m ltac:(lia) Hj Em). lia.
    + apply IH in H; [done|lia|done| |lia]. intros j t Hj Hlt.
      pose proof (Hs (Z.to_nat ((l + r) / 2)) j m t ltac:(lia) Em Hj). lia.
Qed.

Lemma filter_split {A} (P : A → Prop) `{∀ x, Decision (P x)} l k :
  (∀ j x, l !! j = Some x → j < k → P x) → (∀ j x, l !! j = Some x → k ≤ j → ¬ P x) →
  filter P l = take k l ∧ filter (λ x, ¬ P x) l = drop k l.
Proof.
  revert k. induction l as [|x l IH]; intros k H1 H2; [by rewrite take_nil, drop_nil|]. rewrite !filter_cons.
  destruct k as [|k].
  - assert (¬ P x) as Hx by (apply (H2 0 x); [done|lia]). rewrite decide_False, decide_True by tauto.
    destruct (IH 0) as [-> ->]; [intros; lia| |by rewrite take_0, drop_0].
    intros j y Hj _. apply (H2 (S j) y); [done|lia].
  - assert (P x) as Hx by (apply (H1 0 x); [done|lia]). rewrite decide_True, decide_False by tauto.
    destruct (IH k) as [-> ->]; [| |done].
    + intros j y Hj ?. apply (H1 (S j) y); [done|lia].
    + intros j y Hj ?. apply (H2 (S j) y); [done|lia].
Qed.

(** The stack of idle workers is in the order of their last use. *)
Definition by_use_time (wp : WorkerPool) : Prop :=
  ∀ j k c d, j ≤ k → ready wp !! j = Some c → ready wp !! k = Some d → (use_time wp c ≤ use_time wp d)%Z.

(** A worker that has been idle for longer than allowed. *)
Definition expired (wp : WorkerPool) (c : nat) : Prop := (use_time wp c < now wp - getMaxIdleWorkerDuration wp)%Z.

#[local] Instance expired_Decision wp c : Decision (expired wp c).
Proof. unfold expired. apply _. Defined.

(** [clean] always finishes, and tells a bottom part of the stack to stop. *)
Lemma clean_total wp :
  ∃ k, clean wp = Some (set_sends (sends wp ++ ((λ c, (c, None)) <$> take k (ready wp))) (set_ready (drop k (ready wp)) wp))
    ∧ (by_use_time wp → take k (ready wp) = filter (expired wp) (ready wp) ∧
         drop k (ready wp) = filter (λ c, ¬ expired wp c) (ready wp)).
Proof.
  unfold clean.
  destruct (search_total (S (length (ready wp))) (use_time wp <$> ready wp) (now wp - getMaxIdleWorkerDuration wp) 0
    (Z.of_nat (length (ready wp)) - 1)) as (i & E & Hi); [lia|rewrite length_fmap; lia|lia|lia|].
  rewrite E. simpl. exists (Z.to_nat (i + 1)). split.
  - case_bool_decide as Hi1; [|done]. subst i. simpl. rewrite app_nil_r, drop_0. by destruct wp.
  - intros Hs. apply search_sorted in E as [E1 E2].
    + destruct (filter_split (expired wp) (ready wp) (Z.to_nat (i + 1))) as [-> ->]; [| |done].
      * intros j c Hj Hlt. apply (E1 j); [by rewrite list_lookup_fmap, Hj|lia].
      * intros j c Hj Hlt Hx. assert (now wp - getMaxIdleWorkerDuration wp ≤ use_time wp c)%Z; [|unfold expired in Hx; lia].
        apply (E2 j); [by rewrite list_lookup_fmap, Hj|lia].
    + intros j k t u Hjk Hj Hk. rewrite list_lookup_fmap in Hj, Hk.
      destruct (ready wp !! j) eqn:Ej, (ready wp !! k) eqn:Ek; simplify_eq/=. by eapply Hs.
    + lia.
    + intros j t _ ?. lia.
    + intros j t Hj Hlt. apply lookup_lt_Some in Hj. rewrite length_fmap in Hj. lia.
    + lia.
Qed.

Lemma inv_move wp k :
  pool_inv wp →
  pool_inv (set_sends (sends wp ++ ((λ c, (c, None)) <$> take k (ready wp))) (set_ready (drop k (ready wp)) wp)).
Proof.
  intros [Hone Hdom Hcount Hmax Hfree Htasks].
  assert (∀ l : list nat, ((λ c, (c, None : option task)) <$> l).*1 = l) as Hf.
  { intros l. rewrite <- list_fmap_compose. apply list_fmap_id. }
  assert (∀ c, cnt c (ready wp) = cnt c (take k (ready wp)) + cnt c (drop k (ready wp))) as Hc.
  { intros c. by rewrite <- cnt_app, take_drop. }
  split; simpl; try done.
  - intros c x Hx. unfold scnt. rewrite fmap_app, cnt_app, Hf. specialize (Hone c x Hx). unfold scnt in Hone.
    specialize (Hc c). lia.
  - intros c Hd. apply Hdom. rewrite fmap_app, Hf in Hd. rewrite <- (take_drop k (ready wp)). set_solver.
  - intros t. rewrite sum_list_with_app, Htasks.
    assert (∀ l : list nat, sum_list_with (carries t) ((λ c, (c, None)) <$> l) = 0) as -> by (induction l; simpl; auto).
    lia.
Qed.

Lemma inv_stop_loop wp :
  pool_inv wp → ∃ l, send_all (chans wp) (ready wp) = Some l ∧ pool_inv (set_ready [] (set_chans l wp)).
Proof.
  remember (ready wp) as rd eqn:Er. revert wp Er. induction rd as [|c rd IH]; intros wp Er Hi; simpl.
  - exists (chans wp). split; [done|]. by apply (inv_ext wp).
  - destruct (ready_chan wp c Hi) as (x & Hx & Hw & Hch & Hs & Hr); [rewrite <- Er; set_solver|].
    unfold send. rewrite Hx. simpl. rewrite Hch. simpl.
    pose proof (v_max _ Hi). pose proof (v_free _ Hi) as [Hnd Hfree]. rewrite <- Er in Hr.
    assert (pool_inv (set_ready rd (set_chans (<[c := set_ch (Some None) x]> (chans wp)) wp))) as Hi'.
    { apply (inv_chan wp _ c x (set_ch (Some None) x) Hi Hx); simpl; try done.
      - intros d Hne. rewrite <- Er. unfold cnt at 2. simpl. rewrite bool_decide_false by done. unfold cnt. lia.
      - unfold cnt in Hr. simpl in Hr. rewrite bool_decide_true in Hr by done. unfold cnt. counts. lia.
      - intros d. rewrite <- Er. set_solver.
      - split; [done|]. intros d Hd. right. split; [|done]. intros ->. specialize (Hfree _ _ Hd Hx). congruence.
      - intros t. counts. lia. }
    destruct (IH (set_ready rd (set_chans (<[c := set_ch (Some None) x]> (chans wp)) wp)) eq_refl Hi') as (l & El & Hl). exists l. simpl in El. split; [done|]. by apply (inv_ext (set_ready [] (set_chans l (set_ready rd (set_chans (<[c := set_ch (Some None) x]> (chans wp)) wp))))).
Qed.

Lemma inv_pool_step wp op wp' : pool_inv wp → pool_step wp op = Some wp' → pool_inv wp'.
Proof.
  intros Hi H. destruct op as [fn reuse|k|c|c|c|c| | | |d].
  - by eapply inv_submit.
  - by eapply inv_send.
  - eapply (inv_worker wp (ORecv c) c); eauto.
  - eapply (inv_worker wp (ODone c) c); eauto.
  - eapply (inv_worker wp (ORelease c) c); eauto 10.
  - eapply (inv_worker wp (OExit c) c); eauto 10.
  - simpl in H. destruct (startOnce wp); [|done]. destruct (clean_total wp) as (k & E & _). rewrite E in H. simplify_eq.
    by apply inv_move.
  - simpl in H. simplify_eq. unfold Start. destruct (started wp); [done|]. destruct (startOnce wp); [done|].
    by apply (inv_ext wp).
  - simpl in H. unfold Stop in H. destruct (started wp); [|by simplify_eq].
    destruct (inv_stop_loop wp Hi) as (l & E & Hl). rewrite E in H. simplify_eq/=. by apply (inv_ext (set_ready [] (set_chans l wp))).
  - simpl in H. simplify_eq. by apply (inv_ext wp).
Qed.

Lemma reachable_inv max idle wp : reachable max idle wp → pool_inv wp.
Proof. induction 1; [apply pool_inv_new|by eapply inv_pool_step]. Qed.

(** *** Facts shared by the properties *)

(** Case analysis on a step of the pool. *)
Ltac step_cases H wp :=
  simpl in H; repeat (apply bind_Some in H as (? & ? & H));
  repeat match type of H with
  | context [match ?x with _ => _ end] => destruct x eqn:?
  end; simplify_eq/=.

Lemma max_constant max idle wp : reachable max idle wp → MaxWorkersCount wp = max.
Proof.
  induction 1 as [|wp op wp' _ IH H]; [done|]. rewrite <- IH. destruct op; simpl in H.
  - unfold Submit, getCh in H. destruct (reverse (ready wp)); [|by simplify_eq].
    case_bool_decide; [|by simplify_eq]. destruct (if reuse then _ else _); [|by simplify_eq].
    destruct (startOnce _); by simplify_eq.
  - step_cases H wp; done.
  - step_cases H wp; done.
  - step_cases H wp; done.
  - step_cases H wp; done.
  - step_cases H wp; done.
  - destruct (startOnce wp); [|done]. destruct (clean_total wp) as (k & E & _). rewrite E in H. by simplify_eq.
  - unfold Start in H. step_cases H wp; done.
  - unfold Stop in H. destruct (started wp); [|by simplify_eq]. step_cases H wp; done.
  - by simplify_eq.
Qed.

(** After [Stop], no worker is on the ready stack. *)
Lemma stopped_step wp op wp' :
  mustStop wp = true → ready wp = [] → pool_step wp op = Some wp' → mustStop wp' = true ∧ ready wp' = [].
Proof.
  intros Hm Hr H. destruct op; simpl in H.
  - unfold Submit, getCh in H. rewrite Hr in H. simpl in H.
    case_bool_decide; [|by simplify_eq]. destruct (if reuse then _ else _); [|by simplify_eq].
    destruct (startOnce _); by simplify_eq.
  - step_cases H wp; done.
  - step_cases H wp; done.
  - step_cases H wp; done.
  - rewrite Hm in H. step_cases H wp; done.
  - step_cases H wp; done.
  - destruct (startOnce wp); [|done]. destruct (clean_total wp) as (k & E & _). rewrite E in H. simplify_eq/=.
    by rewrite Hr, drop_nil.
  - unfold Start in H. step_cases H wp; done.
  - unfold Stop in H. destruct (started wp); [|by simplify_eq]. step_cases H wp; done.
  - by simplify_eq.
Qed.

Lemma stopped_run ops wp :
  mustStop wp = true → ready wp = [] → ready (foldl (λ p op, default p (pool_step p op)) wp ops) = [].
Proof.
  revert wp. induction ops as [|op ops IH]; intros wp Hm Hr; simpl; [done|].
  destruct (pool_step wp op) as [wp'|] eqn:E; simpl; [|by apply IH].
  destruct (stopped_step wp op wp' Hm Hr E). by apply IH.
Qed.

Lemma ready_NoDup wp : pool_inv wp → NoDup (ready wp).
Proof.
  intros Hi. apply NoDup_alt. intros i j d Hi' Hj. destruct (decide (i = j)) as [|Hne]; [done|]. exfalso.
  destruct (ready_chan wp d Hi) as (_ & _ & _ & _ & _ & H1); [by eapply list_elem_of_lookup_2|].
  pose proof (cnt_delete d d (ready wp) i Hi') as H2. rewrite bool_decide_true in H2 by done.
  assert (cnt d (delete i (ready wp)) ≥ 1); [|lia]. apply cnt_in. apply list_elem_of_lookup.
  destruct (decide (j < i)).
  - exists j. by rewrite list_lookup_delete_lt.
  - exists (j - 1). rewrite list_lookup_delete_ge by lia. by replace (S (j - 1)) with j by lia.
Qed.

Lemma send_all_spec cs l0 l1 :
  NoDup cs → send_all l0 cs = Some l1 →
  (∀ c, c ∈ cs → ∃ x, l1 !! c = Some x ∧ ch x = Some None ∧ ∃ y, l0 !! c = Some y ∧ wk x = wk y) ∧
  (∀ c, (c ∉ cs) → l1 !! c = l0 !! c).
Proof.
  revert l0. induction cs as [|c cs IH]; intros l0 Hnd H; simpl in H; [simplify_eq; split; [set_solver|done]|].
  apply bind_Some in H as (l2 & H2 & H). unfold send in H2. apply bind_Some in H2 as (x & Hx & H2).
  destruct (ch x) eqn:Ech; [done|]. simplify_eq. apply NoDup_cons in Hnd as [Hni Hnd].
  destruct (IH _ Hnd H) as [IH1 IH2]. split.
  - intros d [->|Hd]%elem_of_cons.
    + rewrite IH2 by done. eexists. rewrite list_lookup_insert_eq by (by eapply lookup_lt_Some).
      split_and!; [done|done|]. by exists x.
    + destruct (IH1 d Hd) as (z & Hz & Hc & y & Hy & Hw). exists z. split_and!; try done. exists y. split; [|done].
      rewrite list_lookup_insert_ne in Hy; [done|]. by intros ->.
  - intros d Hd. apply not_elem_of_cons in Hd as [? ?]. rewrite IH2 by done. by rewrite list_lookup_insert_ne.
Qed.

(** ** Properties *)

(** C19. The pool never has more workers than allowed, its counter is the number
    of running worker goroutines, and a worker's channel is held by one party at
    a time: the ready stack, one sender, or a function in its buffer. *)
Theorem pool_workers_bounded max idle wp :
  (0 ≤ max)%Z → reachable max idle wp →
  (Z.of_nat (sum_list_with live (chans wp)) ≤ max)%Z ∧ workersCount wp = Z.of_nat (sum_list_with live (chans wp)) ∧
  ∀ c x, chans wp !! c = Some x → cnt c (ready wp) + scnt c (sends wp) + full x = receiving x.
Proof.
  intros Hmax Hr. pose proof (max_constant _ _ _ Hr) as Em.
  apply reachable_inv in Hr as [Hone _ Hc Hm _ _]. split_and!; [lia|done|done].
Qed.

(** Nothing is under way: no pending send, no full channel, no running task. *)
Definition idle_pool (wp : WorkerPool) : Prop :=
  sends wp = [] ∧ ∀ c x, chans wp !! c = Some x → ch x = None ∧ ∀ t, wk x ≠ WRun t.

Definition busy (x : workerChan) : bool :=
  match ch x, wk x with Some _, _ => true | None, WRun _ => true | None, _ => false end.

Lemma cnt_permutation (l1 l2 : list task) : (∀ t, cnt t l1 = cnt t l2) → l1 ≡ₚ l2.
Proof.
  revert l2. induction l1 as [|t l1 IH]; intros l2 H.
  - destruct l2 as [|t l2]; [done|]. specialize (H t). unfold cnt in H. simpl in H. rewrite bool_decide_true in H; lia || done.
  - assert (t ∈ l2) as (k1 & k2 & ->)%list_elem_of_split.
    { apply cnt_pos. rewrite <- H. unfold cnt. simpl. rewrite bool_decide_true by done. lia. }
    rewrite <- Permutation_middle. constructor. apply IH. intros u. specialize (H u).
    rewrite cnt_app in *. unfold cnt in *. simpl in *. lia.
Qed.

(** C18. No accepted task is lost or run twice: at any time each accepted task has
    been run or is in the hands of exactly one sender, channel or worker; when the
    pool is idle the tasks run are exactly those accepted; and as long as it is not,
    some sender or worker can make a step: a send never blocks. *)
Theorem pool_no_task_lost max idle wp :
  reachable max idle wp →
  (∀ t, cnt t (accepted wp) = cnt t (executed wp) + sum_list_with (carries t) (sends wp) + sum_list_with (holds t) (chans wp)) ∧
  (idle_pool wp → executed wp ≡ₚ accepted wp) ∧
  (¬ idle_pool wp → ∃ op, is_Some (pool_step wp op) ∧
     ((∃ k, op = OSend k) ∨ (∃ c, op = ORecv c) ∨ (∃ c, op = ODone c))).
Proof.
  intros Hr. apply reachable_inv in Hr as Hi. pose proof (v_tasks _ Hi) as Ht. split; [done|]. split.
  - intros [Hs Hc]. apply cnt_permutation. intros t. rewrite Ht, Hs. simpl.
    assert (sum_list_with (holds t) (chans wp) = 0) as ->; [|lia].
    assert (∀ x, x ∈ chans wp → holds t x = 0) as Hz.
    { intros x [c Hx]%list_elem_of_lookup. destruct (Hc c x Hx) as [E1 E2]. unfold holds. rewrite E1.
      destruct (wk x) eqn:Ew; try done. by specialize (E2 t0). }
    clear -Hz. induction (chans wp) as [|x l IH]; simpl; [done|]. rewrite Hz by constructor. apply IH. intros y Hy. apply Hz. by constructor.
  - intros Hn. destruct (sends wp) as [|[c v] rest] eqn:Es.
    + destruct (decide (Exists (λ x, busy x = true) (chans wp))) as [He|He].
      * apply Exists_exists in He as (x & [c Hx]%list_elem_of_lookup & Hb). unfold busy in Hb.
        destruct (ch x) as [v|] eqn:Ech.
        -- exists (ORecv c). split; [|eauto]. simpl. rewrite Hx. simpl. pose proof (v_one _ Hi c x Hx) as H1.
           unfold full, receiving in H1. rewrite Ech in *. destruct (wk x); try lia. destruct v; by eexists.
        -- destruct (wk x) eqn:Hw; try done. exists (ODone c). split; [|eauto]. simpl. rewrite Hx. simpl. rewrite Hw. by eexists.
      * exfalso. apply Hn. split; [done|]. intros c x Hx. rewrite Exists_exists in He.
        assert (busy x = false) as Hb.
        { apply not_true_is_false. intros Hb. apply He. exists x. split; [by eapply list_elem_of_lookup_2|done]. }
        unfold busy in Hb. destruct (ch x); [done|]. split; [done|]. intros t Hw. by rewrite Hw in Hb.
    + destruct (send_chan wp c v Hi) as (x & Hx & Hw & Hch & _); [rewrite Es; set_solver|].
      exists (OSend 0). split; [|eauto]. simpl. rewrite Es. simpl. unfold send. rewrite Hx. simpl. rewrite Hch. by eexists.
Qed.

(** C20. [clean] equals its specification: over a stack in the order of last use,
    the binary search finds exactly the workers idle for longer than allowed; they
    are taken off the stack and told to stop, the others stay in their order.
    Over any stack, in that order or not, it finishes. *)
Theorem clean_spec wp :
  (by_use_time wp →
     clean wp = Some (set_sends (sends wp ++ ((λ c, (c, None)) <$> filter (expired wp) (ready wp)))
                       (set_ready (filter (λ c, ¬ expired wp c) (ready wp)) wp))) ∧
  is_Some (clean wp).
Proof.
  destruct (clean_total wp) as (k & E & H). split; [|by rewrite E].
  intros Hs. destruct (H Hs) as [<- <-]. done.
Qed.

(** [Stop] never blocks: every idle worker gets nil and none stays on the
    ready stack, where no worker ever returns. *)
Theorem Stop_spec max idle wp :
  reachable max idle wp → started wp = true →
  ∃ wp', Stop wp = Some wp' ∧ mustStop wp' = true ∧ started wp' = false ∧ ready wp' = [] ∧
    (∀ c, c ∈ ready wp → ∃ x, chans wp' !! c = Some x ∧ ch x = Some None ∧ wk x = WRecv) ∧
    (∀ ops wp'', foldl (λ p op, default p (pool_step p op)) wp' ops = wp'' → ready wp'' = []).
Proof.
  intros Hr Hs. apply reachable_inv in Hr as Hi. unfold Stop. rewrite Hs.
  destruct (inv_stop_loop wp Hi) as (l & E & Hl). rewrite E. simpl. eexists. split; [reflexivity|].
  split_and!; try done; simpl.
  - intros c Hc. destruct (send_all_spec _ _ _ (ready_NoDup wp Hi) E) as [H1 _].
    destruct (H1 c Hc) as (x & Hx & Hch & y & Hy & Hw). exists x. split_and!; try done.
    destruct (ready_chan wp c Hi Hc) as (z & Hz & Hwz & _). congruence.
  - intros ops wp'' <-. by apply stopped_run.
Qed.

(** ** Witnesses *)

Module PoolExample.

Definition run_ops (wp : WorkerPool) (ops : list pool_op) : option WorkerPool :=
  foldl (λ o op, p ← o; pool_step p op) (Some wp) ops.

Lemma run_reachable max idle ops wp wp' :
  reachable max idle wp → run_ops wp ops = Some wp' → reachable max idle wp'.
Proof.
  revert wp. induction ops as [|op ops IH]; intros wp Hr H; unfold run_ops in *; simpl in H; [by simplify_eq|].
  destruct (pool_step wp op) as [p|] eqn:E.
  - apply (IH p); [by eapply reach_step|done].
  - exfalso. clear -H. induction ops; simpl in *; naive_solver.
Qed.

(** Two workers; the first has run task 7 and waits, the second runs task 8. *)
Definition ops : list pool_op :=
  [OStart; OSubmit 7 true; OSubmit 8 true; OSend 0; ORecv 0; OTick 5%N; ODone 0; OSend 0; ORecv 1; ORelease 0; OTick 20000000000%N].
Definition wp1 : WorkerPool := default (newPool 2 0) (run_ops (newPool 2 0) ops).

Lemma wp1_reachable : reachable 2 0 wp1.
Proof.
  apply (run_reachable 2 0 ops (newPool 2 0)); [constructor|]. vm_compute. reflexivity.
Defined.

Lemma pool_workers_bounded_witness : (Z.of_nat (sum_list_with live (chans wp1)) ≤ 2)%Z ∧ workersCount wp1 = 2%Z.
Proof.
  destruct (pool_workers_bounded 2 0 wp1 ltac:(lia) wp1_reachable) as (H1 & _). split; [exact H1|vm_compute; reflexivity].
Defined.

Lemma pool_no_task_lost_witness :
  cnt 8 (accepted wp1) = cnt 8 (executed wp1) + sum_list_with (carries 8) (sends wp1) + sum_list_with (holds 8) (chans wp1).
Proof. exact (proj1 (pool_no_task_lost 2 0 wp1 wp1_reachable) 8). Defined.

Lemma clean_spec_witness :
  clean wp1 = Some (set_sends [(0, None)] (set_ready [] wp1)).
Proof.
  destruct (clean_spec wp1) as [H _]. rewrite H; [vm_compute; reflexivity|].
  assert (ready wp1 = [0]) as E by (vm_compute; reflexivity).
  intros j k c d _ Hc Hd. rewrite E in Hc, Hd.
  apply list_elem_of_lookup_2, list_elem_of_singleton in Hc, Hd. by rewrite Hc, Hd.
Defined.

Lemma Stop_spec_witness :
  ∃ wp', Stop wp1 = Some wp' ∧ ready wp' = [].
Proof.
  destruct (Stop_spec 2 0 wp1 wp1_reachable) as (wp' & H1 & _ & _ & H2 & _); [vm_compute; reflexivity|]. eauto.
Defined.

End PoolExample.
