(* ===== verification/SkipFallback.v ===== *)
(** * The fallback and debug aspects ([src/aspect])

    [SkipFallbackAspect] counts the failures of each node of each chain and, once
    they reach a limit, makes the engine skip the node for a while.  [Debug]
    reports messages of nodes in debug mode. *)

From S2P Require Import Prelude GoStrings Value Msg Config Dsl World RuleCtx.

Definition FallbackErr : string := "skip fallback error".

Record NodeError : Type := mkNodeError { errorCount : Z; lastErrorTime : Z }.

(** [chainNodeErrorCache]: chain id to node id to errors. *)
Abbreviation ErrorCache := (gmap string (gmap string NodeError)).

Record SkipFallbackAspect : Type := mkSkipFallback {
  ErrorCountLimit : Z;
  LimitDuration : Z; (* milliseconds *)
  PointCutFunc : option (option NodeRef → RuleMsg → string → bool)
}.

Definition SkipFallback_Order : Z := 10.

Definition SkipFallback_PointCut (aspect : SkipFallbackAspect) (self : option NodeRef) (msg : RuleMsg) (relationType : string) : bool :=
  match PointCutFunc aspect with
  | Some f => f self msg relationType
  | None => true
  end.

Definition getChainError (cache : ErrorCache) (chainId : string) : option (gmap string NodeError) := cache !! chainId.
Definition getNodeError (chainError : gmap string NodeError) (nodeId : string) : option NodeError := chainError !! nodeId.

(** [Around] at time [now]: whether the node is executed (otherwise the message is
    told [Failure] with [FallbackErr]), and the cache. *)
Definition SkipFallback_Around (aspect : SkipFallbackAspect) (chainId selfId : string) (now : Z) (cache : ErrorCache) : bool * ErrorCache :=
  match getChainError cache chainId with
  | None => (true, cache)
  | Some chainError =>
      match getNodeError chainError selfId with
      | None => (true, cache)
      | Some nodeError =>
          if bool_decide (ErrorCountLimit aspect ≤ errorCount nodeError)%Z then
            if bool_decide (lastErrorTime nodeError + LimitDuration aspect < now)%Z
            then (true, <[chainId := delete selfId chainError]> cache)
            else (false, cache)
          else (true, cache)
      end
  end.

(** [After] at time [now] *)
Definition SkipFallback_After (chainId selfId relationType : string) (now : Z) (cache : ErrorCache) : ErrorCache :=
  if bool_decide (relationType = Failure) then
    let chainError := default ∅ (getChainError cache chainId) in
    let nodeError :=
      match getNodeError chainError selfId with
      | None => mkNodeError 1 now
      | Some e => mkNodeError (errorCount e + 1) now
      end in
    <[chainId := <[selfId := nodeError]> chainError]> cache
  else cache.

Definition SkipFallback_OnReload (parentId : string) (nodeId : RuleNodeId) (cache : ErrorCache) : ErrorCache :=
  match rn_Type nodeId with
  | CHAIN => delete (rn_Id nodeId) cache
  | NODE =>
      match cache !! parentId with
      | Some chainError => <[parentId := delete (rn_Id nodeId) chainError]> cache
      | None => cache
      end
  end.

Definition SkipFallback_OnDestroy (nodeId : RuleNodeId) (cache : ErrorCache) : ErrorCache :=
  match rn_Type nodeId with
  | CHAIN => delete (rn_Id nodeId) cache
  | NODE => cache
  end.

(** ** The debug aspect *)

Definition Debug_Order : Z := 900.

(** What [onDebug] reports: flow type, node, message, relation type, error. *)
Record DebugReport : Type := mkReport {
  dr_flowType : string;
  dr_node : NodeRef;
  dr_msg : RuleMsg;
  dr_relationType : string;
  dr_err : error
}.

Definition Debug_onDebug (isDebugMode : NodeRef → bool) (now : Z) (uuid : string) (self : option NodeRef)
    (flowType : string) (msg : RuleMsg) (relationType : string) (err : error) : list DebugReport :=
  match self with
  | Some n => if isDebugMode n then [mkReport flowType n (RuleMsg_Copy now uuid msg) relationType err] else []
  | None => []
  end.

Definition Debug_Before isDebugMode now uuid (self : option NodeRef) (msg : RuleMsg) (relationType : string) : RuleMsg * list DebugReport :=
  (msg, Debug_onDebug isDebugMode now uuid self In_ msg relationType None).
Definition Debug_After isDebugMode now uuid (self : option NodeRef) (msg : RuleMsg) (err : error) (relationType : string) : RuleMsg * list DebugReport :=
  (msg, Debug_onDebug isDebugMode now uuid self Out_ msg relationType err).

(** ** A node under the aspect

    One message for node [n] of chain [c]: it arrives at [now], and if the node is
    executed it tells relation [rel].  A skipped message is told [Failure], and
    that passes through [After] as well ([tell] runs the after aspects). *)
Record arrival : Type := mkArrival { ar_now : Z; ar_rel : string }.

Section Aspect.
Context (aspect : SkipFallbackAspect) (c n : string).

Definition handle (a : arrival) (cache : ErrorCache) : bool * ErrorCache :=
  let '(go, cache) := SkipFallback_Around aspect c n (ar_now a) cache in
  (go, SkipFallback_After c n (if go then ar_rel a else Failure) (ar_now a) cache).

(** Which of the messages reach the node. *)
Fixpoint handle_all (l : list arrival) (cache : ErrorCache) : list bool * ErrorCache :=
  match l with
  | [] => ([], cache)
  | a :: l =>
      let '(go, cache) := handle a cache in
      let '(gos, cache) := handle_all l cache in
      (go :: gos, cache)
  end.

Definition node_error (cache : ErrorCache) : option NodeError := chainError ← cache !! c; chainError !! n.

(** The node's failures so far, at the last of them. *)
Definition errors (cache : ErrorCache) : Z := from_option errorCount 0%Z (node_error cache).

Definition failures (l : list arrival) : Z :=
  Z.of_nat (length (filter (λ a, ar_rel a = Failure) l)).

Lemma node_error_After rel now cache :
  node_error (SkipFallback_After c n rel now cache) =
    if bool_decide (rel = Failure) then
      Some (mkNodeError (errors cache + 1) now)
    else node_error cache.
Proof.
  unfold SkipFallback_After, errors, node_error, getChainError, getNodeError. case_bool_decide; [|done].
  rewrite lookup_insert_eq. simpl. rewrite lookup_insert_eq.
  destruct (cache !! c) as [ce|]; simpl; [|by rewrite lookup_empty]. by destruct (ce !! n).
Qed.

Lemma Around_cases now cache :
  SkipFallback_Around aspect c n now cache =
    match node_error cache with
    | Some e =>
        if bool_decide (ErrorCountLimit aspect ≤ errorCount e)%Z then
          if bool_decide (lastErrorTime e + LimitDuration aspect < now)%Z
          then (true, <[c := delete n (default ∅ (cache !! c))]> cache)
          else (false, cache)
        else (true, cache)
    | None => (true, cache)
    end.
Proof.
  unfold SkipFallback_Around, node_error, getChainError, getNodeError.
  destruct (cache !! c) as [ce|] eqn:E; simpl; [|done]. destruct (ce !! n); simpl; [|done]. by rewrite ?E.
Qed.

Lemma node_error_reset cache : node_error (<[c := delete n (default ∅ (cache !! c))]> cache) = None.
Proof. unfold node_error. rewrite lookup_insert_eq. simpl. by rewrite lookup_delete_eq. Qed.

(** The node is under its limit and executed. *)
Lemma handle_open a cache :
  (errors cache < ErrorCountLimit aspect)%Z →
  (handle a cache).1 = true ∧
  node_error (handle a cache).2 = (if bool_decide (ar_rel a = Failure) then Some (mkNodeError (errors cache + 1) (ar_now a)) else node_error cache).
Proof.
  intros Hlt. unfold handle. rewrite Around_cases. unfold errors in *.
  destruct (node_error cache) as [e|] eqn:E; simpl in *.
  - rewrite bool_decide_false by lia. split; [done|]. simpl. rewrite node_error_After. unfold errors. by rewrite E.
  - split; [done|]. rewrite node_error_After. unfold errors. by rewrite E.
Qed.

(** Below the limit nothing is skipped: from a node without recorded errors,
    as long as fewer than [ErrorCountLimit] messages have failed, every message
    reaches the node; successes in between do not reset the count. *)
Theorem SkipFallback_open l cache :
  node_error cache = None → (failures l < ErrorCountLimit aspect)%Z → (0 < ErrorCountLimit aspect)%Z →
  Forall (λ go, go = true) (handle_all l cache).1 ∧ errors (handle_all l cache).2 = failures l.
Proof.
  intros Hn Hlt Hpos.
  assert (∀ l cache k, errors cache = k → (0 ≤ k)%Z → (k + failures l < ErrorCountLimit aspect)%Z →
    Forall (λ go, go = true) (handle_all l cache).1 ∧ errors (handle_all l cache).2 = (k + failures l)%Z) as H.
  { clear. induction l as [|a l IH]; intros cache k Hk Hk0 Hlt; simpl.
    - split; [constructor|]. unfold failures. simpl. lia.
    - assert (failures (a :: l) = (if bool_decide (ar_rel a = Failure) then 1 else 0) + failures l)%Z as Hf.
      { unfold failures. rewrite filter_cons. case_decide; case_bool_decide; simpl; (done || lia). }
      assert (0 ≤ failures l)%Z by (unfold failures; lia).
      destruct (handle_open a cache) as [Hgo Hne]; [case_bool_decide; lia|].
      destruct (handle a cache) as [go cache1]. simpl in *. subst go.
      destruct (IH cache1 (k + if bool_decide (ar_rel a = Failure) then 1 else 0)%Z) as [IH1 IH2].
      + unfold errors at 1. rewrite Hne. case_bool_decide; simpl; [lia|]. fold (errors cache). lia.
      + case_bool_decide; lia.
      + lia.
      + destruct (handle_all l cache1) as [gos cache2]. simpl in *. split; [by constructor|]. lia. }
  destruct (H l cache 0%Z) as [H1 H2]; [unfold errors; by rewrite Hn|lia|lia|]. split; [done|]. lia.
Qed.

(** At the limit the node is skipped: once its recorded errors have reached
    the limit, a message that arrives within [LimitDuration] of the last recorded
    error is not given to the node, and a later one is, with the record cleared. *)
Theorem SkipFallback_trips a cache e :
  node_error cache = Some e → (ErrorCountLimit aspect ≤ errorCount e)%Z →
  ((ar_now a ≤ lastErrorTime e + LimitDuration aspect)%Z → (handle a cache).1 = false) ∧
  ((lastErrorTime e + LimitDuration aspect < ar_now a)%Z →
     (handle a cache).1 = true ∧
     node_error (handle a cache).2 = (if bool_decide (ar_rel a = Failure) then Some (mkNodeError 1 (ar_now a)) else None)).
Proof.
  intros He Hlim. unfold handle. rewrite Around_cases, He, bool_decide_true by done. split; intros Ht.
  - by rewrite bool_decide_false by lia.
  - rewrite bool_decide_true by lia. split; [done|]. simpl. rewrite node_error_After. unfold errors.
    rewrite node_error_reset. done.
Qed.

(** Messages that follow each other at intervals of at most [LimitDuration]. *)
Fixpoint steady (last : Z) (l : list arrival) : Prop :=
  match l with
  | [] => True
  | a :: l => (ar_now a ≤ last + LimitDuration aspect)%Z ∧ steady (ar_now a) l
  end.

(** Under steady traffic a skipped node never comes back: each skipped
    message is itself recorded as an error and moves the time of the last error,
    so as long as messages keep arriving at intervals of at most [LimitDuration],
    none of them reaches the node, however long ago the node itself failed. *)
Theorem SkipFallback_never_recovers l cache e :
  node_error cache = Some e → (ErrorCountLimit aspect ≤ errorCount e)%Z → steady (lastErrorTime e) l →
  Forall (λ go, go = false) (handle_all l cache).1.
Proof.
  revert cache e. induction l as [|a l IH]; intros cache e He Hlim Hs; simpl; [constructor|].
  destruct Hs as [Ht Hs]. unfold handle. rewrite Around_cases, He, bool_decide_true, bool_decide_false by (done || lia).
  pose proof (node_error_After Failure (ar_now a) cache) as Hn. rewrite bool_decide_true in Hn by done.
  specialize (IH (SkipFallback_After c n Failure (ar_now a) cache) _ Hn). simpl in IH.
  assert (errors cache = errorCount e) as Ee by (unfold errors; by rewrite He).
  destruct (handle_all l _) as [gos cache2]. simpl in *. constructor; [done|]. apply IH; [lia|done].
Qed.

(** Nodes are accounted separately: handling a message of this node leaves
    the record of every other node and chain as it was; reloading a node clears
    its record and no other, reloading or destroying a chain clears the chain's. *)
Theorem SkipFallback_isolated a cache c' n' :
  (c', n') ≠ (c, n) →
  let rec (s : ErrorCache) := ce ← s !! c'; ce !! n' in
  rec (handle a cache).2 = rec cache ∧
  rec (SkipFallback_OnReload c (mkNodeId n NODE) cache) = rec cache ∧
  node_error (SkipFallback_OnReload c (mkNodeId n NODE) cache) = None ∧
  node_error (SkipFallback_OnReload c (mkNodeId c CHAIN) cache) = None ∧
  node_error (SkipFallback_OnDestroy (mkNodeId c CHAIN) cache) = None.
Proof.
  intros Hne rec. subst rec. simpl. split_and!.
  - assert (∀ rel s, (ce ← SkipFallback_After c n rel (ar_now a) s !! c'; ce !! n') = (ce ← s !! c'; ce !! n')) as HA.
    { intros rel s. unfold SkipFallback_After, getChainError. case_bool_decide; [|done].
      destruct (decide (c = c')) as [<-|Hc]; [|by rewrite lookup_insert_ne].
      rewrite lookup_insert_eq. simpl. rewrite lookup_insert_ne by congruence. by destruct (s !! c). }
    unfold handle. rewrite Around_cases. destruct (node_error cache) as [e|]; simpl; [|by rewrite HA].
    repeat case_bool_decide; simpl; rewrite HA; try done.
    destruct (decide (c = c')) as [<-|Hc]; [|by rewrite lookup_insert_ne].
    rewrite lookup_insert_eq. simpl. rewrite lookup_delete_ne by congruence. by destruct (cache !! c).
  - unfold SkipFallback_OnReload. simpl. destruct (cache !! c) as [ce|] eqn:E; [|done].
    destruct (decide (c = c')) as [<-|Hc]; [|by rewrite lookup_insert_ne].
    rewrite lookup_insert_eq, E. simpl. by rewrite lookup_delete_ne by congruence.
  - unfold SkipFallback_OnReload, node_error. simpl. destruct (cache !! c) as [ce|] eqn:E; simpl.
    + rewrite lookup_insert_eq. simpl. apply lookup_delete_eq.
    + by rewrite E.
  - unfold SkipFallback_OnReload, node_error. simpl. by rewrite lookup_delete_eq.
  - unfold SkipFallback_OnDestroy, node_error. simpl. by rewrite lookup_delete_eq.
Qed.

End Aspect.

(** ** Witnesses *)

Module SkipFallbackExample.

Definition asp : SkipFallbackAspect := mkSkipFallback 3 10000 None.
Definition two : list arrival := [mkArrival 100 Failure; mkArrival 200 Success; mkArrival 300 Failure].
Definition tripped : ErrorCache := (handle_all asp "c" "n" (two ++ [mkArrival 400 Failure]) ∅).2.

Lemma SkipFallback_open_witness :
  Forall (λ go, go = true) (handle_all asp "c" "n" two ∅).1 ∧ errors "c" "n" (handle_all asp "c" "n" two ∅).2 = 2%Z.
Proof. apply (SkipFallback_open asp "c" "n" two ∅); [reflexivity|vm_compute; reflexivity|vm_compute; reflexivity]. Defined.

Lemma SkipFallback_trips_witness :
  (handle asp "c" "n" (mkArrival 500 Success) tripped).1 = false ∧ (handle asp "c" "n" (mkArrival 10401 Success) tripped).1 = true.
Proof.
  split.
  - apply (SkipFallback_trips asp "c" "n" (mkArrival 500 Success) tripped (mkNodeError 3 400));
      [vm_compute; reflexivity|vm_compute; discriminate|vm_compute; discriminate].
  - apply (SkipFallback_trips asp "c" "n" (mkArrival 10401 Success) tripped (mkNodeError 3 400));
      [vm_compute; reflexivity|vm_compute; discriminate|vm_compute; reflexivity].
Defined.

(** A message every nine seconds, with a recovery time of ten: none gets through. *)
Lemma SkipFallback_never_recovers_witness :
  Forall (λ go, go = false) (handle_all asp "c" "n" (map (λ k, mkArrival (400 + 9000 * Z.of_nat k) Success) (seq 1 20)) tripped).1.
Proof.
  apply (SkipFallback_never_recovers asp "c" "n" _ tripped (mkNodeError 3 400));
    [vm_compute; reflexivity|vm_compute; discriminate|vm_compute; repeat (split; [discriminate|]); exact I].
Defined.

Lemma SkipFallback_isolated_witness :
  node_error "c" "n" (SkipFallback_OnReload "c" (mkNodeId "n" NODE) tripped) = None ∧
  (ce ← (handle asp "c" "n" (mkArrival 500 Success) tripped).2 !! "d"; ce !! "n") = (ce ← tripped !! "d"; ce !! "n").
Proof.
  destruct (SkipFallback_isolated asp "c" "n" (mkArrival 500 Success) tripped "d" "n" ltac:(discriminate))
    as (H1 & _ & H2 & _). split; [exact H2|exact H1].
Defined.

End SkipFallbackExample.
