(* ===== verification/JsEngine.v ===== *)
(** * The JavaScript engine ([src/components/js/js_engine.go])

    The interpreter itself (package goja) is a parameter, [Goja]; the engine
    around it is modelled: which scripts are compiled, which variables a virtual
    machine is given, the pool of idle machines, and the two-party protocol on
    the channel that arbitrates between the end of a script and its time-out. *)

From S2P Require Import Prelude GoStrings Value Msg Config.

(** What the engine calls of goja.  A Go value handed to the interpreter
    ([ToValue]) and a result taken out of it ([Export]) are [value]s.  Go maps and
    slices are handed over by reference, so a call also yields the arguments as the
    script left them.  A call may end by a Go panic. *)
Inductive call_outcome : Type :=
| CallReturns (v : value)
| CallThrows (e : string)
| CallPanics (e : string).

Class Goja : Type := {
  Program : Type;
  Runtime_ : Type;
  goja_Compile : string → string → result Program;     (* name, source *)
  goja_New : Runtime_;
  vm_RunProgram : Runtime_ → Program → error * Runtime_;
  vm_Set : Runtime_ → string → value → result Runtime_;
  vm_HasFunction : Runtime_ → string → bool;            (* AssertFunction(vm.Get(name)) *)
  vm_Call : Runtime_ → string → list value → call_outcome * list value * Runtime_
}.

(** The order in which [range] visits a map: any order, each entry once. *)
Class MapRange : Type := {
  range : ∀ {A}, gmap string A → list (string * A);
  range_perm : ∀ {A} (m : gmap string A), range m ≡ₚ map_to_list m
}.

Lemma range_elem `{MapRange} {A} (m : gmap string A) k v : (k, v) ∈ range m ↔ m !! k = Some v.
Proof. rewrite range_perm. apply elem_of_map_to_list. Qed.

Lemma range_NoDup `{MapRange} {A} (m : gmap string A) : NoDup (range m).*1.
Proof. rewrite range_perm. apply NoDup_fst_map_to_list. Qed.

Section Engine.
Context `{G : Goja} `{MR : MapRange}.

Definition GlobalKey : string := "global".

(** [jsEngine.vmPool] holds the idle machines; [fromVars] is captured by its [New]. *)
Record GojaJsEngine : Type := mkJs {
  js_vmPool : list Runtime_;
  js_config : Config;
  js_jsScript : Program;
  js_jsUdfProgramCache : gmap string Program;
  js_fromVars : list (string * value)
}.

(** A user function that is given as JavaScript source. *)
Definition js_source (v : value) : option string :=
  match v with
  | VString s => Some s
  | VScript type (VString c) => if bool_decide (type = Js ∨ type = "") then Some c else None
  | _ => None
  end.

Fixpoint precompile (udf : list (string * value)) (cache : gmap string Program) : result (gmap string Program) :=
  match udf with
  | [] => Ok cache
  | (k, v) :: rest =>
      match js_source v with
      | Some src => let? p := goja_Compile k src in precompile rest (<[k := p]> cache)
      | None => precompile rest cache
      end
  end.

Definition PreCompileJs (config : Config) : result (gmap string Program) :=
  precompile (range (default ∅ (c_Udf config))) ∅.

Definition NewGojaJsEngine (config : Config) (jsScript : string) (fromVars : list (string * value))
    : result GojaJsEngine :=
  let? program := goja_Compile "" jsScript in
  let? cache := PreCompileJs config in
  Ok (mkJs [] config program cache fromVars).

(** One user function in [NewVm]: source is run (its error is only logged), a Go
    function becomes a variable. *)
Definition install_udf (g : GojaJsEngine) (acc : Runtime_ * list (string * value)) (kv : string * value)
    : Runtime_ * list (string * value) :=
  let '(vm, vars) := acc in
  let '(k, v) := kv in
  match v with
  | VString _ =>
      match js_jsUdfProgramCache g !! k with Some p => ((vm_RunProgram vm p).2, vars) | None => acc end
  | VScript type content =>
      if bool_decide (type = Js ∨ type = "") then
        match content with
        | VString _ =>
            match js_jsUdfProgramCache g !! k with Some p => ((vm_RunProgram vm p).2, vars) | None => acc end
        | _ => (vm, assoc_set (Replace k (Js +:+ ScriptFuncSeparator) "" (Some 1)) content vars)
        end
      else acc
  | _ => (vm, assoc_set k v vars)
  end.

Fixpoint set_vars (vars : list (string * value)) (vm : Runtime_) : result Runtime_ :=
  match vars with
  | [] => Ok vm
  | (k, v) :: rest =>
      match vm_Set vm k v with
      | Ok vm => set_vars rest vm
      | Err e => Err ("set variable error,err:" +:+ e)
      end
  end.

Definition initial_vars (config : Config) (fromVars : list (string * value)) : list (string * value) :=
  let vars := foldl (λ vars '(k, v), assoc_set k v vars) [] fromVars in
  let props := default ∅ (c_Properties config) in
  if bool_decide (props = ∅) then vars else assoc_set GlobalKey (VStrMap (Metadata_Values props)) vars.

(** [NewVm]; [Err] is the panic with that text. *)
Definition NewVm (g : GojaJsEngine) : result Runtime_ :=
  let config := js_config g in
  let '(vm, vars) :=
    foldl (install_udf g) (goja_New, initial_vars config (js_fromVars g)) (range (default ∅ (c_Udf config))) in
  let? vm := set_vars vars vm in
  match vm_RunProgram vm (js_jsScript g) with
  | (Some e, _) => Err ("js vm error,err:" +:+ e)
  | (None, vm) => Ok vm
  end.

Definition with_pool (p : list Runtime_) (g : GojaJsEngine) : GojaJsEngine :=
  mkJs p (js_config g) (js_jsScript g) (js_jsUdfProgramCache g) (js_fromVars g).

(** [vmPool.Get()]: [sync.Pool] hands out any idle machine or makes one. *)
Definition pool_Get (pick : option nat) (g : GojaJsEngine) : result Runtime_ * GojaJsEngine :=
  match (i ← pick; js_vmPool g !! i) with
  | Some vm => (Ok vm, with_pool (delete (default 0 pick) (js_vmPool g)) g)
  | None => (NewVm g, g)
  end.

(** [Execute]: panics are recovered into errors; a machine goes back to the pool
    when the call returned or threw. *)
Definition Execute (pick : option nat) (functionName : string) (argumentList : list value) (g : GojaJsEngine)
    : result value * list value * GojaJsEngine :=
  match pool_Get pick g with
  | (Err e, g) => (Err e, argumentList, g)
  | (Ok vm, g) =>
      if vm_HasFunction vm functionName then
        match vm_Call vm functionName argumentList with
        | (CallReturns v, args, vm) => (Ok v, args, with_pool (vm :: js_vmPool g) g)
        | (CallThrows e, args, vm) => (Err e, args, with_pool (vm :: js_vmPool g) g)
        | (CallPanics e, args, _) => (Err e, args, g)
        end
      else (Err (functionName +:+ " is not a function"), argumentList, g)
  end.

(** ** Construction *)

Lemma precompile_ok udf cache cache' :
  NoDup udf.*1 → precompile udf cache = Ok cache' →
  ∀ k, cache' !! k =
    match assoc k udf with
    | Some v => match js_source v with
                | Some src => match goja_Compile k src with Ok p => Some p | Err _ => None end
                | None => cache !! k
                end
    | None => cache !! k
    end.
Proof.
  revert cache. induction udf as [|[k0 v0] udf IH]; simpl; intros cache Hnd Hok k; [by simplify_eq|].
  apply NoDup_cons in Hnd as [Hk0 Hnd].
  assert (assoc k0 udf = None) as Hnone.
  { destruct (assoc k0 udf) eqn:E; [|done]. exfalso. apply Hk0, list_elem_of_fmap.
    exists (k0, v). by apply assoc_elem in E. }
  destruct (js_source v0) as [src|] eqn:Esrc; [destruct (goja_Compile k0 src) as [p|] eqn:Ec; [|done]|];
    simpl in Hok; rewrite (IH _ Hnd Hok k); case_bool_decide; subst; rewrite ?Hnone, ?Esrc, ?Ec; try done;
    rewrite ?lookup_insert_eq, ?lookup_insert_ne by done; done.
Qed.

Lemma precompile_is_ok udf cache :
  is_ok (precompile udf cache) = true ↔
  ∀ k v src, (k, v) ∈ udf → js_source v = Some src → is_ok (goja_Compile k src) = true.
Proof.
  revert cache. induction udf as [|[k0 v0] udf IH]; simpl; intros cache.
  - split; [|done]. intros _ k v src Hin. by apply elem_of_nil in Hin.
  - destruct (js_source v0) as [src0|] eqn:E0; [destruct (goja_Compile k0 src0) as [p|e] eqn:Ec|]; simpl;
      rewrite ?IH; split; try done; intros H.
    + intros k v src [Heq|Hin]%elem_of_cons Hs; [simplify_eq; by rewrite Ec|eauto].
    + intros k v src Hin. apply H. set_solver.
    + exfalso. specialize (H k0 v0 src0 ltac:(set_solver) E0). by rewrite Ec in H.
    + intros k v src [Heq|Hin]%elem_of_cons Hs; [by simplify_eq|eauto].
    + intros k v src Hin. apply H. set_solver.
Qed.

Lemma range_assoc {A} (m : gmap string A) k : assoc k (range m) = m !! k.
Proof.
  destruct (assoc k (range m)) as [v|] eqn:E.
  - apply assoc_elem, range_elem in E. done.
  - destruct (m !! k) as [v|] eqn:Em; [|done]. apply range_elem in Em.
    apply assoc_NoDup in Em; [congruence|apply range_NoDup].
Qed.

(** The engine of a script node is created exactly when its script and every
    user function given as JavaScript source compile; every such function is then
    in the cache under its key, compiled from its own source, whatever the order in
    which Go walks the map, and nothing else is. *)
Theorem NewGojaJsEngine_spec config jsScript fromVars :
  (is_ok (NewGojaJsEngine config jsScript fromVars) = true ↔
     is_ok (goja_Compile "" jsScript) = true ∧
     ∀ k v src, default ∅ (c_Udf config) !! k = Some v → js_source v = Some src →
       is_ok (goja_Compile k src) = true) ∧
  (∀ g, NewGojaJsEngine config jsScript fromVars = Ok g →
     js_vmPool g = [] ∧ goja_Compile "" jsScript = Ok (js_jsScript g) ∧
     ∀ k p, js_jsUdfProgramCache g !! k = Some p ↔
       ∃ v src, default ∅ (c_Udf config) !! k = Some v ∧ js_source v = Some src ∧ goja_Compile k src = Ok p).
Proof.
  unfold NewGojaJsEngine, PreCompileJs.
  set (udf := default ∅ (c_Udf config)).
  pose proof (precompile_is_ok (range udf) ∅) as Hiff.
  destruct (goja_Compile "" jsScript) as [main|e] eqn:Emain; simpl; [|split; [split; [done|by intros [? _]]|done]].
  destruct (precompile (range udf) ∅) as [cache|e] eqn:Epre; simpl.
  - split.
    + split; [|done]. intros _. split; [done|]. intros k v src Hk Hs.
      apply (proj1 Hiff) with (v := v); [done|by apply range_elem|done].
    + intros g [= <-]. simpl. split; [done|]. split; [done|]. intros k p.
      rewrite (precompile_ok _ _ _ (range_NoDup udf) Epre k), range_assoc, lookup_empty.
      destruct (udf !! k) as [v|]; [|by split; [|intros (? & ? & ? & _)]].
      destruct (js_source v) as [src|] eqn:Es.
      * destruct (goja_Compile k src) as [q|] eqn:Ec.
        -- split; [intros [= <-]; eauto|]. intros (? & ? & [= <-] & Hs & Hq). congruence.
        -- split; [done|]. intros (? & ? & [= <-] & Hs & Hq). congruence.
      * split; [done|]. intros (? & ? & [= <-] & Hs & _). congruence.
  - split; [|done]. split; [done|]. intros [_ H]. apply Hiff. intros k v src Hk%range_elem. eauto.
Qed.

(** ** Idle machines

    A machine is ready when [NewVm] made it, or when a ready one was used. *)
Inductive ready (g : GojaJsEngine) : Runtime_ → Prop :=
| ready_new vm : NewVm g = Ok vm → ready g vm
| ready_used vm vm' f args out : ready g vm → vm_Call vm f args = (out, vm') → ready g vm'.

Lemma ready_with_pool p g vm : ready g vm → ready (with_pool p g) vm.
Proof. induction 1; [by apply ready_new|by eapply ready_used]. Qed.

Lemma pool_Get_ready pick g :
  Forall (ready g) (js_vmPool g) →
  (∀ vm, (pool_Get pick g).1 = Ok vm → ready (pool_Get pick g).2 vm) ∧
  Forall (ready (pool_Get pick g).2) (js_vmPool (pool_Get pick g).2).
Proof.
  intros Hall. unfold pool_Get. destruct (i ← pick; js_vmPool g !! i) as [vm|] eqn:E; simpl.
  - split.
    + intros ? [= <-]. apply ready_with_pool. destruct pick; simpl in E; [|done].
      rewrite Forall_lookup in Hall. eauto.
    + apply Forall_delete. eapply Forall_impl; [done|]. intros; by apply ready_with_pool.
  - split; [|done]. intros vm Hvm. by apply ready_new.
Qed.

Lemma Execute_ready pick f args g :
  Forall (ready g) (js_vmPool g) →
  Forall (ready (Execute pick f args g).2) (js_vmPool (Execute pick f args g).2).
Proof.
  intros Hall. apply (pool_Get_ready pick) in Hall as [Hvm Hall]. unfold Execute.
  destruct (pool_Get pick g) as [[vm|e] g'] eqn:E; simpl in *; [|done].
  destruct (vm_HasFunction vm f); [|done].
  destruct (vm_Call vm f args) as [[[v|e|e] args'] vm'] eqn:Ec; simpl; try done.
  all: constructor; [eapply ready_used; [by apply ready_with_pool, Hvm|done]|].
  all: eapply Forall_impl; [done|]; intros; by apply ready_with_pool.
Qed.

(** The engine after a sequence of [Execute] calls, and the result of the last. *)
Fixpoint executes (calls : list (option nat * string * list value)) (g : GojaJsEngine) : GojaJsEngine :=
  match calls with
  | [] => g
  | (pick, f, args) :: rest => executes rest (Execute pick f args g).2
  end.

Lemma executes_ready calls g :
  Forall (ready g) (js_vmPool g) → Forall (ready (executes calls g)) (js_vmPool (executes calls g)).
Proof. revert g. induction calls as [|[[pick f] args] calls IH]; simpl; eauto using Execute_ready. Qed.

(** Everything but the pool: what [NewVm] depends on. *)
Definition same_setup (g h : GojaJsEngine) : Prop := h = with_pool (js_vmPool h) g.

Lemma same_setup_ready g h vm : same_setup g h → ready g vm ↔ ready h vm.
Proof.
  intros Hs. split; intros Hvm.
  - rewrite Hs. by apply ready_with_pool.
  - apply (ready_with_pool (js_vmPool g)) in Hvm. rewrite Hs in Hvm. by destruct g.
Qed.

Lemma pool_Get_setup pick g : same_setup g (pool_Get pick g).2.
Proof. unfold pool_Get, same_setup. case_match; simpl; [done|by destruct g]. Qed.

Lemma Execute_setup pick f args g : same_setup g (Execute pick f args g).2.
Proof.
  pose proof (pool_Get_setup pick g) as Hs. unfold Execute, same_setup in *.
  destruct (pool_Get pick g) as [[vm|e] g']; simpl in *; [|done].
  destruct (vm_HasFunction vm f); [|done]. rewrite Hs.
  by destruct (vm_Call vm f args) as [[[v|e|e] args'] vm'].
Qed.

Lemma executes_setup calls g : same_setup g (executes calls g).
Proof.
  revert g. induction calls as [|[[p f] a] calls IH]; intros g; simpl; [by destruct g|].
  specialize (IH (Execute p f a g).2). pose proof (Execute_setup p f a g) as Hs.
  unfold same_setup in *. by rewrite IH, Hs.
Qed.

(** Whatever calls an engine served, and whichever idle machine [sync.Pool]
    picks, a function is only ever run on a machine that was set up by [NewVm] of
    that engine (all variables set, user functions and main script loaded): if the
    set-up keeps [f] callable and calls do not remove it, a further call of [f] never
    fails with "not a function". *)
Theorem Execute_runs_prepared config jsScript fromVars g calls pick f args :
  NewGojaJsEngine config jsScript fromVars = Ok g →
  (∀ vm, ready g vm → vm_HasFunction vm f = true) →
  let g' := executes calls g in
  Forall (ready g') (js_vmPool g') ∧
  match (Execute pick f args g').1.1 with
  | Ok v => ∃ vm used, ready g' vm ∧ vm_Call vm f args = (CallReturns v, (Execute pick f args g').1.2, used)
  | Err e => NewVm g' = Err e ∨ ∃ vm out used, ready g' vm ∧ vm_Call vm f args = (out, used) ∧
      (out.1 = CallThrows e ∨ out.1 = CallPanics e)
  end.
Proof.
  intros Hnew Hf g'.
  assert (Forall (ready g') (js_vmPool g')) as Hall.
  { apply executes_ready. unfold NewGojaJsEngine in Hnew.
    destruct (goja_Compile _ _); [simpl in Hnew|done]. destruct (PreCompileJs config); [|done].
    simpl in Hnew. simplify_eq. constructor. }
  split; [done|].
  pose proof (pool_Get_ready pick g' Hall) as [Hget _].
  setoid_rewrite <- (same_setup_ready g' _ _ (pool_Get_setup pick g')) in Hget.
  unfold Execute. destruct (pool_Get pick g') as [[vm|e] g2] eqn:E; simpl in *.
  - assert (vm_HasFunction vm f = true) as ->.
    { apply Hf. apply (same_setup_ready g g' vm); [apply executes_setup|auto]. }
    destruct (vm_Call vm f args) as [[[v|e|e] args'] vm'] eqn:Ec; simpl; eauto 10.
  - left. revert E. unfold pool_Get. case_match; intros E; by simplify_eq.
Qed.

End Engine.

(** ** The time-out protocol

    [setTimeout] makes a channel of capacity one holding 0 and starts a timer;
    [closeStateChan] ends the script's side.  Each side is a sequence of channel
    operations, which the scheduler interleaves. *)
Module Timeout.

Inductive op : Type :=
| RecvTimer        (* [if <-state == 0] of the timer *)
| SendTimer        (* [state <- 2] *)
| Interrupt        (* [vm.Interrupt] *)
| RecvClose        (* [if <-state == 0] of [closeStateChan] *)
| SendClose        (* [state <- 1] *)
| CloseChan        (* [close(state)] *)
| PutVm.           (* [vmPool.Put(vm)], after the script *)

Record chan : Type := mkChan {
  buffer : option Z;      (* capacity 1 *)
  closed : bool;
  timer : list op;
  script : list op;
  log : list op;          (* what was executed, oldest first *)
  panicked : bool
}.

(** [setTimeout] *)
Definition setTimeout : chan := mkChan (Some 0%Z) false [RecvTimer] [RecvClose] [] false.

(** Receive: a closed and empty channel yields 0; an open empty one blocks. *)
Definition recv (c : chan) : option (Z * option Z) :=
  match buffer c with
  | Some z => Some (z, None)
  | None => if closed c then Some (0%Z, None) else None
  end.

(** Send: panics on a closed channel, blocks on a full one. *)
Definition exec_op (c : chan) (o : op) (continue_ : list op → chan → chan) : option chan :=
  let done_ push b cl p := Some (continue_ push (mkChan b cl (timer c) (script c) (log c ++ [o]) p)) in
  match o with
  | RecvTimer =>
      match recv c with
      | Some (z, b) => done_ (if bool_decide (z = 0%Z) then [SendTimer; Interrupt] else []) b (closed c) (panicked c)
      | None => None
      end
  | RecvClose =>
      match recv c with
      | Some (z, b) => done_ (if bool_decide (z = 0%Z) then [SendClose; CloseChan; PutVm] else [CloseChan; PutVm]) b (closed c) (panicked c)
      | None => None
      end
  | SendTimer | SendClose =>
      let z := match o with SendTimer => 2%Z | _ => 1%Z end in
      if closed c then done_ [] (buffer c) true true
      else match buffer c with
           | Some _ => None
           | None => done_ [] (Some z) false (panicked c)
           end
  | CloseChan => done_ [] (buffer c) true (panicked c || closed c)
  | Interrupt | PutVm => done_ [] (buffer c) (closed c) (panicked c)
  end.

(** [who = true]: the timer moves. *)
Definition step (c : chan) (who : bool) : option chan :=
  if who then
    match timer c with
    | [] => None
    | o :: k => exec_op c o (λ push c, mkChan (buffer c) (closed c) (push ++ k) (script c) (log c) (panicked c))
    end
  else
    match script c with
    | [] => None
    | o :: k => exec_op c o (λ push c, mkChan (buffer c) (closed c) (timer c) (push ++ k) (log c) (panicked c))
    end.

Inductive reachable : chan → Prop :=
| reachable_init : reachable setTimeout
| reachable_step c who c' : reachable c → step c who = Some c' → reachable c'.

#[global] Instance op_EqDecision : EqDecision op.
Proof. solve_decision. Defined.
#[global] Instance chan_EqDecision : EqDecision chan.
Proof. solve_decision. Defined.

(** All states after at most [n] operations. *)
Definition successors (c : chan) : list chan := omap (step c) [true; false].
Fixpoint explore (n : nat) : list chan :=
  match n with
  | 0 => [setTimeout]
  | S n => setTimeout :: (explore n ≫= successors)
  end.

Lemma explore_succ n c who c' : c ∈ explore n → step c who = Some c' → c' ∈ explore (S n).
Proof.
  intros Hc Hstep. simpl. apply elem_of_cons. right. apply list_elem_of_bind. exists c. split; [|done].
  unfold successors. apply list_elem_of_omap. exists who. split; [destruct who; set_solver|done].
Qed.

Lemma explore_closed c : c ∈ explore 8 → c ∈ explore 7.
Proof.
  revert c. apply (Forall_forall (λ c, c ∈ explore 7)). by_decide.
Qed.

Lemma reachable_explore c : reachable c → c ∈ explore 7.
Proof.
  induction 1 as [|c who c' _ IH Hstep]; [apply list_elem_of_here|].
  apply explore_closed. by eapply explore_succ.
Qed.

Definition head_is (o : op) (l : list op) : bool := match l with x :: _ => bool_decide (x = o) | [] => false end.

(** C28. For every interleaving of the timer with the end of the script: no
    operation panics (no send on a closed channel, no double close), the two
    sides never block each other for good, they are done after at most seven
    channel operations, and the machine is interrupted only if the timer took the
    token before the script ended. *)
Theorem timeout_protocol_safe c :
  reachable c →
  panicked c = false ∧ length (log c) ≤ 7 ∧
  (Interrupt ∈ log c → head_is RecvTimer (log c) = true) ∧
  (timer c = [] ∧ script c = [] ∨ is_Some (step c true) ∨ is_Some (step c false)).
Proof.
  intros Hc%reachable_explore. revert c Hc. apply Forall_forall. by_decide.
Qed.

Lemma timeout_protocol_safe_witness :
  length (log (default setTimeout (step setTimeout true))) ≤ 7.
Proof.
  apply (timeout_protocol_safe (default setTimeout (step setTimeout true))).
  eapply (reachable_step _ true); [apply reachable_init|reflexivity].
Defined.

(** The interrupt itself comes after the token was passed on, so it can reach
    the machine when its script has ended and it is back in the pool, where the
    next message will use it. *)
Theorem interrupt_after_put :
  ∃ c, reachable c ∧ log c = [RecvTimer; SendTimer; RecvClose; CloseChan; PutVm; Interrupt].
Proof.
  assert (∀ sched c, reachable c → reachable (foldl (λ c who, default c (step c who)) c sched)) as Hrun.
  { induction sched as [|who sched IH]; intros c Hc; simpl; [done|]. apply IH.
    destruct (step c who) eqn:E; simpl; [by eapply reachable_step|done]. }
  eexists. split; [apply (Hrun [true; true; false; false; false; true] setTimeout), reachable_init|reflexivity].
Qed.

End Timeout.

(** ** A concrete interpreter, for witnesses

    A program is its source text; a source containing "syntax error" does not
    compile.  A machine is the list of what was loaded into it, and a function is
    there when a source declares it. *)
Module JsExample.

#[local] Instance toy_goja : Goja := {|
  Program := string;
  Runtime_ := list string;
  goja_Compile name src := if Contains "syntax error" src then Err "SyntaxError" else Ok src;
  goja_New := [];
  vm_RunProgram vm p := (None, p :: vm);
  vm_Set vm k v := Ok (k :: vm);
  vm_HasFunction vm f := existsb (Contains ("function " +:+ f)) vm;
  vm_Call vm f args := (match args with v :: _ => CallReturns v | [] => CallThrows "no argument" end, args, vm)
|}.

#[local] Instance toy_range : MapRange := {|
  range A m := map_to_list m;
  range_perm A m := reflexivity (map_to_list m)
|}.

Definition config : Config :=
  RegisterUdf "add" (VScript Js (VFunc 1))
    (RegisterUdf "inc" (VString "function inc(x) { return x + 1 }") (NewConfig [])).

Definition source : string := "function Filter(msg, metadata, msgType) { return inc(msg) }".
Definition engine : GojaJsEngine := mkJs [] config source {["inc" := "function inc(x) { return x + 1 }"]} [].

Lemma NewGojaJsEngine_witness :
  js_jsUdfProgramCache engine !! "inc" = Some "function inc(x) { return x + 1 }".
Proof.
  assert (NewGojaJsEngine config source [] = Ok engine) as H by (vm_compute; reflexivity).
  apply (proj2 (NewGojaJsEngine_spec config source []) engine H).
  exists (VString "function inc(x) { return x + 1 }"). eexists. split; [|split]; vm_compute; reflexivity.
Defined.

Lemma Execute_runs_prepared_witness :
  (Execute (Some 0) "Filter" [VBool true] (executes [(None, "Filter", [VNil])] engine)).1.1 = Ok (VBool true) ∧
  Forall (ready (executes [(None, "Filter", [VNil])] engine)) (js_vmPool (executes [(None, "Filter", [VNil])] engine)).
Proof.
  split; [vm_compute; reflexivity|].
  apply (Execute_runs_prepared config source [] engine [(None, "Filter", [VNil])] (Some 0) "Filter" [VBool true]).
  - vm_compute; reflexivity.
  - intros vm. induction 1 as [vm Hnew|vm vm' f args out _ IH Hcall]; simpl in *.
    + vm_compute in Hnew. injection Hnew as <-. reflexivity.
    + by simplify_eq.
Defined.

(** A Go function registered as a script of the default type (the empty
    type, which the documentation of [Script] declares to mean JavaScript) becomes
    the variable "#add", which no script can name; with the type written out it
    becomes "add". *)
Theorem udf_default_type_unreachable :
  (install_udf engine ([], []) (udf_key "add" (VScript "" (VFunc 1)), VScript "" (VFunc 1))).2
    = [("#add", VFunc 1)] ∧
  (install_udf engine ([], []) (udf_key "add" (VScript Js (VFunc 1)), VScript Js (VFunc 1))).2
    = [("add", VFunc 1)].
Proof. split; vm_compute; reflexivity. Qed.

End JsExample.
