(* ===== verification/NodeApi.v ===== *)
(** * What the built-in components use

    The interfaces between a component and the rest: the script engine
    ([types.JsEngine]), configuration decoding ([utils/maps.Map2Struct], which is
    package mapstructure), the expression language (package expr) and the message
    payload as a dynamic value.

    A component's [Init] works on a fresh instance, and [InitRuleNodeCtx] drops
    the instance when it fails, so [Init] is a function into [result]. *)

From S2P Require Import Prelude GoStrings Value Str Msg Config Dsl World RuleCtx JsEngine.

(** [types.JsEngine], with the constructor the components use: [Execute] returns
    the result, the arguments as the script left them, and the engine. *)
Class JsEngine (E : Type) : Type := {
  js_New : Config → string → result E;
  js_Execute : string → list value → E → result value * list value * E
}.

(** The goja engine implements it; [pick] is the choice of [sync.Pool]. *)
Definition goja_JsEngine `{Goja} `{MapRange} (pick : option nat) : JsEngine GojaJsEngine := {|
  js_New config jsScript := NewGojaJsEngine config jsScript [];
  js_Execute f args g := Execute pick f args g
|}.

(** [maps.Map2Struct(configuration, &x.Config)]: decodes into the struct it is
    given, whose other fields keep their values. *)
Class Decode (A : Type) : Type := Map2Struct : Configuration → A → error * A.

(** Package expr.  Running a nil program is an error. *)
Class ExprLang : Type := {
  ExprProgram : Type;
  expr_Compile : bool → string → result ExprProgram; (* [true]: with [expr.AsBool()] *)
  expr_Run : ExprProgram → list (string * value) → result value
}.
Definition vm_Run `{ExprLang} (program : option ExprProgram) (env : list (string * value)) : result value :=
  match program with
  | Some p => expr_Run p env
  | None => Err "program cannot be nil"
  end.

Section Payload.
Context `{J : Json}.

(** [json.Unmarshal] into a [map[string]interface{}]: the JSON null makes the map nil. *)
Definition unmarshal_map (s : string) : result (option (list (string * value))) :=
  match json_Unmarshal s with
  | Ok (VMap m) => Ok (Some m)
  | Ok VNil => Ok None
  | Ok _ => Err "json: cannot unmarshal value into Go value of type map[string]interface {}"
  | Err e => Err e
  end.

(** The payload a script sees: decoded JSON, or the text when it is not JSON.
    Decoded into an [interface{}] ... *)
Definition payload (msg : RuleMsg) : value :=
  if bool_decide (m_DataType msg = JSON) then
    match json_Unmarshal (m_Data msg) with Ok v => v | Err _ => VString (m_Data msg) end
  else VString (m_Data msg).

(** ... or into a map. *)
Definition payload_map (msg : RuleMsg) : value :=
  if bool_decide (m_DataType msg = JSON) then
    match unmarshal_map (m_Data msg) with Ok m => VMap (default [] m) | Err _ => VString (m_Data msg) end
  else VString (m_Data msg).

(** The variables of an expression. *)
Definition expr_env (data : value) (msg : RuleMsg) : list (string * value) :=
  [(MsgKey, data); (MetadataKey, VStrMap (Metadata_Values (m_Metadata msg)));
   (MsgTypeKey, VString (m_Type msg)); (DataTypeKey, VString (m_DataType msg))].

End Payload.

(** The metadata map is handed to the script by reference: what the script wrote
    into argument [i] is in the message afterwards. *)
Definition metadata_after (i : nat) (args : list value) (msg : RuleMsg) : RuleMsg :=
  match args !! i with
  | Some (VStrMap m) => set_Metadata (list_to_map m) msg
  | _ => msg
  end.

(** The scripts called with [(msg, metadata, msgType)]. *)
Definition call_script {E} `{JsEngine E} (f : string) (data : value) (msg : RuleMsg) (engine : E)
    : result value * RuleMsg * E :=
  let '(out, args, engine) :=
    js_Execute f [data; VStrMap (Metadata_Values (m_Metadata msg)); VString (m_Type msg)] engine in
  (out, metadata_after 1 args msg, engine).

(** The message but for its metadata. *)
Definition same_but_metadata (m m' : RuleMsg) : Prop := ∃ md, m' = set_Metadata md m.

Lemma metadata_after_same i args msg : same_but_metadata msg (metadata_after i args msg).
Proof.
  unfold metadata_after, same_but_metadata.
  repeat (case_match; try (exists (m_Metadata msg); by destruct msg)). by eexists.
Qed.

Lemma call_script_same {E} `{JsEngine E} f data msg (engine : E) :
  same_but_metadata msg (call_script f data msg engine).1.2.
Proof.
  unfold call_script. destruct (js_Execute _ _ _) as [[out args] engine']. apply metadata_after_same.
Qed.

(** A dynamic value that is the boolean [true]. *)
Definition is_true (v : value) : bool := match v with VBool b => b | _ => false end.

(** The nil pointer of a component that was never initialised. *)
Definition nil_engine : list call := [CPanic "invalid memory address or nil pointer dereference"].

(** ** Concrete instances, for witnesses *)
Module NodeSamples.

(** Three payload texts; everything else is not JSON. *)
#[export] Instance sampleJson : Json := {|
  json_Marshal := λ v, match v with VFunc _ => Err "json: unsupported type" | _ => Ok "json" end;
  json_Unmarshal := λ s,
    if bool_decide (s = "list") then Ok (VSlice [VString "a"; VString "bad"; VString "c"])
    else if bool_decide (s = "obj") then Ok (VMap [("temperature", VString "60"); ("items", VSlice [VBool true])])
    else if bool_decide (s = "null") then Ok VNil
    else Err "invalid character"
|}.

(** An engine is its source; scripts do not touch their arguments, fail on the
    argument "bad", and return whether the first argument is the text "a". *)
#[export] Instance sampleEngine : JsEngine string := {|
  js_New := λ _ src, if Contains "syntax error" src then Err "SyntaxError" else Ok src;
  js_Execute := λ f args e,
    (match args with
     | VString s :: _ => if bool_decide (s = "bad") then Err "boom" else Ok (VBool (bool_decide (s = "a")))
     | _ => Ok VNil
     end, args, e)
|}.

(** Decoding that succeeds with the struct [a]. *)
Definition decodes {A} (a : A) : Decode A := λ _ _, (None, a).

Definition sample_msg (id data : string) : RuleMsg := mkMsg 1 id JSON "TEST" data {["k" := "v"]}.

End NodeSamples.
