(* ===== verification/Filters.v ===== *)
(** * The filter components ([src/components/filter]) but for the group filter *)

From Stdlib Require Import Ascii.
From S2P Require Import Prelude GoStrings Value Str Msg Config Dsl World RuleCtx CtxProps NodeApi.

Section Filters.
Context `{J : Json} {E : Type} `{JE : JsEngine E} `{EX : ExprLang}.

(** ** [JsFilterNode] *)

Record JsFilterNodeConfiguration : Type := mkJsFilterConf { jf_JsScript : string }.
Record JsFilterNode : Type := mkJsFilter { jf_Config : JsFilterNodeConfiguration; jf_jsEngine : option E }.

Definition JsFilterNode_New : JsFilterNode := mkJsFilter (mkJsFilterConf "return msg.temperature > 50;") None.

Definition JsFilterNode_Init `{Decode JsFilterNodeConfiguration} (ruleConfig : Config) (configuration : Configuration)
    (x : JsFilterNode) : result JsFilterNode :=
  match Map2Struct configuration (jf_Config x) with
  | (Some err, _) => Err err
  | (None, conf) =>
      let? engine := js_New ruleConfig
        ("function Filter(msg, metadata, msgType) { " +:+ jf_JsScript conf +:+ " }") in
      Ok (mkJsFilter conf (Some engine))
  end.

Definition JsFilterNode_OnMsg (x : JsFilterNode) (msg : RuleMsg) : list call * JsFilterNode :=
  match jf_jsEngine x with
  | None => (nil_engine, x)
  | Some engine =>
      let '(out, msg, engine) := call_script "Filter" (payload msg) msg engine in
      (match out with
       | Err err => [TellFailure msg (Some err)]
       | Ok out => [TellNext msg [if is_true out then True_ else False_]]
       end, mkJsFilter (jf_Config x) (Some engine))
  end.

(** ** [ExprFilterNode]

    The error of [expr.Compile] is assigned to a variable of the inner scope, so
    [Init] succeeds without a program. *)

Record ExprFilterNodeConfiguration : Type := mkExprFilterConf { ef_Expr : string }.
Record ExprFilterNode : Type := mkExprFilter { ef_Config : ExprFilterNodeConfiguration; ef_program : option ExprProgram }.

Definition ExprFilterNode_New : ExprFilterNode := mkExprFilter (mkExprFilterConf "") None.

Definition ExprFilterNode_Init `{Decode ExprFilterNodeConfiguration} (ruleConfig : Config)
    (configuration : Configuration) (x : ExprFilterNode) : result ExprFilterNode :=
  match Map2Struct configuration (ef_Config x) with
  | (Some err, _) => Err err
  | (None, conf) =>
      match expr_Compile true (ef_Expr conf) with
      | Ok program => Ok (mkExprFilter conf (Some program))
      | Err _ => Ok (mkExprFilter conf (ef_program x))
      end
  end.

Definition ExprFilterNode_OnMsg (x : ExprFilterNode) (msg : RuleMsg) : list call :=
  match vm_Run (ef_program x) (expr_env (payload_map msg) msg) with
  | Err err => [TellFailure msg (Some err)]
  | Ok out => [TellNext msg [if is_true out then True_ else False_]]
  end.

(** ** [FieldFilterNode] *)

Record FieldFilterNodeConfiguration : Type := mkFieldFilterConf {
  ff_CheckAllKeys : bool;
  ff_DataNames : string;
  ff_MetadataNames : string
}.
Record FieldFilterNode : Type := mkFieldFilter {
  ff_Config : FieldFilterNodeConfiguration;
  ff_DataNamesList : list string;
  ff_MetadataNamesList : list string
}.

Definition FieldFilterNode_New : FieldFilterNode := mkFieldFilter (mkFieldFilterConf false "" "") [] [].

Definition FieldFilterNode_Init `{Decode FieldFilterNodeConfiguration} (ruleConfig : Config)
    (configuration : Configuration) (x : FieldFilterNode) : result FieldFilterNode :=
  match Map2Struct configuration (ff_Config x) with
  | (Some err, _) => Err err
  | (None, conf) => Ok (mkFieldFilter conf (Split (ff_DataNames conf) ","%char) (Split (ff_MetadataNames conf) ","%char))
  end.

Fixpoint checkAllKeysMetadata (names : list string) (metadata : Metadata) : bool :=
  match names with
  | [] => true
  | item :: rest => if negb (Metadata_Has metadata item) then false else checkAllKeysMetadata rest metadata
  end.

Fixpoint checkAllKeysData (names : list string) (data : option (list (string * value))) : bool :=
  match names with
  | [] => true
  | item :: rest =>
      match data with
      | None => false
      | Some m => match assoc item m with None => false | Some _ => checkAllKeysData rest data end
      end
  end.

Fixpoint checkAtLeastOneMetadata (names : list string) (metadata : Metadata) : bool :=
  match names with
  | [] => false
  | item :: rest => if Metadata_Has metadata item then true else checkAtLeastOneMetadata rest metadata
  end.

Fixpoint checkAtLeastOneData (names : list string) (data : option (list (string * value))) : bool :=
  match names with
  | [] => false
  | item :: rest =>
      match data with
      | None => false
      | Some m => match assoc item m with Some _ => true | None => checkAtLeastOneData rest data end
      end
  end.

Definition FieldFilterNode_OnMsg (x : FieldFilterNode) (msg : RuleMsg) : list call :=
  let check (dataMap : option (list (string * value))) : list call :=
    if ff_CheckAllKeys (ff_Config x) then
      if checkAllKeysMetadata (ff_MetadataNamesList x) (m_Metadata msg) && checkAllKeysData (ff_DataNamesList x) dataMap
      then [TellNext msg [True_]] else [TellNext msg [False_]]
    else
      if checkAtLeastOneMetadata (ff_MetadataNamesList x) (m_Metadata msg)
         || checkAtLeastOneData (ff_DataNamesList x) dataMap
      then [TellNext msg [True_]] else [TellNext msg [False_]] in
  if bool_decide (m_DataType msg = JSON) then
    match unmarshal_map (m_Data msg) with
    | Err err => [TellFailure msg (Some err)]
    | Ok dataMap => check dataMap
    end
  else check (Some []).

(** ** [JsSwitchNode] *)

Record JsSwitchNodeConfiguration : Type := mkJsSwitchConf { jw_JsScript : string }.
Record JsSwitchNode : Type := mkJsSwitch { jw_Config : JsSwitchNodeConfiguration; jw_jsEngine : option E }.

Definition JsSwitchReturnFormatErr : string := "return the value is not an array".

Definition JsSwitchNode_New : JsSwitchNode := mkJsSwitch (mkJsSwitchConf "return ['msgType1','msgType2'];") None.

Definition JsSwitchNode_Init `{Decode JsSwitchNodeConfiguration} (ruleConfig : Config) (configuration : Configuration)
    (x : JsSwitchNode) : result JsSwitchNode :=
  match Map2Struct configuration (jw_Config x) with
  | (Some err, _) => Err err
  | (None, conf) =>
      let? engine := js_New ruleConfig
        ("function Switch(msg, metadata, msgType) { " +:+ jw_JsScript conf +:+ " }") in
      Ok (mkJsSwitch conf (Some engine))
  end.

Definition JsSwitchNode_OnMsg (x : JsSwitchNode) (msg : RuleMsg) : list call * JsSwitchNode :=
  match jw_jsEngine x with
  | None => (nil_engine, x)
  | Some engine =>
      let '(out, msg, engine) := call_script "Switch" (payload_map msg) msg engine in
      (match out with
       | Err err => [TellFailure msg (Some err)]
       | Ok (VSlice formatData) => (λ relationType, TellNext msg [ToString relationType]) <$> formatData
       | Ok _ => [TellFailure msg (Some JsSwitchReturnFormatErr)]
       end, mkJsSwitch (jw_Config x) (Some engine))
  end.

(** ** [MsgTypeSwitchNode] *)

Definition MsgTypeSwitchNode_OnMsg (msg : RuleMsg) : list call := [TellNext msg [m_Type msg]].

(** ** Lemmas *)

Lemma checkAllKeysMetadata_spec names md :
  checkAllKeysMetadata names md = true ↔ Forall (λ k, is_Some (md !! k)) names.
Proof.
  induction names as [|k names IH]; simpl; [done|]. unfold Metadata_Has.
  rewrite Forall_cons. case_bool_decide; simpl; rewrite ?IH; naive_solver.
Qed.

Lemma checkAllKeysData_spec names m :
  checkAllKeysData names (Some m) = true ↔ Forall (λ k, is_Some (assoc k m)) names.
Proof.
  induction names as [|k names IH]; simpl; [done|]. rewrite Forall_cons.
  destruct (assoc k m); rewrite ?IH; [by split; [|intros []]|]. split; [done|]. by intros [[? ?] _].
Qed.

Lemma checkAtLeastOneMetadata_spec names md :
  checkAtLeastOneMetadata names md = true ↔ Exists (λ k, is_Some (md !! k)) names.
Proof.
  induction names as [|k names IH]; simpl; [by rewrite Exists_nil|]. unfold Metadata_Has.
  rewrite Exists_cons. case_bool_decide; rewrite ?IH; naive_solver.
Qed.

Lemma checkAtLeastOneData_spec names m :
  checkAtLeastOneData names (Some m) = true ↔ Exists (λ k, is_Some (assoc k m)) names.
Proof.
  induction names as [|k names IH]; simpl; [by rewrite Exists_nil|]. rewrite Exists_cons.
  destruct (assoc k m); rewrite ?IH; [by split; [left; eauto|]|]. split; [by right|]. intros [[? ?]|?]; done.
Qed.

(** The fields of the payload a field filter looks at: none unless it is JSON. *)
Definition payload_fields (msg : RuleMsg) : result (list (string * value)) :=
  if bool_decide (m_DataType msg = JSON) then
    match unmarshal_map (m_Data msg) with
    | Ok m => Ok (default [] m)
    | Err e => Err e
    end
  else Ok [].

Lemma checkData_nil names :
  names ≠ [] → checkAllKeysData names None = checkAllKeysData names (Some []) ∧
  checkAtLeastOneData names None = checkAtLeastOneData names (Some []).
Proof.
  intros Hne. destruct names as [|k names]; [done|]. simpl. split; [done|].
  symmetry. clear Hne. induction names as [|? ? IH]; [done|exact IH].
Qed.

(** What a configured field filter decides. *)
Definition field_filter_holds (conf : FieldFilterNodeConfiguration) (fields : list (string * value)) (md : Metadata) : Prop :=
  let dataNames := Split (ff_DataNames conf) ","%char in
  let metadataNames := Split (ff_MetadataNames conf) ","%char in
  if ff_CheckAllKeys conf
  then Forall (λ k, is_Some (md !! k)) metadataNames ∧ Forall (λ k, is_Some (assoc k fields)) dataNames
  else Exists (λ k, is_Some (md !! k)) metadataNames ∨ Exists (λ k, is_Some (assoc k fields)) dataNames.

Lemma FieldFilter_decision `{Decode FieldFilterNodeConfiguration} ruleConfig configuration x msg fields :
  FieldFilterNode_Init ruleConfig configuration FieldFilterNode_New = Ok x →
  payload_fields msg = Ok fields →
  ∃ b, FieldFilterNode_OnMsg x msg = [TellNext msg [if b : bool then True_ else False_]] ∧
       (b = true ↔ field_filter_holds (ff_Config x) fields (m_Metadata msg)).
Proof.
  unfold FieldFilterNode_Init. destruct (Map2Struct configuration _) as [[e|] conf]; [done|].
  intros [= <-] Hf. unfold FieldFilterNode_OnMsg, field_filter_holds; simpl.
  set (names := Split (ff_DataNames conf) ","%char). set (mnames := Split (ff_MetadataNames conf) ","%char).
  assert (names ≠ []) as Hne by apply Split_nonempty.
  exists (if ff_CheckAllKeys conf then checkAllKeysMetadata mnames (m_Metadata msg) && checkAllKeysData names (Some fields)
          else checkAtLeastOneMetadata mnames (m_Metadata msg) || checkAtLeastOneData names (Some fields)).
  split.
  - revert Hf. unfold payload_fields. case_bool_decide; [|intros [= <-]; by repeat case_match].
    destruct (unmarshal_map (m_Data msg)) as [[m|]|e]; simpl; intros [= <-]; [by repeat case_match|].
    destruct (checkData_nil names Hne) as [-> ->]. by repeat case_match.
  - destruct (ff_CheckAllKeys conf).
    + by rewrite andb_true_iff, checkAllKeysMetadata_spec, checkAllKeysData_spec.
    + by rewrite orb_true_iff, checkAtLeastOneMetadata_spec, checkAtLeastOneData_spec.
Qed.

(** A field filter answers every message once: with [Failure] when a JSON
    payload is not an object, else with [True] exactly when all (with
    [CheckAllKeys]) or any of the configured names are present in the metadata and in
    the fields of the payload, a payload that is not JSON having no field. *)
Theorem FieldFilterNode_OnMsg_spec `{Decode FieldFilterNodeConfiguration} ruleConfig configuration x msg :
  FieldFilterNode_Init ruleConfig configuration FieldFilterNode_New = Ok x →
  match payload_fields msg with
  | Err err => FieldFilterNode_OnMsg x msg = [TellFailure msg (Some err)]
  | Ok fields =>
      ∃ b, FieldFilterNode_OnMsg x msg = [TellNext msg [if b : bool then True_ else False_]] ∧
           (b = true ↔ field_filter_holds (ff_Config x) fields (m_Metadata msg))
  end.
Proof.
  intros Hi. destruct (payload_fields msg) as [fields|err] eqn:Hf; [by eapply FieldFilter_decision|].
  unfold payload_fields, FieldFilterNode_OnMsg in *. case_bool_decide; [|done].
  destruct (unmarshal_map (m_Data msg)); by simplify_eq.
Qed.

(** The name list of an empty setting is the one name "", so a filter that
    checks all keys and names no metadata key answers [False] to every message whose
    metadata was filled by [PutValue], which stores nothing under "". *)
Theorem FieldFilterNode_no_metadata_names `{Decode FieldFilterNodeConfiguration} ruleConfig configuration x msg fields :
  FieldFilterNode_Init ruleConfig configuration FieldFilterNode_New = Ok x →
  ff_CheckAllKeys (ff_Config x) = true → ff_MetadataNames (ff_Config x) = "" →
  payload_fields msg = Ok fields → m_Metadata msg !! "" = None →
  FieldFilterNode_OnMsg x msg = [TellNext msg [False_]].
Proof.
  intros Hi Hall Hno Hf Hmd. destruct (FieldFilter_decision _ _ _ _ _ Hi Hf) as (b & -> & Hb).
  destruct b; [exfalso|done]. destruct Hb as [Hb _]. specialize (Hb eq_refl).
  unfold field_filter_holds in Hb. rewrite Hall, Hno in Hb. destruct Hb as [Hh _]. simpl in Hh. apply Forall_cons in Hh as [[? Hs] _]. congruence.
Qed.

End Filters.

Module FiltersExample.
Import NodeSamples.

Definition all_of (d m : string) : Decode FieldFilterNodeConfiguration := decodes (mkFieldFilterConf true d m).
Definition field_filter (d m : string) : FieldFilterNode :=
  mkFieldFilter (mkFieldFilterConf true d m) (Split d ","%char) (Split m ","%char).

Lemma FieldFilterNode_OnMsg_witness :
  ∃ b, FieldFilterNode_OnMsg (field_filter "temperature,items" "k") (sample_msg "1" "obj") =
         [TellNext (sample_msg "1" "obj") [if b : bool then True_ else False_]] ∧
       (b = true ↔ field_filter_holds (mkFieldFilterConf true "temperature,items" "k")
          [("temperature", VString "60"); ("items", VSlice [VBool true])] {["k" := "v"]}).
Proof.
  pose proof (@FieldFilterNode_OnMsg_spec _ (all_of "temperature,items" "k") zeroConfig ∅
    (field_filter "temperature,items" "k") (sample_msg "1" "obj") eq_refl) as H.
  assert (payload_fields (sample_msg "1" "obj") = Ok [("temperature", VString "60"); ("items", VSlice [VBool true])])
    as E by (vm_compute; reflexivity).
  rewrite E in H. exact H.
Defined.

Lemma FieldFilterNode_no_metadata_names_witness :
  FieldFilterNode_OnMsg (field_filter "temperature" "") (sample_msg "1" "obj") =
    [TellNext (sample_msg "1" "obj") [False_]].
Proof.
  apply (@FieldFilterNode_no_metadata_names _ (all_of "temperature" "") zeroConfig ∅ (field_filter "temperature" "")
    (sample_msg "1" "obj") [("temperature", VString "60"); ("items", VSlice [VBool true])]); reflexivity.
Defined.

End FiltersExample.
