(* ===== verification/Actions.v ===== *)
(** * The action components ([src/components/action]) but for the group action *)

From S2P Require Import Prelude GoStrings Value Str Msg Config Registry Dsl World RuleCtx CtxProps NodeApi.

Section Actions.
Context `{J : Json} {E : Type} `{JE : JsEngine E}.

(** ** [LogNode]

    The logger is the list of format strings [Printf] was called with. *)

Record LogNodeConfiguration : Type := mkLogConf { ln_JsScript : string }.
Record LogNode : Type := mkLog { ln_Config : LogNodeConfiguration; ln_jsEngine : option E; ln_logger : list string }.

Definition JsLogReturnFormatErr : string := "return the value is not a string".

Definition LogNode_New : LogNode :=
  mkLog (mkLogConf "return 'Incoming message:\n' + JSON.stringify(msg) + '\nIncoming metadata:\n' + JSON.stringify(metadata);")
    None [].

Definition LogNode_Init `{Decode LogNodeConfiguration} (ruleConfig : Config) (configuration : Configuration)
    (x : LogNode) : result LogNode :=
  match Map2Struct configuration (ln_Config x) with
  | (Some err, _) => Err err
  | (None, conf) =>
      let? engine := js_New ruleConfig
        ("function ToString(msg, metadata, msgType) { " +:+ ln_JsScript conf +:+ " }") in
      Ok (mkLog conf (Some engine) (ln_logger x))
  end.

Definition LogNode_OnMsg (x : LogNode) (msg : RuleMsg) : list call * LogNode :=
  match ln_jsEngine x with
  | None => (nil_engine, x)
  | Some engine =>
      let '(out, msg, engine) := call_script "ToString" (payload msg) msg engine in
      match out with
      | Err err => ([TellFailure msg (Some err)], mkLog (ln_Config x) (Some engine) (ln_logger x))
      | Ok (VString formatData) =>
          ([TellSuccess msg], mkLog (ln_Config x) (Some engine) (ln_logger x ++ [formatData]))
      | Ok _ => ([TellFailure msg (Some JsLogReturnFormatErr)], mkLog (ln_Config x) (Some engine) (ln_logger x))
      end
  end.

(** ** [FunctionsNode]

    A registered function is what it calls on the context. *)

Record FunctionsNodeConfiguration : Type := mkFunctionsConf { fn_FunctionName : string }.
Record FunctionsNode : Type := mkFunctions { fn_Config : FunctionsNodeConfiguration; fn_HasVars : bool }.

Definition FunctionsNode_New : FunctionsNode := mkFunctions (mkFunctionsConf "test") false.

Definition FunctionsNode_Init `{Decode FunctionsNodeConfiguration} (ruleConfig : Config)
    (configuration : Configuration) (x : FunctionsNode) : result FunctionsNode :=
  match Map2Struct configuration (fn_Config x) with
  | (Some err, _) => Err err
  | (None, conf) => Ok (mkFunctions conf (Contains "${" (fn_FunctionName conf) || fn_HasVars x))
  end.

Definition getFunctionName (x : FunctionsNode) (msg : RuleMsg) : string :=
  if fn_HasVars x
  then SprintfDict (fn_FunctionName (fn_Config x)) (Metadata_Values (m_Metadata msg))
  else fn_FunctionName (fn_Config x).

Definition FunctionsNode_OnMsg (Functions : gmap string (RuleMsg → list call)) (x : FunctionsNode) (msg : RuleMsg)
    : list call :=
  let funcName := getFunctionName x msg in
  match FunctionsRegistry_Get funcName Functions with
  | Some f => f msg
  | None => [TellFailure msg (Some ("can not found the function=" +:+ funcName))]
  end.

(** ** [IteratorNode] *)

Record IteratorNodeConfiguration : Type := mkIteratorConf { it_FieldName : string; it_JsScript : string }.
Record IteratorNode : Type := mkIterator { it_Config : IteratorNodeConfiguration; it_jsEngine : option E }.

Definition IteratorNode_New : IteratorNode := mkIterator (mkIteratorConf "" "") None.

Definition IteratorNode_Init `{Decode IteratorNodeConfiguration} (ruleConfig : Config)
    (configuration : Configuration) (x : IteratorNode) : result IteratorNode :=
  match Map2Struct configuration (it_Config x) with
  | (Some err, _) => Err err
  | (None, conf) =>
      let conf := mkIteratorConf (TrimSpace (it_FieldName conf)) (TrimSpace (it_JsScript conf)) in
      if bool_decide (it_JsScript conf ≠ "") then
        let? engine := js_New ruleConfig
          ("function ItemFilter(item,index,metadata) { " +:+ it_JsScript conf +:+ " }") in
        Ok (mkIterator conf (Some engine))
      else Ok (mkIterator conf (it_jsEngine x))
  end.

(** [executeItem]: its calls, whether it returned an error, the message as the
    script left it (its data is the caller's), and the engine. *)
Definition executeItem (engine : option E) (msg : RuleMsg) (item index : value)
    : list call * bool * RuleMsg * option E :=
  match engine with
  | Some e =>
      let '(out, args, e) := js_Execute "ItemFilter" [item; index; VStrMap (Metadata_Values (m_Metadata msg))] e in
      let msg := metadata_after 2 args msg in
      let item := default item (args !! 0) in
      match out with
      | Err err => ([TellFailure msg (Some err)], true, msg, Some e)
      | Ok v => ([TellNext (set_Data (ToString item) msg) [if is_true v then True_ else False_]], false, msg, Some e)
      end
  | None => ([TellNext (set_Data (ToString item) msg) [True_]], false, msg, None)
  end.

(** The loop, and the [TellSuccess] after it. *)
Fixpoint iterate (engine : option E) (msg : RuleMsg) (items : list (value * value)) : list call * option E :=
  match items with
  | [] => ([TellSuccess msg], engine)
  | (index, item) :: rest =>
      let '(calls, failed, msg, engine) := executeItem engine msg item index in
      if failed : bool then (calls, engine)
      else let '(calls', engine) := iterate engine msg rest in (calls ++ calls', engine)
  end.

Definition array_items (l : list value) : list (value * value) :=
  imap (λ i item, (VInt Kint (Z.of_nat i), item)) l.
Definition map_items (m : list (string * value)) : list (value * value) :=
  (λ '(k, item), (VString k, item)) <$> m.

(** [IteratorNode.OnMsg] *)
Definition IteratorNode_OnMsg (x : IteratorNode) (msg : RuleMsg) : list call * IteratorNode :=
  let run items :=
    let '(calls, engine) := iterate (it_jsEngine x) msg items in (calls, mkIterator (it_Config x) engine) in
  let walk data :=
    match data with
    | VSlice arrayValue => run (array_items arrayValue)
    | VMap mapValue => run (map_items mapValue)
    | _ => ([TellFailure msg (Some "value is not array or {key:value} type")], x)
    end in
  let fieldName := it_FieldName (it_Config x) in
  if bool_decide (fieldName ≠ "") then
    match Get (payload msg) fieldName with
    | VNil => ([TellFailure msg (Some ("field=" +:+ fieldName +:+ " not found"))], x)
    | data => walk data
    end
  else walk (payload msg).

(** ** [DelayNode] *)

Definition DelayNodeMsgType : string := "DELAY_NODE_MSG_TYPE".

Record DelayNodeConfiguration : Type := mkDelayConf {
  dl_PeriodInSeconds : Z;
  dl_MaxPendingMsgs : Z;
  dl_PeriodInSecondsPattern : string;
  dl_Overwrite : bool
}.
Record DelayNode : Type := mkDelay {
  dl_Config : DelayNodeConfiguration;
  dl_PendingMsgs : gmap string RuleMsg;
  dl_LastPendingMsgId : string
}.

Definition DelayNode_New : DelayNode := mkDelay (mkDelayConf 60 1000 "" false) ∅ "".

Definition DelayNode_Init `{Decode DelayNodeConfiguration} (ruleConfig : Config) (configuration : Configuration)
    (x : DelayNode) : result DelayNode :=
  match Map2Struct configuration (dl_Config x) with
  | (Some err, _) => Err err
  | (None, conf) =>
      let conf := if bool_decide (dl_MaxPendingMsgs conf ≤ 0)%Z
        then mkDelayConf (dl_PeriodInSeconds conf) 1000 (dl_PeriodInSecondsPattern conf) (dl_Overwrite conf) else conf in
      Ok (mkDelay conf ∅ "")
  end.

(** What a delay node asks of its context: a call, or a call after some
    milliseconds ([TellSelf]). *)
Inductive delay_call : Type :=
| DTell (c : call)
| DSelf (msg : RuleMsg) (delayMs : Z).

Definition delay_to_call (d : delay_call) : call :=
  match d with DTell c => c | DSelf msg _ => TellSelf msg end.

(** The handler goes through three critical sections.  A timer message takes
    its pending message out. *)
Definition delay_ack (x : DelayNode) (msg : RuleMsg) : list delay_call * DelayNode :=
  match dl_PendingMsgs x !! m_Id msg with
  | Some pendingMsg =>
      ([DTell (TellSuccess pendingMsg)],
       mkDelay (dl_Config x) (delete (m_Id msg) (dl_PendingMsgs x))
         (if dl_Overwrite (dl_Config x) then "" else dl_LastPendingMsgId x))
  | None => ([DTell (TellFailure msg (Some "msg not found"))], x)
  end.

(** A message of the period replaces the pending one: no call at all. *)
Definition delay_replace (x : DelayNode) (msg : RuleMsg) : DelayNode :=
  mkDelay (dl_Config x) (<[dl_LastPendingMsgId x := msg]> (dl_PendingMsgs x)) (dl_LastPendingMsgId x).

(** The test of the queue length and of the period, before the lock is taken again. *)
Definition delay_admit (x : DelayNode) (msg : RuleMsg) : result Z :=
  if bool_decide (Z.of_nat (size (dl_PendingMsgs x)) < dl_MaxPendingMsgs (dl_Config x))%Z then
    if bool_decide (dl_PeriodInSecondsPattern (dl_Config x) ≠ "")
    then Atoi (SprintfDict (dl_PeriodInSecondsPattern (dl_Config x)) (Metadata_Values (m_Metadata msg)))
    else Ok (dl_PeriodInSeconds (dl_Config x))
  else Err "max limit of pending messages".

Definition delay_store (now : Z) (uuid : string) (x : DelayNode) (msg : RuleMsg) (periodInSeconds : Z)
    : list delay_call * DelayNode :=
  ([DSelf (set_Type DelayNodeMsgType (RuleMsg_Copy now uuid msg)) (int64_wrap (periodInSeconds * 1000))],
   mkDelay (dl_Config x) (<[m_Id msg := msg]> (dl_PendingMsgs x))
     (if dl_Overwrite (dl_Config x) then m_Id msg else dl_LastPendingMsgId x)).

(** [DelayNode.OnMsg], when no other call of it runs in between. *)
Definition DelayNode_OnMsg (now : Z) (uuid : string) (x : DelayNode) (msg : RuleMsg) : list delay_call * DelayNode :=
  if bool_decide (m_Type msg = DelayNodeMsgType) then delay_ack x msg
  else if bool_decide (dl_LastPendingMsgId x ≠ "") then ([], delay_replace x msg)
  else match delay_admit x msg with
       | Err err => ([DTell (TellFailure msg (Some err))], x)
       | Ok periodInSeconds => delay_store now uuid x msg periodInSeconds
       end.

(** ** The iterator *)

(** A script that leaves its arguments as they are. *)
Definition pure_script (f : string) : Prop := ∀ args (e : E), (js_Execute f args e).1.2 = args.

Lemma metadata_unchanged i args msg :
  args !! i = Some (VStrMap (Metadata_Values (m_Metadata msg))) → metadata_after i args msg = msg.
Proof.
  intros Hi. unfold metadata_after. rewrite Hi. unfold Metadata_Values, set_Metadata.
  rewrite list_to_map_to_list. by destruct msg.
Qed.

(** What an item is told as. *)
Definition item_call (msg : RuleMsg) (verdict : bool) (item : value * value) : call :=
  TellNext (set_Data (ToString item.2) msg) [if verdict then True_ else False_].

Lemma iterate_calls engine msg items :
  pure_script "ItemFilter" →
  ∃ verdicts last, (iterate engine msg items).1 = zip_with (item_call msg) verdicts items ++ [last] ∧
    (length verdicts = length items ∧ last = TellSuccess msg ∨
     length verdicts < length items ∧ engine ≠ None ∧ ∃ err, last = TellFailure msg (Some err)).
Proof.
  intros Hpure. revert engine. induction items as [|[index item] items IH]; intros engine; simpl.
  { exists [], (TellSuccess msg). split; [done|]. by left. }
  destruct engine as [e|]; simpl.
  - pose proof (Hpure [item; index; VStrMap (Metadata_Values (m_Metadata msg))] e) as Hargs.
    destruct (js_Execute _ _ e) as [[out args] e'] eqn:Ex; simpl in *. subst args.
    rewrite metadata_unchanged by done.
    destruct out as [v|err]; simpl.
    + destruct (IH (Some e')) as (vs & last & Hc & Hl).
      destruct (iterate (Some e') msg items) as [calls e2]; simpl in *.
      exists (is_true v :: vs), last. rewrite Hc. split; [done|]. simpl.
      destruct Hl as [[? ?]|(? & ? & ?)]; [left; split; [lia|done]|right; split; [lia|done]].
    + exists [], (TellFailure msg (Some err)). split; [done|]. right. split; [simpl; lia|]. split; [done|eauto].
  - destruct (IH None) as (vs & last & Hc & Hl).
    destruct (iterate None msg items) as [calls e2]; simpl in *.
    exists (true :: vs), last. rewrite Hc. split; [done|]. simpl.
    destruct Hl as [[? ?]|(? & ? & ?)]; [left; split; [lia|done]|done].
Qed.

(** The items of the value the iterator is configured to walk. *)
Definition iterator_items (x : IteratorNode) (msg : RuleMsg) : option (list (value * value)) :=
  let data := if bool_decide (it_FieldName (it_Config x) ≠ "") then Get (payload msg) (it_FieldName (it_Config x))
              else payload msg in
  match data with
  | VSlice l => Some (array_items l)
  | VMap m => Some (map_items m)
  | _ => None
  end.

(** The iterator tells the items of the array or object one by one, in
    order, each as the data of the message, under [True] or [False] as the script
    says ([True] without script); it stops at the first item whose script fails.  The
    last call is the original message, under [Success] when every item was told and
    under [Failure] otherwise; a value that cannot be walked is one [Failure]. *)
Theorem IteratorNode_OnMsg_spec x msg :
  pure_script "ItemFilter" →
  match iterator_items x msg with
  | None => ∃ err, (IteratorNode_OnMsg x msg).1 = [TellFailure msg (Some err)]
  | Some items =>
      ∃ verdicts last, (IteratorNode_OnMsg x msg).1 = zip_with (item_call msg) verdicts items ++ [last] ∧
        (length verdicts = length items ∧ last = TellSuccess msg ∨
         length verdicts < length items ∧ it_jsEngine x ≠ None ∧ ∃ err, last = TellFailure msg (Some err))
  end.
Proof.
  intros Hpure. unfold iterator_items, IteratorNode_OnMsg.
  case_bool_decide; [destruct (Get _ _)|destruct (payload msg)]; try (by eexists);
    match goal with |- context [iterate ?e ?m ?l] =>
      pose proof (iterate_calls e m l Hpure) as Hcalls; by destruct (iterate e m l) end.
Qed.

(** ** The delay node *)

(** The node after a sequence of messages, handled one at a time. *)
Definition delay_run (now : Z) (uuid : string) (x : DelayNode) (msgs : list RuleMsg) : DelayNode :=
  foldl (λ x msg, (DelayNode_OnMsg now uuid x msg).2) x msgs.

(** The queue is bounded, and the message of the period is in it. *)
Definition delay_ok (x : DelayNode) : Prop :=
  (Z.of_nat (size (dl_PendingMsgs x)) ≤ dl_MaxPendingMsgs (dl_Config x))%Z ∧
  (dl_LastPendingMsgId x ≠ "" → is_Some (dl_PendingMsgs x !! dl_LastPendingMsgId x)) ∧
  (dl_Overwrite (dl_Config x) = false → dl_LastPendingMsgId x = "").
(** In overwrite mode it is the only one in it. *)
Definition delay_single (x : DelayNode) : Prop :=
  dl_PendingMsgs x !! "" = None ∧
  (dl_Overwrite (dl_Config x) = true → ∀ id, is_Some (dl_PendingMsgs x !! id) → id = dl_LastPendingMsgId x).

Lemma size_insert_le {A} (m : gmap string A) k v : size (<[k := v]> m) ≤ S (size m).
Proof. rewrite map_size_insert. case_match; simpl; lia. Qed.

Lemma delay_Init_ok `{Decode DelayNodeConfiguration} ruleConfig configuration y x :
  DelayNode_Init ruleConfig configuration y = Ok x → delay_ok x ∧ delay_single x.
Proof.
  unfold DelayNode_Init. destruct (Map2Struct _ _) as [[e|] conf]; [done|]. intros [= <-].
  unfold delay_ok, delay_single. simpl. rewrite map_size_empty. case_bool_decide; simpl; split_and!; try done; try lia;
    intros _ id [? Hid]; by rewrite lookup_empty in Hid.
Qed.

Lemma delay_step_ok now uuid x msg : delay_ok x → delay_ok (DelayNode_OnMsg now uuid x msg).2.
Proof.
  intros (Hsize & Hlast & Hmode). unfold DelayNode_OnMsg. case_bool_decide; [|case_bool_decide as Hl].
  - unfold delay_ack. destruct (dl_PendingMsgs x !! m_Id msg) as [p|] eqn:Ep; [|done]. unfold delay_ok; simpl.
    rewrite map_size_delete, Ep. split_and!; [simpl; lia|..]; destruct (dl_Overwrite _); try done. by rewrite Hmode.
  - unfold delay_ok, delay_replace; simpl. destruct (Hlast Hl) as [p Hp]. rewrite map_size_insert_Some by eauto.
    rewrite lookup_insert_eq. by split_and!.
  - unfold delay_admit. case_bool_decide as Hmax; [|done].
    destruct (if bool_decide _ then _ else _) as [period|err]; [|done]. unfold delay_ok; simpl.
    pose proof (size_insert_le (dl_PendingMsgs x) (m_Id msg) msg).
    split_and!; [lia|..]; destruct (dl_Overwrite (dl_Config x)); rewrite ?lookup_insert_eq, ?Hl; done.
Qed.

Lemma delay_step_single now uuid x msg :
  m_Id msg ≠ "" → delay_ok x → delay_single x → delay_single (DelayNode_OnMsg now uuid x msg).2.
Proof.
  intros Hid (_ & Hlast & _) (Hempty & Hone). unfold DelayNode_OnMsg. case_bool_decide; [|case_bool_decide as Hl].
  - unfold delay_ack. destruct (dl_PendingMsgs x !! m_Id msg) as [p|] eqn:Ep; [|done]. unfold delay_single; simpl.
    rewrite lookup_delete_ne by done. split; [done|]. intros Ho id [? [Hne Hs]%lookup_delete_Some].
    assert (m_Id msg = dl_LastPendingMsgId x) by (apply Hone; eauto).
    assert (id = dl_LastPendingMsgId x) by (apply Hone; eauto). congruence.
  - unfold delay_single, delay_replace; simpl. rewrite lookup_insert_ne by done. split; [done|].
    intros Ho id. destruct (decide (id = dl_LastPendingMsgId x)); [done|]. rewrite lookup_insert_ne by done. by apply Hone.
  - unfold delay_admit. case_bool_decide as Hmax; [|done].
    destruct (if bool_decide _ then _ else _) as [period|err]; [|done]. unfold delay_single; simpl.
    rewrite lookup_insert_ne by done. split; [done|]. intros Ho id. rewrite Ho.
    destruct (decide (id = m_Id msg)); [done|]. rewrite lookup_insert_ne by done.
    intros Hs. specialize (Hone Ho id Hs). destruct Hs as [? Hs]. congruence.
Qed.

Lemma delay_run_ok now uuid x msgs : delay_ok x → delay_ok (delay_run now uuid x msgs).
Proof. revert x. induction msgs as [|msg msgs IH]; intros x Hx; [done|]. apply IH. by apply delay_step_ok. Qed.

Lemma delay_run_single now uuid x msgs :
  Forall (λ m : RuleMsg, m_Id m ≠ "") msgs → delay_ok x → delay_single x → delay_single (delay_run now uuid x msgs).
Proof.
  intros Hids. revert x. induction Hids as [|msg msgs Hid _ IH]; intros x Hx Hs; [done|].
  apply IH; [by apply delay_step_ok|by apply delay_step_single].
Qed.

(** C26. Handled one at a time, whatever messages arrive (timer messages and messages without
    an id included, forged or not), the pending messages never exceed [MaxPendingMsgs]; and in
    overwrite mode there is at most one when every message has an id, as the messages
    [NewMsg] and [Copy] make do. *)
Theorem delay_pending_bounded `{Decode DelayNodeConfiguration} ruleConfig configuration x now uuid msgs :
  DelayNode_Init ruleConfig configuration DelayNode_New = Ok x →
  let x' := delay_run now uuid x msgs in
  (Z.of_nat (size (dl_PendingMsgs x')) ≤ dl_MaxPendingMsgs (dl_Config x'))%Z ∧
  (dl_Overwrite (dl_Config x') = true → Forall (λ m : RuleMsg, m_Id m ≠ "") msgs → size (dl_PendingMsgs x') ≤ 1).
Proof.
  intros Hi x'. apply delay_Init_ok in Hi as [Hx Hs]. split; [apply (delay_run_ok now uuid x msgs Hx)|].
  intros Ho Hids. destruct (delay_run_single now uuid x msgs Hids Hx Hs) as [_ Hone]. fold x' in Hone.
  transitivity (size ({[dl_LastPendingMsgId x']} : gset string)); [|by rewrite size_singleton].
  rewrite <- size_dom. apply subseteq_size. intros id Hid%elem_of_dom. apply elem_of_singleton. auto.
Qed.

Lemma delay_step_keeps now uuid x id p msg :
  dl_Overwrite (dl_Config x) = false → dl_LastPendingMsgId x = "" → dl_PendingMsgs x !! id = Some p → m_Id msg ≠ id →
  let x' := (DelayNode_OnMsg now uuid x msg).2 in
  dl_Overwrite (dl_Config x') = false ∧ dl_LastPendingMsgId x' = "" ∧ dl_PendingMsgs x' !! id = Some p.
Proof.
  intros Ho Hl Hp Hid. unfold DelayNode_OnMsg. case_bool_decide.
  - unfold delay_ack. case_match; simpl; rewrite ?Ho, ?lookup_delete_ne by done; done.
  - rewrite bool_decide_false by (by intros []). destruct (delay_admit x msg); simpl; [|done].
    by rewrite Ho, lookup_insert_ne.
Qed.

Lemma delay_keeps now uuid x id p msgs :
  dl_Overwrite (dl_Config x) = false → dl_LastPendingMsgId x = "" → dl_PendingMsgs x !! id = Some p →
  Forall (λ m : RuleMsg, m_Id m ≠ id) msgs →
  dl_PendingMsgs (delay_run now uuid x msgs) !! id = Some p.
Proof.
  intros Ho Hl Hp Hids. revert x Ho Hl Hp. induction Hids as [|msg msgs Hid _ IH]; intros x Ho Hl Hp; [done|].
  destruct (delay_step_keeps now uuid x id p msg Ho Hl Hp Hid) as (? & ? & ?). by apply IH.
Qed.

(** A delayed message is not lost: when the node accepted it (outside
    overwrite mode), then whatever other messages come and go before its timer, the
    timer message takes exactly that message out and tells it under [Success]. *)
Theorem delay_delivers now uuid now' uuid' x msg ack ms x1 others :
  dl_Overwrite (dl_Config x) = false → dl_LastPendingMsgId x = "" →
  m_Id msg ≠ "" → m_Type msg ≠ DelayNodeMsgType →
  DelayNode_OnMsg now uuid x msg = ([DSelf ack ms], x1) →
  Forall (λ m : RuleMsg, m_Id m ≠ m_Id msg) others →
  let x2 := delay_run now' uuid' x1 others in
  m_Id ack = m_Id msg ∧ m_Type ack = DelayNodeMsgType ∧
  (DelayNode_OnMsg now' uuid' x2 ack).1 = [DTell (TellSuccess msg)] ∧
  dl_PendingMsgs (DelayNode_OnMsg now' uuid' x2 ack).2 = delete (m_Id msg) (dl_PendingMsgs x2).
Proof.
  intros Ho Hl Hid Ht Hon Hothers x2. unfold DelayNode_OnMsg in Hon.
  rewrite bool_decide_false in Hon by done. rewrite bool_decide_false in Hon by (by intros []).
  destruct (delay_admit x msg) as [period|err]; [|done]. unfold delay_store in Hon. simplify_eq.
  assert (m_Id (set_Type DelayNodeMsgType (RuleMsg_Copy now uuid msg)) = m_Id msg) as Hack.
  { unfold RuleMsg_Copy, newMsg, set_Type; simpl. by rewrite bool_decide_false. }
  assert (dl_PendingMsgs x2 !! m_Id msg = Some msg) as Hp.
  { apply delay_keeps; simpl; rewrite ?Ho, ?lookup_insert_eq; try done. }
  split_and!; [done|done|..]; unfold DelayNode_OnMsg; rewrite bool_decide_true by done;
    unfold delay_ack; by rewrite Hack, Hp.
Qed.

Lemma last_cons {A} (x d : A) l : List.last (x :: l) d = List.last l x.
Proof.
  revert x d. induction l as [|y l IH]; intros x d; [done|].
  change (List.last (y :: l) d = List.last (y :: l) x). by rewrite !IH.
Qed.

(** In overwrite mode the timer delivers the latest message of the period,
    and every message it replaced is answered by no call at all. *)
Theorem delay_overwrite_silent now uuid now' uuid' x msg ack ms x1 others :
  dl_Overwrite (dl_Config x) = true → dl_LastPendingMsgId x = "" →
  m_Id msg ≠ "" → m_Type msg ≠ DelayNodeMsgType →
  DelayNode_OnMsg now uuid x msg = ([DSelf ack ms], x1) →
  Forall (λ m : RuleMsg, m_Type m ≠ DelayNodeMsgType) others →
  let x2 := delay_run now' uuid' x1 others in
  (∀ m, m ∈ others → (DelayNode_OnMsg now' uuid' x2 m).1 = []) ∧
  (DelayNode_OnMsg now' uuid' x2 ack).1 = [DTell (TellSuccess (List.last others msg))].
Proof.
  intros Ho Hl Hid Ht Hon Hothers x2. unfold DelayNode_OnMsg in Hon.
  rewrite bool_decide_false in Hon by done. rewrite bool_decide_false in Hon by (by intros []).
  destruct (delay_admit x msg) as [period|err]; [|done]. unfold delay_store in Hon.
  rewrite Ho in Hon. simplify_eq.
  assert (m_Id (set_Type DelayNodeMsgType (RuleMsg_Copy now uuid msg)) = m_Id msg) as Hack.
  { unfold RuleMsg_Copy, newMsg, set_Type; simpl. by rewrite bool_decide_false. }
  assert (∀ y m0, dl_LastPendingMsgId y = m_Id msg → dl_PendingMsgs y !! m_Id msg = Some m0 →
    dl_LastPendingMsgId (delay_run now' uuid' y others) = m_Id msg ∧
    dl_PendingMsgs (delay_run now' uuid' y others) !! m_Id msg = Some (List.last others m0)) as Hrun.
  { clear x2. induction Hothers as [|m others Hm _ IH]; intros y m0 Hy Hp; [done|].
    rewrite last_cons.
    apply IH; unfold DelayNode_OnMsg; rewrite bool_decide_false by done;
      rewrite bool_decide_true by congruence; simpl; [done|]. by rewrite Hy, lookup_insert_eq. }
  destruct (Hrun (mkDelay (dl_Config x) (<[m_Id msg := msg]> (dl_PendingMsgs x)) (m_Id msg)) msg) as [Hlast Hp];
    simpl; rewrite ?lookup_insert_eq; [done..|]. fold x2 in Hlast, Hp. split.
  - intros m Hm. rewrite Forall_forall in Hothers. unfold DelayNode_OnMsg.
    rewrite bool_decide_false by auto. by rewrite bool_decide_true by congruence.
  - unfold DelayNode_OnMsg. rewrite bool_decide_true by done. unfold delay_ack. by rewrite Hack, Hp.
Qed.

End Actions.

Module ActionsExample.
Import NodeSamples.

Definition iterator : IteratorNode (E := string) := mkIterator (mkIteratorConf "" "x") (Some "src").

Lemma IteratorNode_OnMsg_witness :
  (IteratorNode_OnMsg iterator (sample_msg "1" "list")).1 =
    [TellNext (sample_msg "1" "a") [True_]; TellFailure (sample_msg "1" "list") (Some "boom")] ∧
  ∃ verdicts last, (IteratorNode_OnMsg iterator (sample_msg "1" "list")).1 =
     zip_with (item_call (sample_msg "1" "list")) verdicts
       (array_items [VString "a"; VString "bad"; VString "c"]) ++ [last].
Proof.
  split; [reflexivity|].
  assert (@pure_script string sampleEngine "ItemFilter") as Hp by (intros args e; reflexivity).
  pose proof (IteratorNode_OnMsg_spec iterator (sample_msg "1" "list") Hp) as H.
  change (iterator_items iterator (sample_msg "1" "list"))
    with (Some (array_items [VString "a"; VString "bad"; VString "c"])) in H.
  destruct H as (verdicts & last & Hc & _). exists verdicts, last. exact Hc.
Defined.

Definition conf (max : Z) (overwrite : bool) : DelayNodeConfiguration := mkDelayConf 60 max "" overwrite.
Definition delay (max : Z) (overwrite : bool) : DelayNode := mkDelay (conf max overwrite) ∅ "".
Definition ack_of (msg : RuleMsg) : RuleMsg := set_Type DelayNodeMsgType (RuleMsg_Copy 5 "u" msg).

Lemma delay_pending_bounded_witness :
  (Z.of_nat (size (dl_PendingMsgs (delay_run 5 "u" (delay 1 false) [sample_msg "1" "x"; sample_msg "" "y"]))) ≤ 1)%Z ∧
  size (dl_PendingMsgs (delay_run 5 "u" (delay 5 true) [sample_msg "1" "x"; sample_msg "2" "y"])) ≤ 1.
Proof.
  split.
  - apply (@delay_pending_bounded (decodes (conf 1 false)) zeroConfig ∅ (delay 1 false) 5 "u" [sample_msg "1" "x"; sample_msg "" "y"]).
    reflexivity.
  - apply (@delay_pending_bounded (decodes (conf 5 true)) zeroConfig ∅ (delay 5 true) 5 "u" [sample_msg "1" "x"; sample_msg "2" "y"]);
      [reflexivity|reflexivity|].
    repeat constructor; discriminate.
Defined.

(** Overwrite mode does not replace a message without an id: the next one is queued beside it. *)
Lemma delay_overwrite_no_id :
  size (dl_PendingMsgs (delay_run 5 "u" (delay 5 true) [sample_msg "" "x"; sample_msg "2" "y"])) = 2.
Proof. reflexivity. Qed.

Lemma delay_delivers_witness :
  (DelayNode_OnMsg 5 "u" (delay_run 5 "u" (DelayNode_OnMsg 5 "u" (delay 2 false) (sample_msg "1" "x")).2
     [sample_msg "2" "y"; ack_of (sample_msg "2" "y")]) (ack_of (sample_msg "1" "x"))).1
  = [DTell (TellSuccess (sample_msg "1" "x"))].
Proof.
  apply (delay_delivers 5 "u" 5 "u" (delay 2 false) (sample_msg "1" "x") (ack_of (sample_msg "1" "x")) 60000
    (DelayNode_OnMsg 5 "u" (delay 2 false) (sample_msg "1" "x")).2 [sample_msg "2" "y"; ack_of (sample_msg "2" "y")]);
    [reflexivity|reflexivity|discriminate|discriminate|reflexivity|].
  repeat constructor; discriminate.
Defined.

Lemma delay_overwrite_silent_witness :
  (DelayNode_OnMsg 5 "u" (delay_run 5 "u" (DelayNode_OnMsg 5 "u" (delay 2 true) (sample_msg "1" "x")).2
     [sample_msg "2" "y"]) (ack_of (sample_msg "1" "x"))).1
  = [DTell (TellSuccess (sample_msg "2" "y"))].
Proof.
  apply (delay_overwrite_silent 5 "u" 5 "u" (delay 2 true) (sample_msg "1" "x") (ack_of (sample_msg "1" "x")) 60000
    (DelayNode_OnMsg 5 "u" (delay 2 true) (sample_msg "1" "x")).2 [sample_msg "2" "y"]);
    [reflexivity|reflexivity|discriminate|discriminate|reflexivity|].
  repeat constructor; discriminate.
Defined.

(** The length is tested before the lock is taken again to store: two
    messages handled at the same time both pass the test, and a node with one
    allowed pending message holds two. *)
Theorem delay_limit_race :
  let x := delay 1 false in
  let m1 := sample_msg "1" "x" in
  let m2 := sample_msg "2" "y" in
  delay_admit x m1 = Ok 60%Z ∧ delay_admit x m2 = Ok 60%Z ∧
  size (dl_PendingMsgs (delay_store 5 "u" (delay_store 5 "u" x m1 60).2 m2 60).2) = 2.
Proof. repeat split; vm_compute; reflexivity. Qed.

(** Pending messages are kept by message id, which the copies sent along
    two branches share: when both reach the node, the first copy is lost, and of the
    two timers one delivers the second copy and the other ends in [Failure]. *)
Theorem delay_same_id_lost :
  let m1 := sample_msg "1" "first branch" in
  let m2 := sample_msg "1" "second branch" in
  let x := delay_run 5 "u" (delay 10 false) [m1; m2] in
  (DelayNode_OnMsg 5 "u" x (ack_of m1)).1 = [DTell (TellSuccess m2)] ∧
  (DelayNode_OnMsg 5 "u" (DelayNode_OnMsg 5 "u" x (ack_of m1)).2 (ack_of m2)).1 =
    [DTell (TellFailure (ack_of m2) (Some "msg not found"))].
Proof. split; vm_compute; reflexivity. Qed.

End ActionsExample.
