(* ===== verification/Transforms.v ===== *)
(** * The transform components ([src/components/transform]) *)

From S2P Require Import Prelude GoStrings Value Str Msg Config Dsl World RuleCtx CtxProps JsEngine NodeApi.

Section Transforms.
Context `{J : Json} {E : Type} `{JE : JsEngine E} `{EX : ExprLang}.

(** ** [JsTransformNode] *)

Record JsTransformNodeConfiguration : Type := mkJsTransformConf { jt_JsScript : string }.
Record JsTransformNode : Type := mkJsTransform { jt_Config : JsTransformNodeConfiguration; jt_jsEngine : option E }.

Definition JsTransformReturnFormatErr : string := "return the value is not a map".

Definition JsTransformNode_New : JsTransformNode :=
  mkJsTransform (mkJsTransformConf "return {'msg':msg,'metadata':metadata,'msgType':msgType};") None.

Definition JsTransformNode_Init `{Decode JsTransformNodeConfiguration} (ruleConfig : Config)
    (configuration : Configuration) (x : JsTransformNode) : result JsTransformNode :=
  match Map2Struct configuration (jt_Config x) with
  | (Some err, _) => Err err
  | (None, conf) =>
      let? engine := js_New ruleConfig
        ("function Transform(msg, metadata, msgType) { " +:+ jt_JsScript conf +:+ " }") in
      Ok (mkJsTransform conf (Some engine))
  end.

(** The payload of this node: a JSON text that does not parse becomes an empty object. *)
Definition transform_payload (msg : RuleMsg) : value :=
  if bool_decide (m_DataType msg = JSON) then
    match json_Unmarshal (m_Data msg) with Ok v => v | Err _ => VMap [] end
  else VString (m_Data msg).

(** The message the script's result describes. *)
Definition apply_type (formatData : list (string * value)) (msg : RuleMsg) : RuleMsg :=
  match assoc MsgTypeKey formatData with Some v => set_Type (ToString v) msg | None => msg end.
Definition apply_metadata (formatData : list (string * value)) (msg : RuleMsg) : RuleMsg :=
  match assoc MetadataKey formatData with
  | Some v => set_Metadata (BuildMetadata (list_to_map (ToStringMapString v))) msg
  | None => msg
  end.

Definition JsTransformNode_OnMsg (x : JsTransformNode) (msg : RuleMsg) : list call * JsTransformNode :=
  match jt_jsEngine x with
  | None => (nil_engine, x)
  | Some engine =>
      let '(out, msg, engine) := call_script "Transform" (transform_payload msg) msg engine in
      (match out with
       | Err err => [TellFailure msg (Some err)]
       | Ok (VMap formatData) =>
           let msg := apply_metadata formatData (apply_type formatData msg) in
           match assoc MsgKey formatData with
           | None => [TellNext msg [Success]]
           | Some formatMsgData =>
               match ToStringMaybeErr formatMsgData with
               | Ok newValue => [TellNext (set_Data newValue msg) [Success]]
               | Err err => [TellFailure msg (Some err)]
               end
           end
       | Ok _ => [TellFailure msg (Some JsTransformReturnFormatErr)]
       end, mkJsTransform (jt_Config x) (Some engine))
  end.

(** ** [ExprTransformNode] *)

Record ExprTransformNodeConfiguration : Type := mkExprTransformConf {
  xt_Expr : string;
  xt_Mapping : gmap string string
}.
Record ExprTransformNode : Type := mkExprTransform {
  xt_Config : ExprTransformNodeConfiguration;
  xt_program : option ExprProgram;
  xt_programMapping : gmap string ExprProgram
}.

Definition ExprTransformNode_New : ExprTransformNode := mkExprTransform (mkExprTransformConf "" ∅) None ∅.

Fixpoint compile_mapping (mapping : list (string * string)) (programs : gmap string ExprProgram)
    : result (gmap string ExprProgram) :=
  match mapping with
  | [] => Ok programs
  | (k, v) :: rest => let? program := expr_Compile false v in compile_mapping rest (<[k := program]> programs)
  end.

Definition ExprTransformNode_Init `{MapRange} `{Decode ExprTransformNodeConfiguration} (ruleConfig : Config)
    (configuration : Configuration) (x : ExprTransformNode) : result ExprTransformNode :=
  match Map2Struct configuration (xt_Config x) with
  | (Some err, _) => Err err
  | (None, conf) =>
      let exprV := TrimSpace (xt_Expr conf) in
      if bool_decide (exprV ≠ "") then
        let? program := expr_Compile false exprV in
        Ok (mkExprTransform conf (Some program) (xt_programMapping x))
      else
        let? programs := compile_mapping (range (xt_Mapping conf)) ∅ in
        Ok (mkExprTransform conf (xt_program x) programs)
  end.

(** The loop over the programs; the first error ends it. *)
Fixpoint run_mapping (programs : list (string * ExprProgram)) (env : list (string * value))
    (mapResult : list (string * value)) : result (list (string * value)) :=
  match programs with
  | [] => Ok mapResult
  | (fieldName, program) :: rest =>
      let? out := expr_Run program env in run_mapping rest env (assoc_set fieldName out mapResult)
  end.

Definition ExprTransformNode_OnMsg `{MapRange} (x : ExprTransformNode) (msg : RuleMsg) : list call :=
  let env := expr_env (payload msg) msg in
  let finish result msg :=
    match ToStringMaybeErr result with
    | Ok newValue => [TellSuccess (set_Data newValue msg)]
    | Err err => [TellFailure msg (Some err)]
    end in
  match xt_program x with
  | Some program =>
      match expr_Run program env with
      | Err err => [TellFailure msg (Some err)]
      | Ok out => finish out msg
      end
  | None =>
      match run_mapping (range (xt_programMapping x)) env [] with
      | Err err => [TellFailure msg (Some err)]
      | Ok mapResult => finish (VMap mapResult) (set_DataType JSON msg)
      end
  end.

(** ** Properties of the JavaScript transform *)

(** The JavaScript transform answers every message once.  When the script
    returns an object, each of type, metadata and data is replaced exactly when the
    object has the entry, and kept otherwise (the metadata as the script left it);
    any other outcome is one [Failure]. *)
Theorem JsTransformNode_OnMsg_spec x msg engine out msg' engine' :
  jt_jsEngine x = Some engine →
  call_script "Transform" (transform_payload msg) msg engine = (out, msg', engine') →
  same_but_metadata msg msg' ∧
  match out with
  | Ok (VMap r) =>
      match (from_option ToStringMaybeErr (Ok (m_Data msg)) (assoc MsgKey r)) with
      | Ok data => ∃ m, (JsTransformNode_OnMsg x msg).1 = [TellNext m [Success]] ∧
          m_Data m = data ∧ m_Id m = m_Id msg ∧ m_Ts m = m_Ts msg ∧ m_DataType m = m_DataType msg ∧
          m_Type m = from_option ToString (m_Type msg) (assoc MsgTypeKey r) ∧
          m_Metadata m = from_option (λ v, list_to_map (ToStringMapString v)) (m_Metadata msg') (assoc MetadataKey r)
      | Err err => ∃ m, (JsTransformNode_OnMsg x msg).1 = [TellFailure m (Some err)] ∧ m_Data m = m_Data msg
      end
  | Ok _ => (JsTransformNode_OnMsg x msg).1 = [TellFailure msg' (Some JsTransformReturnFormatErr)]
  | Err err => (JsTransformNode_OnMsg x msg).1 = [TellFailure msg' (Some err)]
  end.
Proof.
  intros He Hcall. pose proof (call_script_same "Transform" (transform_payload msg) msg engine) as Hsame.
  rewrite Hcall in Hsame; simpl in Hsame. split; [done|].
  unfold JsTransformNode_OnMsg. rewrite He, Hcall. destruct Hsame as [md ->].
  destruct out as [[]|err]; simpl; try done.
  unfold apply_metadata, apply_type.
  destruct (assoc MsgKey m) as [d|]; simpl; [destruct (ToStringMaybeErr d)|]; simpl;
    (eexists; split; [done|]); destruct (assoc MsgTypeKey m), (assoc MetadataKey m); simpl;
    rewrite ?BuildMetadata_id; done.
Qed.

(** ** The expression transform and the order of its mapping *)

(** [out] is the result of the programs, field by field. *)
Definition evaluates (env : list (string * value)) (p : string * ExprProgram) (o : string * value) : Prop :=
  o.1 = p.1 ∧ expr_Run p.2 env = Ok o.2.

Lemma assoc_set_fresh {A} k (v : A) m : k ∉ m.*1 → assoc_set k v m = m ++ [(k, v)].
Proof.
  induction m as [|[k' v'] m IH]; simpl; [done|]. intros [Hne Hm]%not_elem_of_cons.
  rewrite bool_decide_false by done. by rewrite IH.
Qed.

Lemma run_mapping_spec programs env acc :
  NoDup (acc.*1 ++ programs.*1) →
  match run_mapping programs env acc with
  | Ok r => ∃ outs, r = acc ++ outs ∧ Forall2 (evaluates env) programs outs
  | Err err => Exists (λ p, expr_Run p.2 env = Err err) programs
  end.
Proof.
  revert acc. induction programs as [|[k p] programs IH]; intros acc Hnd; simpl.
  { exists []. by rewrite app_nil_r. }
  destruct (expr_Run p env) as [out|err] eqn:Ep; simpl; [|by constructor].
  simpl in Hnd. assert (k ∉ acc.*1) as Hk by (apply NoDup_app in Hnd; set_solver).
  rewrite assoc_set_fresh by done. specialize (IH (acc ++ [(k, out)])).
  rewrite fmap_app, <- (assoc_L (++)) in IH. specialize (IH Hnd).
  destruct (run_mapping programs env (acc ++ [(k, out)])) as [r|err].
  - destruct IH as (outs & -> & Hf). exists ((k, out) :: outs). split; [by rewrite <- (assoc_L (++))|].
    by constructor.
  - by apply Exists_cons_tl.
Qed.

Lemma evaluates_unique env p o1 o2 : evaluates env p o1 → evaluates env p o2 → o1 = o2.
Proof. destruct o1, o2. unfold evaluates. simpl. intros [-> H1] [-> H2]. congruence. Qed.

Lemma evaluates_Forall2_unique env programs outs1 outs2 :
  Forall2 (evaluates env) programs outs1 → Forall2 (evaluates env) programs outs2 → outs1 = outs2.
Proof.
  intros H. revert outs2. induction H as [|p o ps os Hp _ IH]; intros outs2 H2; inv H2; [done|].
  f_equal; [by eapply evaluates_unique|auto].
Qed.

(** Two walks of one map. *)
Lemma run_mapping_perm ps1 ps2 env :
  NoDup ps1.*1 → ps1 ≡ₚ ps2 →
  match run_mapping ps1 env [], run_mapping ps2 env [] with
  | Ok r1, Ok r2 => r1 ≡ₚ r2
  | Err _, Err _ => True
  | _, _ => False
  end.
Proof.
  intros Hnd Hp. assert (NoDup ps2.*1) as Hnd2 by (by rewrite <- Hp).
  pose proof (run_mapping_spec ps1 env [] Hnd) as H1. pose proof (run_mapping_spec ps2 env [] Hnd2) as H2.
  assert (∀ ps qs outs err, ps ≡ₚ qs → Forall2 (evaluates env) ps outs → Exists (λ p, expr_Run p.2 env = Err err) qs → False)
    as Hno.
  { intros ps qs outs err Hpq Hf Hex. rewrite <- Hpq in Hex.
    apply Exists_exists in Hex as (p & Hin & Herr). apply list_elem_of_lookup in Hin as [i Hi].
    destruct (Forall2_lookup_l _ _ _ _ _ Hf Hi) as (o & _ & _ & Hok). congruence. }
  destruct (run_mapping ps1 env []) as [r1|e1], (run_mapping ps2 env []) as [r2|e2]; [..|done].
  - destruct H1 as (o1 & -> & Hf1), H2 as (o2 & -> & Hf2). simpl.
    destruct (Permutation_Forall2 Hp Hf1) as (o2' & Ho & Hf2').
    by rewrite (evaluates_Forall2_unique _ _ _ _ Hf2 Hf2').
  - destruct H1 as (o1 & -> & Hf1). eauto.
  - destruct H2 as (o2 & -> & Hf2). symmetry in Hp. eauto.
Qed.

(** Documented behaviour of [encoding/json]: the keys of a map are sorted, so the
    text does not depend on the order of its entries. *)
Class JsonSortsKeys : Prop :=
  marshal_perm : ∀ m m', NoDup m.*1 → m ≡ₚ m' → json_Marshal (VMap m) = json_Marshal (VMap m').

(** What the mapping transform sends on does not depend on the order in
    which Go walks the mapping: under two orders the node succeeds with the same
    message or fails with the same message (the error told may be that of another
    field). *)
Theorem ExprTransformNode_order_independent (order1 order2 : MapRange) x msg :
  JsonSortsKeys →
  (∃ m, @ExprTransformNode_OnMsg order1 x msg = [TellSuccess m] ∧ @ExprTransformNode_OnMsg order2 x msg = [TellSuccess m]) ∨
  (∃ m e1 e2, @ExprTransformNode_OnMsg order1 x msg = [TellFailure m (Some e1)] ∧
     @ExprTransformNode_OnMsg order2 x msg = [TellFailure m (Some e2)]).
Proof.
  intros Hsort. unfold ExprTransformNode_OnMsg.
  destruct (xt_program x) as [p|].
  { destruct (expr_Run p _) as [out|err]; [destruct (ToStringMaybeErr out)|]; eauto 10. }
  set (env := expr_env (payload msg) msg). set (P := xt_programMapping x).
  assert (range (MapRange := order1) P ≡ₚ range (MapRange := order2) P) as Hp by (by rewrite !range_perm).
  assert (NoDup (range (MapRange := order1) P).*1) as Hnd by apply range_NoDup.
  pose proof (run_mapping_perm _ _ env Hnd Hp) as Hrun.
  pose proof (run_mapping_spec _ env [] Hnd) as Hspec.
  destruct (run_mapping (range (MapRange := order1) P) env []) as [r1|e1],
    (run_mapping (range (MapRange := order2) P) env []) as [r2|e2]; [|done|done|eauto 10].
  assert (NoDup r1.*1) as Hr.
  { destruct Hspec as (outs & -> & Hf). simpl.
    assert (outs.*1 = (range (MapRange := order1) P).*1) as ->; [|done].
    clear -Hf. induction Hf as [|? ? ? ? [H _] _ IH]; [done|]. rewrite !fmap_cons. by f_equal. }
  simpl. rewrite (marshal_perm r1 r2 Hr Hrun). destruct (json_Marshal (VMap r2)); eauto 10.
Qed.

(** A mapping transform is created exactly when its expression, or without one
    every expression of its mapping, compiles; each field then has the program of its
    own expression. *)
Theorem ExprTransformNode_Init_spec `{MapRange} `{Decode ExprTransformNodeConfiguration} ruleConfig configuration conf :
  Map2Struct configuration (xt_Config ExprTransformNode_New) = (None, conf) →
  TrimSpace (xt_Expr conf) = "" →
  match ExprTransformNode_Init ruleConfig configuration ExprTransformNode_New with
  | Ok x => xt_program x = None ∧ ∀ k, xt_programMapping x !! k =
      src ← xt_Mapping conf !! k; match expr_Compile false src with Ok p => Some p | Err _ => None end
  | Err err => ∃ k src, xt_Mapping conf !! k = Some src ∧ expr_Compile false src = Err err
  end.
Proof.
  intros Hd Hexpr. unfold ExprTransformNode_Init. rewrite Hd, Hexpr, bool_decide_false by (by intros []).
  assert (∀ l acc, NoDup l.*1 → match compile_mapping l acc with
    | Ok ps => ∀ k, ps !! k = match assoc k l with
        | Some src => match expr_Compile false src with Ok p => Some p | Err _ => None end
        | None => acc !! k end
    | Err err => ∃ k src, (k, src) ∈ l ∧ expr_Compile false src = Err err end) as Hc.
  { clear. induction l as [|[k0 s0] l IH]; intros acc Hnd; simpl; [done|].
    apply NoDup_cons in Hnd as [Hk Hnd]. destruct (expr_Compile false s0) as [p|err] eqn:E0; simpl.
    - specialize (IH (<[k0 := p]> acc) Hnd). destruct (compile_mapping l (<[k0 := p]> acc)) as [ps|err].
      + intros k. rewrite IH. case_bool_decide; subst.
        * destruct (assoc k l) as [src|] eqn:Ea; [|by rewrite lookup_insert_eq, E0].
          apply assoc_elem in Ea. exfalso. apply Hk, list_elem_of_fmap. by exists (k, src).
        * by rewrite lookup_insert_ne.
      + destruct IH as (k & src & Hin & Herr). exists k, src. split; [set_solver|done].
    - exists k0, s0. split; [set_solver|done]. }
  specialize (Hc (range (xt_Mapping conf)) ∅ (range_NoDup _)).
  destruct (compile_mapping _ ∅) as [ps|err]; simpl.
  - split; [done|]. intros k. rewrite Hc, range_assoc, lookup_empty. by destruct (xt_Mapping conf !! k).
  - destruct Hc as (k & src & Hin%range_elem & Herr). eauto.
Qed.

End Transforms.

Module TransformsExample.
Import NodeSamples.

(** An expression is a field name to read or the word "fail". *)
#[local] Instance sampleExpr : ExprLang := {|
  ExprProgram := string;
  expr_Compile := λ _ src, if Contains "(" src then Err "unexpected token" else Ok src;
  expr_Run := λ p env, if bool_decide (p = "fail") then Err "run error" else Ok (Get (VMap env) p)
|}.
#[local] Instance forwards : MapRange := {| range A m := map_to_list m; range_perm A m := reflexivity (map_to_list m) |}.
#[local] Instance backwards : MapRange := {| range A m := reverse (map_to_list m); range_perm A m := reverse_Permutation (map_to_list m) |}.

#[local] Instance sample_sorted : JsonSortsKeys.
Proof. by intros m m'. Defined.

Definition mapping : gmap string string := {["t" := "msg.temperature"; "ty" := "msgType"]}.
Definition node : ExprTransformNode := mkExprTransform (mkExprTransformConf "" mapping) None mapping.

Lemma ExprTransformNode_order_witness :
  (∃ m, @ExprTransformNode_OnMsg _ _ forwards node (sample_msg "1" "obj") = [TellSuccess m] ∧
        @ExprTransformNode_OnMsg _ _ backwards node (sample_msg "1" "obj") = [TellSuccess m]) ∨
  (∃ m e1 e2, @ExprTransformNode_OnMsg _ _ forwards node (sample_msg "1" "obj") = [TellFailure m (Some e1)] ∧
     @ExprTransformNode_OnMsg _ _ backwards node (sample_msg "1" "obj") = [TellFailure m (Some e2)]).
Proof. apply (ExprTransformNode_order_independent forwards backwards node (sample_msg "1" "obj")), sample_sorted. Defined.

Lemma ExprTransformNode_Init_witness :
  ∃ k src, (mapping !! k = Some src ∧ @expr_Compile sampleExpr false src = Ok src) ∧
  match @ExprTransformNode_Init _ forwards (decodes (mkExprTransformConf "" mapping)) zeroConfig ∅ ExprTransformNode_New with
  | Ok x => xt_programMapping x !! k = Some src
  | Err _ => False
  end.
Proof.
  pose proof (@ExprTransformNode_Init_spec _ forwards (decodes (mkExprTransformConf "" mapping)) zeroConfig ∅
    (mkExprTransformConf "" mapping) eq_refl eq_refl) as H.
  exists "t", "msg.temperature". split; [split; vm_compute; reflexivity|].
  assert (@ExprTransformNode_Init _ forwards (decodes (mkExprTransformConf "" mapping)) zeroConfig ∅ ExprTransformNode_New
    = Ok node) as E by (vm_compute; reflexivity).
  rewrite E in *. destruct H as [_ H]. rewrite H. reflexivity.
Defined.

Definition js_node : JsTransformNode (E := string) := mkJsTransform (mkJsTransformConf "x") (Some "src").

Lemma JsTransformNode_OnMsg_witness :
  (JsTransformNode_OnMsg js_node (sample_msg "1" "obj")).1 =
    [TellFailure (sample_msg "1" "obj") (Some JsTransformReturnFormatErr)].
Proof.
  apply (JsTransformNode_OnMsg_spec js_node (sample_msg "1" "obj") "src" (Ok VNil) (sample_msg "1" "obj") "src");
    [reflexivity|vm_compute; reflexivity].
Defined.

End TransformsExample.
