(* ===== verification/GroupProtocol.v ===== *)
(** * The completion protocol of the group components

    The group filter and the group action run the nodes of a group concurrently;
    every node ends in a callback, and the callbacks agree on one result through
    three shared variables: a counter of finished callbacks, a completion flag
    claimed by compare-and-swap, and a channel of capacity one.  This file states
    the protocol once, on abstract phases, with its safety and progress; the two
    components are shown to follow it ([Groups]). *)

From S2P Require Import Prelude.

(** ** Concurrent callbacks *)

Section Threads.
Context {S P : Type}.
Variable tstep : S → P → option (S * P). (* [None]: finished or blocked *)

Record par : Type := mkPar { shared : S; pcs : list P }.

Definition par_step (s : par) (i : nat) : option par :=
  pc ← pcs s !! i;
  '(sh, pc') ← tstep (shared s) pc;
  Some (mkPar sh (<[i := pc']> (pcs s))).

Fixpoint par_run (s : par) (schedule : list nat) : par :=
  match schedule with
  | [] => s
  | i :: rest => par_run (default s (par_step s i)) rest
  end.

Inductive par_reachable (init : par) : par → Prop :=
| par_refl : par_reachable init init
| par_next s i s' : par_reachable init s → par_step s i = Some s' → par_reachable init s'.

Lemma par_run_reachable init s schedule : par_reachable init s → par_reachable init (par_run s schedule).
Proof.
  revert s. induction schedule as [|i schedule IH]; intros s Hs; simpl; [done|]. apply IH.
  destruct (par_step s i) eqn:E; simpl; [by eapply par_next|done].
Qed.

Lemma par_step_inv s i s' :
  par_step s i = Some s' →
  ∃ pc sh pc', pcs s !! i = Some pc ∧ tstep (shared s) pc = Some (sh, pc') ∧ s' = mkPar sh (<[i := pc']> (pcs s)).
Proof.
  unfold par_step. destruct (pcs s !! i) as [pc|]; [simpl|done].
  destruct (tstep (shared s) pc) as [[sh pc']|] eqn:E; [simpl|done]. intros [= <-]. eauto 10.
Qed.

(** A callback run on its own, for at most [fuel] steps. *)
Fixpoint run_alone (fuel : nat) (s : S) (pc : P) : S * P :=
  match fuel with
  | 0 => (s, pc)
  | Datatypes.S fuel =>
      match tstep s pc with Some (s', pc') => run_alone fuel s' pc' | None => (s, pc) end
  end.

End Threads.
Arguments mkPar {S P}.
Arguments shared {S P}.
Arguments pcs {S P}.

(** ** Phases *)

Inductive phase : Type :=
| Fresh     (* not counted yet *)
| Active    (* counted, still looking for a decision *)
| Winner    (* claimed the completion, result not sent yet *)
| Counted   (* finished after being counted *)
| Skipped.  (* finished because the group was complete *)

#[global] Instance phase_EqDecision : EqDecision phase.
Proof. solve_decision. Defined.

(** The shared variables: the counter, the flag, and whether the channel holds a result. *)
Record view : Type := mkView { v_end : Z; v_completed : bool; v_sent : bool }.

(** What a callback may do, for a group of [n] nodes. *)
Inductive pstep (n : Z) : view → phase → view → phase → Prop :=
| p_fresh v : pstep n v Fresh v Fresh
| p_skip v : v_completed v = true → pstep n v Fresh v Skipped
| p_count v : pstep n v Fresh (mkView (v_end v + 1) (v_completed v) (v_sent v)) Active
| p_stay v : pstep n v Active v Active
| p_win v : v_completed v = false → pstep n v Active (mkView (v_end v) true (v_sent v)) Winner
| p_lose v : v_completed v = true → pstep n v Active v Counted
| p_leave v : (v_end v < n)%Z → pstep n v Active v Counted
| p_work v : pstep n v Winner v Winner
| p_send v : v_sent v = false → pstep n v Winner (mkView (v_end v) (v_completed v) true) Counted.

Definition cnt (ph : phase) (l : list phase) : nat := sum_list_with (λ q, if bool_decide (q = ph) then 1 else 0) l.

Lemma cnt_insert ph l i p q :
  l !! i = Some p →
  cnt ph (<[i := q]> l) + (if bool_decide (p = ph) then 1 else 0) = cnt ph l + (if bool_decide (q = ph) then 1 else 0).
Proof. apply sum_with_insert. Qed.

Lemma phase_cnt_pos ph l : 1 ≤ cnt ph l → ph ∈ l.
Proof.
  unfold cnt. induction l as [|x l IH]; simpl; [lia|]. case_bool_decide; [set_solver|]. intros. set_solver by lia.
Qed.

Lemma cnt_total l : cnt Fresh l + cnt Active l + cnt Winner l + cnt Counted l + cnt Skipped l = length l.
Proof.
  unfold cnt. induction l as [|x l IH]; simpl; [done|]. destruct x; simpl; lia.
Qed.

(** ** The invariant *)

Definition b2n (b : bool) : nat := if b then 1 else 0.

Definition protocol_inv (n : Z) (v : view) (l : list phase) : Prop :=
  cnt Winner l + b2n (v_sent v) = b2n (v_completed v) ∧
  v_end v = Z.of_nat (cnt Active l + cnt Winner l + cnt Counted l) ∧
  (v_completed v = false → cnt Skipped l = 0) ∧
  (v_completed v = false → (n ≤ v_end v)%Z → 1 ≤ cnt Active l).

Lemma protocol_inv_init n k : (1 ≤ n)%Z → protocol_inv n (mkView 0 false false) (replicate k Fresh).
Proof.
  intros Hn. unfold protocol_inv.
  assert (∀ ph, ph ≠ Fresh → cnt ph (replicate k Fresh) = 0) as Hz.
  { intros ph Hph. unfold cnt. induction k as [|k IH]; simpl; [done|]. by rewrite bool_decide_false. }
  rewrite !Hz by done. simpl. split_and!; [done|done|done|lia].
Qed.

Lemma protocol_inv_step n v l i p v' q :
  l !! i = Some p → pstep n v p v' q → protocol_inv n v l → protocol_inv n v' (<[i := q]> l).
Proof.
  intros Hi Hstep (Hw & He & Hs & Ha). unfold protocol_inv.
  pose proof (λ ph, cnt_insert ph l i p q Hi) as Hc.
  pose proof (Hc Active) as HA. pose proof (Hc Winner) as HW. pose proof (Hc Counted) as HC. pose proof (Hc Skipped) as HS.
  clear Hc. inv Hstep; simpl in *; destruct v' as [e c s] || destruct v as [e c s]; simpl in *; subst;
    try destruct c; try destruct s; simpl in *;
    split_and!; intros; try lia;
    try (specialize (Hs eq_refl)); try (specialize (Ha eq_refl)); try lia.
Qed.

(** Nobody is left: the result was sent. *)
Lemma protocol_sent n v l :
  protocol_inv n v l → (n ≤ Z.of_nat (length l))%Z → Forall (λ p, p = Counted ∨ p = Skipped) l → v_sent v = true.
Proof.
  intros (Hw & He & Hs & Ha) Hn Hdone.
  assert (∀ ph, ph ≠ Counted → ph ≠ Skipped → cnt ph l = 0) as Hz.
  { intros ph H1 H2. destruct (cnt ph l) eqn:E; [done|]. exfalso.
    assert (ph ∈ l) as Hin by (apply phase_cnt_pos; lia). rewrite Forall_forall in Hdone.
    destruct (Hdone ph Hin); done. }
  pose proof (cnt_total l) as Ht. rewrite !Hz in * by done.
  destruct (v_completed v); simpl in *; [by destruct (v_sent v)|].
  specialize (Hs eq_refl). specialize (Ha eq_refl). lia.
Qed.

(** The channel is empty when a winner sends: the send does not block. *)
Lemma protocol_winner n v l i : protocol_inv n v l → l !! i = Some Winner → v_sent v = false.
Proof.
  intros (Hw & _) Hi. pose proof (cnt_insert Winner l i Winner Counted Hi) as Hc.
  simpl in Hc. destruct (v_sent v), (v_completed v); simpl in *; try done; lia.
Qed.

(** ** Components that follow the protocol *)

Section Follows.
Context {S P : Type} (tstep : S → P → option (S * P)) (n : Z) (vw : S → view) (ph : P → phase).

(** The simulation: every step of a callback is a step of the protocol. *)
Definition follows : Prop :=
  ∀ s pc s' pc', tstep s pc = Some (s', pc') → pstep n (vw s) (ph pc) (vw s') (ph pc').

Lemma follows_inv init s :
  follows → protocol_inv n (vw (shared init)) (ph <$> pcs init) →
  par_reachable tstep init s →
  protocol_inv n (vw (shared s)) (ph <$> pcs s) ∧ length (pcs s) = length (pcs init).
Proof.
  intros Hf Hinit. induction 1 as [|s i s' _ [IH Hlen] Hstep]; [done|].
  apply par_step_inv in Hstep as (pc & sh & pc' & Hi & Ht & ->). simpl. split; [|by rewrite length_insert].
  rewrite list_fmap_insert. eapply protocol_inv_step; [|by apply Hf|done]. by rewrite list_lookup_fmap, Hi.
Qed.

End Follows.
