(* ===== verification/Groups.v ===== *)
(** * The group components

    [GroupFilterNode] ([src/components/filter/group_filter_node.go]) and
    [GroupActionNode] ([src/components/action/group_action_node.go]).  A callback is
    a small program; one step of it is one access to a shared variable. *)

From Stdlib Require Import Ascii.
From S2P Require Import Prelude GoStrings Value Str Msg Config Dsl World RuleCtx CtxProps NodeApi GroupProtocol.

(** What comes to the [select] at the end of both handlers: the surrounding context is done
    (cancelled or timed out), a result is received, or neither ever happens, because the
    members that would decide never call back.  Then the node's own time-out ends the wait,
    if it has one ([Timeout] greater than 0); without it the handler blocks for ever. *)
Inductive select_result : Type :=
| ContextDone (err : string)
| Received (r : bool)
| NoResult.
Definition DeadlineExceeded : string := "context deadline exceeded".

(** ** [GroupFilterNode] *)

Record GroupFilterNodeConfiguration : Type := mkGroupFilterConf {
  gf_AllMatches : bool;
  gf_NodeIds : string;
  gf_Timeout : Z
}.
Record GroupFilterNode : Type := mkGroupFilter {
  gf_Config : GroupFilterNodeConfiguration;
  gf_NodeIdList : list string;
  gf_Length : Z
}.

Definition GroupFilterNode_New : GroupFilterNode := mkGroupFilter (mkGroupFilterConf false "" 0) [] 0.

(** [strings.Trim(nodeId, "")] trims nothing: its cut set is empty. *)
Definition GroupFilterNode_Init `{Decode GroupFilterNodeConfiguration} (ruleConfig : Config)
    (configuration : Configuration) (x : GroupFilterNode) : result GroupFilterNode :=
  match Map2Struct configuration (gf_Config x) with
  | (Some err, _) => Err err
  | (None, conf) =>
      let nodeIds := gf_NodeIdList x ++ filter (λ v, v ≠ "") (Split (gf_NodeIds conf) ","%char) in
      Ok (mkGroupFilter conf nodeIds (int32_wrap (Z.of_nat (length nodeIds))))
  end.

Section FilterCallbacks.
Variable AllMatches : bool.
Variable Length : Z.

Record gf_shared : Type := mkGfShared {
  gf_endCount : Z;
  gf_completed : bool;
  gf_chan : option bool
}.

Inductive gf_pc : Type :=
| GLoad (relationType : string)      (* [atomic.LoadInt32(&completed) == 0] *)
| GCount (relationType : string)     (* [atomic.AddInt32(&endCount, 1)] *)
| GFirst (relationType : string)     (* first condition, with its compare-and-swap *)
| GEnd                               (* [atomic.LoadInt32(&endCount) >= x.Length] *)
| GCas                               (* the compare-and-swap of the second condition *)
| GSend (r : bool)                   (* [c <- r] *)
| GDone (counted : bool).

(** The relation type decides the group at once: a node that is not [True] when
    all must match, a node that is [True] when one is enough. *)
Definition decisive (relationType : string) : bool :=
  if AllMatches then bool_decide (relationType ≠ True_) else bool_decide (relationType = True_).

Definition gf_step (s : gf_shared) (pc : gf_pc) : option (gf_shared * gf_pc) :=
  match pc with
  | GLoad rel => Some (s, if gf_completed s then GDone false else GCount rel)
  | GCount rel => Some (mkGfShared (gf_endCount s + 1) (gf_completed s) (gf_chan s), GFirst rel)
  | GFirst rel =>
      if decisive rel && negb (gf_completed s)
      then Some (mkGfShared (gf_endCount s) true (gf_chan s), GSend (negb AllMatches))
      else Some (s, GEnd)
  | GEnd => Some (s, if bool_decide (gf_endCount s >= Length)%Z then GCas else GDone true)
  | GCas =>
      if gf_completed s then Some (s, GDone true)
      else Some (mkGfShared (gf_endCount s) true (gf_chan s), GSend AllMatches)
  | GSend r =>
      match gf_chan s with
      | None => Some (mkGfShared (gf_endCount s) (gf_completed s) (Some r), GDone true)
      | Some _ => None
      end
  | GDone _ => None
  end.

Definition gf_start : gf_shared := mkGfShared 0 false None.
(** One callback per entry of [rels], with the relation type its node ended in. *)
Definition gf_init (rels : list string) : par := mkPar gf_start (GLoad <$> rels).
Definition gf_done (pc : gf_pc) : bool := match pc with GDone _ => true | _ => false end.

(** A callback that is not interleaved with others. *)
Definition gf_callback (s : gf_shared) (relationType : string) : gf_shared :=
  (run_alone gf_step 6 s (GLoad relationType)).1.

End FilterCallbacks.

(** [GroupFilterNode.OnMsg], given what comes to its [select]. *)
Definition GroupFilterNode_OnMsg (x : GroupFilterNode) (msg : RuleMsg) (sel : select_result) : list call :=
  if bool_decide (gf_Length x = 0%Z) then [TellFailure msg (Some "nodeIds is empty")]
  else match sel with
       | ContextDone err => [TellFailure msg (Some err)]
       | Received r => [TellNext msg [if r then True_ else False_]]
       | NoResult => if bool_decide (0 < gf_Timeout (gf_Config x))%Z then [TellFailure msg (Some DeadlineExceeded)] else []
       end.

(** *** The filter follows the protocol *)

Section FilterProps.
Variable AllMatches : bool.
Variable Length : Z.
Hypothesis Length_pos : (1 ≤ Length)%Z.

Definition gf_view (s : gf_shared) : view :=
  mkView (gf_endCount s) (gf_completed s) (bool_decide (is_Some (gf_chan s))).
Definition gf_phase (pc : gf_pc) : phase :=
  match pc with
  | GLoad _ | GCount _ => Fresh
  | GFirst _ | GEnd | GCas => Active
  | GSend _ => Winner
  | GDone true => Counted
  | GDone false => Skipped
  end.

Lemma gf_follows : follows (gf_step AllMatches Length) Length gf_view gf_phase.
Proof.
  intros s pc s' pc' Hstep. destruct pc; simpl in Hstep.
  - destruct (gf_completed s) eqn:E; simplify_eq; by constructor.
  - simplify_eq. apply p_count.
  - destruct (decisive _ _); simpl in Hstep; [destruct (gf_completed s) eqn:E|]; simpl in Hstep; simplify_eq;
      by (apply p_stay || (apply (p_win _ (gf_view s)))).
  - simplify_eq. case_bool_decide; [apply p_stay|apply p_leave; simpl; lia].
  - destruct (gf_completed s) eqn:E; simplify_eq; [by apply p_lose|by apply (p_win _ (gf_view s))].
  - destruct (gf_chan s) eqn:E; simplify_eq. unfold gf_view at 2. simpl.
    apply (p_send _ (gf_view s)). unfold gf_view. by rewrite E.
  - done.
Qed.

Lemma gf_init_inv rels : protocol_inv Length (gf_view gf_start) (gf_phase <$> pcs (gf_init rels)).
Proof.
  replace (gf_phase <$> pcs (gf_init rels)) with (replicate (length rels) Fresh); [by apply protocol_inv_init|].
  simpl. induction rels as [|r rels IH]; [done|]. csimpl. by rewrite IH.
Qed.

(** Where the results come from. *)
Definition gf_sound (rels : list string) (s : par) : Prop :=
  (∀ pc rel, pc ∈ pcs s → pc = GLoad rel ∨ pc = GCount rel ∨ pc = GFirst rel → rel ∈ rels) ∧
  (∀ r, GSend r ∈ pcs s ∨ gf_chan (shared s) = Some r →
     (r = negb AllMatches ∧ ∃ rel, rel ∈ rels ∧ decisive AllMatches rel = true) ∨
     (r = AllMatches ∧ (Length ≤ gf_endCount (shared s))%Z)) ∧
  (GCas ∈ pcs s → (Length ≤ gf_endCount (shared s))%Z).

Lemma gf_sound_init rels : gf_sound rels (gf_init rels).
Proof.
  unfold gf_sound; simpl. split_and!.
  - intros pc rel (r & -> & Hr)%list_elem_of_fmap. naive_solver.
  - intros r [(? & ? & _)%list_elem_of_fmap|?]; done.
  - by intros (? & ? & _)%list_elem_of_fmap.
Qed.

Lemma elem_of_insert_inv {A} (l : list A) i x y : y ∈ <[i := x]> l → y = x ∨ y ∈ l.
Proof.
  intros [j Hj]%list_elem_of_lookup. apply list_lookup_insert_Some in Hj as [(? & ? & ?)|[? Hj]]; [by left|].
  right. by eapply list_elem_of_lookup_2.
Qed.

Lemma gf_sound_step rels s i s' :
  gf_sound rels s → par_step (gf_step AllMatches Length) s i = Some s' → gf_sound rels s'.
Proof.
  intros (Hrel & Hsend & Hcas) Hstep. apply par_step_inv in Hstep as (pc & sh & pc' & Hi & Ht & ->).
  apply list_elem_of_lookup_2 in Hi.
  assert (gf_endCount (shared s) ≤ gf_endCount sh)%Z as Hmono.
  { destruct pc; simpl in Ht; repeat case_match; simplify_eq; simpl; lia. }
  unfold gf_sound; simpl. split_and!.
  - intros q rel [->|Hq]%elem_of_insert_inv Hqrel; [|by eapply Hrel].
    destruct pc; simpl in Ht; repeat case_match; simplify_eq; destruct Hqrel as [?|[?|?]]; simplify_eq; eauto.
  - intros r Hr.
    assert ((GSend r ∈ pcs s ∨ gf_chan (shared s) = Some r) ∨ (pc' = GSend r ∧ pc ≠ pc')) as Hcases.
    { destruct Hr as [[Hr|?]%elem_of_insert_inv|Hr]; [subst|by left; left|].
      - right. split; [done|]. intros ->. simpl in Ht. by repeat case_match.
      - left. destruct pc; simpl in Ht; repeat case_match; simplify_eq; simpl in *; simplify_eq; auto. }
    destruct Hcases as [[?|[? ?]]%Hsend|[-> Hne]]; [by left|right; split; [done|lia]|].
    destruct pc; simpl in Ht; repeat case_match; simplify_eq; simpl.
    + left. split; [done|]. apply andb_prop in H as [H _]. eauto 10.
    + right. auto.
  - intros [<-|?]%elem_of_insert_inv; [|specialize (Hcas ltac:(done)); lia].
    destruct pc; simpl in Ht; repeat case_match; simplify_eq. apply bool_decide_eq_true in H. simpl in *. lia.
Qed.

Lemma gf_reachable_sound rels s :
  par_reachable (gf_step AllMatches Length) (gf_init rels) s → gf_sound rels s.
Proof. induction 1; eauto using gf_sound_init, gf_sound_step. Qed.

(** C22. The group filter decides, whatever the interleaving of the callbacks: when
    every node of the group has called back (at least [Length] callbacks, all
    finished), exactly one result was sent, no callback having blocked on the
    channel; the early result (False when all must match, True when one is enough)
    is sent only if some node called for it, and the other one only after [Length]
    callbacks were counted. *)
Theorem group_filter_decides rels s :
  (Length ≤ Z.of_nat (length rels))%Z →
  par_reachable (gf_step AllMatches Length) (gf_init rels) s →
  (∀ i r, pcs s !! i = Some (GSend r) → gf_chan (shared s) = None) ∧
  (forallb gf_done (pcs s) = true →
   ∃ r, gf_chan (shared s) = Some r ∧
     ((r = negb AllMatches ∧ ∃ rel, rel ∈ rels ∧ decisive AllMatches rel = true) ∨
      (r = AllMatches ∧ (Length ≤ gf_endCount (shared s))%Z))).
Proof.
  intros Hlen Hr. pose proof (gf_reachable_sound rels s Hr) as (_ & Hsend & _).
  destruct (follows_inv _ _ _ _ _ _ gf_follows (gf_init_inv rels) Hr) as [Hinv Hl]. split.
  - intros i r Hi. apply (protocol_winner _ _ _ i) in Hinv; [|by rewrite list_lookup_fmap, Hi].
    simpl in Hinv. destruct (gf_chan (shared s)); [by rewrite bool_decide_true in Hinv|done].
  - intros Hdone. assert (v_sent (gf_view (shared s)) = true) as Hs.
    { eapply protocol_sent; [done|..].
      - rewrite length_fmap, Hl. simpl. by rewrite length_fmap.
      - apply Forall_fmap, Forall_forall. intros pc Hpc. apply list_elem_of_In in Hpc.
        apply (proj1 (forallb_forall _ _) Hdone) in Hpc. destruct pc as [| | | | | |[]]; simpl; auto; done. }
    simpl in Hs. apply bool_decide_eq_true in Hs as [r Hch]. exists r. split; [done|]. apply Hsend. by right.
Qed.

(** *** Callbacks that do not overlap *)

Lemma gf_callback_spec s rel :
  gf_chan s = None → gf_completed s = false →
  let s' := gf_callback AllMatches Length s rel in
  if decisive AllMatches rel then gf_chan s' = Some (negb AllMatches) ∧ gf_completed s' = true
  else if bool_decide (Length ≤ gf_endCount s + 1)%Z then gf_chan s' = Some AllMatches ∧ gf_completed s' = true
  else s' = mkGfShared (gf_endCount s + 1) false None.
Proof.
  destruct s as [e c ch]; simpl. intros -> ->. unfold gf_callback; simpl.
  destruct (decisive AllMatches rel) eqn:Ed; simpl; [done|].
  case_bool_decide as H1; [rewrite bool_decide_true by lia|rewrite bool_decide_false by lia]; done.
Qed.

Lemma gf_callback_completed s rel : gf_completed s = true → gf_callback AllMatches Length s rel = s.
Proof. intros Hd. unfold gf_callback; simpl. by rewrite Hd. Qed.

Lemma gf_callbacks_completed s rels :
  gf_completed s = true → foldl (gf_callback AllMatches Length) s rels = s.
Proof. intros Hd. induction rels as [|r rels IH]; simpl; [done|]. by rewrite gf_callback_completed. Qed.

Lemma gf_callbacks_chan rels s :
  gf_chan s = None → gf_completed s = false → (gf_endCount s + Z.of_nat (length rels) = Length)%Z → rels ≠ [] →
  gf_chan (foldl (gf_callback AllMatches Length) s rels) =
    Some (if existsb (decisive AllMatches) rels then negb AllMatches else AllMatches).
Proof.
  revert s. induction rels as [|r rels IH]; intros s Hc Hd Hlen Hne; [done|]. simpl in *.
  pose proof (gf_callback_spec s r Hc Hd) as Hs. simpl in Hs.
  destruct (decisive AllMatches r); simpl.
  { destruct Hs as [Hs1 Hs2]. by rewrite gf_callbacks_completed. }
  case_bool_decide as Hend.
  - destruct Hs as [Hs1 Hs2]. rewrite gf_callbacks_completed by done.
    destruct rels; simpl in *; [done|lia].
  - rewrite Hs. apply IH; simpl; [done|done|lia|]. destruct rels; simpl in *; [lia|done].
Qed.

End FilterProps.

(** When the callbacks of a group do not overlap, one per node and in any
    order, the group filter computes what its documentation says: with [AllMatches]
    the message goes to [True] exactly when every node ended in [True], without it
    exactly when some node did. *)
Theorem group_filter_sequential AllMatches rels :
  rels ≠ [] →
  gf_chan (foldl (gf_callback AllMatches (Z.of_nat (length rels))) gf_start rels) =
    Some (if AllMatches then forallb (λ r, bool_decide (r = True_)) rels
          else existsb (λ r, bool_decide (r = True_)) rels).
Proof.
  intros Hne. rewrite gf_callbacks_chan by (simpl; (done || lia)). f_equal.
  assert (existsb (decisive AllMatches) rels =
    if AllMatches then negb (forallb (λ r, bool_decide (r = True_)) rels) else existsb (λ r, bool_decide (r = True_)) rels) as ->.
  { clear Hne. destruct AllMatches; induction rels as [|r rels IH]; simpl; try done; rewrite IH; unfold decisive.
    rewrite negb_andb. f_equal. by repeat case_bool_decide. }
  destruct AllMatches; [by destruct (forallb _ _)|by destruct (existsb _ _)].
Qed.

Module GroupFilterExample.

Lemma group_filter_sequential_witness :
  gf_chan (foldl (gf_callback true 2) gf_start [True_; False_]) = Some false.
Proof.
  change 2%Z with (Z.of_nat (length [True_; False_])).
  rewrite (group_filter_sequential true [True_; False_] ltac:(discriminate)). reflexivity.
Defined.

Definition schedule : list nat := [0; 0; 0; 0; 0; 0; 1; 1; 1; 1; 1; 1].

Lemma group_filter_decides_witness :
  ∃ r, gf_chan (shared (par_run (gf_step true 2) (gf_init [True_; False_]) schedule)) = Some r.
Proof.
  destruct (group_filter_decides true 2 ltac:(lia) [True_; False_]
    (par_run (gf_step true 2) (gf_init [True_; False_]) schedule) ltac:(simpl; lia)
    (par_run_reachable _ _ _ _ (par_refl _ _))) as [_ H].
  destruct (H ltac:(vm_compute; reflexivity)) as (r & Hr & _). by exists r.
Defined.

(** The counter is incremented before the decision, so overlapping callbacks
    can give the wrong answer: a group that requires all nodes to match answers
    [True] although one node ended in [False]. *)
Theorem group_filter_race :
  ∃ s, par_reachable (gf_step true 2) (gf_init [False_; True_]) s ∧ forallb gf_done (pcs s) = true ∧
       gf_chan (shared s) = Some true.
Proof.
  exists (par_run (gf_step true 2) (gf_init [False_; True_]) [0; 0; 1; 1; 1; 1; 1; 1; 0; 0; 0]).
  split; [apply par_run_reachable, par_refl|]. split; vm_compute; reflexivity.
Qed.

End GroupFilterExample.
