(* ===== verification/GroupAction.v ===== *)
(** * The group action ([src/components/action/group_action_node.go]) *)

From Stdlib Require Import Ascii.
From S2P Require Import Prelude GoStrings Value Str Msg Config Dsl World RuleCtx CtxProps NodeApi GroupProtocol Groups.

Record GroupActionNodeConfiguration : Type := mkGroupActionConf {
  ga_MatchRelationType : string;
  ga_MatchNum : Z;
  ga_NodeIds : string;
  ga_Timeout : Z
}.
Record GroupActionNode : Type := mkGroupAction {
  ga_Config : GroupActionNodeConfiguration;
  ga_NodeIdList : list string;
  ga_Length : Z
}.

Definition GroupActionNode_New : GroupActionNode := mkGroupAction (mkGroupActionConf Success 0 "" 0) [] 0.

Definition GroupActionNode_Init `{Decode GroupActionNodeConfiguration} (ruleConfig : Config)
    (configuration : Configuration) (x : GroupActionNode) : result GroupActionNode :=
  match Map2Struct configuration (ga_Config x) with
  | (Some err, _) => Err err
  | (None, conf) =>
      let nodeIds := ga_NodeIdList x ++ filter (λ v, v ≠ "") (TrimSpace <$> Split (ga_NodeIds conf) ","%char) in
      let rel := TrimSpace (ga_MatchRelationType conf) in
      let rel := if bool_decide (rel = "") then Success else rel in
      let num := if bool_decide (ga_MatchNum conf ≤ 0 ∨ Z.of_nat (length nodeIds) < ga_MatchNum conf)%Z
                 then Z.of_nat (length nodeIds) else ga_MatchNum conf in
      Ok (mkGroupAction (mkGroupActionConf rel num (ga_NodeIds conf) (ga_Timeout conf)) nodeIds
            (int32_wrap (Z.of_nat (length nodeIds))))
  end.

(** The zero [WrapperMsg] of a node that has not called back. *)
Definition emptyWrapper : WrapperMsg := mkWrapper (mkMsg 0 "" "" "" "" ∅) "" "".

Definition filterEmpty (msgs : list WrapperMsg) : list WrapperMsg := filter (λ m, w_NodeId m ≠ "") msgs.

Definition put_all (md : list (string * string)) (wrapperMsg : RuleMsg) : RuleMsg :=
  set_Metadata (foldl (λ m '(k, v), Metadata_PutValue m k v) (m_Metadata wrapperMsg) md) wrapperMsg.

Definition mergeMetadata (msgs : list WrapperMsg) (wrapperMsg : RuleMsg) : RuleMsg :=
  foldl (λ wrapperMsg m,
    if bool_decide (w_NodeId m ≠ "" ∧ w_Err m = "") then put_all (Metadata_Values (m_Metadata (w_Msg m))) wrapperMsg
    else wrapperMsg) wrapperMsg msgs.

(** A callback: the index of its node, and what the node ended with. *)
Record ga_arg : Type := mkGaArg {
  arg_index : nat;
  arg_msg : RuleMsg;
  arg_err : error;
  arg_self : string;
  arg_rel : string
}.

Definition wrap_arg (a : ga_arg) : WrapperMsg := mkWrapper (arg_msg a) (default "" (arg_err a)) (arg_self a).

Section ActionCallbacks.
(** [str.ToString] of a list of wrapper messages: their JSON text. *)
Variable wrappers_text : list WrapperMsg → string.
Variable MatchRelationType : string.
Variable MatchNum : Z.
Variable Length : Z.

Record ga_shared : Type := mkGaShared {
  ga_endCount : Z;
  ga_matched : Z;
  ga_completed : bool;
  ga_msgs : list WrapperMsg;
  ga_wrapper : RuleMsg;
  ga_chan : option bool
}.

Inductive ga_pc : Type :=
| ALoad (a : ga_arg)       (* [atomic.LoadInt32(&completed) == 0] *)
| ARecord (a : ga_arg)     (* [msgs[index] = ...] *)
| ACount (a : ga_arg)      (* [atomic.AddInt32(&endCount, 1)] *)
| AMatch (a : ga_arg)      (* [atomic.AddInt32(&currentMatchedCount, 1)] if it matches *)
| ALoadMatch               (* [atomic.LoadInt32(&currentMatchedCount) >= MatchNum] *)
| ALoadEnd                 (* [atomic.LoadInt32(&endCount) >= x.Length] *)
| ACas (r : bool)          (* the compare-and-swap on [completed] *)
| AData (r : bool)         (* [wrapperMsg.Data = ...] *)
| AMeta (r : bool)         (* [mergeMetadata] *)
| ASend (r : bool)         (* [c <- r] *)
| ADone (counted : bool).

Definition matches (a : ga_arg) : bool := bool_decide (MatchRelationType = arg_rel a).

Definition ga_step (s : ga_shared) (pc : ga_pc) : option (ga_shared * ga_pc) :=
  let 'mkGaShared e m c ms w ch := s in
  match pc with
  | ALoad a => Some (s, if c then ADone false else ARecord a)
  | ARecord a => Some (mkGaShared e m c (<[arg_index a := wrap_arg a]> ms) w ch, ACount a)
  | ACount a => Some (mkGaShared (e + 1) m c ms w ch, AMatch a)
  | AMatch a => Some (mkGaShared e (if matches a then m + 1 else m) c ms w ch, ALoadMatch)
  | ALoadMatch => Some (s, if bool_decide (m >= MatchNum)%Z then ACas true else ALoadEnd)
  | ALoadEnd => Some (s, if bool_decide (e >= Length)%Z then ACas false else ADone true)
  | ACas r => if c then Some (s, ADone true) else Some (mkGaShared e m true ms w ch, AData r)
  | AData r => Some (mkGaShared e m c ms (set_Data (wrappers_text (filterEmpty ms)) w) ch, AMeta r)
  | AMeta r => Some (mkGaShared e m c ms (mergeMetadata ms w) ch, ASend r)
  | ASend r => match ch with None => Some (mkGaShared e m c ms w (Some r), ADone true) | Some _ => None end
  | ADone _ => None
  end.

(** The state [OnMsg] sets up for a message. *)
Definition ga_start (now : Z) (uuid : string) (nodes : nat) (msg : RuleMsg) : ga_shared :=
  mkGaShared 0 0 false (replicate nodes emptyWrapper) (RuleMsg_Copy now uuid msg) None.
Definition ga_init (s : ga_shared) (args : list ga_arg) : par := mkPar s (ALoad <$> args).
Definition ga_done (pc : ga_pc) : bool := match pc with ADone _ => true | _ => false end.
Definition ga_callback (s : ga_shared) (a : ga_arg) : ga_shared := (run_alone ga_step 10 s (ALoad a)).1.

End ActionCallbacks.

(** [GroupActionNode.OnMsg], given what comes to its [select] and the wrapper
    message at that point. *)
Definition GroupActionNode_OnMsg (x : GroupActionNode) (msg wrapperMsg : RuleMsg) (sel : select_result) : list call :=
  if bool_decide (ga_Length x = 0%Z) then [TellFailure msg (Some "nodeIds is empty")]
  else match sel with
       | ContextDone err => [TellFailure wrapperMsg (Some err)]
       | Received true => [TellSuccess wrapperMsg]
       | Received false => [TellNext wrapperMsg [Failure]]
       | NoResult => if bool_decide (0 < ga_Timeout (ga_Config x))%Z then [TellFailure wrapperMsg (Some DeadlineExceeded)] else []
       end.

Section ActionProps.
Variable wrappers_text : list WrapperMsg → string.
Variable MatchRelationType : string.
Variable MatchNum Length : Z.
Hypothesis Length_pos : (1 ≤ Length)%Z.
Local Abbreviation astep := (ga_step wrappers_text MatchRelationType MatchNum Length).
Local Abbreviation hit := (matches MatchRelationType).

Definition ga_view (s : ga_shared) : view :=
  mkView (ga_endCount s) (ga_completed s) (bool_decide (is_Some (ga_chan s))).
Definition ga_phase (pc : ga_pc) : phase :=
  match pc with
  | ALoad _ | ARecord _ | ACount _ => Fresh
  | AMatch _ | ALoadMatch | ALoadEnd | ACas _ => Active
  | AData _ | AMeta _ | ASend _ => Winner
  | ADone true => Counted
  | ADone false => Skipped
  end.

Lemma ga_follows : follows astep Length ga_view ga_phase.
Proof.
  intros [e m c ms w ch] pc s' pc' Hstep. destruct pc; simpl in Hstep.
  - destruct c; simplify_eq; by constructor.
  - simplify_eq. apply p_fresh.
  - simplify_eq. apply (p_count _ (ga_view (mkGaShared e m c ms w ch))).
  - simplify_eq. apply p_stay.
  - simplify_eq. destruct (bool_decide (m >= MatchNum)%Z); apply p_stay.
  - destruct (bool_decide (e >= Length)%Z) eqn:E; simplify_eq; [apply p_stay|].
    apply bool_decide_eq_false in E. apply p_leave. simpl. lia.
  - destruct c; simplify_eq; [by apply p_lose|by apply (p_win _ (ga_view (mkGaShared e m false ms w ch)))].
  - simplify_eq. apply p_work.
  - simplify_eq. apply p_work.
  - destruct ch; simplify_eq. by apply (p_send _ (ga_view (mkGaShared e m c ms w None))).
  - done.
Qed.

Lemma ga_init_inv s args :
  ga_view s = mkView 0 false false → protocol_inv Length (ga_view s) (ga_phase <$> pcs (ga_init s args)).
Proof.
  intros ->. replace (ga_phase <$> pcs (ga_init s args)) with (replicate (length args) Fresh); [by apply protocol_inv_init|].
  simpl. induction args as [|r args IH]; [done|]. csimpl. by rewrite IH.
Qed.

(** Matching callbacks that were not counted as matches yet. *)
Definition unmatched (pc : ga_pc) : nat :=
  match pc with
  | ALoad a | ARecord a | ACount a | AMatch a => b2n (hit a)
  | _ => 0
  end.

Definition ga_sound (args : list ga_arg) (s : par) : Prop :=
  (ga_matched (shared s) + Z.of_nat (sum_list_with unmatched (pcs s)) ≤ Z.of_nat (length (filter (λ a, hit a = true) args)))%Z ∧
  (∀ pc, pc ∈ pcs s → pc = ACas true ∨ pc = AData true ∨ pc = AMeta true ∨ pc = ASend true →
     (MatchNum ≤ ga_matched (shared s))%Z) ∧
  (ga_chan (shared s) = Some true → (MatchNum ≤ ga_matched (shared s))%Z).

Lemma ga_sound_init s args :
  ga_matched s = 0%Z → ga_chan s = None → ga_sound args (ga_init s args).
Proof.
  intros Hm Hc. unfold ga_sound; simpl. rewrite Hm, Hc. split_and!; [|intros pc (a & -> & _)%list_elem_of_fmap; naive_solver|done].
  enough (sum_list_with unmatched (ALoad <$> args) = length (filter (λ a, hit a = true) args)) by lia.
  induction args as [|a args IH]; [done|]. rewrite filter_cons. csimpl. rewrite IH. simpl.
  by destruct (hit a).
Qed.

Lemma ga_sound_step args s i s' : ga_sound args s → par_step astep s i = Some s' → ga_sound args s'.
Proof.
  intros (Hcount & Hpc & Hch) Hstep. apply par_step_inv in Hstep as (pc & sh & pc' & Hi & Ht & ->).
  pose proof (sum_with_insert unmatched _ _ _ pc' Hi) as Hsum. apply list_elem_of_lookup_2 in Hi.
  unfold ga_sound; simpl. specialize (Hpc pc Hi) as Hown.
  destruct (shared s) as [e m c ms w ch] eqn:Es; simpl in *.
  assert (m ≤ ga_matched sh)%Z as Hmono.
  { destruct pc; simpl in Ht; repeat case_match; simplify_eq; simpl; lia. }
  split_and!.
  - destruct pc; simpl in Ht, Hsum; repeat case_match; simplify_eq; simpl in *; unfold b2n in *; repeat case_match; lia.
  - intros q [->|Hq]%elem_of_insert_inv Hr; [|specialize (Hpc q Hq Hr); lia].
    destruct pc; simpl in Ht; repeat case_match; simplify_eq; simpl in *; destruct Hr as [Hr|[Hr|[Hr|Hr]]]; simplify_eq;
      try (by apply Hown; auto); try (match goal with H : bool_decide _ = true |- _ => apply bool_decide_eq_true in H; lia end).
  - destruct pc; simpl in Ht; repeat case_match; simplify_eq; simpl in *; intros Hr; simplify_eq; auto;
      try (specialize (Hch eq_refl); lia).
Qed.

Lemma ga_reachable_sound s0 args s :
  ga_matched s0 = 0%Z → ga_chan s0 = None → par_reachable astep (ga_init s0 args) s → ga_sound args s.
Proof. intros Hm Hc. induction 1; eauto using ga_sound_init, ga_sound_step. Qed.

(** C23. The group action decides, whatever the interleaving: when every node of
    the group has called back, exactly one result was sent and no callback blocked;
    [Success] is sent only if at least [MatchNum] callbacks ended in the relation
    asked for. *)
Theorem group_action_decides now uuid nodes msg args s :
  (Length ≤ Z.of_nat (length args))%Z →
  par_reachable astep (ga_init (ga_start now uuid nodes msg) args) s →
  (∀ i r, pcs s !! i = Some (ASend r) → ga_chan (shared s) = None) ∧
  (forallb ga_done (pcs s) = true → is_Some (ga_chan (shared s))) ∧
  (ga_chan (shared s) = Some true → (MatchNum ≤ Z.of_nat (length (filter (λ a, hit a = true) args)))%Z).
Proof.
  intros Hlen Hr. destruct (ga_reachable_sound (ga_start now uuid nodes msg) args s eq_refl eq_refl Hr) as (Hcount & _ & Hch).
  destruct (follows_inv _ _ _ _ _ _ ga_follows (ga_init_inv (ga_start now uuid nodes msg) args eq_refl) Hr) as [Hinv Hl].
  split_and!.
  - intros i r Hi. apply (protocol_winner _ _ _ i) in Hinv; [|by rewrite list_lookup_fmap, Hi].
    simpl in Hinv. destruct (ga_chan (shared s)); [by rewrite bool_decide_true in Hinv|done].
  - intros Hdone. assert (v_sent (ga_view (shared s)) = true) as Hs.
    { eapply protocol_sent; [done|..].
      - rewrite length_fmap, Hl. simpl. by rewrite length_fmap.
      - apply Forall_fmap, Forall_forall. intros pc Hpc. apply list_elem_of_In in Hpc.
        apply (proj1 (forallb_forall _ _) Hdone) in Hpc. by destruct pc as [| | | | | | | | | |[]]; simpl; auto. }
    simpl in Hs. by apply bool_decide_eq_true in Hs.
  - intros Htrue. specialize (Hch Htrue). lia.
Qed.

(** *** Callbacks that do not overlap *)

Local Abbreviation acb := (ga_callback wrappers_text MatchRelationType MatchNum Length).
Definition matched_with (m : Z) (a : ga_arg) : Z := if hit a then (m + 1)%Z else m.

Lemma ga_callback_spec s a :
  ga_chan s = None → ga_completed s = false →
  let m := matched_with (ga_matched s) a in
  if bool_decide (MatchNum ≤ m)%Z then ga_chan (acb s a) = Some true ∧ ga_completed (acb s a) = true
  else if bool_decide (Length ≤ ga_endCount s + 1)%Z then ga_chan (acb s a) = Some false ∧ ga_completed (acb s a) = true
  else ga_chan (acb s a) = None ∧ ga_completed (acb s a) = false ∧
       ga_endCount (acb s a) = (ga_endCount s + 1)%Z ∧ ga_matched (acb s a) = m.
Proof.
  destruct s as [e m c ms w ch]; simpl. intros -> ->. unfold ga_callback; simpl.
  change (if hit a then (m + 1)%Z else m) with (matched_with m a).
  case_bool_decide as H1; [by rewrite bool_decide_true by lia|]. rewrite (bool_decide_false (_ >= MatchNum)%Z) by lia.
  case_bool_decide as H2; [by rewrite bool_decide_true by lia|]. by rewrite (bool_decide_false (_ >= Length)%Z) by lia.
Qed.

Lemma ga_callbacks_completed s args : ga_completed s = true → foldl acb s args = s.
Proof.
  intros Hd. induction args as [|a args IH]; simpl; [done|].
  assert (acb s a = s) as ->; [|done]. destruct s; simpl in *. by subst.
Qed.

Lemma ga_callbacks_chan args s :
  ga_chan s = None → ga_completed s = false → (ga_matched s < MatchNum)%Z →
  (ga_endCount s + Z.of_nat (length args) = Length)%Z → args ≠ [] →
  ga_chan (foldl acb s args) =
    Some (bool_decide (MatchNum ≤ ga_matched s + Z.of_nat (length (filter (λ a, hit a = true) args)))%Z).
Proof.
  revert s. induction args as [|a args IH]; intros s Hc Hd Hm Hlen Hne; [done|].
  pose proof (ga_callback_spec s a Hc Hd) as Hs. cbv zeta in Hs.
  assert (ga_matched s ≤ matched_with (ga_matched s) a)%Z as Hmono by (unfold matched_with; destruct (hit a); lia).
  rewrite filter_cons. simpl length in Hlen.
  assert (matched_with (ga_matched s) a + Z.of_nat (length (filter (λ a, hit a = true) args)) =
    ga_matched s + Z.of_nat (length (if decide (hit a = true) then a :: filter (λ a, hit a = true) args
      else filter (λ a, hit a = true) args)))%Z as Hcount.
  { unfold matched_with. destruct (hit a); simpl; lia. }
  rewrite <- Hcount. destruct (decide (MatchNum ≤ matched_with (ga_matched s) a)%Z) as [E1|E1].
  { rewrite (bool_decide_true (MatchNum ≤ matched_with _ a)%Z) in Hs by done.
    destruct Hs as [Hs1 Hs2]. simpl foldl. rewrite ga_callbacks_completed by done. rewrite Hs1, bool_decide_true by lia. done. }
  rewrite (bool_decide_false (MatchNum ≤ matched_with _ a)%Z) in Hs by done.
  destruct (decide (Length ≤ ga_endCount s + 1)%Z) as [E2|E2].
  - rewrite (bool_decide_true (Length ≤ _)%Z) in Hs by done. destruct Hs as [Hs1 Hs2].
    simpl foldl. rewrite ga_callbacks_completed by done. destruct args; simpl in *; [|lia].
    rewrite Hs1, bool_decide_false by lia. done.
  - rewrite (bool_decide_false (Length ≤ _)%Z) in Hs by done. destruct Hs as (H1 & H2 & H3 & H4).
    simpl foldl. rewrite <- H4. apply IH; try done; try lia. destruct args; simpl in *; [lia|done].
Qed.

End ActionProps.

(** [MatchNum] and the node list are usable after [Init]: the ids are
    trimmed and not empty, and the number of matches asked for is between one and the
    number of nodes unless the list is empty. *)
Theorem GroupActionNode_Init_ok `{Decode GroupActionNodeConfiguration} ruleConfig configuration x :
  GroupActionNode_Init ruleConfig configuration GroupActionNode_New = Ok x →
  (Z.of_nat (length (ga_NodeIdList x)) < 2^31)%Z →
  Forall (λ id, id ≠ "") (ga_NodeIdList x) ∧ ga_Length x = Z.of_nat (length (ga_NodeIdList x)) ∧
  ga_MatchRelationType (ga_Config x) ≠ "" ∧
  (ga_NodeIdList x ≠ [] → 1 ≤ ga_MatchNum (ga_Config x) ≤ ga_Length x)%Z.
Proof.
  unfold GroupActionNode_Init. destruct (Map2Struct _ _) as [[e|] conf]; [done|]. intros [= <-]; simpl.
  set (ids := filter _ _). intros Hb. rewrite int32_wrap_id by (unfold int32_range; lia).
  split_and!.
  - apply Forall_forall. intros id Hid. by apply list_elem_of_filter in Hid as [? _].
  - done.
  - by case_bool_decide.
  - destruct ids as [|i ids]; [done|]. intros _. case_bool_decide; simpl in *; lia.
Qed.

(** When the callbacks of a group do not overlap, one per node and in any order,
    the group action answers [Success] exactly when at least [MatchNum] nodes ended in
    the relation asked for. *)
Theorem group_action_sequential wrappers_text MatchRelationType MatchNum now uuid msg args :
  args ≠ [] → (1 ≤ MatchNum)%Z →
  ga_chan (foldl (ga_callback wrappers_text MatchRelationType MatchNum (Z.of_nat (length args)))
             (ga_start now uuid (length args) msg) args) =
    Some (bool_decide (MatchNum ≤ Z.of_nat (length (filter (λ a, matches MatchRelationType a = true) args)))%Z).
Proof. intros Hne Hn. by rewrite ga_callbacks_chan by (simpl; (done || lia)). Qed.

Module GroupActionExample.
Import NodeSamples.

Definition arg (i : nat) (id rel : string) : ga_arg := mkGaArg i (sample_msg id "d") None id rel.
Definition text (l : list WrapperMsg) : string := Join (w_NodeId <$> l) ","%char.
Definition start : ga_shared := ga_start 5 "u" 2 (sample_msg "0" "d").
Definition args : list ga_arg := [arg 0 "a" Success; arg 1 "b" Failure].
Definition run (matchNum : Z) (schedule : list nat) : par :=
  par_run (ga_step text Success matchNum 2) (ga_init start args) schedule.
Definition one_by_one : list nat := replicate 10 0 ++ replicate 10 1.

Lemma group_action_decides_witness :
  is_Some (ga_chan (shared (run 1 one_by_one))) ∧ m_Data (ga_wrapper (shared (run 1 one_by_one))) = "a".
Proof.
  split; [|vm_compute; reflexivity].
  destruct (group_action_decides text Success 1 2 ltac:(lia) 5 "u" 2 (sample_msg "0" "d") args (run 1 one_by_one)
    ltac:(simpl; lia) (par_run_reachable _ _ _ _ (par_refl _ _))) as (_ & H & _).
  apply H. vm_compute. reflexivity.
Defined.

Lemma GroupActionNode_Init_witness :
  (1 ≤ 2 ≤ 2)%Z ∧ ga_Length (mkGroupAction (mkGroupActionConf Success 2 "a, b" 0) ["a"; "b"] 2) = 2%Z.
Proof.
  destruct (@GroupActionNode_Init_ok (decodes (mkGroupActionConf " " 7 "a, b" 0)) zeroConfig ∅
    (mkGroupAction (mkGroupActionConf Success 2 "a, b" 0) ["a"; "b"] 2) ltac:(vm_compute; reflexivity)
    ltac:(vm_compute; reflexivity)) as (_ & H1 & _ & H2).
  split; [exact (H2 ltac:(discriminate))|exact H1].
Defined.

(** The counter of finished nodes is incremented before the counter of
    matches: with overlapping callbacks a group that needs one match answers
    [Failure] although a node did match. *)
Theorem group_action_race :
  ∃ s, par_reachable (ga_step text Success 1 2) (ga_init start args) s ∧ forallb ga_done (pcs s) = true ∧
       ga_chan (shared s) = Some false.
Proof.
  exists (run 1 ([0; 0; 0] ++ replicate 10 1 ++ replicate 10 0)).
  split; [apply par_run_reachable, par_refl|]. split; vm_compute; reflexivity.
Qed.

End GroupActionExample.
