(* ===== verification/Flow.v ===== *)
(** * The sub-chain component ([src/components/flow/flow_node.go])

    A [flow] node runs another chain of the pool ([TellFlow] of [src/engine.go])
    and collects the results of its branches through two callbacks. *)

From Stdlib Require Import Ascii.
From S2P Require Import Prelude GoStrings Value Str Msg Config Dsl World RuleCtx CtxProps NodeApi GroupAction.

Record ChainNodeConfiguration : Type := mkChainNodeConf { fl_TargetId : string }.
Record ChainNode : Type := mkChainNode { fl_Config : ChainNodeConfiguration }.

Definition ChainNode_New : ChainNode := mkChainNode (mkChainNodeConf "").

Definition ChainNode_Init `{Decode ChainNodeConfiguration} (ruleConfig : Config) (configuration : Configuration)
    (x : ChainNode) : result ChainNode :=
  match Map2Struct configuration (fl_Config x) with
  | (Some err, _) => Err err
  | (None, conf) => Ok (mkChainNode conf)
  end.

(** What the sub-chain reports: the end of a branch, with the id of the node it
    ended in, and the end of all branches. *)
Inductive flow_event : Type :=
| FEnd (msg : RuleMsg) (err : error) (selfId : string)
| FCompleted.

Section Flow.
(** [str.ToString] of a list of wrapper messages: their JSON text. *)
Variable wrappers_text : list WrapperMsg → string.

(** The variables the two callbacks share. *)
Record flow_state : Type := mkFlow { fl_wrapperMsg : RuleMsg; fl_msgs : list WrapperMsg }.

Definition flow_onEnd (s : flow_state) (onEndMsg : RuleMsg) (err : error) (selfId : string) : flow_state :=
  mkFlow
    (match err with
     | None => put_all (Metadata_Values (m_Metadata onEndMsg)) (fl_wrapperMsg s)
     | Some _ => fl_wrapperMsg s
     end)
    (fl_msgs s ++ [mkWrapper onEndMsg (default "" err) selfId]).

Definition flow_onCompleted (s : flow_state) : list call * flow_state :=
  let w := set_Data (wrappers_text (fl_msgs s)) (set_DataType JSON (fl_wrapperMsg s)) in
  ([TellSuccess w], mkFlow w (fl_msgs s)).

Definition flow_step (acc : list call * flow_state) (e : flow_event) : list call * flow_state :=
  let '(calls, s) := acc in
  match e with
  | FEnd msg err selfId => (calls, flow_onEnd s msg err selfId)
  | FCompleted => let '(calls', s) := flow_onCompleted s in (calls ++ calls', s)
  end.

(** [ChainNode.OnMsg] with [TellFlow]: the target chain is looked up in the pool;
    [events] is what it reports. *)
Definition ChainNode_OnMsg (now : Z) (uuid : string) (pool : gmap string nat) (x : ChainNode) (msg : RuleMsg)
    (events : list flow_event) : list call :=
  match pool !! fl_TargetId (fl_Config x) with
  | None => [TellFailure msg (Some ("ruleChain id=" +:+ fl_TargetId (fl_Config x) +:+ " not found"))]
  | Some _ => (foldl flow_step ([], mkFlow (RuleMsg_Copy now uuid msg) []) events).1
  end.

(** ** Properties *)

Lemma put_list_lookup (l : list (string * string)) md k :
  NoDup l.*1 →
  foldl (λ m '(k, v), Metadata_PutValue m k v) md l !! k =
    if bool_decide (k = "") then md !! k else match assoc k l with Some v => Some v | None => md !! k end.
Proof.
  revert md. induction l as [|[k0 v0] l IH]; intros md Hnd; simpl; [by case_bool_decide|].
  apply NoDup_cons in Hnd as [Hk0 Hnd]. rewrite IH by done. unfold Metadata_PutValue.
  destruct (decide (k = "")) as [->|Hk].
  - rewrite !(bool_decide_true ("" = "")) by done.
    destruct (bool_decide (k0 ≠ "")) eqn:E0; [|done]. apply bool_decide_eq_true in E0. by rewrite lookup_insert_ne.
  - rewrite !(bool_decide_false (k = "")) by done. destruct (decide (k0 = k)) as [->|Hne].
    + assert (assoc k l = None) as ->.
      { destruct (assoc k l) as [v|] eqn:E; [|done]. exfalso. apply Hk0, list_elem_of_fmap. exists (k, v).
        by apply assoc_elem in E. }
      by rewrite (bool_decide_true (k = k)), (bool_decide_true (k ≠ "")), lookup_insert_eq.
    + rewrite (bool_decide_false (k0 = k)) by done. destruct (assoc k l); [done|].
      destruct (bool_decide (k0 ≠ "")); [by rewrite lookup_insert_ne|done].
Qed.

Lemma assoc_Values (md : Metadata) k : assoc k (Metadata_Values md) = md !! k.
Proof.
  unfold Metadata_Values. destruct (md !! k) as [v|] eqn:E.
  - apply assoc_NoDup; [apply NoDup_fst_map_to_list|by apply elem_of_map_to_list].
  - destruct (assoc k (map_to_list md)) as [v|] eqn:Ea; [|done].
    apply assoc_elem, elem_of_map_to_list in Ea. congruence.
Qed.

(** Writing one metadata over another: [PutValue] drops the empty key. *)
Lemma put_all_lookup md w k :
  m_Metadata (put_all (Metadata_Values md) w) !! k =
    if bool_decide (k = "") then m_Metadata w !! k
    else match md !! k with Some v => Some v | None => m_Metadata w !! k end.
Proof.
  unfold put_all; simpl. rewrite put_list_lookup by apply NoDup_fst_map_to_list. by rewrite assoc_Values.
Qed.

(** The value the collected metadata has for a key: that of the last branch that
    ended without error and has it, else that of the message. *)
Fixpoint collected (ends : list (RuleMsg * error * string)) (k : string) (v0 : option string) : option string :=
  match ends with
  | [] => v0
  | (m, None, _) :: rest => collected rest k (match m_Metadata m !! k with Some v => Some v | None => v0 end)
  | (_, Some _, _) :: rest => collected rest k v0
  end.

Definition fend (e : RuleMsg * error * string) : flow_event := let '(m, err, id) := e in FEnd m err id.
Definition wrap_end (e : RuleMsg * error * string) : WrapperMsg := let '(m, err, id) := e in mkWrapper m (default "" err) id.

Lemma flow_ends ends calls s :
  ∃ w, foldl flow_step (calls, s) (fend <$> ends) = (calls, mkFlow w (fl_msgs s ++ (wrap_end <$> ends))) ∧
    same_but_metadata (fl_wrapperMsg s) w ∧
    ∀ k, k ≠ "" → m_Metadata w !! k = collected ends k (m_Metadata (fl_wrapperMsg s) !! k).
Proof.
  revert s. induction ends as [|[[m err] id] ends IH]; intros s.
  - exists (fl_wrapperMsg s). csimpl. rewrite app_nil_r. split; [by destruct s|]. split; [|done].
    exists (m_Metadata (fl_wrapperMsg s)). by destruct (fl_wrapperMsg s).
  - destruct (IH (flow_onEnd s m err id)) as (w & Hf & [md Hs] & Hk).
    assert (foldl flow_step (calls, s) (fend <$> (m, err, id) :: ends) =
      foldl flow_step (calls, flow_onEnd s m err id) (fend <$> ends)) as -> by done.
    exists w. rewrite Hf. split; [simpl; by rewrite <- (assoc_L (++))|]. destruct err as [e|]; (split; [subst; by eexists|]);
      intros k Hne; rewrite Hk by done; [done|].
    cbn [flow_onEnd fl_wrapperMsg collected]. by rewrite put_all_lookup, bool_decide_false.
Qed.

(** A [flow] node whose target is not in the pool answers [Failure]; otherwise,
    when the sub-chain reports the end of all its branches once, after them, the
    node tells [Success] exactly once: the data is the list of what the branches
    ended with, in order and errors included, and every metadata key has the value of
    the last branch that ended without error and has it. *)
Theorem ChainNode_OnMsg_spec now uuid pool x msg ends :
  match pool !! fl_TargetId (fl_Config x) with
  | None => ∃ err, ChainNode_OnMsg now uuid pool x msg (fend <$> ends) = [TellFailure msg (Some err)]
  | Some _ => ∃ w, ChainNode_OnMsg now uuid pool x msg ((fend <$> ends) ++ [FCompleted]) = [TellSuccess w] ∧
      m_Data w = wrappers_text (wrap_end <$> ends) ∧ m_DataType w = JSON ∧ m_Type w = m_Type msg ∧
      (m_Id msg ≠ "" → m_Id w = m_Id msg) ∧
      ∀ k, k ≠ "" → m_Metadata w !! k = collected ends k (m_Metadata msg !! k)
  end.
Proof.
  unfold ChainNode_OnMsg. destruct (pool !! _); [|by eexists].
  rewrite foldl_app. destruct (flow_ends ends [] (mkFlow (RuleMsg_Copy now uuid msg) [])) as (w & -> & [md Hw] & Hk).
  simpl in *. subst w. eexists. split; [done|]. simpl in *. split_and!; try done.
  - intros Hid. by rewrite bool_decide_false.
  - intros k Hne. rewrite Hk by done. unfold Metadata_Copy. by rewrite BuildMetadata_id.
Qed.

(** Completion reported before the last branch ended (it can be: see
    [completion_can_be_early] of [CtxRaces]) loses that branch: the result told is the
    one collected until then, and nothing is told afterwards. *)
Theorem ChainNode_late_branch_lost now uuid pool x msg ends late chain :
  pool !! fl_TargetId (fl_Config x) = Some chain →
  ∃ w, ChainNode_OnMsg now uuid pool x msg ((fend <$> ends) ++ FCompleted :: (fend <$> late)) = [TellSuccess w] ∧
    m_Data w = wrappers_text (wrap_end <$> ends).
Proof.
  intros Hp. unfold ChainNode_OnMsg. rewrite Hp, foldl_app.
  destruct (flow_ends ends [] (mkFlow (RuleMsg_Copy now uuid msg) [])) as (w & -> & _ & _). simpl.
  match goal with |- context [foldl flow_step (?c, ?s) _] => destruct (flow_ends late c s) as (w' & -> & _) end.
  eexists. split; [done|]. done.
Qed.

End Flow.

Module FlowExample.
Import NodeSamples.

Definition text (l : list WrapperMsg) : string := Join (w_NodeId <$> l) ","%char.
Definition node : ChainNode := mkChainNode (mkChainNodeConf "sub").

Lemma ChainNode_late_branch_lost_witness :
  ∃ w, ChainNode_OnMsg text 5 "u" {["sub" := 7]} node (sample_msg "1" "d")
         [FEnd (sample_msg "1" "x") None "a"; FCompleted; FEnd (sample_msg "1" "y") None "b"] = [TellSuccess w] ∧
       m_Data w = "a".
Proof.
  apply (ChainNode_late_branch_lost text 5 "u" {["sub" := 7]} node (sample_msg "1" "d")
    [(sample_msg "1" "x", None, "a")] [(sample_msg "1" "y", None, "b")] 7).
  reflexivity.
Defined.

End FlowExample.
