(* ===== verification/Builtin.v ===== *)
(** * The built-in components together

    The components of [src/components/{action,filter,transform,flow}] as one
    type, dispatched as Go dispatches the methods of [types.Node]; the default
    registry they are put into with those of package external, which are a parameter here
    ([init] of [src/registry.go]); and which of them
    answer every message, the condition under which a chain completes ([CtxProps]). *)

From S2P Require Import Prelude GoStrings Value Str Msg Config Registry Dsl World RuleCtx CtxProps JsEngine NodeApi.
From S2P Require Import Filters Actions Transforms GroupProtocol Groups GroupAction Flow.

(** Registering a list: a type belongs to the first component that has it. *)
Lemma register_defaults_lookup {Node} `{NodeClass Node} (cs : list Node) r t :
  r_components (register_defaults cs r) !! t =
    match r_components r !! t with
    | Some n => Some n
    | None => head (filter (λ n, node_Type n = t) cs)
    end.
Proof.
  revert r. induction cs as [|c cs IH]; intros r; simpl; [by destruct (r_components r !! t)|].
  rewrite IH, filter_cons. unfold Register.
  destruct (r_components r !! node_Type c) as [n|] eqn:Ec; simpl.
  - destruct (r_components r !! t) eqn:Et; [done|]. case_decide; [congruence|done].
  - case_decide as Ht; subst.
    + by rewrite lookup_insert_eq, Ec.
    + by rewrite lookup_insert_ne.
Qed.

Section Builtin.
Context `{J : Json} {E : Type} `{JE : JsEngine E} `{EX : ExprLang} `{MR : MapRange}.
Context `{Decode (JsFilterNodeConfiguration)} `{Decode ExprFilterNodeConfiguration} `{Decode FieldFilterNodeConfiguration}
  `{Decode JsSwitchNodeConfiguration} `{Decode GroupFilterNodeConfiguration} `{Decode LogNodeConfiguration}
  `{Decode FunctionsNodeConfiguration} `{Decode IteratorNodeConfiguration} `{Decode DelayNodeConfiguration}
  `{Decode GroupActionNodeConfiguration} `{Decode JsTransformNodeConfiguration}
  `{Decode ExprTransformNodeConfiguration} `{Decode ChainNodeConfiguration}.

Inductive Builtin : Type :=
| BJsFilter (x : JsFilterNode (E := E))
| BExprFilter (x : ExprFilterNode)
| BFieldFilter (x : FieldFilterNode)
| BJsSwitch (x : JsSwitchNode (E := E))
| BMsgTypeSwitch
| BGroupFilter (x : GroupFilterNode)
| BLog (x : LogNode (E := E))
| BFunctions (x : FunctionsNode)
| BIterator (x : IteratorNode (E := E))
| BDelay (x : DelayNode)
| BGroupAction (x : GroupActionNode)
| BJsTransform (x : JsTransformNode (E := E))
| BExprTransform (x : ExprTransformNode)
| BChain (x : ChainNode).

(** The [Type] methods. *)
Definition builtin_Type (n : Builtin) : string :=
  match n with
  | BJsFilter _ => "jsFilter"
  | BExprFilter _ => "exprFilter"
  | BFieldFilter _ => "fieldFilter"
  | BJsSwitch _ => "jsSwitch"
  | BMsgTypeSwitch => "msgTypeSwitch"
  | BGroupFilter _ => "groupFilter"
  | BLog _ => "log"
  | BFunctions _ => "functions"
  | BIterator _ => "iterator"
  | BDelay _ => "delay"
  | BGroupAction _ => "groupAction"
  | BJsTransform _ => "jsTransform"
  | BExprTransform _ => "exprTransform"
  | BChain _ => "flow"
  end.

(** The [New] methods. *)
Definition builtin_New (n : Builtin) : Builtin :=
  match n with
  | BJsFilter _ => BJsFilter JsFilterNode_New
  | BExprFilter _ => BExprFilter ExprFilterNode_New
  | BFieldFilter _ => BFieldFilter FieldFilterNode_New
  | BJsSwitch _ => BJsSwitch JsSwitchNode_New
  | BMsgTypeSwitch => BMsgTypeSwitch
  | BGroupFilter _ => BGroupFilter GroupFilterNode_New
  | BLog _ => BLog LogNode_New
  | BFunctions _ => BFunctions FunctionsNode_New
  | BIterator _ => BIterator IteratorNode_New
  | BDelay _ => BDelay DelayNode_New
  | BGroupAction _ => BGroupAction GroupActionNode_New
  | BJsTransform _ => BJsTransform JsTransformNode_New
  | BExprTransform _ => BExprTransform ExprTransformNode_New
  | BChain _ => BChain ChainNode_New
  end.

#[export] Instance builtin_NodeClass : NodeClass Builtin := {|
  node_Type := builtin_Type;
  node_New := builtin_New
|}.

Definition result_map {A B} (f : A → B) (r : result A) : result B := let? a := r in Ok (f a).

(** The [Init] methods. *)
Definition builtin_Init (ruleConfig : Config) (configuration : Configuration) (n : Builtin) : result Builtin :=
  match n with
  | BJsFilter x => result_map BJsFilter (JsFilterNode_Init ruleConfig configuration x)
  | BExprFilter x => result_map BExprFilter (ExprFilterNode_Init ruleConfig configuration x)
  | BFieldFilter x => result_map BFieldFilter (FieldFilterNode_Init ruleConfig configuration x)
  | BJsSwitch x => result_map BJsSwitch (JsSwitchNode_Init ruleConfig configuration x)
  | BMsgTypeSwitch => Ok BMsgTypeSwitch
  | BGroupFilter x => result_map BGroupFilter (GroupFilterNode_Init ruleConfig configuration x)
  | BLog x => result_map BLog (LogNode_Init ruleConfig configuration x)
  | BFunctions x => result_map BFunctions (FunctionsNode_Init ruleConfig configuration x)
  | BIterator x => result_map BIterator (IteratorNode_Init ruleConfig configuration x)
  | BDelay x => result_map BDelay (DelayNode_Init ruleConfig configuration x)
  | BGroupAction x => result_map BGroupAction (GroupActionNode_Init ruleConfig configuration x)
  | BJsTransform x => result_map BJsTransform (JsTransformNode_Init ruleConfig configuration x)
  | BExprTransform x => result_map BExprTransform (ExprTransformNode_Init ruleConfig configuration x)
  | BChain x => result_map BChain (ChainNode_Init ruleConfig configuration x)
  end.

(** The prototypes of packages action, filter, transform and flow, in the order [init]
    collects them. *)
Definition builtin_prototypes : list Builtin :=
  [BDelay DelayNode_New; BFunctions FunctionsNode_New; BGroupAction GroupActionNode_New; BIterator IteratorNode_New;
   BLog LogNode_New; BExprFilter ExprFilterNode_New; BFieldFilter FieldFilterNode_New; BGroupFilter GroupFilterNode_New;
   BJsFilter JsFilterNode_New; BJsSwitch JsSwitchNode_New; BMsgTypeSwitch; BExprTransform ExprTransformNode_New;
   BJsTransform JsTransformNode_New; BChain ChainNode_New].

(** With the components [X] of package external, and those a program registers itself. *)
Section Registered.
Context {X : Type} `{XC : NodeClass X}.

Inductive AppNode : Type := ABuiltin (n : Builtin) | AOther (x : X).

#[export] Instance app_NodeClass : NodeClass AppNode := {|
  node_Type := λ n, match n with ABuiltin n => builtin_Type n | AOther x => node_Type x end;
  node_New := λ n, match n with ABuiltin n => ABuiltin (builtin_New n) | AOther x => AOther (node_New x) end
|}.

(** The components [init] of [src/registry.go] registers; [external] are those of
    [external.Registry]. *)
Definition default_components (external : list X) : list AppNode :=
  (ABuiltin <$> take 13 builtin_prototypes) ++ (AOther <$> external) ++ [ABuiltin (BChain ChainNode_New)].
Definition default_registry (external : list X) : RuleComponentRegistry := register_defaults (default_components external) emptyRegistry.

(** Every type of a component that [init] collects is available after start-up, as a new
    instance of the first component of that type, and nothing else is; loading a node
    definition whose type is not among them is an error. *)
Theorem default_registry_complete external t :
  match NewNode t (default_registry external) with
  | Ok n => ∃ p, head (filter (λ p, node_Type p = t) (default_components external)) = Some p ∧ n = node_New p
  | Err err => err = err_not_found t ∧ t ∉ (node_Type <$> default_components external)
  end.
Proof.
  unfold NewNode, default_registry. rewrite register_defaults_lookup. cbn [r_components emptyRegistry]. rewrite lookup_empty.
  destruct (filter (λ p, node_Type p = t) (default_components external)) as [|n l] eqn:Ef; cbn [head]; [|by exists n].
  split; [done|]. intros (n & -> & Hn)%list_elem_of_fmap.
  assert (n ∈ filter (λ m, node_Type m = node_Type n) (default_components external)) as Hin by (by apply list_elem_of_filter).
  rewrite Ef in Hin. by apply elem_of_nil in Hin.
Qed.

End Registered.

(** What handling a message depends on besides the node: clock and ids, the
    registered functions, what comes to the [select] of a group and its wrapper
    message then, the pool of chains and what a sub-chain reports. *)
Record node_env : Type := mkEnv {
  ne_now : Z;
  ne_uuid : string;
  ne_Functions : gmap string (RuleMsg → list call);
  ne_select : select_result;
  ne_wrapper : RuleMsg;
  ne_pool : gmap string nat;
  ne_flow : list flow_event;
  ne_text : list WrapperMsg → string
}.

(** The [OnMsg] methods. *)
Definition builtin_OnMsg (env : node_env) (n : Builtin) (msg : RuleMsg) : list call * Builtin :=
  match n with
  | BJsFilter x => let '(c, x) := JsFilterNode_OnMsg x msg in (c, BJsFilter x)
  | BExprFilter x => (ExprFilterNode_OnMsg x msg, n)
  | BFieldFilter x => (FieldFilterNode_OnMsg x msg, n)
  | BJsSwitch x => let '(c, x) := JsSwitchNode_OnMsg x msg in (c, BJsSwitch x)
  | BMsgTypeSwitch => (MsgTypeSwitchNode_OnMsg msg, n)
  | BGroupFilter x => (GroupFilterNode_OnMsg x msg (ne_select env), n)
  | BLog x => let '(c, x) := LogNode_OnMsg x msg in (c, BLog x)
  | BFunctions x => (FunctionsNode_OnMsg (ne_Functions env) x msg, n)
  | BIterator x => let '(c, x) := IteratorNode_OnMsg x msg in (c, BIterator x)
  | BDelay x => let '(c, x) := DelayNode_OnMsg (ne_now env) (ne_uuid env) x msg in (delay_to_call <$> c, BDelay x)
  | BGroupAction x => (GroupActionNode_OnMsg x msg (ne_wrapper env) (ne_select env), n)
  | BJsTransform x => let '(c, x) := JsTransformNode_OnMsg x msg in (c, BJsTransform x)
  | BExprTransform x => (ExprTransformNode_OnMsg x msg, n)
  | BChain x => (ChainNode_OnMsg (ne_text env) (ne_now env) (ne_uuid env) (ne_pool env) x msg (ne_flow env), n)
  end.

(** ** Silence *)

(** The six ways a component of these packages leaves a message unanswered. *)
Definition silent (env : node_env) (n : Builtin) (msg : RuleMsg) : Prop :=
  match n with
  | BJsSwitch x => ∃ e, jw_jsEngine x = Some e ∧ (call_script "Switch" (payload_map msg) msg e).1.1 = Ok (VSlice [])
  | BFunctions x => ∃ f, ne_Functions env !! getFunctionName x msg = Some f ∧ answers (f msg) = false
  | BDelay x => m_Type msg ≠ DelayNodeMsgType ∧ dl_LastPendingMsgId x ≠ ""
  | BChain x => is_Some (ne_pool env !! fl_TargetId (fl_Config x)) ∧ FCompleted ∉ ne_flow env
  | BGroupFilter x => gf_Length x ≠ 0%Z ∧ ne_select env = NoResult ∧ (gf_Timeout (gf_Config x) ≤ 0)%Z
  | BGroupAction x => ga_Length x ≠ 0%Z ∧ ne_select env = NoResult ∧ (ga_Timeout (ga_Config x) ≤ 0)%Z
  | _ => False
  end.

Lemma iterate_answers engine msg (items : list (value * value)) :
  answers (iterate (JE := JE) engine msg items).1 = true.
Proof.
  revert engine msg. induction items as [|[index item] items IH]; intros engine msg; simpl; [done|].
  destruct (executeItem engine msg item index) as [[[calls failed] msg'] engine'] eqn:Ex.
  destruct failed.
  - simpl. revert Ex. unfold executeItem. repeat case_match; intros; by simplify_eq.
  - specialize (IH engine' msg'). destruct (iterate engine' msg' items) as [calls' e']. simpl in *.
    by rewrite answers_app, IH, orb_true_r.
Qed.

Lemma iterator_answers (x : IteratorNode (E := E)) msg : answers (IteratorNode_OnMsg x msg).1 = true.
Proof.
  unfold IteratorNode_OnMsg. case_bool_decide; [destruct (Get _ _)|destruct (payload msg)]; try done;
    match goal with |- context [iterate ?e ?m ?l] =>
      pose proof (iterate_answers e m l) as Ha; by destruct (iterate e m l) end.
Qed.

Lemma flow_answers text events calls s :
  answers (foldl (flow_step text) (calls, s) events).1 = false ↔ answers calls = false ∧ FCompleted ∉ events.
Proof.
  revert calls s. induction events as [|[m err id|] events IH]; intros calls s; simpl.
  - split; [intros ->; split; [done|apply not_elem_of_nil]|by intros [-> _]].
  - rewrite IH, not_elem_of_cons. naive_solver.
  - rewrite IH, answers_app, not_elem_of_cons. simpl. rewrite orb_true_r. naive_solver.
Qed.

Lemma switch_answers msg (l : list value) :
  answers ((λ r, TellNext msg [ToString r]) <$> l) = false ↔ l = [].
Proof. destruct l; simpl; [done|]. by split. Qed.

Lemma builtin_silence env n msg : answers (builtin_OnMsg env n msg).1 = false ↔ silent env n msg.
Proof.
  destruct n as [x|x|x|x| |x|x|x|x|x|x|x|x|x]; simpl.
  - unfold JsFilterNode_OnMsg. repeat case_match; by simplify_eq.
  - unfold ExprFilterNode_OnMsg. by repeat case_match.
  - unfold FieldFilterNode_OnMsg. by repeat case_match.
  - unfold JsSwitchNode_OnMsg. destruct (jw_jsEngine x) as [e|]; simpl; [|naive_solver].
    destruct (call_script "Switch" (payload_map msg) msg e) as [[out m'] e'] eqn:Ec; simpl.
    destruct out as [[]|err]; simpl; try (split; [done|]; intros (? & [= <-] & Hx); rewrite Ec in Hx; done).
    rewrite switch_answers. split; [intros ->; exists e; by rewrite Ec|].
    intros (? & [= <-] & Hx). rewrite Ec in Hx. by simplify_eq/=.
  - done.
  - unfold GroupFilterNode_OnMsg. destruct (ne_select env); repeat case_bool_decide; simpl; (split; [|intros (? & ? & ?)]);
      (done || lia || (intros _; split_and!; (done || lia))).
  - unfold LogNode_OnMsg. repeat case_match; by simplify_eq.
  - unfold FunctionsNode_OnMsg, FunctionsRegistry_Get. destruct (ne_Functions env !! getFunctionName x msg) as [f|] eqn:Ef; [|naive_solver].
    split; [eauto|]. intros (? & [= <-] & ?). done.
  - pose proof (iterator_answers x msg) as Hi. destruct (IteratorNode_OnMsg x msg); simpl in *. by rewrite Hi.
  - unfold DelayNode_OnMsg, delay_ack, delay_store. repeat case_match; simplify_eq; simpl;
      repeat match goal with H : bool_decide _ = true |- _ => apply bool_decide_eq_true in H
                           | H : bool_decide _ = false |- _ => apply bool_decide_eq_false in H end; naive_solver.
  - unfold GroupActionNode_OnMsg. destruct (ne_select env) as [|[]|]; repeat case_bool_decide; simpl; (split; [|intros (? & ? & ?)]);
      (done || lia || (intros _; split_and!; (done || lia))).
  - unfold JsTransformNode_OnMsg. repeat case_match; by simplify_eq.
  - unfold ExprTransformNode_OnMsg. by repeat case_match.
  - unfold ChainNode_OnMsg. destruct (ne_pool env !! _) eqn:Ep; simpl.
    + rewrite flow_answers. naive_solver.
    + split; [done|]. by intros [[? ?] _].
Qed.

(** A chain of built-in components that are never silent is responsive: the
    completion theorems of [CtxProps] apply to it. *)
Lemma builtin_responsive `{R : Runtime} :
  (∀ node msg, ∃ env n, rt_OnMsg node msg = (builtin_OnMsg env n msg).1 ∧ ¬ silent env n msg) →
  (∀ self msg rel calls, executeAroundAop self msg rel = (false, calls) → answers calls = true) →
  Responsive.
Proof.
  intros Hn Ha. constructor; [|done]. intros node msg. destruct (Hn node msg) as (env & n & -> & Hs).
  destruct (answers (builtin_OnMsg env n msg).1) eqn:Ea; [done|]. by apply builtin_silence in Ea.
Qed.

(** C21. Which components of packages action, filter, transform and flow can swallow a
    message: it is left without an answer in exactly six cases, a [jsSwitch] script that
    returns an empty array, a registered function that does not answer, a message that a
    delay node in overwrite mode absorbs, a sub-chain that never reports completion, and a
    group filter or group action without a time-out of which no member ever decides (its
    handler blocks).  Every other of these components answers every message, whatever its
    script returns; and handling a message leaves a component of the same type. *)
Theorem builtin_silent_iff env n msg :
  (answers (builtin_OnMsg env n msg).1 = false ↔ silent env n msg) ∧ builtin_Type (builtin_OnMsg env n msg).2 = builtin_Type n.
Proof.
  split; [apply builtin_silence|].
  destruct n; simpl; try done;
    match goal with |- context [let '(_, _) := ?c in _] => by destruct c end.
Qed.

End Builtin.
