(* ===== verification/Mime.v ===== *)
(** * MIME headers

    [textproto.MIMEHeader] and [http.Header], as the endpoints and the HTTP component
    use them: a map from canonical keys to values, with [Get] and [Set].  A Go header
    may be a nil map; that is [None] where a component can return one. *)

From Stdlib Require Import Ascii.
From S2P Require Import Prelude GoStrings.

Abbreviation MIMEHeader := (gmap string (list string)).

(** The token characters of RFC 7230. *)
Definition validHeaderFieldByte (c : ascii) : bool :=
  let n := nat_of_ascii c in
  ((48 <=? n) && (n <=? 57)) || ((65 <=? n) && (n <=? 90)) || ((97 <=? n) && (n <=? 122)) ||
  bool_decide (c ∈ chars "!#$%&'*+-.^_`|~").

(** Letters after a dash, and the first one, in upper case; the others in lower case. *)
Fixpoint canonical_from (upper : bool) (s : string) : string :=
  match s with
  | EmptyString => EmptyString
  | String c s' =>
      String (if upper then toUpperByte c else toLowerByte c) (canonical_from (bool_decide (c = "-"%char)) s')
  end.

(** [textproto.CanonicalMIMEHeaderKey]: keys with other characters stay as they are. *)
Definition CanonicalMIMEHeaderKey (s : string) : string :=
  if forallb validHeaderFieldByte (chars s) then canonical_from true s else s.

Definition Header_Set (key value : string) (h : MIMEHeader) : MIMEHeader :=
  <[CanonicalMIMEHeaderKey key := [value]]> h.
Definition Header_Get (key : string) (h : MIMEHeader) : string :=
  default "" (h !! CanonicalMIMEHeaderKey key ≫= head).

(** ** Lemmas *)

Lemma toUpperByte_facts c :
  validHeaderFieldByte (toUpperByte c) = validHeaderFieldByte c ∧
  toUpperByte (toUpperByte c) = toUpperByte c ∧
  bool_decide (toUpperByte c = "-"%char) = bool_decide (c = "-"%char).
Proof. by destruct c as [[] [] [] [] [] [] [] []]; vm_compute. Qed.

Lemma toLowerByte_facts c :
  validHeaderFieldByte (toLowerByte c) = validHeaderFieldByte c ∧
  toLowerByte (toLowerByte c) = toLowerByte c ∧
  bool_decide (toLowerByte c = "-"%char) = bool_decide (c = "-"%char).
Proof. by destruct c as [[] [] [] [] [] [] [] []]; vm_compute. Qed.

Lemma canonical_from_valid u s :
  forallb validHeaderFieldByte (chars (canonical_from u s)) = forallb validHeaderFieldByte (chars s).
Proof.
  revert u. induction s as [|c s IH]; intros u; [done|].
  unfold chars in *; simpl. rewrite IH.
  destruct u; [destruct (toUpperByte_facts c) as (-> & _)|destruct (toLowerByte_facts c) as (-> & _)]; done.
Qed.

Lemma canonical_from_idem u s : canonical_from u (canonical_from u s) = canonical_from u s.
Proof.
  revert u. induction s as [|c s IH]; intros u; simpl; [done|].
  destruct u; [destruct (toUpperByte_facts c) as (_ & -> & ->)|destruct (toLowerByte_facts c) as (_ & -> & ->)];
    by rewrite IH.
Qed.

(** Canonical keys are canonical. *)
Lemma CanonicalMIMEHeaderKey_idem s : CanonicalMIMEHeaderKey (CanonicalMIMEHeaderKey s) = CanonicalMIMEHeaderKey s.
Proof.
  unfold CanonicalMIMEHeaderKey at 2 3. destruct (forallb _ (chars s)) eqn:E; unfold CanonicalMIMEHeaderKey.
  - by rewrite canonical_from_valid, E, canonical_from_idem.
  - by rewrite E.
Qed.

Lemma Header_Get_Set key key' value h :
  Header_Get key' (Header_Set key value h) =
    if bool_decide (CanonicalMIMEHeaderKey key = CanonicalMIMEHeaderKey key') then value else Header_Get key' h.
Proof.
  unfold Header_Get, Header_Set. case_bool_decide as E.
  - by rewrite E, lookup_insert_eq.
  - by rewrite lookup_insert_ne.
Qed.
