(* ===== verification/Endpoint.v ===== *)
(** * Endpoint routing ([src/endpoint/endpoint.go])

    A router takes an exchange from an input ([From]) through its processors to a
    target ([To]): a rule chain of a pool, or a single component.  [MessageOps] is the
    interface [endpoint.Message]; each transport implements it for its requests and
    responses, and everything here is proved against the interface.

    Processors are known by an identifier, and what one does to an exchange, which may
    be to panic, is a parameter; the router they are also given is the one being
    modelled.  The end callbacks of one exchange run one after the other. *)

From Stdlib Require Import Ascii.
From S2P Require Import Prelude GoStrings Value Str Msg Config Dsl World RuleCtx CtxProps NodeApi Samples Mime.

(** [endpoint.Message].  Reading may change a message: some create their [RuleMsg],
    read their body or fill their headers on first use.  A nil body is [None].
    [GetParam], which only user code calls, is left out. *)
Class MessageOps (M : Type) : Type := {
  Body : M → option string * M;
  Headers : M → option MIMEHeader * M;
  From_ : M → string;
  SetMsg : RuleMsg → M → M;
  GetMsg : M → option RuleMsg * M;
  SetStatusCode : Z → M → M;
  SetBody : string → M → M;
  SetError : error → M → M;
  GetError : M → error
}.

Record Exchange (I O : Type) : Type := mkExchange { ex_In : I; ex_Out : O }.
Arguments mkExchange {I O}. Arguments ex_In {I O}. Arguments ex_Out {I O}.

(** What a processor answers: go on with the next one, or not; or it panics. *)
Inductive verdict : Type := GoOn | StopHere | PPanic (why : string).

(** How processing comes back to the transport: it returns, it panics, it never
    returns, or a callback panicked on a goroutine without [recover] and took the
    program with it. *)
Inductive ended : Type := Finished | Panicked (why : string) | Blocked | Crashed (why : string).

(** What a chain does with a message it is handed: the ends of its branches, in the order in
    which they are reported, and, when it is waited for, how many of them have been reported
    when [OnMsgAndWait] returns ([None]: it never returns).  All of them when completion is
    reported in time; but it can come early, and it need not come ([CtxRaces], [SubChain]). *)
Record chain_run : Type := mkRun { cr_ends : list (RuleMsg * error); cr_waited : option nat }.
(** Completion is reported when the last branch has ended. *)
Definition timely (run : chain_run) : Prop := cr_waited run = Some (length (cr_ends run)).

Section Endpoint.
Context `{C : Components} {I O : Type} `{MessageOps I} `{MessageOps O}.
Local Abbreviation exchange := (Exchange I O).

Definition out_Msg (m : RuleMsg) (ex : exchange) : exchange := mkExchange (ex_In ex) (SetMsg m (ex_Out ex)).
Definition out_Error (e : string) (ex : exchange) : exchange := mkExchange (ex_In ex) (SetError (Some e) (ex_Out ex)).
Definition in_GetMsg (ex : exchange) : option RuleMsg * exchange :=
  let '(m, i) := GetMsg (ex_In ex) in (m, mkExchange i (ex_Out ex)).

(** What a processor does, and whether the next one is executed. *)
Variable process : nat → exchange → verdict * exchange.

(** ** Executors *)

Inductive Executor : Type :=
| ChainExecutor
| ComponentExecutor (component : option Comp) (config : Config)
| CustomExecutor (id : nat).

(** An executor registered by the user is a parameter. *)
Variable custom_IsPathSupportVar : nat → bool.
Variable custom_Init : nat → Config → Configuration → error.

Definition Executor_New (e : Executor) : Executor :=
  match e with
  | ChainExecutor => ChainExecutor
  | ComponentExecutor _ _ => ComponentExecutor None zeroConfig
  | CustomExecutor id => CustomExecutor id
  end.
Definition IsPathSupportVar (e : Executor) : bool :=
  match e with ChainExecutor => true | ComponentExecutor _ _ => false | CustomExecutor id => custom_IsPathSupportVar id end.

Definition pathKey : string := "_path".

(** [executor.Init(config, configuration)] *)
Definition Executor_Init `{Json} (config : Config) (configuration : Configuration) (e : Executor) : res Executor :=
  match e with
  | ChainExecutor => ROk ChainExecutor
  | ComponentExecutor _ _ =>
      let nodeType := match configuration !! pathKey with Some v => ToString v | None => "" end in
      let! node := to_res (comp_NewNode (c_ComponentsRegistry config) nodeType) in
      let! node := comp_Init config configuration node in
      ROk (ComponentExecutor (Some node) config)
  | CustomExecutor id =>
      match custom_Init id config configuration with Some err => RErr err | None => ROk (CustomExecutor id) end
  end.

(** [ExecutorFactory] *)
Abbreviation ExecutorFactory := (gmap string Executor).
Definition ExecutorFactory_Register (name : string) (executor : Executor) (r : ExecutorFactory) : ExecutorFactory :=
  <[name := executor]> r.
Definition ExecutorFactory_New (name : string) (r : ExecutorFactory) : option Executor := Executor_New <$> r !! name.
(** [init] *)
Definition DefaultExecutorFactory : ExecutorFactory :=
  ExecutorFactory_Register "component" (ComponentExecutor None zeroConfig)
    (ExecutorFactory_Register "chain" ChainExecutor ∅).

(** ** Routers *)

Record To : Type := mkTo {
  to_HasVars : bool;
  to_Config : Configuration;
  to_To : string;
  to_ToPath : string;
  to_processList : list nat;
  to_executor : option Executor;
  to_wait : bool
}.
Record From : Type := mkFrom {
  from_Config : Configuration;
  from_From : string;
  from_processList : list nat;
  from_to : option To
}.
Record Router : Type := mkRouter {
  rt_from : option From;
  rt_RuleGo : nat;
  rt_Config : Config;
  rt_disable : Z
}.

Definition NewRouter (opts : list (Router → Router)) : Router :=
  foldl (λ r opt, opt r) (mkRouter None DefaultRuleGo (NewConfig []) 0) opts.
Definition WithRuleGo (ruleGo : nat) (r : Router) : Router := mkRouter (rt_from r) ruleGo (rt_Config r) (rt_disable r).
Definition WithRuleConfig (config : Config) (r : Router) : Router := mkRouter (rt_from r) (rt_RuleGo r) config (rt_disable r).

(** The configurations of a variadic call, later ones winning. *)
Definition merge_configs (configs : list Configuration) : Configuration :=
  foldl (λ acc item, item ∪ acc) ∅ configs.

(** [r.From(from, configs...)] starts a new input, without target. *)
Definition Router_From (from : string) (configs : list Configuration) (r : Router) : Router :=
  mkRouter (Some (mkFrom (merge_configs configs) from [] None)) (rt_RuleGo r) (rt_Config r) (rt_disable r).

Definition Router_Disable (disable : bool) (r : Router) : Router :=
  mkRouter (rt_from r) (rt_RuleGo r) (rt_Config r) (if disable then 1 else 0).
Definition Router_IsDisable (r : Router) : bool := bool_decide (rt_disable r = 1%Z).

Definition FromToString (r : Router) : string := match rt_from r with None => "" | Some f => from_From f end.

Definition From_Process (p : nat) (f : From) : From :=
  mkFrom (from_Config f) (from_From f) (from_processList f ++ [p]) (from_to f).
Definition To_Process (p : nat) (t : To) : To :=
  mkTo (to_HasVars t) (to_Config t) (to_To t) (to_ToPath t) (to_processList t ++ [p]) (to_executor t) (to_wait t).
Definition To_Wait (t : To) : To :=
  mkTo (to_HasVars t) (to_Config t) (to_To t) (to_ToPath t) (to_processList t) (to_executor t) true.

(** [f.To(to, configs...)], with the factory and the router's configuration; it
    panics on a target it cannot use (the input is left with a target without
    executor then, which the model does not return). *)
Definition From_To `{Json} (factory : ExecutorFactory) (config : Config) (to : string) (configs : list Configuration)
    (f : From) : outcome From :=
  let toConfig := merge_configs configs in
  let hasVars := Contains "${" to && Contains "}" to in
  let executorType := default "" (head (Split to ":"%char)) in
  let with_to t := mkFrom (from_Config f) (from_From f) (from_processList f) (Some t) in
  match ExecutorFactory_New executorType factory with
  | Some executor =>
      if hasVars && negb (IsPathSupportVar executor)
      then Panics ("executor=" +:+ executorType +:+ ", path not support variables")
      else if String.length to <? S (String.length executorType)
      then Panics "slice bounds out of range"
      else
        let n := S (String.length executorType) in
        let toPath := TrimSpace (String.substring n (String.length to - n) to) in
        let toConfig := <[pathKey := VString toPath]> toConfig in
        match Executor_Init config toConfig executor with
        | RErr err | RPanic err => Panics err
        | ROk executor => Returns (with_to (mkTo hasVars toConfig to toPath [] (Some executor) false))
        end
  | None => Returns (with_to (mkTo hasVars toConfig to to [] (Some ChainExecutor) false))
  end.

(** [f.ToComponent(node)]; [nodeType] is [node.Type()]. *)
Definition From_ToComponent (config : Config) (node : Comp) (nodeType : string) (f : From) : From :=
  mkFrom (from_Config f) (from_From f) (from_processList f)
    (Some (mkTo false ∅ nodeType nodeType [] (Some (ComponentExecutor (Some node) config)) false)).

Definition ToStringByDict (dict : list (string * string)) (t : To) : string :=
  if to_HasVars t then SprintfDict (to_ToPath t) dict else to_ToPath t.

(** ** Processing *)

(** A list of processors: stop at the first that says so. *)
Fixpoint run_processes (ps : list nat) (ex : exchange) : verdict * exchange :=
  match ps with
  | [] => (GoOn, ex)
  | p :: rest =>
      match process p ex with
      | (GoOn, ex) => run_processes rest ex
      | stop => stop
      end
  end.

(** [f.ExecuteProcess] *)
Definition ExecuteProcess (f : From) (ex : exchange) : verdict * exchange := run_processes (from_processList f) ex.

(** An end of the executed chain or component: its message, or its error. *)
Definition on_end (t : To) (e : RuleMsg * error) (ex : exchange) : verdict * exchange :=
  run_processes (to_processList t) (match e.2 with Some err => out_Error err ex | None => out_Msg e.1 ex end).

(** Ends run on goroutines of the pool: a panic there is not recovered. *)
Fixpoint run_ends (t : To) (ends : list (RuleMsg * error)) (ex : exchange) : error * exchange :=
  match ends with
  | [] => (None, ex)
  | e :: rest =>
      match on_end t e ex with
      | (PPanic why, ex) => (Some why, ex)
      | (_, ex) => run_ends t rest ex
      end
  end.

(** The first [n] ends come before the executor returns, the others after. *)
Definition run_target (t : To) (n : nat) (ends : list (RuleMsg * error)) (ex : exchange)
    : ended * exchange * list (RuleMsg * error) :=
  match run_ends t (take n ends) ex with
  | (Some why, ex) => (Crashed why, ex, [])
  | (None, ex) => (Finished, ex, drop n ends)
  end.

(** The loop for a chain that is not there: the error is set before each processor. *)
Fixpoint not_found_loop (err : string) (ps : list nat) (ex : exchange) : verdict * exchange :=
  match ps with
  | [] => (GoOn, ex)
  | p :: rest =>
      match process p (out_Error err ex) with
      | (GoOn, ex) => not_found_loop err rest ex
      | stop => stop
      end
  end.

Definition verdict_ended (v : verdict) : ended := match v with PPanic why => Panicked why | _ => Finished end.

(** What runs outside: what the engine found under a name in the router's pool
    does with a message; what a component tells; a user's executor; and, for a
    target that is not waited for, how many ends come before the executor returns. *)
Variable chain_ends : nat → string → option (RuleMsg → chain_run).
Variable component_OnMsg : Comp → RuleMsg → list call.
Variable custom_Execute : nat → Router → exchange → ended * exchange.
Variable early : nat.
Variable now : Z.
Variable uuid : string.

Definition ChainExecutor_Execute (r : Router) (ex : exchange) : ended * exchange * list (RuleMsg * error) :=
  match rt_from r with
  | None => (Finished, ex, [])
  | Some f =>
      let '(inMsg, ex) := in_GetMsg ex in
      match from_to f, inMsg with
      | Some t, Some inMsg =>
          let toChainId := ToStringByDict (Metadata_Values (m_Metadata inMsg)) t in
          match chain_ends (rt_RuleGo r) toChainId with
          | Some run =>
              let ends := cr_ends (run inMsg) in
              if to_wait t then
                match cr_waited (run inMsg) with
                | Some n => run_target t n ends ex
                | None => match run_ends t ends ex with (Some why, ex) => (Crashed why, ex, []) | (None, ex) => (Blocked, ex, []) end
                end
              else run_target t early ends ex
          | None =>
              let '(v, ex) := not_found_loop ("chainId=" +:+ toChainId +:+ " not found error") (to_processList t) ex in
              (verdict_ended v, ex, [])
          end
      | _, _ => (Finished, ex, [])
      end
  end.

(** A component that runs on an empty context: each tell ends at once, with a copy.
    What a component does later, on a timer or goroutine of its own, is not followed. *)
Fixpoint component_ends (calls : list call) : list (RuleMsg * error) * error :=
  match calls with
  | [] => ([], None)
  | CTell m err _ :: rest =>
      let '(ends, panic) := component_ends rest in ((RuleMsg_Copy now uuid m, err) :: ends, panic)
  | CPanic why :: _ => ([], Some why)
  | _ :: rest => component_ends rest
  end.

(** Waiting ends when the first end has been processed ([childDone] of the empty
    context), and never when the component does not answer. *)
Definition ComponentExecutor_Execute (component : option Comp) (r : Router) (ex : exchange)
    : ended * exchange * list (RuleMsg * error) :=
  match component, rt_from r with
  | Some c, Some f =>
      let '(inMsg, ex) := in_GetMsg ex in
      match from_to f, inMsg with
      | Some t, Some inMsg =>
          let '(ends, panic) := component_ends (component_OnMsg c inMsg) in
          match panic with
          | Some why =>
              let '(e, ex, pending) := run_target t early ends ex in
              (match e with Finished => Panicked why | _ => e end, ex, pending)
          | None =>
              if to_wait t then match ends with [] => (Blocked, ex, []) | _ => run_target t (1 `max` early) ends ex end
              else run_target t early ends ex
          end
      | _, _ => (Finished, ex, [])
      end
  | _, _ => (Finished, ex, [])
  end.

Definition To_Execute (r : Router) (t : To) (ex : exchange) : ended * exchange * list (RuleMsg * error) :=
  match to_executor t with
  | None => (Finished, ex, [])
  | Some ChainExecutor => ChainExecutor_Execute r ex
  | Some (ComponentExecutor c _) => ComponentExecutor_Execute c r ex
  | Some (CustomExecutor id) => let '(e, ex) := custom_Execute id r ex in (e, ex, [])
  end.

(** [e.DoProcess(router, exchange)] with the endpoint's interceptors: how it ends, the
    exchange at that moment, and the ends of the target that are still to come. *)
Definition DoProcess (interceptors : list nat) (r : Router) (ex : exchange)
    : ended * exchange * list (RuleMsg * error) :=
  match run_processes interceptors ex with
  | (GoOn, ex) =>
      match rt_from r with
      | None => (Finished, ex, [])
      | Some f =>
          match ExecuteProcess f ex with
          | (GoOn, ex) => match from_to f with Some t => To_Execute r t ex | None => (Finished, ex, []) end
          | (v, ex) => (verdict_ended v, ex, [])
          end
      end
  | (v, ex) => (verdict_ended v, ex, [])
  end.

(** The exchange when everything has ended. *)
Definition settle (r : Router) (x : ended * exchange * list (RuleMsg * error)) : error * exchange :=
  match rt_from r ≫= from_to with
  | Some t => run_ends t x.2 x.1.2
  | None => (None, x.1.2)
  end.

(** ** Properties *)

Lemma run_processes_app ps qs ex :
  run_processes (ps ++ qs) ex =
    match run_processes ps ex with (GoOn, ex) => run_processes qs ex | stop => stop end.
Proof.
  revert ex. induction ps as [|p ps IH]; intros ex; simpl; [done|].
  destruct (process p ex) as [[] ex']; [apply IH|done..].
Qed.

Lemma run_ends_app t es es' ex :
  run_ends t (es ++ es') ex =
    match run_ends t es ex with (None, ex) => run_ends t es' ex | crash => crash end.
Proof.
  revert ex. induction es as [|e es IH]; intros ex; simpl; [done|].
  destruct (on_end t e ex) as [[] ex']; [apply IH..|done].
Qed.

(** An exchange goes through the global interceptors, then the processors of the
    input, in order, and reaches the target exactly when none of them stopped it or
    panicked; when one does, the exchange is left as that processor left it. *)
Theorem DoProcess_spec interceptors r f ex :
  rt_from r = Some f →
  DoProcess interceptors r ex =
    match run_processes (interceptors ++ from_processList f) ex with
    | (GoOn, ex') => match from_to f with Some t => To_Execute r t ex' | None => (Finished, ex', []) end
    | (v, ex') => (verdict_ended v, ex', [])
    end.
Proof.
  intros Hf. unfold DoProcess, ExecuteProcess. rewrite run_processes_app, Hf.
  destruct (run_processes interceptors ex) as [[] ex1]; simpl; [|done..].
  by destruct (run_processes (from_processList f) ex1) as [[] ex2].
Qed.

Lemma run_target_all t n ends ex :
  length ends ≤ n →
  run_target t n ends ex =
    match run_ends t ends ex with (Some why, ex) => (Crashed why, ex, []) | (None, ex) => (Finished, ex, []) end.
Proof.
  intros Hn. unfold run_target. rewrite take_ge, drop_ge by done. by destruct (run_ends t ends ex) as [[] ex'].
Qed.

Lemma run_target_settle r f t n ends ex ex' pending :
  rt_from r = Some f → from_to f = Some t →
  run_target t n ends ex = (Finished, ex', pending) →
  settle r (Finished, ex', pending) = run_ends t ends ex.
Proof.
  intros Hf Ht. unfold run_target, settle. rewrite Hf; simpl; rewrite Ht.
  replace (run_ends t ends ex) with (run_ends t (take n ends ++ drop n ends) ex) by (by rewrite take_drop).
  rewrite run_ends_app.
  destruct (run_ends t (take n ends) ex) as [[] ex1]; [done|]. by intros [= <- <-].
Qed.

(** The chain of a target is run the same whether the router waits for it or not: the
    exchange ends up as the chain's ends, processed in order, leave it.  With [Wait] and a
    chain that completes in time all of that has happened when the transport goes on; without
    it, the exchange may still be untouched then.  A chain that does not complete blocks a
    transport that waits. *)
Theorem ChainExecutor_wait r f t ex inMsg ex1 run :
  rt_from r = Some f → from_to f = Some t → in_GetMsg ex = (Some inMsg, ex1) →
  chain_ends (rt_RuleGo r) (ToStringByDict (Metadata_Values (m_Metadata inMsg)) t) = Some run →
  let ends := cr_ends (run inMsg) in
  (to_wait t = true → timely (run inMsg) → (ChainExecutor_Execute r ex).2 = []) ∧
  match ChainExecutor_Execute r ex with
  | (Finished, _, _) as x => settle r x = run_ends t ends ex1
  | (Crashed why, ex', _) => ∃ es, es `prefix_of` ends ∧ run_ends t es ex1 = (Some why, ex')
  | (Blocked, ex', _) => to_wait t = true ∧ cr_waited (run inMsg) = None ∧ run_ends t ends ex1 = (None, ex')
  | _ => False
  end.
Proof.
  intros Hf Ht Hin Hends ends. unfold ChainExecutor_Execute. rewrite Hf, Hin, Ht, Hends. fold ends. split.
  - intros Hw Hti. unfold timely in Hti. rewrite Hw, Hti, run_target_all by done. by destruct (run_ends _ _ _) as [[] ?].
  - assert (∀ n, match run_target t n ends ex1 with
      | (Finished, _, _) as x => settle r x = run_ends t ends ex1
      | (Crashed why, ex', _) => ∃ es, es `prefix_of` ends ∧ run_ends t es ex1 = (Some why, ex')
      | _ => False end) as Hrun.
    { intros n. destruct (run_target t n ends ex1) as [[e ex'] pending] eqn:E. pose proof E as E'. unfold run_target in E'.
      destruct (run_ends t (take n ends) ex1) as [[why|] ex2] eqn:E2; simplify_eq.
      + exists (take n ends). split; [|done]. exists (drop n ends). by rewrite take_drop.
      + by eapply run_target_settle. }
    destruct (to_wait t); [destruct (cr_waited (run inMsg)) as [n|]|].
    + specialize (Hrun n). by destruct (run_target t n ends ex1) as [[[] ?] ?].
    + destruct (run_ends t ends ex1) as [[why|] ex'] eqn:E; [by exists ends|done].
    + specialize (Hrun early). by destruct (run_target t early ends ex1) as [[[] ?] ?].
Qed.

(** A target component that is waited for and does not answer blocks the transport for
    ever; one that answers is waited for until its first answer has been processed. *)
Theorem ComponentExecutor_wait c r f t ex inMsg ex1 ends :
  rt_from r = Some f → from_to f = Some t → to_wait t = true → in_GetMsg ex = (Some inMsg, ex1) →
  component_ends (component_OnMsg c inMsg) = (ends, None) →
  ((ComponentExecutor_Execute (Some c) r ex).1.1 = Blocked ↔ ends = []) ∧
  (∀ e es v ex2, ends = e :: es → early = 0 → on_end t e ex1 = (v, ex2) → (∀ why, v ≠ PPanic why) →
    ComponentExecutor_Execute (Some c) r ex = (Finished, ex2, es)).
Proof.
  intros Hf Ht Hw Hin Hends. unfold ComponentExecutor_Execute. rewrite Hf, Hin, Ht, Hends, Hw. split.
  - destruct ends as [|e es]; [done|]. unfold run_target. by destruct (run_ends _ _ _) as [[] ?].
  - intros e es v ex2 -> -> Hv Hp. unfold run_target; simpl. rewrite Hv, drop_0.
    destruct v; [done..|]. by destruct (Hp why).
Qed.

Lemma Split_head_sep w rest sep :
  sep ∉ chars w → head (Split (w +:+ String sep rest) sep) = Some w.
Proof.
  induction w as [|c w IH]; simpl; intros Hn.
  - by rewrite bool_decide_true.
  - unfold chars in Hn; simpl in Hn. apply not_elem_of_cons in Hn as [Hc Hn]. rewrite bool_decide_false by done.
    specialize (IH Hn). destruct (Split (w +:+ String sep rest) sep); simpl in *; [done|]. by simplify_eq.
Qed.

Lemma substring_app w rest : String.substring (String.length w) (String.length rest) (w +:+ rest) = rest.
Proof.
  induction w as [|c w IH]; simpl; [|done].
  induction rest as [|c rest IH]; simpl; [done|]. by rewrite IH.
Qed.

(** How a target is read.  With a prefix [executorType:] that the factory
    knows, the target uses that executor on the trimmed rest (or panics, when the path
    has variables the executor does not support, or the executor rejects it or panics); a known
    type without a colon panics; any other text is the id of a chain. *)
Theorem From_To_spec `{Json} factory config executorType path configs f e :
  ":"%char ∉ chars executorType → ExecutorFactory_New executorType factory = Some e →
  From_To factory config executorType configs f =
    (if Contains "${" executorType && Contains "}" executorType && negb (IsPathSupportVar e)
     then Panics ("executor=" +:+ executorType +:+ ", path not support variables")
     else Panics "slice bounds out of range") ∧
  (let to := executorType +:+ ":" +:+ path in
   if Contains "${" to && Contains "}" to && negb (IsPathSupportVar e)
   then ∃ why, From_To factory config to configs f = Panics why
   else match Executor_Init config (<[pathKey := VString (TrimSpace path)]> (merge_configs configs)) e with
        | RErr err | RPanic err => From_To factory config to configs f = Panics err
        | ROk e' => ∃ t, From_To factory config to configs f =
             Returns (mkFrom (from_Config f) (from_From f) (from_processList f) (Some t)) ∧
             to_executor t = Some e' ∧ to_ToPath t = TrimSpace path ∧ to_processList t = []
        end).
Proof.
  intros Hsep He. unfold From_To. split.
  - assert (head (Split executorType ":"%char) = Some executorType) as ->.
    { clear -Hsep. induction executorType as [|c w IH]; simpl; [done|].
      unfold chars in Hsep; simpl in Hsep. apply not_elem_of_cons in Hsep as [Hc Hn].
      rewrite bool_decide_false by done. specialize (IH Hn). destruct (Split w ":"%char); simpl in *; by simplify_eq. }
    simpl. rewrite He. destruct (Contains "${" executorType && Contains "}" executorType); simpl;
      [destruct (IsPathSupportVar e); simpl; [|done]|]; by rewrite (proj2 (Nat.ltb_lt _ _)) by lia.
  - set (to := executorType +:+ ":" +:+ path). cbv zeta.
    assert (head (Split to ":"%char) = Some executorType) as -> by (by apply (Split_head_sep executorType path ":"%char)).
    simpl. rewrite He. case_match; [by eexists|].
    assert (String.length to = S (String.length executorType) + String.length path) as Hlen.
    { unfold to. rewrite !string_app_length. simpl. lia. }
    rewrite (proj2 (Nat.ltb_ge _ _)) by lia. rewrite Hlen.
    replace (S (String.length executorType) + String.length path - S (String.length executorType)) with (String.length path) by lia.
    assert (String.substring (S (String.length executorType)) (String.length path) to = path) as ->.
    { unfold to. replace (S (String.length executorType)) with (String.length (executorType +:+ ":"))
        by (rewrite string_app_length; simpl; lia).
      rewrite <- string_app_assoc. apply substring_app. }
    destruct (Executor_Init _ _ e); [|done..]. eexists. done.
Qed.

(** A chain target that does not exist is reported to the processors of the
    target only: each sees the error set just before it runs; without processors the
    exchange is not changed at all, so the caller sees no error. *)
Theorem ChainExecutor_not_found r f t ex inMsg ex1 :
  rt_from r = Some f → from_to f = Some t → in_GetMsg ex = (Some inMsg, ex1) →
  let toChainId := ToStringByDict (Metadata_Values (m_Metadata inMsg)) t in
  let err := "chainId=" +:+ toChainId +:+ " not found error" in
  chain_ends (rt_RuleGo r) toChainId = None →
  match to_processList t with
  | [] => ChainExecutor_Execute r ex = (Finished, ex1, [])
  | p :: rest =>
      ChainExecutor_Execute r ex =
        match process p (out_Error err ex1) with
        | (GoOn, ex2) => let '(v, ex3) := not_found_loop err rest ex2 in (verdict_ended v, ex3, [])
        | (v, ex2) => (verdict_ended v, ex2, [])
        end
  end.
Proof.
  intros Hf Ht Hm toChainId err Hno. unfold ChainExecutor_Execute. rewrite Hf, Hm, Ht. fold toChainId. rewrite Hno.
  destruct (to_processList t) as [|p rest]; [done|]. simpl. fold err.
  by destruct (process p _) as [[] ex'].
Qed.

End Endpoint.

(** What an endpoint finds around it, for [DoProcess]. *)
Record Env `{Components} (I O : Type) : Type := mkEnv {
  env_process : nat → Exchange I O → verdict * Exchange I O;
  env_chain_ends : nat → string → option (RuleMsg → chain_run);
  env_component_OnMsg : Comp → RuleMsg → list call;
  env_custom_Execute : nat → Router → Exchange I O → ended * Exchange I O;
  env_early : nat;
  env_now : Z;
  env_uuid : string
}.
Arguments mkEnv {_ I O}. Arguments env_process {_ I O}. Arguments env_chain_ends {_ I O}.
Arguments env_component_OnMsg {_ I O}. Arguments env_custom_Execute {_ I O}. Arguments env_early {_ I O}.
Arguments env_now {_ I O}. Arguments env_uuid {_ I O}.

Definition do_process `{Components} {I O} `{MessageOps I} `{MessageOps O} (E : Env I O) (interceptors : list nat)
    (r : Router) (ex : Exchange I O) : ended * Exchange I O * list (RuleMsg * error) :=
  DoProcess (env_process E) (env_chain_ends E) (env_component_OnMsg E) (env_custom_Execute E) (env_early E)
    (env_now E) (env_uuid E) interceptors r ex.

(** The routers of the program, by address. *)
Abbreviation routers := (gmap nat Router).
Definition set_disable `{Components} (b : bool) (a : nat) (rs : routers) : routers := alter (Router_Disable b) a rs.

(** [BaseEndpoint]: routers are shared by pointer, so the storage holds addresses. *)
Record BaseEndpoint : Type := mkBase { be_interceptors : list nat; be_RouterStorage : gmap string nat }.
Definition BaseEndpoint_AddInterceptors (l : list nat) (e : BaseEndpoint) : BaseEndpoint :=
  mkBase (be_interceptors e ++ l) (be_RouterStorage e).
Definition set_RouterStorage (m : gmap string nat) (e : BaseEndpoint) : BaseEndpoint := mkBase (be_interceptors e) m.
(** [BaseEndpoint.OnMsg]: an endpoint is a node that takes no messages. *)
Definition BaseEndpoint_OnMsg (msg : RuleMsg) : list call := [CPanic "not support this method"].

(** [defer func() { if e := recover(); e != nil {...} }()] around the processing. *)
Definition recovered (e : ended) : ended := match e with Panicked _ => Finished | _ => e end.

Module EndpointExample.
Import Samples NodeSamples.

(** A message with nothing but what a processor can set. *)
Record message : Type := mkMessage { ms_Body : string; ms_Msg : option RuleMsg; ms_Error : error; ms_StatusCode : Z }.
#[export] Instance message_ops : MessageOps message := {|
  Body x := (Some (ms_Body x), x);
  Headers x := (None, x);
  From_ _ := "";
  SetMsg m x := mkMessage (ms_Body x) (Some m) (ms_Error x) (ms_StatusCode x);
  GetMsg x := (ms_Msg x, x);
  SetStatusCode c x := mkMessage (ms_Body x) (ms_Msg x) (ms_Error x) c;
  SetBody b x := mkMessage b (ms_Msg x) (ms_Error x) (ms_StatusCode x);
  SetError e x := mkMessage (ms_Body x) (ms_Msg x) e (ms_StatusCode x);
  GetError x := ms_Error x
|}.

(** Processor 0 stops an exchange whose body is "stop"; the others mark the status. *)
Definition process (p : nat) (ex : Exchange message message) : verdict * Exchange message message :=
  if bool_decide (p = 0 ∧ ms_Body (ex_In ex) = "stop") then (StopHere, ex)
  else (GoOn, mkExchange (ex_In ex) (SetStatusCode (ms_StatusCode (ex_Out ex) + Z.of_nat p) (ex_Out ex))).

Definition in_msg (body : string) : message := mkMessage body (Some (sample_msg "1" body)) None 0.
Definition exchange (body : string) : Exchange message message := mkExchange (in_msg body) (mkMessage "" None None 0).
Definition to_chain (id : string) (ps : list nat) (wait : bool) : To :=
  mkTo false ∅ ("chain:" +:+ id) id ps (Some ChainExecutor) wait.
Definition to_node (wait : bool) : To := mkTo false ∅ "n" "n" [] None wait.
Definition from1 (ps : list nat) (t : To) : From := mkFrom ∅ "/api" ps (Some t).
Definition router (ps : list nat) (t : To) : Router := mkRouter (Some (from1 ps t)) DefaultRuleGo cfg 0.
(** One chain, "c1", with two ends. *)
Definition two_ends (m : RuleMsg) : chain_run := mkRun [(set_Data "first" m, None); (set_Data "second" m, None)] (Some 2).
Definition chains (pool : nat) (id : string) : option (RuleMsg → chain_run) :=
  if bool_decide (id = "c1") then Some two_ends else None.
Definition handler (c : Comp) (m : RuleMsg) : list call := [TellSuccess m].
Definition silent (c : Comp) (m : RuleMsg) : list call := [].
Definition custom (id : nat) (r : Router) (ex : Exchange message message) : ended * Exchange message message := (Finished, ex).
Definition custom_init (id : nat) (c : Config) (conf : Configuration) : error := None.

Lemma DoProcess_witness :
  DoProcess process chains handler custom 0 5 "u" [2] (router [0; 3] (to_chain "c1" [] true)) (exchange "stop") =
    (Finished, mkExchange (in_msg "stop") (mkMessage "" None None 2), []).
Proof.
  rewrite (DoProcess_spec process chains handler custom 0 5 "u" [2] (router [0; 3] (to_chain "c1" [] true))
    (from1 [0; 3] (to_chain "c1" [] true)) (exchange "stop") eq_refl).
  vm_compute. reflexivity.
Defined.

Lemma From_To_witness :
  From_To (λ _, false) custom_init DefaultExecutorFactory cfg "chain" [] (from1 [] (to_node false)) =
    Panics "slice bounds out of range" ∧
  ∃ t, From_To (λ _, false) custom_init DefaultExecutorFactory cfg "chain: c1 " [] (from1 [] (to_node false)) =
         Returns (mkFrom ∅ "/api" [] (Some t)) ∧
       to_executor t = Some ChainExecutor ∧ to_ToPath t = "c1".
Proof.
  destruct (From_To_spec (λ _, false) custom_init DefaultExecutorFactory cfg "chain" " c1 " [] (from1 [] (to_node false)) ChainExecutor) as [H1 H2];
    [by_decide|vm_compute; reflexivity|].
  split; [exact H1|]. destruct H2 as (t & Ht & He & Hp & _). exists t. split; [exact Ht|]. split; [exact He|exact Hp].
Defined.

(** Not waited for, the chain leaves the exchange untouched at first. *)
Lemma ChainExecutor_wait_witness :
  let r := router [] (to_chain "c1" [7] false) in
  (ChainExecutor_Execute process chains 0 r (exchange "x")).1 = (Finished, exchange "x") ∧
  ∃ ex, settle process r (ChainExecutor_Execute process chains 0 r (exchange "x")) = (None, ex) ∧
        (m_Data <$> ms_Msg (ex_Out ex)) = Some "second" ∧ ms_StatusCode (ex_Out ex) = 14%Z.
Proof.
  simpl. split; [vm_compute; reflexivity|].
  destruct (ChainExecutor_wait process chains 0 (router [] (to_chain "c1" [7] false)) (from1 [] (to_chain "c1" [7] false))
    (to_chain "c1" [7] false) (exchange "x") (sample_msg "1" "x") (exchange "x") two_ends) as [_ H]; [reflexivity..|].
  match type of H with match ?a with _ => _ end => assert (a.1.1 = Finished) as E by (vm_compute; reflexivity);
    destruct a as [[[] ex'] pending] end; try discriminate E. rewrite H.
  eexists. split; [vm_compute; reflexivity|]. split; vm_compute; reflexivity.
Defined.

Lemma ComponentExecutor_wait_witness c :
  (ComponentExecutor_Execute process silent 0 5 "u" (Some c) (router [] (to_node true)) (exchange "x")).1.1 = Blocked.
Proof.
  apply (ComponentExecutor_wait process silent 0 5 "u" c (router [] (to_node true)) (from1 [] (to_node true)) (to_node true)
    (exchange "x") (sample_msg "1" "x") (exchange "x") []); reflexivity.
Defined.

Lemma ChainExecutor_not_found_witness :
  ChainExecutor_Execute process chains 0 (router [] (to_chain "nosuch" [] true)) (exchange "x") = (Finished, exchange "x", []).
Proof.
  apply (ChainExecutor_not_found process chains 0 (router [] (to_chain "nosuch" [] true)) (from1 [] (to_chain "nosuch" [] true))
    (to_chain "nosuch" [] true) (exchange "x") (sample_msg "1" "x")); reflexivity.
Defined.

End EndpointExample.
