(* ===== verification/HttpApi.v ===== *)
(** * HTTP, as the HTTP and websocket endpoints use it

    A request and a response writer are interfaces of Go's HTTP server, and the
    path router is a package of its own: all three are parameters, with what the
    endpoints rely on.  Below, what the two endpoints do alike. *)

From Stdlib Require Import Ascii.
From S2P Require Import Prelude GoStrings Value Str Msg Mime Config JsEngine.

(** [*http.Request] of a server: reading the body consumes it;
    [rq_Query] is [r.URL.Query()], whose value lists are not empty. *)
Class HttpRequest (Rq : Type) : Type := {
  rq_URL_String : Rq → string;
  rq_Query : Rq → gmap string (list string);
  rq_Header : Rq → MIMEHeader;
  rq_ReadBody : Rq → string * Rq;
  rq_Query_nonempty : ∀ r k, rq_Query r !! k ≠ Some []
}.

(** [http.ResponseWriter] *)
Class ResponseWriter (W : Type) : Type := {
  rw_Header : W → MIMEHeader;
  rw_PutHeader : MIMEHeader → W → W;    (* changes through the map [w.Header()] *)
  rw_WriteHeader : Z → W → W;
  rw_Write : string → W → W
}.

Definition newline : string := String (ascii_of_nat 10) "".

(** [http.NotFound(w, r)] *)
Definition NotFound {W} `{ResponseWriter W} (w : W) : W :=
  let h := Header_Set "X-Content-Type-Options" "nosniff" (Header_Set "Content-Type" "text/plain; charset=utf-8" (rw_Header w)) in
  rw_Write ("404 page not found" +:+ newline) (rw_WriteHeader 404 (rw_PutHeader h w)).

(** Package httprouter: [hr_conflict] says whether [Handle] panics given what is
    registered, [hr_match] which registered method and path a request goes to, with its
    path parameters.  Documented: a request is only given to what was registered. *)
Class HttpRouter : Type := {
  hr_conflict : list (string * string) → string → string → bool;
  hr_match : list (string * string) → string → string → option (string * string * list (string * string));
  hr_match_registered : ∀ routes m url m' p params,
    hr_match routes m url = Some (m', p, params) → (m', p) ∈ routes
}.

(** [routerKey] *)
Definition routerKey (method from : string) : string := method +:+ " " +:+ from.

(** ** Metadata from the request *)

Section Metadata.
Context `{J : Json} `{MR : MapRange}.

(** [for _, param := range params { msg.Metadata.PutValue(param.Key, param.Value) }] *)
Definition put_params (params : list (string * string)) (md : Metadata) : Metadata :=
  foldl (λ md '(k, v), Metadata_PutValue md k v) md params.

(** One value as it is, several as JSON. *)
Definition query_value (value : list string) : string :=
  match value with
  | [v] => v
  | [] => ""
  | _ => ToString (VSlice (VString <$> value))
  end.
(** [for key, value := range r.URL.Query() { ... }] *)
Definition put_query (query : gmap string (list string)) (md : Metadata) : Metadata :=
  foldl (λ md '(k, v), Metadata_PutValue md k (query_value v)) md (range query).

Lemma foldl_PutValue {A} (f : A → string) (l : list (string * A)) md k :
  k ∉ l.*1 → foldl (λ md '(k, v), Metadata_PutValue md k (f v)) md l !! k = md !! k.
Proof.
  revert md. induction l as [|[k' v] l IH]; intros md Hk; simpl; [done|].
  simpl in Hk. apply not_elem_of_cons in Hk as [Hne Hk]. rewrite IH by done.
  rewrite Metadata_PutValue_lookup. rewrite bool_decide_false; naive_solver.
Qed.

(** Every query variable is in the metadata afterwards, whatever the order in which
    the map is walked, and everything else is kept. *)
Lemma put_query_lookup query md k :
  k ≠ "" →
  put_query query md !! k = match query !! k with Some v => Some (query_value v) | None => md !! k end.
Proof.
  intros Hk. unfold put_query. destruct (query !! k) as [v|] eqn:E.
  - apply range_elem, list_elem_of_split in E as (l1 & l2 & Hl).
    pose proof (range_NoDup query) as Hnd. rewrite Hl in *. rewrite foldl_app; simpl.
    rewrite fmap_app in Hnd; simpl in Hnd. apply NoDup_app in Hnd as (_ & _ & [Hn _]%NoDup_cons).
    rewrite foldl_PutValue by done. rewrite Metadata_PutValue_lookup, bool_decide_true; done.
  - rewrite foldl_PutValue; [done|]. intros [[k' v] [Heq Hin]]%list_elem_of_fmap. simpl in Heq; subst k'.
    apply range_elem in Hin. congruence.
Qed.

(** The last path parameter of a name counts. *)
Lemma put_params_lookup params md k :
  k ≠ "" →
  put_params params md !! k = match assoc k (reverse params) with Some v => Some v | None => md !! k end.
Proof.
  intros Hk. unfold put_params. induction params as [|[k' v] params IH] using rev_ind; [done|].
  rewrite foldl_app, reverse_snoc; simpl. rewrite Metadata_PutValue_lookup. case_bool_decide as E.
  - destruct E as [_ ->]. by rewrite bool_decide_true.
  - rewrite bool_decide_false by naive_solver. apply IH.
Qed.

End Metadata.

(** Methods have no space, so keys do not collide. *)
Lemma routerKey_inj m m' p p' :
  " "%char ∉ chars m → " "%char ∉ chars m' → routerKey m p = routerKey m' p' → m = m' ∧ p = p'.
Proof.
  unfold routerKey. revert m'. induction m as [|c m IH]; intros [|c' m'] H1 H2 Heq; simpl in Heq.
  - by simplify_eq.
  - simplify_eq. unfold chars in H2; simpl in H2. apply not_elem_of_cons in H2 as [? _]; done.
  - simplify_eq. unfold chars in H1; simpl in H1. apply not_elem_of_cons in H1 as [? _]; done.
  - unfold chars in *; simpl in *. apply not_elem_of_cons in H1 as [_ H1]. apply not_elem_of_cons in H2 as [_ H2].
    injection Heq as -> Heq. destruct (IH m' H1 H2 Heq) as [-> ->]. done.
Qed.

(** ** Concrete instances, for witnesses *)
Module HttpSamples.

(** A request with one query map; a writer that records. *)
Record request : Type := mkReq { sr_url : string; sr_query : gmap string (list string); sr_header : MIMEHeader; sr_body : string }.
#[export] Program Instance request_http : HttpRequest request := {|
  rq_URL_String := sr_url;
  rq_Query r := filter (λ kv, kv.2 ≠ []) (sr_query r);
  rq_Header := sr_header;
  rq_ReadBody r := (sr_body r, mkReq (sr_url r) (sr_query r) (sr_header r) "")
|}.
Next Obligation. intros r k [_ H]%map_lookup_filter_Some. done. Qed.

Record writer : Type := mkWriter { sw_header : MIMEHeader; sw_status : option Z; sw_body : string }.
#[export] Instance writer_http : ResponseWriter writer := {|
  rw_Header := sw_header;
  rw_PutHeader h w := mkWriter h (sw_status w) (sw_body w);
  rw_WriteHeader c w := mkWriter (sw_header w) (match sw_status w with None => Some c | s => s end) (sw_body w);
  rw_Write b w := mkWriter (sw_header w) (match sw_status w with None => Some 200%Z | s => s end) (sw_body w +:+ b)
|}.
Definition new_writer : writer := mkWriter ∅ None "".

(** A path router that matches paths literally. *)
#[export] Program Instance literal_router : HttpRouter := {|
  hr_conflict routes m p := bool_decide ((m, p) ∈ routes);
  hr_match routes m url := if bool_decide ((m, url) ∈ routes) then Some (m, url, []) else None
|}.
Next Obligation. intros routes m url m' p params H. simpl in H. case_bool_decide; by simplify_eq. Qed.

#[export] Program Instance list_range : MapRange := {| range A m := map_to_list m |}.
Next Obligation. done. Qed.

End HttpSamples.
