(* ===== verification/Rest.v ===== *)
(** * The HTTP endpoint ([src/endpoint/rest/rest.go])

    Routers are shared by pointer: the storage of the endpoint and the closures given
    to the path router hold addresses into [routers].  Methods are compared as text. *)

From Stdlib Require Import Ascii.
From S2P Require Import Prelude GoStrings Value Str Msg Config Dsl World RuleCtx JsEngine NodeApi Samples Mime Endpoint HttpApi.

Section Rest.
Context `{C : Components} `{J : Json} `{MR : MapRange} {Rq W : Type} `{HttpRequest Rq} `{ResponseWriter W} `{HR : HttpRouter}.
Variable now : Z.
Variable uuid : string.

Definition ContentTypeKey : string := "Content-Type".
Definition JsonContextType : string := "application/json".

(** ** Messages *)

Record RequestMessage : Type := mkRequest {
  rm_request : option Rq;
  rm_body : option string;
  rm_Params : list (string * string);
  rm_msg : option RuleMsg;
  rm_err : error
}.

Definition RequestMessage_Body (r : RequestMessage) : option string * RequestMessage :=
  match rm_body r, rm_request r with
  | None, Some q =>
      let '(entry, q) := rq_ReadBody q in
      (Some entry, mkRequest (Some q) (Some entry) (rm_Params r) (rm_msg r) (rm_err r))
  | body, _ => (body, r)
  end.
Definition RequestMessage_Headers (r : RequestMessage) : option MIMEHeader := rq_Header <$> rm_request r.
Definition RequestMessage_From (r : RequestMessage) : string := default "" (rq_URL_String <$> rm_request r).
Definition RequestMessage_SetMsg (msg : RuleMsg) (r : RequestMessage) : RequestMessage :=
  mkRequest (rm_request r) (rm_body r) (rm_Params r) (Some msg) (rm_err r).
Definition RequestMessage_GetMsg (r : RequestMessage) : option RuleMsg * RequestMessage :=
  match rm_msg r with
  | Some msg => (Some msg, r)
  | None =>
      let contentType := Header_Get ContentTypeKey (default ∅ (RequestMessage_Headers r)) in
      let dataType := if bool_decide (contentType = JsonContextType) then JSON else TEXT in
      let '(body, r) := RequestMessage_Body r in
      let ruleMsg := NewMsg now uuid uuid 0 (RequestMessage_From r) dataType NewMetadata (default "" body) in
      (Some ruleMsg, RequestMessage_SetMsg ruleMsg r)
  end.
Definition RequestMessage_SetBody (body : string) (r : RequestMessage) : RequestMessage :=
  mkRequest (rm_request r) (Some body) (rm_Params r) (rm_msg r) (rm_err r).
Definition RequestMessage_SetError (err : error) (r : RequestMessage) : RequestMessage :=
  mkRequest (rm_request r) (rm_body r) (rm_Params r) (rm_msg r) err.

#[global] Instance RequestMessage_ops : MessageOps RequestMessage := {|
  Body := RequestMessage_Body;
  Headers r := (RequestMessage_Headers r, r);
  From_ := RequestMessage_From;
  SetMsg := RequestMessage_SetMsg;
  GetMsg := RequestMessage_GetMsg;
  SetStatusCode _ r := r;
  SetBody := RequestMessage_SetBody;
  SetError := RequestMessage_SetError;
  GetError := rm_err
|}.

Record ResponseMessage : Type := mkResponse {
  rs_request : option Rq;
  rs_response : option W;
  rs_body : option string;
  rs_msg : option RuleMsg;
  rs_err : error
}.
Definition ResponseMessage_SetStatusCode (statusCode : Z) (r : ResponseMessage) : ResponseMessage :=
  mkResponse (rs_request r) (rw_WriteHeader statusCode <$> rs_response r) (rs_body r) (rs_msg r) (rs_err r).
Definition ResponseMessage_SetBody (body : string) (r : ResponseMessage) : ResponseMessage :=
  mkResponse (rs_request r) (rw_Write body <$> rs_response r) (Some body) (rs_msg r) (rs_err r).

#[global] Instance ResponseMessage_ops : MessageOps ResponseMessage := {|
  Body r := (rs_body r, r);
  Headers r := (rw_Header <$> rs_response r, r);
  From_ r := default "" (rq_URL_String <$> rs_request r);
  SetMsg msg r := mkResponse (rs_request r) (rs_response r) (rs_body r) (Some msg) (rs_err r);
  GetMsg r := (rs_msg r, r);
  SetStatusCode := ResponseMessage_SetStatusCode;
  SetBody := ResponseMessage_SetBody;
  SetError err r := mkResponse (rs_request r) (rs_response r) (rs_body r) (rs_msg r) err;
  GetError := rs_err
|}.

(** ** The endpoint *)

Record RestConfig : Type := mkRestConfig { rc_Server : string; rc_CertFile : string; rc_CertKeyFile : string }.

(** [re_router] is what was given to the path router: method, path and the router the
    handler closes over.  [re_server] says whether [Start] has made a server. *)
Record Rest : Type := mkRest {
  re_base : BaseEndpoint;
  re_Config : RestConfig;
  re_RuleConfig : Config;
  re_router : option (list (string * string * nat));
  re_server : bool
}.
Definition Rest_New : Rest := mkRest (mkBase [] ∅) (mkRestConfig "" "" "") zeroConfig None false.
Definition set_routes (base : BaseEndpoint) (routes : list (string * string * nat)) (x : Rest) : Rest :=
  mkRest base (re_Config x) (re_RuleConfig x) (Some routes) (re_server x).

Definition Rest_Init `{Decode RestConfig} (ruleConfig : Config) (configuration : Configuration) (x : Rest) : error * Rest :=
  let '(err, conf) := Map2Struct configuration (re_Config x) in
  (err, mkRest (re_base x) conf ruleConfig (re_router x) (re_server x)).
Definition Rest_Id (x : Rest) : string := rc_Server (re_Config x).

Definition routes_of (x : Rest) : list (string * string * nat) := default [] (re_router x).

(** The registration of one router under an upper-case method.  The storage is written
    before the path router is asked, which may panic. *)
Definition add_one (method : string) (a : nat) (rs : routers) (x : Rest) : outcome (routers * Rest) * (routers * Rest) :=
  match rs !! a with
  | None => (Panics "nil router", (rs, x))
  | Some r =>
      let key := routerKey method (FromToString r) in
      match be_RouterStorage (re_base x) !! key with
      | Some old => let rs := set_disable false old rs in (Returns (rs, x), (rs, x))
      | None =>
          let base := set_RouterStorage (<[key := a]> (be_RouterStorage (re_base x))) (re_base x) in
          let routes := routes_of x in
          if hr_conflict routes.*1 method (FromToString r)
          then (Panics "conflicts with existing route", (rs, set_routes base routes x))
          else let x := set_routes base (routes ++ [(method, FromToString r, a)]) x in (Returns (rs, x), (rs, x))
      end
  end.

(** [rest.addRouter(method, router)]; the state after a panic is kept. *)
Definition addRouter (method : string) (a : nat) (st : routers * Rest) : outcome unit * (routers * Rest) :=
  let x := set_routes (re_base st.2) (routes_of st.2) st.2 in
  match add_one (ToUpper method) a st.1 x with
  | (Returns _, st) => (Returns tt, st)
  | (Panics why, st) => (Panics why, st)
  end.

Fixpoint addRouters (methods : list string) (a : nat) (st : routers * Rest) : outcome unit * (routers * Rest) :=
  match methods with
  | [] => (Returns tt, st)
  | m :: rest =>
      match addRouter m a st with
      | (Returns _, st) => addRouters rest a st
      | stop => stop
      end
  end.

(** [rest.AddRouter(router, params...)]: the id of a router is its path.  The address
    [None] is the nil router; a router without input is added under the empty path
    before its nil input is read. *)
Definition Rest_AddRouter (router : option nat) (params : list value) (st : routers * Rest)
    : outcome (result string) * (routers * Rest) :=
  match params, router with
  | [], _ => (Returns (Err "need to specify HTTP method"), st)
  | _, None => (Returns (Err "router can not nil"), st)
  | _, Some a =>
      match addRouters (ToString <$> params) a st with
      | (Panics why, st) => (Panics why, st)
      | (Returns _, st) =>
          match st.1 !! a ≫= rt_from with
          | Some f => (Returns (Ok (from_From f)), st)
          | None => (Panics "invalid memory address or nil pointer dereference", st)
          end
      end
  end.

Definition remove_one (routerId : string) (x : Rest) (rs : routers) (method : string) : routers :=
  match be_RouterStorage (re_base x) !! routerKey method routerId with
  | Some a => set_disable true a rs
  | None => rs
  end.
Definition Rest_RemoveRouter (routerId : string) (params : list value) (st : routers * Rest) : error * (routers * Rest) :=
  match params with
  | [] => (Some "need to specify HTTP method", st)
  | _ => (None, (foldl (remove_one routerId st.2) st.1 (ToString <$> params), st.2))
  end.

(** [GET], [POST], ... *)
Definition Rest_method (method : string) (rs : list nat) (st : routers * Rest) : outcome unit * (routers * Rest) :=
  foldl (λ acc a, match acc with (Returns _, st) => addRouter method a st | stop => stop end) (Returns tt, st) rs.

Definition Rest_Close (shutdown : error) (x : Rest) : error := if re_server x then shutdown else None.

(** [Start] up to the call that serves: with TLS when both files are configured. *)
Inductive serving : Type := ListenAndServe (addr : string) | ListenAndServeTLS (addr cert key : string).
Definition Rest_Start (x : Rest) : serving * Rest :=
  let c := re_Config x in
  (if bool_decide (rc_CertKeyFile c ≠ "" ∧ rc_CertFile c ≠ "")
   then ListenAndServeTLS (rc_Server c) (rc_CertFile c) (rc_CertKeyFile c) else ListenAndServe (rc_Server c),
   mkRest (re_base x) c (re_RuleConfig x) (re_router x) true).

(** ** Requests *)

Variable E : Env RequestMessage ResponseMessage.

(** The exchange of a request, with path parameters and query in the metadata. *)
Definition request_exchange (q : Rq) (params : list (string * string)) (w : W) : Exchange RequestMessage ResponseMessage :=
  let '(msg, i) := RequestMessage_GetMsg (mkRequest (Some q) None params None None) in
  let o := mkResponse (Some q) (Some w) None None None in
  match msg with
  | Some msg => mkExchange (RequestMessage_SetMsg (set_Metadata (put_query (rq_Query q) (put_params params (m_Metadata msg))) msg) i) o
  | None => mkExchange i o
  end.

Inductive http_reply : Type :=
| NotFoundReply (w : W)
| Processed (x : ended * Exchange RequestMessage ResponseMessage * list (RuleMsg * error)).

(** The closure [rest.handler(router)] makes; a panic of the processing is recovered. *)
Definition Rest_handler (r : Router) (interceptors : list nat) (w : W) (q : Rq) (params : list (string * string)) : http_reply :=
  if Router_IsDisable r then NotFoundReply (NotFound w)
  else
    let '(e, ex, pending) := do_process E interceptors r (request_exchange q params w) in
    Processed (recovered e, ex, pending).

(** Which router the handler of a method and path closes over (there is at most one,
    [rest_ok]). *)
Definition handler_of (x : Rest) (m p : string) : option nat :=
  (list_to_map (routes_of x) : gmap (string * string) nat) !! (m, p).

Definition Rest_serve (st : routers * Rest) (w : W) (method url : string) (q : Rq) : option http_reply :=
  '(m, p, params) ← hr_match (routes_of st.2).*1 method url;
  a ← handler_of st.2 m p;
  r ← st.1 !! a;
  Some (Rest_handler r (be_interceptors (re_base st.2)) w q params).

(** ** The registered routes

    The path router panics when a method and path are registered twice. *)
Record rest_ok (x : Rest) : Prop := {
  ok_once : NoDup (routes_of x).*1;
  ok_stored : ∀ m p a, ((m, p), a) ∈ routes_of x → be_RouterStorage (re_base x) !! routerKey m p = Some a
}.

Inductive rest_op : Type :=
| OpAdd (router : option nat) (params : list value)
| OpRemove (routerId : string) (params : list value)
| OpMethod (method : string) (rs : list nat).
Definition rest_step (op : rest_op) (st : routers * Rest) : routers * Rest :=
  match op with
  | OpAdd router params => (Rest_AddRouter router params st).2
  | OpRemove id params => (Rest_RemoveRouter id params st).2
  | OpMethod m rs => (Rest_method m rs st).2
  end.

Lemma add_one_ok method a rs x : rest_ok x → rest_ok (add_one method a rs x).2.2.
Proof.
  intros [Hnd Hst]. unfold add_one. destruct (rs !! a) as [r|]; [|done].
  destruct (be_RouterStorage (re_base x) !! _) as [old|] eqn:Ek; [done|].
  assert (∀ m p b, ((m, p), b) ∈ routes_of x → (method, FromToString r) ≠ (m, p)) as Hnew.
  { intros m p b Hin [= <- <-]. apply Hst in Hin. congruence. }
  assert (∀ m p b, ((m, p), b) ∈ routes_of x →
    <[routerKey method (FromToString r) := a]> (be_RouterStorage (re_base x)) !! routerKey m p = Some b) as Hold.
  { intros m p b Hin. rewrite lookup_insert_ne; [by apply Hst|]. intros Heq. apply Hst in Hin. congruence. }
  case_match; simpl; (split; [unfold routes_of; simpl; fold (routes_of x)|unfold routes_of; simpl; fold (routes_of x)]).
  - done.
  - apply Hold.
  - rewrite fmap_app; simpl. apply NoDup_app. split; [done|]. split; [|apply NoDup_singleton].
    intros mp Hin Hmp. apply list_elem_of_singleton in Hmp. apply list_elem_of_fmap in Hin as ([[m p] b] & -> & Hin).
    by destruct (Hnew m p b Hin).
  - intros m p b Hin. apply elem_of_app in Hin as [Hin|Hin]; [by apply Hold|].
    apply list_elem_of_singleton in Hin as [= -> -> ->]. apply lookup_insert_eq.
Qed.

Lemma addRouter_ok method a st : rest_ok st.2 → rest_ok (addRouter method a st).2.2.
Proof.
  intros Hok. unfold addRouter.
  assert (rest_ok (set_routes (re_base st.2) (routes_of st.2) st.2)) as Hok' by (by destruct Hok; split).
  pose proof (add_one_ok (ToUpper method) a st.1 _ Hok') as H2.
  destruct (add_one _ _ _ _) as [[] st']; done.
Qed.

Lemma addRouters_ok methods a st : rest_ok st.2 → rest_ok (addRouters methods a st).2.2.
Proof.
  revert st. induction methods as [|m methods IH]; intros st Hok; simpl; [done|].
  pose proof (addRouter_ok m a st Hok) as Hok'. destruct (addRouter m a st) as [[] st']; [by apply IH|done].
Qed.

Lemma Rest_method_ok method rs st : rest_ok st.2 → rest_ok (Rest_method method rs st).2.2.
Proof.
  unfold Rest_method. generalize (Returns tt) as o. intros o. revert o st.
  induction rs as [|a rs IH]; intros o st Hok; simpl; [done|]. destruct o as [|why].
  - pose proof (addRouter_ok method a st Hok) as Hok'.
    destruct (addRouter method a st) as [o' st']. by apply IH.
  - by apply IH.
Qed.

Lemma rest_step_ok op st : rest_ok st.2 → rest_ok (rest_step op st).2.
Proof.
  intros Hok. destruct op as [router params|id params|m rs]; simpl.
  - unfold Rest_AddRouter. destruct params as [|p params], router as [a|]; try done.
    pose proof (addRouters_ok (ToString <$> (p :: params)) a st Hok) as Hok'.
    destruct (addRouters _ a st) as [[] st']; [|done]. by destruct (st'.1 !! a ≫= rt_from).
  - unfold Rest_RemoveRouter. by destruct params.
  - by apply Rest_method_ok.
Qed.

Lemma rest_ops_ok ops st : rest_ok st.2 → rest_ok (foldl (flip rest_step) st ops).2.
Proof. revert st. induction ops as [|op ops IH]; intros st Hok; simpl; [done|]. by apply IH, rest_step_ok. Qed.

(** C32. Whatever routers are added and removed, under whatever methods, the endpoint
    never registers a method and path twice with the path router, which would panic;
    and a request that the path router gives to a handler is answered by the router
    stored under its method and path: with "not found" when that router is disabled,
    by processing otherwise. *)
Theorem rest_routes_consistent ops rs w method url q :
  let st := foldl (flip rest_step) (rs, Rest_New) ops in
  NoDup (routes_of st.2).*1 ∧
  match hr_match (routes_of st.2).*1 method url with
  | None => Rest_serve st w method url q = None
  | Some (m, p, params) => ∃ a, be_RouterStorage (re_base st.2) !! routerKey m p = Some a ∧
      Rest_serve st w method url q =
        (r ← st.1 !! a; Some (Rest_handler r (be_interceptors (re_base st.2)) w q params))
  end.
Proof.
  simpl. assert (rest_ok (foldl (flip rest_step) (rs, Rest_New) ops).2) as Hok.
  { apply rest_ops_ok. split; simpl; [constructor|]. intros m p a Hin. by apply elem_of_nil in Hin. }
  set (st := foldl _ _ ops) in *. split; [apply Hok|]. unfold Rest_serve.
  destruct (hr_match _ method url) as [[[m p] params]|] eqn:Em; [|done]. simpl.
  apply hr_match_registered, list_elem_of_fmap in Em as ([mp a] & Heq & Hin). simpl in Heq; subst mp.
  exists a. split; [by apply Hok|].
  assert (handler_of st.2 m p = Some a) as ->; [|done]. apply elem_of_list_to_map; [apply Hok|done].
Qed.

(** ** Adding and removing *)

Lemma addRouter_new method a r rs x :
  rs !! a = Some r →
  be_RouterStorage (re_base x) !! routerKey (ToUpper method) (FromToString r) = None →
  hr_conflict (routes_of x).*1 (ToUpper method) (FromToString r) = false →
  rest_ok x →
  ∃ x', addRouter method a (rs, x) = (Returns tt, (rs, x')) ∧
    handler_of x' (ToUpper method) (FromToString r) = Some a ∧
    be_RouterStorage (re_base x') = <[routerKey (ToUpper method) (FromToString r) := a]> (be_RouterStorage (re_base x)).
Proof.
  intros Hr Hk Hc Hok. pose proof (add_one_ok (ToUpper method) a rs
    (set_routes (re_base x) (routes_of x) x) ltac:(by destruct Hok; split)) as Hok'.
  unfold addRouter, add_one in *. simpl in *. rewrite Hr, Hk in *. unfold routes_of in Hc.
  unfold routes_of in *; simpl in *. rewrite Hc in *. eexists. split; [done|]. split; [|done].
  apply elem_of_list_to_map; [apply Hok'|]. unfold routes_of; simpl. apply elem_of_app. right. by apply list_elem_of_singleton.
Qed.

Lemma addRouter_again method b r a rs x :
  rs !! b = Some r →
  be_RouterStorage (re_base x) !! routerKey (ToUpper method) (FromToString r) = Some a →
  ∃ x', addRouter method b (rs, x) = (Returns tt, (set_disable false a rs, x')) ∧
    routes_of x' = routes_of x ∧ be_RouterStorage (re_base x') = be_RouterStorage (re_base x).
Proof.
  intros Hr Hk. unfold addRouter, add_one; simpl. rewrite Hr, Hk. by eexists.
Qed.

(** The router that answers the requests of a method and path, and whether it is enabled. *)
Definition answered_by (st : routers * Rest) (m p : string) : option (nat * bool) :=
  a ← handler_of st.2 m p; r ← st.1 !! a; Some (a, negb (Router_IsDisable r)).

(** A router added to a free method and path answers its requests; removed under
    that method (in upper case), its requests are answered "not found"; and when any
    router is added to the method and path again, it is the first one that answers. *)
Theorem rest_add_remove_add method a b r r' rs x :
  rest_ok x → rs !! a = Some r → rs !! b = Some r' → FromToString r' = FromToString r →
  is_Some (rt_from r) → is_Some (rt_from r') → Router_IsDisable r = false →
  be_RouterStorage (re_base x) !! routerKey (ToUpper method) (FromToString r) = None →
  hr_conflict (routes_of x).*1 (ToUpper method) (FromToString r) = false →
  let p := FromToString r in
  ∃ x1 st2 st3,
    Rest_AddRouter (Some a) [VString method] (rs, x) = (Returns (Ok p), (rs, x1)) ∧
    answered_by (rs, x1) (ToUpper method) p = Some (a, true) ∧
    Rest_RemoveRouter p [VString (ToUpper method)] (rs, x1) = (None, st2) ∧
    answered_by st2 (ToUpper method) p = Some (a, false) ∧
    Rest_AddRouter (Some b) [VString method] st2 = (Returns (Ok p), st3) ∧
    answered_by st3 (ToUpper method) p = Some (a, true).
Proof.
  intros Hok Ha Hb Hp [f Hf] [f' Hf'] Hen Hk Hc. simpl.
  destruct (addRouter_new method a r rs x Ha Hk Hc Hok) as (x1 & H1 & Hh1 & Hs1).
  set (rs2 := set_disable true a rs).
  assert (rs2 !! a = Some (Router_Disable true r)) as Ha2 by (unfold rs2, set_disable; by rewrite lookup_alter_eq, Ha).
  assert (∃ r2, rs2 !! b = Some r2 ∧ FromToString r2 = FromToString r ∧ rt_from r2 = Some f') as (r2 & Hb2 & Hp2 & Hf2).
  { unfold rs2, set_disable. destruct (decide (a = b)) as [->|Hne].
    - rewrite lookup_alter_eq, Hb; simpl. eexists. split; [done|]. simplify_eq. done.
    - rewrite lookup_alter_ne by done. by eexists. }
  destruct (addRouter_again method b r2 a rs2 x1 Hb2) as (x3 & H3 & Hr3 & Hs3).
  { rewrite Hs1, Hp2. apply lookup_insert_eq. }
  assert (FromToString r = from_From f) as Hpf by (unfold FromToString; by rewrite Hf).
  exists x1, (rs2, x1), (set_disable false a rs2, x3). split_and!.
  - unfold Rest_AddRouter. simpl. change (ToString (VString method)) with method. rewrite H1; simpl. rewrite Ha; simpl. by rewrite Hf, Hpf.
  - unfold answered_by; simpl. rewrite Hh1; simpl. rewrite Ha; simpl. by rewrite Hen.
  - unfold Rest_RemoveRouter, remove_one. simpl. change (ToString (VString (ToUpper method))) with (ToUpper method). by rewrite Hs1, lookup_insert_eq.
  - unfold answered_by; simpl. rewrite Hh1; simpl. rewrite Ha2; simpl. done.
  - unfold Rest_AddRouter. simpl. change (ToString (VString method)) with method. rewrite H3; simpl. unfold set_disable at 1.
    destruct (decide (a = b)) as [->|Hne].
    + rewrite lookup_alter_eq, Hb2; simpl. rewrite Hf2. unfold FromToString in Hp. rewrite Hf, Hf' in Hp. by rewrite Hp, Hpf.
    + rewrite lookup_alter_ne, Hb2 by done; simpl. rewrite Hf2. unfold FromToString in Hp. rewrite Hf, Hf' in Hp. by rewrite Hp, Hpf.
  - unfold answered_by, handler_of; simpl. rewrite Hr3. fold (handler_of x1 (ToUpper method) (FromToString r)). rewrite Hh1; simpl.
    unfold set_disable at 1. rewrite lookup_alter_eq, Ha2; simpl. done.
Qed.

(** ** Requests *)

(** Processing of a request starts from a message whose type is the URL, whose data is
    the body, which is JSON exactly when the content type says "application/json" and
    nothing more, and whose metadata holds the query variables and the path parameters,
    the query winning; and whatever the processors do, no panic leaves the handler. *)
Theorem Rest_handler_spec r interceptors w q params :
  Router_IsDisable r = false →
  ∃ ex msg x,
    Rest_handler r interceptors w q params = Processed x ∧
    x = (λ '(e, ex, pending), (recovered e, ex, pending)) (do_process E interceptors r ex) ∧
    (∀ why, x.1.1 ≠ Panicked why) ∧
    (GetMsg (ex_In ex)).1 = Some msg ∧ rs_response (ex_Out ex) = Some w ∧
    m_Type msg = rq_URL_String (rq_ReadBody q).2 ∧ m_Data msg = (rq_ReadBody q).1 ∧
    (m_DataType msg = JSON ↔ Header_Get ContentTypeKey (rq_Header q) = JsonContextType) ∧
    (∀ k, k ≠ "" → m_Metadata msg !! k =
      match rq_Query q !! k with Some v => Some (query_value v) | None => assoc k (reverse params) end).
Proof.
  intros Hen. unfold Rest_handler. rewrite Hen.
  set (ex := request_exchange q params w). exists ex.
  assert (∃ msg, (GetMsg (ex_In ex)).1 = Some msg ∧ rs_response (ex_Out ex) = Some w ∧
    m_Type msg = rq_URL_String (rq_ReadBody q).2 ∧ m_Data msg = (rq_ReadBody q).1 ∧
    (m_DataType msg = JSON ↔ Header_Get ContentTypeKey (rq_Header q) = JsonContextType) ∧
    m_Metadata msg = put_query (rq_Query q) (put_params params ∅)) as (msg & H1 & H2 & H3 & H4 & H5 & H6).
  { unfold ex, request_exchange, RequestMessage_GetMsg, RequestMessage_Body; simpl.
    destruct (rq_ReadBody q) as [body q'] eqn:Eq; simpl. eexists. split; [done|]. split; [done|]. simpl.
    split_and!; [done|done| |done]. case_bool_decide; naive_solver. }
  destruct (do_process E interceptors r ex) as [[e ex'] pending] eqn:Ed.
  exists msg. eexists. split; [done|]. split; [done|]. split; [by destruct e|].
  split_and!; [done..|]. intros k Hk. rewrite H6, put_query_lookup, put_params_lookup by done.
  destruct (rq_Query q !! k); [done|]. rewrite lookup_empty. by destruct (assoc k (reverse params)).
Qed.

End Rest.

Module RestExample.
Import Samples NodeSamples HttpSamples.

Abbreviation request_msg := (@RequestMessage request).
Abbreviation response_msg := (@ResponseMessage request writer).
Definition env : Env request_msg response_msg :=
  mkEnv (λ p ex, if bool_decide (p = 0) then (PPanic "bad", ex) else (GoOn, mkExchange (ex_In ex) (SetBody "ok" (ex_Out ex))))
    (λ _ _, None) (λ _ m, [TellSuccess m]) (λ _ _ ex, (Finished, ex)) 0 5 "u".

Definition router (path : string) (ps : list nat) : Router := mkRouter (Some (mkFrom ∅ path ps None)) DefaultRuleGo cfg 0.
Definition two : gmap nat Router := {[0 := router "/a" [1]; 1 := router "/a" [0]]}.
Definition fresh : Rest := Rest_New.

Lemma rest_add_remove_add_witness :
  ∃ x1 st2 st3,
    Rest_AddRouter (Some 0) [VString "post"] (two, fresh) = (Returns (Ok "/a"), (two, x1)) ∧
    Rest_RemoveRouter "/a" [VString "POST"] (two, x1) = (None, st2) ∧
    Rest_AddRouter (Some 1) [VString "post"] st2 = (Returns (Ok "/a"), st3) ∧
    answered_by st3 "POST" "/a" = Some (0, true).
Proof.
  destruct (rest_add_remove_add "post" 0 1 (router "/a" [1]) (router "/a" [0]) two fresh) as (x1 & st2 & st3 & H1 & _ & H2 & _ & H3 & H4).
  - split; simpl; [constructor|]. intros m p a Hin. by apply elem_of_nil in Hin.
  - reflexivity.
  - reflexivity.
  - reflexivity.
  - by eexists.
  - by eexists.
  - reflexivity.
  - reflexivity.
  - reflexivity.
  - exists x1, st2, st3. split; [exact H1|]. split; [exact H2|]. split; [exact H3|exact H4].
Defined.

Definition req : request := mkReq "/a?k=v" {["k" := ["v"]]} {["Content-Type" := ["application/json"]]} "obj".

(** Even a processor that panics does not reach the server. *)
Lemma Rest_handler_witness :
  ∃ (ex : Exchange request_msg response_msg) msg x, Rest_handler 5 "u" env (router "/a" [0]) [] new_writer req [("id", "7")] = Processed x ∧
    x.1.1 = Finished ∧ (GetMsg (MessageOps := RequestMessage_ops 5 "u") (ex_In ex)).1 = Some msg ∧
    m_Metadata msg !! "k" = Some "v" ∧ m_Metadata msg !! "id" = Some "7".
Proof.
  destruct (Rest_handler_spec 5 "u" env (router "/a" [0]) [] new_writer req [("id", "7")] eq_refl)
    as (ex & msg & x & H1 & _ & _ & H4 & _ & _ & _ & _ & H5).
  exists ex, msg, x. split; [exact H1|]. split.
  - assert (Rest_handler 5 "u" env (router "/a" [0]) [] new_writer req [("id", "7")] =
      Processed (Finished, request_exchange 5 "u" req [("id", "7")] new_writer, [])) as E by (vm_compute; reflexivity).
    rewrite E in H1. injection H1 as <-. reflexivity.
  - split; [exact H4|]. rewrite !H5 by done. split; vm_compute; reflexivity.
Defined.

(** A method given in lower case is accepted when a router is added, and ignored, without
    an error, when it is removed. *)
Theorem rest_remove_lower_case :
  let x := Rest_AddRouter (Some 0) [VString "post"] (two, fresh) in
  let y := Rest_RemoveRouter "/a" [VString "post"] x.2 in
  x.1 = Returns (Ok "/a") ∧ y.1 = None ∧ answered_by y.2 "POST" "/a" = Some (0, true).
Proof. split; [|split]; vm_compute; reflexivity. Qed.

(** A router that serves several methods is disabled for all of them when it is removed
    from one. *)
Theorem rest_remove_one_method_disables_all :
  let x := Rest_AddRouter (Some 0) [VString "GET"; VString "POST"] (two, fresh) in
  let y := Rest_RemoveRouter "/a" [VString "GET"] x.2 in
  x.1 = Returns (Ok "/a") ∧ answered_by x.2 "POST" "/a" = Some (0, true) ∧
  y.1 = None ∧ answered_by y.2 "POST" "/a" = Some (0, false).
Proof. split; [|split; [|split]]; vm_compute; reflexivity. Qed.

End RestExample.
