(* ===== verification/Websocket.v ===== *)
(** * The websocket endpoint ([src/endpoint/websocket/websocket.go])

    Its struct has the fields of the HTTP endpoint, and it registers its routers the
    way the HTTP endpoint does, always under the method GET; the record [Rest] models
    both.  The handler of a connection reads messages until the connection fails, the
    router is disabled or the processing panics. *)

From Stdlib Require Import Ascii.
From S2P Require Import Prelude GoStrings Value Str Msg Config Dsl World RuleCtx JsEngine NodeApi Samples Mime Endpoint HttpApi Rest.

Definition TextMessage : Z := 1.
Definition BinaryMessage : Z := 2.

Section Websocket.
Context `{C : Components} `{J : Json} `{MR : MapRange} {Rq : Type} `{HttpRequest Rq} `{HR : HttpRouter}.
Variable now : Z.
Variable uuid : string.

(** ** Messages *)

Record WsRequest : Type := mkWsRequest {
  wq_messageType : Z;
  wq_request : option Rq;
  wq_body : option string;
  wq_Params : list (string * string);
  wq_msg : option RuleMsg;
  wq_err : error
}.
Definition WsRequest_From (r : WsRequest) : string := default "" (rq_URL_String <$> wq_request r).
Definition WsRequest_SetMsg (msg : RuleMsg) (r : WsRequest) : WsRequest :=
  mkWsRequest (wq_messageType r) (wq_request r) (wq_body r) (wq_Params r) (Some msg) (wq_err r).
Definition WsRequest_GetMsg (r : WsRequest) : option RuleMsg * WsRequest :=
  match wq_msg r with
  | Some msg => (Some msg, r)
  | None =>
      let dataType := if bool_decide (wq_messageType r = BinaryMessage) then BINARY else JSON in
      let ruleMsg := NewMsg now uuid uuid 0 (WsRequest_From r) dataType NewMetadata (default "" (wq_body r)) in
      (Some ruleMsg, WsRequest_SetMsg ruleMsg r)
  end.

#[global] Instance WsRequest_ops : MessageOps WsRequest := {|
  Body r := (wq_body r, r);
  Headers r := (rq_Header <$> wq_request r, r);
  From_ := WsRequest_From;
  SetMsg := WsRequest_SetMsg;
  GetMsg := WsRequest_GetMsg;
  SetStatusCode _ r := r;
  SetBody body r := mkWsRequest (wq_messageType r) (wq_request r) (Some body) (wq_Params r) (wq_msg r) (wq_err r);
  SetError err r := mkWsRequest (wq_messageType r) (wq_request r) (wq_body r) (wq_Params r) (wq_msg r) err;
  GetError := wq_err
|}.

(** The connection of a response is what the response has written to it; a failed write
    is only logged. *)
Record WsResponse : Type := mkWsResponse {
  ws_headers : option MIMEHeader;
  ws_messageType : Z;
  ws_request : option Rq;
  ws_conn : option (list (Z * string));
  ws_body : option string;
  ws_msg : option RuleMsg;
  ws_err : error
}.
Definition WsResponse_Headers (r : WsResponse) : option MIMEHeader * WsResponse :=
  let h := default ∅ (ws_headers r) in
  (Some h, mkWsResponse (Some h) (ws_messageType r) (ws_request r) (ws_conn r) (ws_body r) (ws_msg r) (ws_err r)).
Definition WsResponse_SetBody (body : string) (r : WsResponse) : WsResponse :=
  mkWsResponse (ws_headers r) (ws_messageType r) (ws_request r)
    ((λ sent, sent ++ [(ws_messageType r, body)]) <$> ws_conn r) (Some body) (ws_msg r) (ws_err r).

#[global] Instance WsResponse_ops : MessageOps WsResponse := {|
  Body r := (ws_body r, r);
  Headers := WsResponse_Headers;
  From_ r := default "" (rq_URL_String <$> ws_request r);
  SetMsg msg r := mkWsResponse (ws_headers r) (ws_messageType r) (ws_request r) (ws_conn r) (ws_body r) (Some msg) (ws_err r);
  GetMsg r := (ws_msg r, r);
  SetStatusCode _ r := r;
  SetBody := WsResponse_SetBody;
  SetError err r := mkWsResponse (ws_headers r) (ws_messageType r) (ws_request r) (ws_conn r) (ws_body r) (ws_msg r) err;
  GetError := ws_err
|}.

(** ** Routers *)

Definition Websocket_addRouter (a : nat) (st : routers * Rest) : outcome unit * (routers * Rest) := addRouter "GET" a st.
Definition Websocket_AddRouter (router : option nat) (st : routers * Rest) : outcome (result string) * (routers * Rest) :=
  match router with
  | None => (Returns (Err "router can not nil"), st)
  | Some a =>
      match Websocket_addRouter a st with
      | (Panics why, st) => (Panics why, st)
      | (Returns _, st) =>
          match st.1 !! a ≫= rt_from with
          | Some f => (Returns (Ok (from_From f)), st)
          | None => (Panics "invalid memory address or nil pointer dereference", st)
          end
      end
  end.
Definition Websocket_RemoveRouter (routerId : string) (st : routers * Rest) : error * (routers * Rest) :=
  (None, (remove_one routerId st.2 st.1 "GET", st.2)).

(** ** Life of the endpoint *)

Definition Websocket_New : Rest := Rest_New.
Definition Websocket_Init `{Decode RestConfig} (ruleConfig : Config) (configuration : Configuration) (ws : Rest) : error * Rest :=
  let '(err, conf) := Map2Struct configuration (re_Config ws) in
  (err, mkRest (re_base ws) conf ruleConfig (re_router ws) (re_server ws)).
Definition Websocket_Id (ws : Rest) : string := rc_Server (re_Config ws).
(** [shutdown] is what [http.Server.Shutdown] returns. *)
Definition Websocket_Close (shutdown : error) (ws : Rest) : error := if re_server ws then shutdown else None.
Definition Websocket_Start (ws : Rest) : serving * Rest :=
  let c := re_Config ws in
  (if bool_decide (rc_CertKeyFile c ≠ "" ∧ rc_CertFile c ≠ "")
   then ListenAndServeTLS (rc_Server c) (rc_CertFile c) (rc_CertKeyFile c) else ListenAndServe (rc_Server c),
   mkRest (re_base ws) c (re_RuleConfig ws) (re_router ws) true).

(** Whatever is added and removed, a path is registered once, with the router stored for it. *)
Inductive ws_op : Type := WsAdd (router : option nat) | WsRemove (routerId : string).
Definition ws_step (op : ws_op) (st : routers * Rest) : routers * Rest :=
  match op with WsAdd router => (Websocket_AddRouter router st).2 | WsRemove id => (Websocket_RemoveRouter id st).2 end.
Lemma ws_steps_ok ops rs : rest_ok (foldl (flip ws_step) (rs, Websocket_New) ops).2.
Proof.
  assert (∀ st, rest_ok st.2 → rest_ok (foldl (flip ws_step) st ops).2) as H'.
  { induction ops as [|op ops IH]; intros st Hok; simpl; [done|]. apply IH. destruct op as [[a|]|id]; simpl; try done.
    unfold Websocket_AddRouter, Websocket_addRouter. pose proof (addRouter_ok "GET" a st Hok) as Ha.
    destruct (addRouter "GET" a st) as [[] st']; [|done]. by destruct (st'.1 !! a ≫= rt_from). }
  apply H'. split; simpl; [constructor|]. intros m p a Hin. by apply elem_of_nil in Hin.
Qed.

(** ** Connections *)

Variable E : Env WsRequest WsResponse.
Local Abbreviation processed := (ended * Exchange WsRequest WsResponse * list (RuleMsg * error))%type.

(** The exchange of one message. *)
Definition ws_exchange (q : Rq) (params : list (string * string)) (mt : Z) (message : string)
    : Exchange WsRequest WsResponse :=
  let '(msg, i) := WsRequest_GetMsg (mkWsRequest mt (Some q) (Some message) params None None) in
  let o := mkWsResponse None mt (Some q) (Some []) None None None in
  match msg with
  | Some msg =>
      let md := Metadata_PutValue (put_params params (m_Metadata msg)) "messageType" (Itoa mt) in
      mkExchange (WsRequest_SetMsg (set_Metadata (put_query (rq_Query q) md) msg) i) o
  | None => mkExchange i o
  end.

(** What [c.ReadMessage()] returns, and whether the router is disabled just after. *)
Record ws_read : Type := mkWsRead { wr_read : result (Z * string); wr_disabled : bool }.

(** How the loop ends; in all cases but the first and the last two, [c.Close()] is called. *)
Inductive ws_end : Type := WaitsForMessage | ReadFailed | RouterDisabled | HandlerPanicked (why : string)
| HandlerBlocked | ProgramCrashed (why : string).

Fixpoint ws_loop (r : Router) (interceptors : list nat) (q : Rq) (params : list (string * string)) (reads : list ws_read)
    : list processed * ws_end :=
  match reads with
  | [] => ([], WaitsForMessage)
  | rd :: rest =>
      match wr_read rd with
      | Err _ => ([], ReadFailed)
      | Ok (mt, message) =>
          if wr_disabled rd then ([], RouterDisabled)
          else if bool_decide (mt ≠ BinaryMessage ∧ mt ≠ TextMessage) then ws_loop r interceptors q params rest
          else
            let x := do_process E interceptors r (ws_exchange q params mt message) in
            match x.1.1 with
            | Finished => let '(l, e) := ws_loop r interceptors q params rest in (x :: l, e)
            | Panicked why => ([x], HandlerPanicked why)
            | Blocked => ([x], HandlerBlocked)
            | Crashed why => ([x], ProgramCrashed why)
            end
      end
  end.

(** [ws.handler(router)]: nothing happens when the upgrade fails. *)
Definition Websocket_handler (upgrade : error) (r : Router) (interceptors : list nat) (q : Rq) (params : list (string * string))
    (reads : list ws_read) : list processed * option ws_end :=
  match upgrade with
  | Some _ => ([], None)
  | None => let '(l, e) := ws_loop r interceptors q params reads in (l, Some e)
  end.

(** ** Properties *)

(** The messages of a connection that are processed: text and binary messages read
    before the first read error and before the router is disabled ... *)
Fixpoint accepted (reads : list ws_read) : list (Z * string) :=
  match reads with
  | [] => []
  | rd :: rest =>
      match wr_read rd with
      | Ok m => if wr_disabled rd then []
                else (if bool_decide (m.1 = BinaryMessage ∨ m.1 = TextMessage) then [m] else []) ++ accepted rest
      | Err _ => []
      end
  end.
(** ... up to the first whose processing does not finish. *)
Fixpoint up_to_failure (l : list processed) : list processed :=
  match l with
  | [] => []
  | x :: l' => x :: match x.1.1 with Finished => up_to_failure l' | _ => [] end
  end.

Lemma ws_loop_accepted r interceptors q params reads :
  (ws_loop r interceptors q params reads).1 =
    up_to_failure ((λ m, do_process E interceptors r (ws_exchange q params m.1 m.2)) <$> accepted reads).
Proof.
  induction reads as [|[[[mt message]|e] dis] reads IH]; simpl; [done| |done].
  destruct dis; [done|]. case_bool_decide as Hmt.
  - rewrite bool_decide_false by tauto. done.
  - rewrite bool_decide_true; [|destruct (decide (mt = BinaryMessage)), (decide (mt = TextMessage)); tauto].
    simpl. destruct (do_process _ _ _ _) as [[[] ex] pending]; simpl; [|done..].
    destruct (ws_loop r interceptors q params reads); simpl in *. by rewrite IH.
Qed.

(** The messages of a connection are processed one at a time, in the order they are
    read, each exactly once, until reading fails, the router is found disabled, or the
    processing of one does not finish; later ones are not processed at all. *)
Theorem Websocket_handler_spec r interceptors q params reads :
  let run m := do_process E interceptors r (ws_exchange q params m.1 m.2) in
  (Websocket_handler None r interceptors q params reads).1 = up_to_failure (run <$> accepted reads) ∧
  (∀ i m, accepted reads !! i = Some m →
    (∀ j m', j < i → accepted reads !! j = Some m' → (run m').1.1 = Finished) →
    (Websocket_handler None r interceptors q params reads).1 !! i = Some (run m)) ∧
  (∀ rd1 rd2, reads = rd1 ++ rd2 → Exists (λ rd, wr_disabled rd = true) rd1 → accepted reads = accepted rd1).
Proof.
  simpl. unfold Websocket_handler. pose proof (ws_loop_accepted r interceptors q params reads) as Hl.
  destruct (ws_loop r interceptors q params reads) as [l e]. simpl in *. split; [done|]. split.
  - rewrite Hl. clear. generalize (accepted reads) as ms. induction ms as [|m0 ms IH]; intros i m Hi Hj; [done|].
    destruct i as [|i]; simpl in *; [by simplify_eq|].
    rewrite (Hj 0 m0) by (done || lia). apply IH; [done|]. intros j m' Hlt Hm'. apply (Hj (S j)); [lia|done].
  - intros rd1 rd2 -> Hex. clear Hl. induction rd1 as [|[[m|e'] dis] rd1 IH]; simpl; [by inversion Hex| |done].
    destruct dis; [done|]. f_equal. apply IH. by inversion Hex.
Qed.

(** The metadata of a message: query, then the message type, then path parameters. *)
Lemma ws_exchange_msg q params mt message :
  ∃ msg, (GetMsg (ex_In (ws_exchange q params mt message))).1 = Some msg ∧
    m_Data msg = message ∧ m_DataType msg = (if bool_decide (mt = BinaryMessage) then BINARY else JSON) ∧
    ∀ k, k ≠ "" → m_Metadata msg !! k =
      match rq_Query q !! k with
      | Some v => Some (query_value v)
      | None => if bool_decide (k = "messageType") then Some (Itoa mt) else assoc k (reverse params)
      end.
Proof.
  unfold ws_exchange, WsRequest_GetMsg; simpl. eexists. split; [done|]. split; [done|]. split; [done|].
  simpl. intros k Hk. rewrite put_query_lookup by done. destruct (rq_Query q !! k); [done|].
  rewrite Metadata_PutValue_lookup. rewrite put_params_lookup by done. unfold NewMetadata. rewrite (lookup_empty (M := gmap string)).
  repeat case_bool_decide; try naive_solver. by destruct (assoc k (reverse params)).
Qed.

End Websocket.

Module WebsocketExample.
Import Samples NodeSamples HttpSamples.

(** The processor answers with a fixed text, and panics on the text "bad". *)
Definition env : Env (@WsRequest request) (@WsResponse request) :=
  mkEnv (λ _ ex, if bool_decide (wq_body (ex_In ex) = Some "bad") then (PPanic "bad", ex)
                 else (GoOn, mkExchange (ex_In ex) (SetBody "ok" (ex_Out ex))))
    (λ _ _, None) (λ _ m, [TellSuccess m]) (λ _ _ ex, (Finished, ex)) 0 5 "u".
Definition r : Router := mkRouter (Some (mkFrom ∅ "/ws" [1] None)) DefaultRuleGo cfg 0.
Definition q : request := mkReq "/ws" ∅ ∅ "".
Definition text (s : string) : ws_read := mkWsRead (Ok (TextMessage, s)) false.

(** After a message whose processing panics the connection is closed. *)
Lemma Websocket_panic_closes :
  let x := Websocket_handler 5 "u" env None r [] q [] [text "a"; text "bad"; text "b"] in
  x.2 = Some (HandlerPanicked "bad") ∧ (λ y, ws_conn (ex_Out y.1.2)) <$> x.1 = [Some [(TextMessage, "ok")]; Some []].
Proof. split; vm_compute; reflexivity. Qed.

End WebsocketExample.
