(* ===== verification/LineReader.v ===== *)
(** * Reading lines

    [bufio.Reader.ReadLine] with the buffer of [bufio.NewReader] (4096 bytes), on a
    connection whose bytes arrive in bursts separated by read time-outs and which
    fails for good in the end.  A line that does not fit the buffer is returned in
    pieces; the bytes of an unfinished line are returned when a time-out or the end
    comes, and that error is then not reported. *)

From Stdlib Require Import Ascii.
From S2P Require Import Prelude GoStrings.

Definition LF : ascii := ascii_of_nat 10.
Definition CR : ascii := ascii_of_nat 13.
Definition defaultBufSize : nat := 4096.

Fixpoint str_take (n : nat) (s : string) : string :=
  match n, s with S n', String c s' => String c (str_take n' s') | _, _ => "" end.
Fixpoint str_drop (n : nat) (s : string) : string :=
  match n, s with S n', String c s' => str_drop n' s' | _, _ => s end.

(** What comes before the first newline, and what comes after it. *)
Fixpoint cut_newline (s : string) : option (string * string) :=
  match s with
  | EmptyString => None
  | String c s' =>
      if bool_decide (c = LF) then Some ("", s')
      else match cut_newline s' with Some (l, rest) => Some (String c l, rest) | None => None end
  end.

(** The text without a carriage return at its end. *)
Fixpoint drop_cr (s : string) : string :=
  match s with
  | EmptyString => ""
  | String c s' => if bool_decide (c = CR) && bool_decide (s' = "") then "" else String c (drop_cr s')
  end.

(** A full buffer without newline; a carriage return at its end is put back. *)
Definition full_buffer (s : string) : string * string :=
  let line := str_take defaultBufSize s in
  let n := String.length (drop_cr line) in
  (str_take n s, str_drop n s).

(** One call with the bytes that arrive before the next error: the line, what is left,
    and whether the call went as far as the error.  [None]: there is only the error. *)
Definition ReadLine (s : string) : option (string * string * bool) :=
  let full := let '(line, rest) := full_buffer s in Some (line, rest, false) in
  if bool_decide (s = "") then None
  else
    match cut_newline s with
    | Some (line, rest) => if String.length line <? defaultBufSize then Some (drop_cr line, rest, false) else full
    | None => if String.length s <? defaultBufSize then Some (s, "", true) else full
    end.

(** What is still to come: the bytes before the next error, and the bursts after the
    time-outs that follow; after the last burst the connection fails for good: the client
    has closed it, or the server has (the time-out of a read and the timer that
    closes an idle connection have the same length, so a burst after a time-out is one that
    was read before the timer had run). *)
Record input : Type := mkInput { in_now : string; in_later : list string }.

Inductive read_result : Type :=
| Line (data : string) (rest : input)
| TimedOut (rest : input)
| Failed.

Definition next_burst (later : list string) : input :=
  match later with [] => mkInput "" [] | b :: later => mkInput b later end.

Definition read (i : input) : read_result :=
  match ReadLine (in_now i) with
  | Some (line, rest, false) => Line line (mkInput rest (in_later i))
  | Some (line, rest, true) => Line line (next_burst (in_later i))
  | None => match in_later i with [] => Failed | _ => TimedOut (next_burst (in_later i)) end
  end.

(** ** Lemmas *)

(** Bytes and time-outs to come. *)
Definition in_size (i : input) : nat := String.length (in_now i) + sum_list_with (λ b, S (String.length b)) (in_later i).

Lemma cut_newline_Some s l rest :
  cut_newline s = Some (l, rest) → s = l +:+ String LF rest ∧ LF ∉ chars l.
Proof.
  revert l. induction s as [|c s IH]; simpl; intros l Heq; [done|]. case_bool_decide as Hc.
  - simplify_eq. split; [done|]. apply not_elem_of_nil.
  - destruct (cut_newline s) as [[l' rest']|]; simplify_eq. destruct (IH l' eq_refl) as [-> Hn]. split; [done|].
    unfold chars in *; simpl. by apply not_elem_of_cons.
Qed.

Lemma cut_newline_app l rest : LF ∉ chars l → cut_newline (l +:+ String LF rest) = Some (l, rest).
Proof.
  induction l as [|c l IH]; intros Hn; [done|].
  unfold chars in Hn; simpl in Hn. apply not_elem_of_cons in Hn as [Hc Hn]. simpl.
  rewrite bool_decide_false by done. by rewrite IH.
Qed.

Lemma str_take_drop n s : str_take n s +:+ str_drop n s = s.
Proof. revert s. induction n as [|n IH]; intros [|c s]; simpl; try done. by rewrite IH. Qed.
Lemma str_take_length n s : n ≤ String.length s → String.length (str_take n s) = n.
Proof. revert s. induction n as [|n IH]; intros [|c s]; simpl; intros; try lia. rewrite IH; lia. Qed.
Lemma str_drop_length n s : String.length (str_drop n s) = String.length s - n.
Proof. revert s. induction n as [|n IH]; intros [|c s]; simpl; try done. Qed.

Lemma drop_cr_length s : String.length s - 1 ≤ String.length (drop_cr s) ≤ String.length s.
Proof.
  induction s as [|c s IH]; simpl; [lia|]. destruct (decide (s = "")) as [->|Hs].
  - destruct (bool_decide (c = CR)); simpl; lia.
  - rewrite (bool_decide_false (s = "")), andb_false_r by done. simpl. destruct s; [done|]. simpl in *. lia.
Qed.

Lemma full_buffer_spec s line rest :
  defaultBufSize ≤ String.length s → full_buffer s = (line, rest) →
  s = line +:+ rest ∧ defaultBufSize - 1 ≤ String.length line ≤ defaultBufSize.
Proof.
  unfold full_buffer. generalize defaultBufSize as size. intros size Hs Heq.
  pose proof (drop_cr_length (str_take size s)) as Hl. rewrite str_take_length in Hl by done.
  injection Heq as <- <-. rewrite str_take_drop, str_take_length by lia. done.
Qed.

Lemma full_buffer_shorter s line rest :
  defaultBufSize ≤ String.length s → full_buffer s = (line, rest) → String.length rest < String.length s.
Proof.
  intros Hs Hf. destruct (full_buffer_spec s line rest Hs Hf) as [-> Hl].
  rewrite string_app_length. unfold defaultBufSize in *. lia.
Qed.

(** Every call makes progress. *)
Lemma ReadLine_shorter s line rest partial :
  ReadLine s = Some (line, rest, partial) → String.length rest < String.length s ∧ (partial = true → rest = "").
Proof.
  unfold ReadLine. rename s into t. case_bool_decide as Hne; [done|].
  assert (0 < String.length t) as Hpos by (destruct t; [done|simpl; lia]).
  destruct (full_buffer t) as [l' r'] eqn:Ef.
  assert (defaultBufSize ≤ String.length t → String.length r' < String.length t) as Hfull
    by (intros Hb; by eapply full_buffer_shorter).
  destruct (cut_newline t) as [[l r]|] eqn:Ec.
  - apply cut_newline_Some in Ec as [Et _].
    assert (String.length t = String.length l + S (String.length r)) as Hlen by (by rewrite Et, string_app_length).
    destruct (String.length l <? defaultBufSize) eqn:Hb; intros [= <- <- <-]; (split; [|done]); [lia|].
    apply Nat.ltb_ge in Hb. apply Hfull. lia.
  - destruct (String.length t <? defaultBufSize) eqn:Hb; intros [= <- <- <-]; (split; [|done]); [simpl; lia|].
    apply Nat.ltb_ge in Hb. by apply Hfull.
Qed.

Lemma next_burst_size later : later ≠ [] → in_size (next_burst later) < sum_list_with (λ b, S (String.length b)) later.
Proof. destruct later as [|b later]; [done|]. unfold in_size; simpl. lia. Qed.

Lemma read_size i :
  match read i with Line _ rest | TimedOut rest => in_size rest < in_size i | Failed => in_size i = 0 end.
Proof.
  unfold read. destruct (ReadLine (in_now i)) as [[[line rest] []]|] eqn:E.
  - apply ReadLine_shorter in E as [Hl Hr]. unfold in_size at 2. destruct (in_later i) as [|b later]; unfold in_size; simpl; lia.
  - apply ReadLine_shorter in E as [Hl _]. unfold in_size; simpl. lia.
  - assert (in_now i = "") as Hn.
    { unfold ReadLine in E. case_bool_decide; [done|]. by repeat case_match. }
    destruct (in_later i) as [|b later] eqn:El; unfold in_size; rewrite Hn, El; simpl; lia.
Qed.

(** A line that fits the buffer is returned whole, without its line end. *)
Lemma ReadLine_line l rest :
  LF ∉ chars l → String.length l < defaultBufSize → ReadLine (l +:+ String LF rest) = Some (drop_cr l, rest, false).
Proof.
  intros Hn Hl. unfold ReadLine. rewrite bool_decide_false by (by destruct l).
  rewrite cut_newline_app by done. by rewrite (proj2 (Nat.ltb_lt _ _) Hl).
Qed.

(** The text of a list of lines. *)
Fixpoint lines_text (ls : list string) : string :=
  match ls with [] => "" | l :: ls => l +:+ String LF (lines_text ls) end.
