(* ===== verification/NetEndpoint.v ===== *)
(** * The TCP endpoint ([src/endpoint/net/net.go])

    Routers are kept by their regular expression.  Each connection has a loop that
    reads lines ([LineReader]) and gives every line that is not a heartbeat to every
    router whose expression matches, in the order in which Go walks the map. *)

From Stdlib Require Import Ascii.
From S2P Require Import Prelude GoStrings Value Str Msg Config Dsl World RuleCtx JsEngine NodeApi Samples Mime Endpoint LineReader.

(** Package regexp. *)
Class Regexp : Type := {
  Re : Type;
  re_Compile : string → result Re;
  re_Match : Re → string → bool
}.

Definition RemoteAddrKey : string := "remoteAddr".
Definition PingData : string := "ping".

Section Net.
Context `{C : Components} `{MR : MapRange} `{RE : Regexp}.
Variable now : Z.
Variable uuid : string.

(** ** Messages

    A connection is known by its remote address; that of a response is also what the
    response has written to it. *)

Record NetRequest : Type := mkNetRequest {
  nq_headers : option MIMEHeader;
  nq_conn : option string;
  nq_body : option string;
  nq_msg : option RuleMsg;
  nq_err : error
}.
(** [Headers()] of both messages: created on first use, with the remote address. *)
Definition net_headers (h : option MIMEHeader) (conn : option string) : MIMEHeader :=
  match conn with
  | Some addr => Header_Set RemoteAddrKey addr (default ∅ h)
  | None => default ∅ h
  end.
Definition NetRequest_Headers (r : NetRequest) : option MIMEHeader * NetRequest :=
  let h := net_headers (nq_headers r) (nq_conn r) in
  (Some h, mkNetRequest (Some h) (nq_conn r) (nq_body r) (nq_msg r) (nq_err r)).
Definition NetRequest_From (r : NetRequest) : string := default "" (nq_conn r).
Definition NetRequest_SetMsg (msg : RuleMsg) (r : NetRequest) : NetRequest :=
  mkNetRequest (nq_headers r) (nq_conn r) (nq_body r) (Some msg) (nq_err r).
Definition NetRequest_GetMsg (r : NetRequest) : option RuleMsg * NetRequest :=
  match nq_msg r with
  | Some msg => (Some msg, r)
  | None =>
      let ruleMsg := NewMsg now uuid uuid 0 (NetRequest_From r) TEXT NewMetadata (default "" (nq_body r)) in
      (Some ruleMsg, NetRequest_SetMsg ruleMsg r)
  end.
#[global] Instance NetRequest_ops : MessageOps NetRequest := {|
  Body r := (nq_body r, r);
  Headers := NetRequest_Headers;
  From_ := NetRequest_From;
  SetMsg := NetRequest_SetMsg;
  GetMsg := NetRequest_GetMsg;
  SetStatusCode _ r := r;
  SetBody body r := mkNetRequest (nq_headers r) (nq_conn r) (Some body) (nq_msg r) (nq_err r);
  SetError err r := mkNetRequest (nq_headers r) (nq_conn r) (nq_body r) (nq_msg r) err;
  GetError := nq_err
|}.

Record NetResponse : Type := mkNetResponse {
  ns_headers : option MIMEHeader;
  ns_conn : option (string * list string);
  ns_body : option string;
  ns_msg : option RuleMsg;
  ns_err : error
}.
Definition NetResponse_Headers (r : NetResponse) : option MIMEHeader * NetResponse :=
  let h := net_headers (ns_headers r) (fst <$> ns_conn r) in
  (Some h, mkNetResponse (Some h) (ns_conn r) (ns_body r) (ns_msg r) (ns_err r)).
Definition NetResponse_SetBody (body : string) (r : NetResponse) : NetResponse :=
  mkNetResponse (ns_headers r) ((λ '(addr, sent), (addr, sent ++ [body])) <$> ns_conn r) (Some body) (ns_msg r) (ns_err r).
#[global] Instance NetResponse_ops : MessageOps NetResponse := {|
  Body r := (ns_body r, r);
  Headers := NetResponse_Headers;
  From_ r := default "" (fst <$> ns_conn r);
  SetMsg msg r := mkNetResponse (ns_headers r) (ns_conn r) (ns_body r) (Some msg) (ns_err r);
  GetMsg r := (ns_msg r, r);
  SetStatusCode _ r := r;
  SetBody := NetResponse_SetBody;
  SetError err r := mkNetResponse (ns_headers r) (ns_conn r) (ns_body r) (ns_msg r) err;
  GetError := ns_err
|}.

(** ** The endpoint *)

Record NetConfig : Type := mkNetConfig { nc_Protocol : string; nc_Server : string; nc_ReadTimeout : Z }.
Record RegexpRouter : Type := mkRegexpRouter { rr_router : nat; rr_regexp : option Re }.
Record NetEndpoint : Type := mkNet {
  ne_base : BaseEndpoint;
  ne_Config : NetConfig;
  ne_RuleConfig : Config;
  ne_listener : bool;
  ne_routers : gmap string RegexpRouter
}.
Definition set_net_routers (m : gmap string RegexpRouter) (x : NetEndpoint) : NetEndpoint :=
  mkNet (ne_base x) (ne_Config x) (ne_RuleConfig x) (ne_listener x) m.

Definition Net_New : NetEndpoint := mkNet (mkBase [] ∅) (mkNetConfig "tcp" "" 60) zeroConfig false ∅.
Definition Net_Init `{Decode NetConfig} (ruleConfig : Config) (configuration : Configuration) (x : NetEndpoint)
    : error * NetEndpoint :=
  let '(err, conf) := Map2Struct configuration (ne_Config x) in
  let conf := if bool_decide (nc_Protocol conf = "") then mkNetConfig "tcp" (nc_Server conf) (nc_ReadTimeout conf) else conf in
  (err, mkNet (ne_base x) conf ruleConfig (ne_listener x) (ne_routers x)).
(** [Close]: [err] is what closing the listener returns. *)
Definition Net_Close (err : error) (x : NetEndpoint) : error * NetEndpoint :=
  if ne_listener x
  then (err, mkNet (ne_base x) (ne_Config x) (ne_RuleConfig x) false (ne_routers x))
  else (None, x).

(** [AddRouter]: the id and the error it returns; an empty expression matches everything. *)
Definition Net_AddRouter (router : option nat) (rs : routers) (x : NetEndpoint) : outcome (string * error) * NetEndpoint :=
  match router with
  | None => (Returns ("", Some "router can not nil"), x)
  | Some a =>
      match rs !! a ≫= rt_from with
      | None => (Panics "invalid memory address or nil pointer dereference", x)
      | Some f =>
          let expr := from_From f in
          let add regexpV :=
            if bool_decide (is_Some (ne_routers x !! expr))
            then (Returns (expr, Some ("duplicate router " +:+ expr)), x)
            else (Returns (expr, None), set_net_routers (<[expr := mkRegexpRouter a regexpV]> (ne_routers x)) x) in
          if bool_decide (expr ≠ "") then
            match re_Compile expr with
            | Err err => (Returns ("", Some err), x)
            | Ok re => add (Some re)
            end
          else add None
      end
  end.
Definition Net_RemoveRouter (routerId : string) (x : NetEndpoint) : error * NetEndpoint :=
  (None, set_net_routers (delete routerId (ne_routers x)) x).

(** ** Accepting connections

    What one turn of the loop of [Start] finds: whether [Close] has set the listener to
    nil by then, and what [Accept] returns. *)
Inductive accept_result : Type := Accepted (addr : string) | AcceptClosed | AcceptFailed.
Record accept_turn : Type := mkTurn { at_listener_nil : bool; at_result : accept_result }.
Inductive start_end : Type := StillAccepting | StoppedWith (err : string) | StartPanics.
Definition StopErr : string := "endpoint stop".

(** The connections given to handlers, and how the loop ends. *)
Fixpoint accept_loop (turns : list accept_turn) : list string * start_end :=
  match turns with
  | [] => ([], StillAccepting)
  | t :: rest =>
      if at_listener_nil t then ([], StartPanics)
      else match at_result t with
           | AcceptClosed => ([], StoppedWith StopErr)
           | AcceptFailed => accept_loop rest
           | Accepted addr => let '(l, e) := accept_loop rest in (addr :: l, e)
           end
  end.
Definition Net_Start (listen : error) (turns : list accept_turn) (x : NetEndpoint) : (list string * start_end) * NetEndpoint :=
  match listen with
  | Some err => (([], StoppedWith err), mkNet (ne_base x) (ne_Config x) (ne_RuleConfig x) false (ne_routers x))
  | None => (accept_loop turns, mkNet (ne_base x) (ne_Config x) (ne_RuleConfig x) true (ne_routers x))
  end.

(** ** Connections *)

Variable E : Env NetRequest NetResponse.
Local Abbreviation exchange := (Exchange NetRequest NetResponse).

Definition net_exchange (addr data : string) : exchange :=
  let '(msg, i) := NetRequest_GetMsg (mkNetRequest None (Some addr) (Some data) None None) in
  let o := mkNetResponse None (Some (addr, [])) None None None in
  match msg with
  | Some msg => mkExchange (NetRequest_SetMsg (set_Metadata (Metadata_PutValue (m_Metadata msg) RemoteAddrKey addr) msg) i) o
  | None => mkExchange i o
  end.

Definition rr_matches (data : string) (v : RegexpRouter) : bool :=
  match rr_regexp v with None => true | Some re => re_Match re data end.

(** The routers of one line, one after the other on the same exchange: which ones ran,
    how it ended, the exchange, and the ends still to come. *)
Fixpoint dispatch (interceptors : list nat) (rs : routers) (data : string) (l : list (string * RegexpRouter)) (ex : exchange)
    : list string * ended * exchange * list (string * list (RuleMsg * error)) :=
  match l with
  | [] => ([], Finished, ex, [])
  | (expr, v) :: rest =>
      if rr_matches data v then
        match rs !! rr_router v with
        | None => ([expr], Panicked "nil router", ex, [])
        | Some r =>
            let '(e, ex, pending) := do_process E interceptors r ex in
            match e with
            | Finished =>
                let '(ran, e, ex, ps) := dispatch interceptors rs data rest ex in
                (expr :: ran, e, ex, (expr, pending) :: ps)
            | _ => ([expr], e, ex, [(expr, pending)])
            end
        end
      else dispatch interceptors rs data rest ex
  end.

Record handled : Type := mkHandled {
  hd_data : string;
  hd_ran : list string;
  hd_exchange : exchange;
  hd_pending : list (string * list (RuleMsg * error))
}.

(** How a connection ends: [Disconnected] when reading fails, [ConnPanicked] when the
    processing of a line panics; both close it. *)
Inductive conn_end : Type := Disconnected | ConnPanicked (why : string) | ConnBlocked | ConnCrashed (why : string) | OutOfFuel.

(** The loop of [ClientHandler.handler]. *)
Fixpoint client_loop (fuel : nat) (x : NetEndpoint) (rs : routers) (addr : string) (i : input) : list handled * conn_end :=
  match fuel with
  | O => ([], OutOfFuel)
  | S fuel =>
      match read i with
      | Failed => ([], Disconnected)
      | TimedOut i => client_loop fuel x rs addr i
      | Line data i =>
          if bool_decide (data = PingData) then client_loop fuel x rs addr i
          else
            let '(ran, e, ex, pending) :=
              dispatch (be_interceptors (ne_base x)) rs data (range (ne_routers x)) (net_exchange addr data) in
            let h := mkHandled data ran ex pending in
            match e with
            | Finished => let '(l, e) := client_loop fuel x rs addr i in (h :: l, e)
            | Panicked why => ([h], ConnPanicked why)
            | Blocked => ([h], ConnBlocked)
            | Crashed why => ([h], ConnCrashed why)
            end
      end
  end.
Definition client_handler (x : NetEndpoint) (rs : routers) (addr : string) (i : input) : list handled * conn_end :=
  client_loop (S (in_size i)) x rs addr i.

(** ** Properties *)

(** A router that was added is removed again by the id [AddRouter] returned, which
    leaves the endpoint as it was; adding one whose expression is taken, or does not
    compile, is an error and changes nothing. *)
Theorem Net_AddRouter_spec a rs x f :
  (rs !! a ≫= rt_from) = Some f →
  let expr := from_From f in
  match Net_AddRouter (Some a) rs x with
  | (Returns (id, None), x') =>
      id = expr ∧ ne_routers x !! expr = None ∧ (rr_router <$> ne_routers x' !! expr) = Some a ∧
      (expr = "" ∨ is_ok (re_Compile expr) = true) ∧ Net_RemoveRouter id x' = (None, x)
  | (Returns (_, Some err), x') =>
      x' = x ∧ (expr ≠ "" ∧ re_Compile expr = Err err ∨
                is_Some (ne_routers x !! expr) ∧ err = "duplicate router " +:+ expr)
  | (Panics _, _) => False
  end.
Proof.
  intros Hf expr. unfold Net_AddRouter. rewrite Hf. fold expr.
  assert (∀ v, ne_routers x !! expr = None →
    Net_RemoveRouter expr (set_net_routers (<[expr := v]> (ne_routers x)) x) = (None, x)) as Hrem.
  { intros v Hn. unfold Net_RemoveRouter, set_net_routers; simpl. rewrite delete_insert_id by done. by destruct x. }
  destruct (decide (expr = "")) as [He|He].
  - rewrite bool_decide_false by (by intros []). destruct (ne_routers x !! expr) as [v|] eqn:Ek.
    + rewrite bool_decide_true by (by eexists). split; [done|]. right. done.
    + rewrite bool_decide_false by (by intros [? ?]). simpl. rewrite lookup_insert_eq. split_and!; try done; [by left|by apply Hrem].
  - rewrite bool_decide_true by done. destruct (re_Compile expr) as [re|err]; [|by split; [|left]].
    destruct (ne_routers x !! expr) as [v|] eqn:Ek.
    + rewrite bool_decide_true by (by eexists). split; [done|]. right. done.
    + rewrite bool_decide_false by (by intros [? ?]). simpl. rewrite lookup_insert_eq. split_and!; try done; [by right|by apply Hrem].
Qed.

Lemma client_loop_fuel x rs addr fuel fuel' i :
  in_size i < fuel → fuel ≤ fuel' →
  client_loop fuel x rs addr i = client_loop fuel' x rs addr i ∧ (client_loop fuel x rs addr i).2 ≠ OutOfFuel.
Proof.
  revert fuel' i. induction fuel as [|fuel IH]; intros fuel' i Hs Hle; [lia|].
  destruct fuel' as [|fuel']; [lia|]. simpl. pose proof (read_size i) as Hr. destruct (read i) as [data i'|i'|].
  - destruct (IH fuel' i') as [Heq Hne]; [lia|lia|]. case_bool_decide; [done|].
    destruct (dispatch _ _ _ _ _) as [[[ran []] ex] pending]; try (split; done).
    rewrite <- Heq. by destruct (client_loop fuel x rs addr i').
  - apply IH; lia.
  - done.
Qed.

(** One turn for every byte and burst is enough for the loop. *)
Lemma client_handler_fuel x rs addr i fuel :
  S (in_size i) ≤ fuel →
  client_loop fuel x rs addr i = client_handler x rs addr i ∧
  (client_handler x rs addr i).2 ≠ OutOfFuel.
Proof.
  intros Hf. unfold client_handler.
  destruct (client_loop_fuel x rs addr (S (in_size i)) fuel i) as [H1 H2]; [lia|lia|]. by rewrite H1 in *.
Qed.

(** A line goes to exactly the routers that match. *)
Lemma dispatch_ran interceptors rs data l ex :
  (dispatch interceptors rs data l ex).1.1.2 = Finished →
  (dispatch interceptors rs data l ex).1.1.1 = (filter (λ v, rr_matches data v.2 = true) l).*1.
Proof.
  revert ex. induction l as [|[expr v] l IH]; intros ex; simpl; [done|]. rewrite filter_cons; simpl.
  destruct (rr_matches data v); simpl; [|by apply IH].
  destruct (rs !! rr_router v) as [r|]; [|done].
  destruct (do_process E interceptors r ex) as [[[] ex'] pending]; try done.
  specialize (IH ex'). destruct (dispatch interceptors rs data l ex') as [[[ran e] ex''] ps]; simpl in *.
  intros He. by rewrite IH.
Qed.

(** What a connection does with one line: a message with the line as its data, from the
    address of the client, which is what the routers are handed; the ones that run are those
    whose expression matches the line or is empty. *)
Record line_handled (x : NetEndpoint) (rs : routers) (addr line : string) (h : handled) : Prop := {
  lh_data : hd_data h = line;
  lh_message : ∃ msg, GetMsg (ex_In (net_exchange addr line)) = (Some msg, ex_In (net_exchange addr line)) ∧
    m_Data msg = line ∧ m_Type msg = addr ∧ m_DataType msg = TEXT ∧ m_Metadata msg = {[RemoteAddrKey := addr]};
  lh_dispatch : dispatch (be_interceptors (ne_base x)) rs line (range (ne_routers x)) (net_exchange addr line) =
    (hd_ran h, Finished, hd_exchange h, hd_pending h);
  lh_routers expr : expr ∈ hd_ran h ↔ ∃ v, ne_routers x !! expr = Some v ∧ rr_matches line v = true
}.

Lemma line_handled_intro x rs addr line ran ex pending :
  dispatch (be_interceptors (ne_base x)) rs line (range (ne_routers x)) (net_exchange addr line) = (ran, Finished, ex, pending) →
  line_handled x rs addr line (mkHandled line ran ex pending).
Proof.
  intros Hd. split; simpl; [done| |done|].
  - eexists. split; [reflexivity|]. by split_and!.
  - intros expr. pose proof (dispatch_ran (be_interceptors (ne_base x)) rs line (range (ne_routers x)) (net_exchange addr line)) as Hr.
    rewrite Hd in Hr. simpl in Hr. rewrite Hr by done. rewrite list_elem_of_fmap. split.
    + intros ([expr' v] & -> & Hin). apply list_elem_of_filter in Hin as [Hm Hin]. apply range_elem in Hin. by exists v.
    + intros (v & Hv & Hm). exists (expr, v). split; [done|]. apply list_elem_of_filter. split; [done|]. by apply range_elem.
Qed.

Lemma client_loop_lines x rs addr ls fuel :
  (∀ data, (dispatch (be_interceptors (ne_base x)) rs data (range (ne_routers x)) (net_exchange addr data)).1.1.2 = Finished) →
  Forall (λ l, LF ∉ chars l ∧ String.length l < defaultBufSize) ls →
  length ls < fuel →
  let '(hs, e) := client_loop fuel x rs addr (mkInput (lines_text ls) []) in
  e = Disconnected ∧ Forall2 (line_handled x rs addr) (filter (λ l, l ≠ PingData) (drop_cr <$> ls)) hs.
Proof.
  intros Hfin Hls. revert fuel. induction Hls as [|l ls [Hn Hl] _ IH]; intros fuel Hlt; (destruct fuel as [|fuel]; [simpl in Hlt; lia|]).
  - split; [done|constructor].
  - cbn [client_loop]. unfold read; cbn [in_now in_later lines_text]. rewrite ReadLine_line by done.
    specialize (IH fuel ltac:(simpl in Hlt; lia)). rewrite fmap_cons, filter_cons. case_bool_decide as Hp.
    + rewrite decide_False by tauto. exact IH.
    + rewrite decide_True by done. pose proof (Hfin (drop_cr l)) as Hf.
      destruct (dispatch _ _ _ _ _) as [[[ran e] ex] pending] eqn:Ed; simpl in Hf. subst e.
      destruct (client_loop fuel x rs addr _) as [hs e]. destruct IH as [-> IH]. split; [done|].
      constructor; [by apply line_handled_intro|exact IH].
Qed.

Lemma lines_text_size ls : length ls ≤ String.length (lines_text ls).
Proof. induction ls as [|l ls IH]; simpl; [done|]. rewrite string_app_length. simpl. lia. Qed.

(** C29. A client sends lines that fit the read buffer, without a pause as long as the read
    time-out, and then closes the connection; and the routers of the endpoint finish with
    every line.  Then every line but the heartbeats becomes one message of the
    client's address with the line, without a carriage return at its end, as its data, in the order
    of the lines; the message is processed by exactly the routers whose expression matches
    the line or is empty, one after the other; and the handler ends, which closes its
    side of the connection. *)
Theorem client_handler_lines x rs addr ls :
  (∀ data, (dispatch (be_interceptors (ne_base x)) rs data (range (ne_routers x)) (net_exchange addr data)).1.1.2 = Finished) →
  Forall (λ l, LF ∉ chars l ∧ String.length l < defaultBufSize) ls →
  let '(hs, e) := client_handler x rs addr (mkInput (lines_text ls) []) in
  e = Disconnected ∧ Forall2 (line_handled x rs addr) (filter (λ l, l ≠ PingData) (drop_cr <$> ls)) hs.
Proof.
  intros Hfin Hls. apply client_loop_lines; [done..|].
  pose proof (lines_text_size ls). unfold in_size; simpl. lia.
Qed.

(** A line longer than the buffer is not delivered as one message: the rest of it follows
    as messages of their own. *)
Theorem long_line_split l rest :
  LF ∉ chars l → defaultBufSize ≤ String.length l →
  ∃ piece rest', ReadLine (l +:+ String LF rest) = Some (piece, rest', false) ∧
    piece +:+ rest' = l +:+ String LF rest ∧ defaultBufSize - 1 ≤ String.length piece ≤ defaultBufSize.
Proof.
  intros Hn Hl. unfold ReadLine. rewrite bool_decide_false by (by destruct l).
  rewrite cut_newline_app by done. rewrite (proj2 (Nat.ltb_ge _ _) Hl).
  destruct (full_buffer (l +:+ String LF rest)) as [piece rest'] eqn:Ef.
  exists piece, rest'. split; [done|]. apply full_buffer_spec in Ef as [-> Hp]; [done|].
  rewrite string_app_length. lia.
Qed.

(** [Start] stops with [StopErr] when the listener is closed while it waits, and never
    because of other errors; but it panics when [Close] comes between two waits. *)
Theorem accept_loop_spec turns conns e :
  accept_loop turns = (conns, e) →
  match e with
  | StartPanics => Exists (λ t, at_listener_nil t = true) turns
  | StoppedWith err => err = StopErr ∧ Exists (λ t, at_result t = AcceptClosed) turns
  | StillAccepting => Forall (λ t, at_listener_nil t = false ∧ at_result t ≠ AcceptClosed) turns ∧
      conns = omap (λ t, match at_result t with Accepted addr => Some addr | _ => None end) turns
  end.
Proof.
  revert conns. induction turns as [|[isnil res] turns IH]; simpl; intros conns Heq; [by simplify_eq|].
  destruct isnil; simpl in Heq; [simplify_eq; by constructor|]. destruct res as [addr| |]; simpl in Heq.
  - destruct (accept_loop turns) as [l e'] eqn:El. simplify_eq. specialize (IH l eq_refl).
    destruct e; [destruct IH as [? ->]; split; [by constructor|done]|destruct IH; split; [done|by constructor 2]|by constructor 2].
  - simplify_eq. split; [done|]. by constructor.
  - specialize (IH conns Heq). destruct e; [destruct IH as [? ->]; split; [by constructor|done]|destruct IH; split; [done|by constructor 2]|by constructor 2].
Qed.

End Net.

Module NetExample.
Import Samples NodeSamples.

(** Expressions are plain substrings; "(" does not compile. *)
#[export] Instance substrings : Regexp := {|
  Re := string;
  re_Compile := λ s, if bool_decide (s = "(") then Err "missing closing )" else Ok s;
  re_Match := λ re data, Contains re data
|}.
#[export] Program Instance list_range : MapRange := {| range A m := map_to_list m |}.
Next Obligation. done. Qed.

Definition env : Env NetRequest NetResponse :=
  mkEnv (λ _ ex, (GoOn, mkExchange (ex_In ex) (SetBody "ok" (ex_Out ex))))
    (λ _ _, None) (λ _ m, [TellSuccess m]) (λ _ _ ex, (Finished, ex)) 0 5 "u".
Definition router (expr : string) : Router := mkRouter (Some (mkFrom ∅ expr [1] None)) DefaultRuleGo cfg 0.
Definition rs : routers := {[0 := router "warn"; 1 := router ""; 2 := router "("]}.
Definition ep : NetEndpoint := (Net_AddRouter (Some 1) rs (Net_AddRouter (Some 0) rs Net_New).2).2.

Lemma Net_AddRouter_witness :
  Net_RemoveRouter "warn" (Net_AddRouter (Some 0) rs Net_New).2 = (None, Net_New).
Proof.
  pose proof (Net_AddRouter_spec 0 rs Net_New (mkFrom ∅ "warn" [1] None) eq_refl) as H.
  assert ((Net_AddRouter (Some 0) rs Net_New).1 = Returns ("warn", None)) as E by (vm_compute; reflexivity).
  destruct (Net_AddRouter (Some 0) rs Net_New) as [o x']. simpl in E. subst o. apply H.
Defined.

Lemma env_finishes data :
  (dispatch 5 "u" env [] rs data (range (ne_routers ep)) (net_exchange 5 "u" "1.2.3.4" data)).1.1.2 = Finished.
Proof.
  generalize (net_exchange 5 "u" "1.2.3.4" data) as ex. intros ex.
  change (range (ne_routers ep)) with (map_to_list (ne_routers ep)).
  assert (map_to_list (ne_routers ep) = [("warn", mkRegexpRouter 0 (Some "warn")); ("", mkRegexpRouter 1 None)]) as ->
    by (vm_compute; reflexivity).
  cbn [dispatch]. destruct (rr_matches data _), ex as [i o]; vm_compute; reflexivity.
Qed.

Lemma client_handler_lines_witness :
  let x := client_handler 5 "u" env ep rs "1.2.3.4" (mkInput (lines_text ["hello"; "ping"; "warn 7"]) []) in
  x.2 = Disconnected ∧ Forall2 (line_handled 5 "u" env ep rs "1.2.3.4") ["hello"; "warn 7"] x.1.
Proof.
  cbv zeta. pose proof (client_handler_lines 5 "u" env ep rs "1.2.3.4" ["hello"; "ping"; "warn 7"] env_finishes ltac:(by_decide)) as H.
  destruct (client_handler _ _ _ _ _ _ _) as [hs e]. exact H.
Defined.

(** A client that pauses in the middle of a line for longer than the read time-out has
    the two halves taken for two messages. *)
Theorem timeout_splits_line :
  hd_data <$> (client_handler 5 "u" env ep rs "1.2.3.4" (mkInput "half a " [String.append "line" (String LF "")])).1 =
    ["half a "; "line"].
Proof. vm_compute. reflexivity. Qed.

(** [Close] between two connections makes [Start] panic. *)
Theorem close_between_accepts :
  accept_loop [mkTurn false (Accepted "a"); mkTurn true AcceptClosed] = (["a"], StartPanics).
Proof. reflexivity. Qed.

End NetExample.
