(* ===== verification/MqttClient.v ===== *)
(** * The MQTT client ([src/components/mqtt/client.go])

    A client keeps the handlers of its topics and subscribes them at the broker, again
    after every reconnection.  The broker and package paho are the environment: the
    answers to subscriptions and connection attempts are arguments.  [mc_broker] is
    what the broker and paho hold for this client: per topic the handler of the last
    accepted subscription.  Times are in milliseconds. *)

From Stdlib Require Import Ascii.
From S2P Require Import Prelude GoStrings Str.

(** [Handle] functions are known by an identifier. *)
Record Handler : Type := mkHandler { h_Topic : string; h_Qos : Z; h_Handle : nat }.

Record MqttConfig : Type := mkMqttConfig {
  mq_Server : string; mq_Username : string; mq_Password : string;
  mq_MaxReconnectInterval : Z; mq_QOS : Z; mq_CleanSession : bool;
  mq_ClientID : string; mq_CAFile : string; mq_CertFile : string; mq_CertKeyFile : string
}.

Record Client : Type := mkClient { mc_handlers : gmap string Handler; mc_broker : gmap string Handler }.

(** ** TLS *)

Record TLSConfig : Type := mkTLS { tls_RootCAs : option string; tls_Certificates : list string }.

(** [newTLSConfig]: a nil configuration when no file is given. *)
Definition newTLSConfig (ReadFile : string → result string) (LoadX509KeyPair : string → string → result string)
    (CAFile certFile certKeyFile : string) : result (option TLSConfig) :=
  if bool_decide (CAFile = "" ∧ certFile = "" ∧ certKeyFile = "") then Ok None
  else
    let? roots := if bool_decide (CAFile ≠ "") then let? caCert := ReadFile CAFile in Ok (Some caCert) else Ok None in
    let? certs := if bool_decide (certFile ≠ "" ∧ certKeyFile ≠ "")
                  then let? kp := LoadX509KeyPair certFile certKeyFile in Ok [kp] else Ok [] in
    Ok (Some (mkTLS roots certs)).

(** ** Connecting *)

Record ClientOptions : Type := mkOptions {
  o_Broker : string; o_Username : string; o_Password : string; o_CleanSession : bool;
  o_ClientID : string; o_MaxReconnectInterval : Z; o_TLS : option TLSConfig
}.
(** The options; a TLS error is only logged. *)
Definition client_options (picks : nat → nat) (tls : result (option TLSConfig)) (conf : MqttConfig) : ClientOptions :=
  mkOptions (mq_Server conf) (mq_Username conf) (mq_Password conf) (mq_CleanSession conf)
    (if bool_decide (mq_ClientID conf = "") then "rulego/" +:+ RandomStr 8 picks else mq_ClientID conf)
    (if bool_decide (mq_MaxReconnectInterval conf ≤ 0)%Z then 60000 else mq_MaxReconnectInterval conf)
    (match tls with Ok t => t | Err _ => None end).

(** An attempt: how long [Connect] takes and what it answers; and which case [select]
    takes when the retry timer and the context expire at the same moment. *)
Record attempt : Type := mkAttempt { a_time : Z; a_error : error; a_tie : bool }.
Definition retry_interval : Z := 2000.
Inductive connect_result : Type := Connected (at_ : Z) | Expired (at_ : Z) | Trying.

(** The loop: it starts its turn at time [t]; the context expires at [deadline]. *)
Fixpoint connect_loop (fuel : nat) (deadline t : Z) (attempts : nat → attempt) : connect_result :=
  match fuel with
  | O => Trying
  | S fuel =>
      let a := attempts 0 in
      let t := (t + a_time a)%Z in
      match a_error a with
      | None => Connected t
      | Some _ =>
          if bool_decide (deadline ≤ t)%Z then Expired t
          else if bool_decide (deadline < t + retry_interval)%Z ||
                  (bool_decide (deadline = t + retry_interval)%Z && a_tie a)
          then Expired deadline
          else connect_loop fuel deadline (t + retry_interval) (λ i, attempts (S i))
      end
  end.

(** [NewClient(ctx, conf)] with a context that expires after [timeout]. *)
Definition NewClient (fuel : nat) (timeout : Z) (attempts : nat → attempt) : option (result Client) :=
  match connect_loop fuel timeout 0 attempts with
  | Connected _ => Some (Ok (mkClient ∅ ∅))
  | Expired _ => Some (Err "context deadline exceeded")
  | Trying => None
  end.

(** ** Subscriptions *)

(** The answer to one [Subscribe]: an error, or the code of the broker for the topic. *)
Record sub_answer : Type := mkAnswer { sa_error : error; sa_code : option Z }.
Definition is128Err (a : sub_answer) : bool := bool_decide (sa_code a = Some 128%Z).
Definition refused (a : sub_answer) : bool := bool_decide (is_Some (sa_error a)) || is128Err a.

(** [subscribeHandler]: try until the broker accepts; [None]: it has not yet. *)
Fixpoint subscribeHandler (answers : list sub_answer) (h : Handler) (c : Client) : option Client :=
  match answers with
  | [] => None
  | a :: rest =>
      if refused a then subscribeHandler rest h c
      else Some (mkClient (mc_handlers c) (<[h_Topic h := h]> (mc_broker c)))
  end.

Definition RegisterHandler (answers : list sub_answer) (h : Handler) (c : Client) : option Client :=
  subscribeHandler answers h (mkClient (<[h_Topic h := h]> (mc_handlers c)) (mc_broker c)).

(** [UnregisterHandler(topic)]; [unsub] is the answer of the broker. *)
Definition UnregisterHandler (unsub : error) (topic : string) (c : Client) : error * Client :=
  match unsub with
  | Some err => (Some err, c)
  | None => (None, mkClient (delete topic (mc_handlers c)) (delete topic (mc_broker c)))
  end.

Definition GetHandlerByUpTopic (topic : string) (c : Client) : Handler :=
  default (mkHandler "" 0 0) (mc_handlers c !! topic).

(** [Close] unsubscribes the topics, which the broker accepts, and keeps the handlers. *)
Definition Client_Close (c : Client) : error * Client :=
  (None, mkClient (mc_handlers c) (foldl (λ m h, delete (h_Topic h) m) (mc_broker c) (map_to_list (mc_handlers c)).*2)).

Definition Publish (answer : error) (topic : string) (qos : Z) (data : string) : error := answer.

(** [subscribe], called on every (re)connection, with the answers for each topic. *)
Fixpoint subscribe_all (answers : string → list sub_answer) (hs : list Handler) (c : Client) : option Client :=
  match hs with
  | [] => Some c
  | h :: rest => c ← subscribeHandler (answers (h_Topic h)) h c; subscribe_all answers rest c
  end.
Definition onConnected (answers : string → list sub_answer) (c : Client) : option Client :=
  subscribe_all answers (map_to_list (mc_handlers c)).*2 c.

(** ** Properties *)

Lemma subscribeHandler_Some answers h c c' :
  subscribeHandler answers h c = Some c' → c' = mkClient (mc_handlers c) (<[h_Topic h := h]> (mc_broker c)).
Proof. induction answers as [|a answers IH]; simpl; [done|]. case_match; naive_solver. Qed.

Lemma subscribeHandler_accepts answers h c :
  Exists (λ a, refused a = false) answers ↔ is_Some (subscribeHandler answers h c).
Proof.
  induction answers as [|a answers IH]; simpl; [split; [by inversion 1|by intros []]|]. destruct (refused a) eqn:Er.
  - rewrite <- IH. split; [by inversion 1; congruence|by constructor 2].
  - split; [by eexists|by constructor].
Qed.

(** Handlers are stored under their topic. *)
Definition handlers_ok (c : Client) : Prop := map_Forall (λ k h, h_Topic h = k) (mc_handlers c).
(** The broker holds exactly the handlers. *)
Definition in_sync (c : Client) : Prop := mc_broker c = mc_handlers c.

Inductive client_op : Type :=
| ORegister (answers : list sub_answer) (h : Handler)
| OUnregister (unsub : error) (topic : string)
| OReconnect (kept : bool) (answers : string → list sub_answer).   (* [kept]: the broker has kept the session *)
Definition client_step (op : client_op) (c : Client) : option Client :=
  match op with
  | ORegister answers h => RegisterHandler answers h c
  | OUnregister unsub topic => Some (UnregisterHandler unsub topic c).2
  | OReconnect kept answers => onConnected answers (mkClient (mc_handlers c) (if kept then mc_broker c else ∅))
  end.
Fixpoint client_run (ops : list client_op) (c : Client) : option Client :=
  match ops with [] => Some c | op :: ops => c ← client_step op c; client_run ops c end.

Lemma subscribe_all_broker answers hs c c' :
  subscribe_all answers hs c = Some c' →
  mc_handlers c' = mc_handlers c ∧
  mc_broker c' = foldl (λ m h, <[h_Topic h := h]> m) (mc_broker c) hs.
Proof.
  revert c. induction hs as [|h hs IH]; intros c; simpl; [by intros [= ->]|].
  destruct (subscribeHandler _ h c) as [c1|] eqn:E; simpl; [|done]. apply subscribeHandler_Some in E as ->.
  intros H. by apply IH in H.
Qed.

Lemma foldl_topics_lookup (m b : gmap string Handler) topic :
  map_Forall (λ k h, h_Topic h = k) m →
  foldl (λ m h, <[h_Topic h := h]> m) b (map_to_list m).*2 !! topic = match m !! topic with Some h => Some h | None => b !! topic end.
Proof.
  intros Hok.
  assert (∀ (l : list (string * Handler)) (b : gmap string Handler), NoDup l.*1 → (∀ k h, (k, h) ∈ l → h_Topic h = k) →
    foldl (λ m h, <[h_Topic h := h]> m) b l.*2 !! topic =
      match (list_to_map l : gmap string Handler) !! topic with Some h => Some h | None => b !! topic end) as H.
  { clear b. induction l as [|[k h] l IH]; intros b Hnd Hl; simpl; [done|]. inversion Hnd as [|? ? Hn Hnd']; subst.
    rewrite IH by (try done; intros; apply Hl; by constructor). rewrite (Hl k h) by constructor.
    destruct (decide (k = topic)) as [->|Hne].
    - rewrite !lookup_insert_eq. by rewrite not_elem_of_list_to_map_1.
    - by rewrite !lookup_insert_ne. }
  rewrite H; [by rewrite list_to_map_to_list|apply NoDup_fst_map_to_list|].
  intros k h Hin%elem_of_map_to_list. by apply (Hok k h).
Qed.

Lemma foldl_topics (m b : gmap string Handler) :
  map_Forall (λ k h, h_Topic h = k) m → b ⊆ m → foldl (λ m h, <[h_Topic h := h]> m) b (map_to_list m).*2 = m.
Proof.
  intros Hok Hb. apply map_eq. intros k. rewrite foldl_topics_lookup by done.
  destruct (m !! k) as [h|] eqn:Ek; [done|]. by eapply lookup_weaken_None.
Qed.

(** What an operation does to a topic, and what the operations have left of it. *)
Definition topic_effect (topic : string) (op : client_op) : option (option Handler) :=
  match op with
  | ORegister _ h => if bool_decide (h_Topic h = topic) then Some (Some h) else None
  | OUnregister None t => if bool_decide (t = topic) then Some None else None
  | _ => None
  end.
Definition subscribed (ops : list client_op) (topic : string) : option Handler := default None (last (omap (topic_effect topic) ops)).

Lemma subscribed_snoc ops op topic :
  subscribed (ops ++ [op]) topic = default (subscribed ops topic) (topic_effect topic op).
Proof.
  unfold subscribed. rewrite omap_app. simpl. destruct (topic_effect topic op); simpl; [by rewrite last_snoc|by rewrite app_nil_r].
Qed.

Lemma client_step_sync op c c' :
  handlers_ok c → in_sync c → client_step op c = Some c' →
  handlers_ok c' ∧ in_sync c' ∧ ∀ topic, mc_handlers c' !! topic = default (mc_handlers c !! topic) (topic_effect topic op).
Proof.
  intros Hok Hs. unfold in_sync in *. destruct op as [answers h|unsub topic|kept answers]; simpl.
  - unfold RegisterHandler. intros ->%subscribeHandler_Some. simpl. unfold handlers_ok; simpl. rewrite Hs.
    split_and!; [by apply map_Forall_insert_2|done|]. intros topic.
    case_bool_decide; [subst; apply lookup_insert_eq|by apply lookup_insert_ne].
  - intros [= <-]. destruct unsub; simpl; [done|]. unfold handlers_ok; simpl. rewrite Hs.
    split_and!; [by apply map_Forall_delete|done|]. intros t.
    case_bool_decide; [subst; apply lookup_delete_eq|by apply lookup_delete_ne].
  - unfold onConnected. simpl. intros [H1 H2]%subscribe_all_broker. simpl in *. unfold handlers_ok.
    rewrite H1, H2. split_and!; [done| |done]. apply foldl_topics; [done|]. destruct kept; [by rewrite Hs|apply map_empty_subseteq].
Qed.

Lemma client_run_snoc ops op c : client_run (ops ++ [op]) c = (c ← client_run ops c; client_step op c).
Proof.
  revert c. induction ops as [|o ops IH]; intros c; simpl; [by destruct (client_step op c)|].
  destruct (client_step o c); simpl; [apply IH|done].
Qed.

(** C30. Topics are registered and unregistered and connections are made again, with or without the
    session, in any order, one after the other (a reconnection does not overlap another
    operation).  Once the operations have returned, what the broker holds for a
    topic and what the client holds for it is the handler registered last for that
    topic, under the quality of service it was registered with; and nothing when the topic was
    unregistered successfully after that, or never registered.  An unregistration
    that the broker refuses changes nothing. *)
Theorem client_subscriptions ops c :
  client_run ops (mkClient ∅ ∅) = Some c →
  ∀ topic, mc_broker c !! topic = subscribed ops topic ∧ mc_handlers c !! topic = subscribed ops topic.
Proof.
  intros Hc. assert (handlers_ok c ∧ in_sync c ∧ ∀ topic, mc_handlers c !! topic = subscribed ops topic) as (_ & Hs & Ht);
    [|intros topic; unfold in_sync in Hs; rewrite Hs; auto].
  revert c Hc. induction ops as [|op ops IH] using rev_ind; intros c Hc.
  { injection Hc as <-. split_and!; [apply map_Forall_empty|done|]. intros topic. apply lookup_empty. }
  rewrite client_run_snoc in Hc. apply bind_Some in Hc as (c0 & Hc0 & Hstep). destruct (IH c0 Hc0) as (Hok & Hs & Ht).
  destruct (client_step_sync op c0 c Hok Hs Hstep) as (Hok' & Hs' & Ht'). split_and!; [done..|].
  intros topic. by rewrite Ht', subscribed_snoc, Ht.
Qed.

(** A subscription returns exactly when the broker accepts at some time, and all later
    registrations wait for it, because [RegisterHandler] holds the lock meanwhile. *)
Theorem RegisterHandler_returns answers h c :
  is_Some (RegisterHandler answers h c) ↔ Exists (λ a, refused a = false) answers.
Proof. unfold RegisterHandler. symmetry. apply subscribeHandler_accepts. Qed.

Lemma connect_loop_bound fuel deadline t attempts :
  (∀ i, 0 ≤ a_time (attempts i))%Z → (deadline - t < Z.of_nat fuel * retry_interval)%Z → (0 < fuel)%nat →
  match connect_loop fuel deadline t attempts with
  | Trying => False
  | Connected _ => ∃ n, n < fuel ∧ a_error (attempts n) = None
  | Expired at_ => (deadline ≤ at_)%Z ∧ is_Some (a_error (attempts 0))
  end.
Proof.
  revert t attempts. induction fuel as [|fuel IH]; intros t attempts Hpos Hd Hf; [lia|]. simpl.
  pose proof (Hpos 0) as H0. destruct (a_error (attempts 0)) as [err|] eqn:Ee; [|exists 0; by split; [lia|]].
  case_bool_decide as H1; [by split; [|eexists]|].
  destruct (_ || _) eqn:E2; [by split; [lia|eexists]|]. apply orb_false_iff in E2 as [E2 _].
  apply bool_decide_eq_false in E2.
  assert (0 < fuel) as Hf'. { destruct fuel; [|lia]. unfold retry_interval in *. lia. }
  specialize (IH (t + a_time (attempts 0%nat) + retry_interval)%Z (λ i, attempts (S i)) (λ i, Hpos (S i))).
  specialize (IH ltac:(unfold retry_interval in *; lia) Hf').
  destruct (connect_loop _ _ _ _) as [at1|at1|]; [|by destruct IH as [? _]; split; [|eexists]|done].
  destruct IH as (n & Hn & He). exists (S n). split; [lia|done].
Qed.

(** Creating a client ends: with the sixteen seconds the components give it, after at
    most nine connection attempts, however they fail and however [select] decides when
    the context and the retry timer expire together.  It returns a client only when an
    attempt succeeded, and the context's error only when the time is up. *)
Theorem NewClient_terminates attempts fuel :
  (∀ i, 0 ≤ a_time (attempts i))%Z → 9 ≤ fuel →
  match NewClient fuel 16000 attempts with
  | None => False
  | Some (Ok c) => c = mkClient ∅ ∅ ∧ ∃ n, n < fuel ∧ a_error (attempts n) = None
  | Some (Err e) => e = "context deadline exceeded" ∧ is_Some (a_error (attempts 0)) ∧
      ∃ at_, connect_loop fuel 16000 0 attempts = Expired at_ ∧ (16000 ≤ at_)%Z
  end.
Proof.
  intros Hpos Hf. unfold NewClient.
  pose proof (connect_loop_bound fuel 16000 0 attempts Hpos ltac:(unfold retry_interval; lia) ltac:(lia)) as H.
  destruct (connect_loop fuel 16000 0 attempts) as [at_|at_|]; [done| |done].
  destruct H as [H1 H2]. split; [done|]. split; [done|]. by exists at_.
Qed.

Module MqttClientExample.

Definition accept : sub_answer := mkAnswer None (Some 0%Z).
Definition acl : sub_answer := mkAnswer None (Some 128%Z).
Definition h (topic : string) (f : nat) : Handler := mkHandler topic 0 f.
Definition ops : list client_op :=
  [ORegister [acl; accept] (h "a" 1); ORegister [accept] (h "b" 2); ORegister [accept] (h "b" 3); OUnregister None "a";
   OUnregister (Some "timeout") "b"; OReconnect false (λ _, [accept])].

Lemma client_subscriptions_witness :
  ∃ c, client_run ops (mkClient ∅ ∅) = Some c ∧ mc_broker c !! "a" = None ∧ mc_broker c !! "b" = Some (h "b" 3).
Proof.
  destruct (client_run ops (mkClient ∅ ∅)) as [c|] eqn:E; [|vm_compute in E; discriminate E].
  exists c. split; [reflexivity|]. rewrite !(proj1 (client_subscriptions ops c E _)). split; reflexivity.
Defined.

(** The broker does not answer for twenty seconds. *)
Definition slow : nat → attempt := λ i, mkAttempt 500 (if i <? 10 then Some "refused" else None) false.
Lemma NewClient_terminates_witness : NewClient 9 16000 slow = Some (Err "context deadline exceeded").
Proof.
  pose proof (NewClient_terminates slow 9 ltac:(intros i; simpl; lia) ltac:(lia)) as H.
  destruct (NewClient 9 16000 slow) as [[c|e]|]; [|destruct H as [-> _]; reflexivity|destruct H].
  destruct H as (_ & n & Hn & He). exfalso. do 9 (destruct n as [|n]; [discriminate He|]). lia.
Defined.

End MqttClientExample.
