(* ===== verification/MqttEndpoint.v ===== *)
(** * The MQTT endpoint ([src/endpoint/mqtt/mqtt.go])

    Routers are stored by topic; once the endpoint is started each is a handler of its
    client ([MqttClient]). *)

From Stdlib Require Import Ascii.
From S2P Require Import Prelude GoStrings Value Str Msg Config Dsl World RuleCtx JsEngine NodeApi Samples Mime Endpoint MqttClient.

(** [paho.Message] *)
Record PahoMessage : Type := mkPaho { pm_Topic : string; pm_Payload : string }.

Section Mqtt.
Context `{C : Components} `{MR : MapRange}.
Variable now : Z.
Variable uuid : string.

(** ** Messages *)

Record MqttRequest : Type := mkMqttRequest {
  mr_headers : option MIMEHeader;
  mr_request : option PahoMessage;
  mr_body : option string;
  mr_msg : option RuleMsg;
  mr_err : error
}.
Definition MqttRequest_Body (r : MqttRequest) : option string * MqttRequest :=
  let body := match mr_body r, mr_request r with None, Some q => Some (pm_Payload q) | b, _ => b end in
  (body, mkMqttRequest (mr_headers r) (mr_request r) body (mr_msg r) (mr_err r)).
Definition MqttRequest_Headers (r : MqttRequest) : option MIMEHeader * MqttRequest :=
  let h := default ∅ (mr_headers r) in
  let h := match mr_request r with Some q => Header_Set "topic" (pm_Topic q) h | None => h end in
  (Some h, mkMqttRequest (Some h) (mr_request r) (mr_body r) (mr_msg r) (mr_err r)).
Definition MqttRequest_From (r : MqttRequest) : string := default "" (pm_Topic <$> mr_request r).
Definition MqttRequest_SetMsg (msg : RuleMsg) (r : MqttRequest) : MqttRequest :=
  mkMqttRequest (mr_headers r) (mr_request r) (mr_body r) (Some msg) (mr_err r).
Definition MqttRequest_GetMsg (r : MqttRequest) : option RuleMsg * MqttRequest :=
  match mr_msg r with
  | Some msg => (Some msg, r)
  | None =>
      let '(body, r) := MqttRequest_Body r in
      let ruleMsg := NewMsg now uuid uuid 0 (MqttRequest_From r) JSON NewMetadata (default "" body) in
      let ruleMsg := set_Metadata (Metadata_PutValue (m_Metadata ruleMsg) "topic" (MqttRequest_From r)) ruleMsg in
      (Some ruleMsg, MqttRequest_SetMsg ruleMsg r)
  end.
#[global] Instance MqttRequest_ops : MessageOps MqttRequest := {|
  Body := MqttRequest_Body;
  Headers := MqttRequest_Headers;
  From_ := MqttRequest_From;
  SetMsg := MqttRequest_SetMsg;
  GetMsg := MqttRequest_GetMsg;
  SetStatusCode _ r := r;
  SetBody body r := mkMqttRequest (mr_headers r) (mr_request r) (Some body) (mr_msg r) (mr_err r);
  SetError err r := mkMqttRequest (mr_headers r) (mr_request r) (mr_body r) (mr_msg r) err;
  GetError := mr_err
|}.

(** The client of a response is what the response has published: topic, quality of
    service and data. *)
Record MqttResponse : Type := mkMqttResponse {
  mp_headers : option MIMEHeader;
  mp_request : option PahoMessage;
  mp_response : list (string * Z * string);
  mp_body : option string;
  mp_msg : option RuleMsg;
  mp_err : error
}.
Definition MqttResponse_SetBody (body : string) (r : MqttResponse) : MqttResponse :=
  let h := default ∅ (mp_headers r) in
  let topic := Header_Get "topic" h in
  let qosStr := Header_Get "qos" h in
  let qos := if bool_decide (qosStr ≠ "") then (Atoi_value qosStr `mod` 256)%Z else 0%Z in
  mkMqttResponse (Some h) (mp_request r)
    (if bool_decide (topic ≠ "") then mp_response r ++ [(topic, qos, body)] else mp_response r)
    (Some body) (mp_msg r) (mp_err r).
#[global] Instance MqttResponse_ops : MessageOps MqttResponse := {|
  Body r := (mp_body r, r);
  Headers r := let h := default ∅ (mp_headers r) in
    (Some h, mkMqttResponse (Some h) (mp_request r) (mp_response r) (mp_body r) (mp_msg r) (mp_err r));
  From_ r := default "" (pm_Topic <$> mp_request r);
  SetMsg msg r := mkMqttResponse (mp_headers r) (mp_request r) (mp_response r) (mp_body r) (Some msg) (mp_err r);
  GetMsg r := (mp_msg r, r);
  SetStatusCode _ r := r;
  SetBody := MqttResponse_SetBody;
  SetError err r := mkMqttResponse (mp_headers r) (mp_request r) (mp_response r) (mp_body r) (mp_msg r) err;
  GetError := mp_err
|}.

(** ** The endpoint

    A handler of the client is known by the address of its router. *)
Record Mqtt : Type := mkMqtt {
  me_base : BaseEndpoint;
  me_RuleConfig : Config;
  me_Config : MqttConfig;
  me_client : option Client
}.
Definition set_storage (m : gmap string nat) (x : Mqtt) : Mqtt :=
  mkMqtt (set_RouterStorage m (me_base x)) (me_RuleConfig x) (me_Config x) (me_client x).
Definition set_client (c : Client) (x : Mqtt) : Mqtt := mkMqtt (me_base x) (me_RuleConfig x) (me_Config x) (Some c).
Definition storage (x : Mqtt) : gmap string nat := be_RouterStorage (me_base x).

Definition Mqtt_New : Mqtt := mkMqtt (mkBase [] ∅) zeroConfig (mkMqttConfig "" "" "" 0 0 false "" "" "" "") None.
Definition Mqtt_Init `{Decode MqttConfig} (ruleConfig : Config) (configuration : Configuration) (x : Mqtt) : error * Mqtt :=
  let '(err, conf) := Map2Struct configuration (me_Config x) in (err, mkMqtt (me_base x) ruleConfig conf (me_client x)).
Definition Mqtt_Close (x : Mqtt) : error * Mqtt :=
  match me_client x with
  | Some c => let '(err, c) := Client_Close c in (err, set_client c x)
  | None => (None, x)
  end.

Definition saveRouter (a : nat) (r : Router) (x : Mqtt) : Mqtt := set_storage (<[FromToString r := a]> (storage x)) x.
Definition deleteRouter (from : string) (x : Mqtt) : Mqtt := set_storage (delete from (storage x)) x.
Definition mqtt_handler_of (x : Mqtt) (a : nat) (f : From) : Handler := mkHandler (from_From f) (mq_QOS (me_Config x)) a.

(** [AddRouter]; [None]: it has not returned, because the broker refuses the topic. *)
Definition Mqtt_AddRouter (answers : list sub_answer) (router : option nat) (rs : routers) (x : Mqtt)
    : option (outcome (result string) * Mqtt) :=
  match router with
  | None => Some (Returns (Err "router can not nil"), x)
  | Some a =>
      match rs !! a with
      | None => None
      | Some r =>
          let x := saveRouter a r x in
          match rt_from r with
          | None => Some (Panics "invalid memory address or nil pointer dereference", x)
          | Some f =>
              match me_client x with
              | None => Some (Returns (Ok (from_From f)), x)
              | Some c =>
                  c ← RegisterHandler answers (mqtt_handler_of x a f) c;
                  Some (Returns (Ok (from_From f)), set_client c x)
              end
          end
      end
  end.

(** [RemoveRouter]: without a client its method is called on a nil pointer. *)
Definition Mqtt_RemoveRouter (unsub : error) (routerId : string) (x : Mqtt) : outcome error * Mqtt :=
  let x := deleteRouter routerId x in
  match me_client x with
  | None => (Panics "invalid memory address or nil pointer dereference", x)
  | Some c => let '(err, c) := UnregisterHandler unsub routerId c in (Returns err, set_client c x)
  end.

(** The registration of the stored routers; those without input are skipped. *)
Fixpoint register_stored (answers : string → list sub_answer) (rs : routers) (x : Mqtt) (l : list (string * nat)) (c : Client)
    : option Client :=
  match l with
  | [] => Some c
  | (_, a) :: rest =>
      c ← match rs !! a ≫= rt_from with
          | Some f => RegisterHandler (answers (from_From f)) (mqtt_handler_of x a f) c
          | None => Some c
          end;
      register_stored answers rs x rest c
  end.
(** [Start], with what [NewClient] returns. *)
Definition Mqtt_Start (client : result Client) (answers : string → list sub_answer) (rs : routers) (x : Mqtt)
    : option (error * Mqtt) :=
  match me_client x with
  | Some _ => Some (None, x)
  | None =>
      match client with
      | Err err => Some (Some err, x)
      | Ok c => c ← register_stored answers rs x (range (storage x)) c; Some (None, set_client c x)
      end
  end.

(** The closure [m.handler(router)] makes. *)
Variable E : Env MqttRequest MqttResponse.
Definition Mqtt_handler (interceptors : list nat) (r : Router) (data : PahoMessage)
    : ended * Exchange MqttRequest MqttResponse * list (RuleMsg * error) :=
  let '(e, ex, pending) := do_process E interceptors r
    (mkExchange (mkMqttRequest None (Some data) None None None) (mkMqttResponse None (Some data) [] None None None)) in
  (recovered e, ex, pending).

(** ** Properties *)

Variable rs : routers.

Context `{D : Decode MqttConfig}.

(** What happens to an endpoint: its methods, and connections its client makes again. *)
Inductive mqtt_op : Type :=
| MInit (ruleConfig : Config) (configuration : Configuration)
| MAdd (answers : list sub_answer) (a : nat)
| MRemove (unsub : error) (routerId : string)
| MStart (connected : result unit) (answers : string → list sub_answer)
| MClose
| MReconnect (kept : bool) (answers : string → list sub_answer).
(** The state after an operation that returns. *)
Definition mqtt_step (op : mqtt_op) (x : Mqtt) : option Mqtt :=
  match op with
  | MInit ruleConfig configuration => Some (Mqtt_Init ruleConfig configuration x).2
  | MAdd answers a =>
      match Mqtt_AddRouter answers (Some a) rs x with Some (Returns _, x) => Some x | _ => None end
  | MRemove unsub id => match Mqtt_RemoveRouter unsub id x with (Returns _, x) => Some x | _ => None end
  | MStart connected answers => snd <$> Mqtt_Start (match connected with Ok _ => Ok (mkClient ∅ ∅) | Err err => Err err end) answers rs x
  | MClose => Some (Mqtt_Close x).2
  | MReconnect kept answers =>
      match me_client x with
      | Some c => c ← client_step (OReconnect kept answers) c; Some (set_client c x)
      | None => Some x
      end
  end.
Fixpoint mqtt_run (ops : list mqtt_op) (x : Mqtt) : option Mqtt :=
  match ops with [] => Some x | op :: ops => x ← mqtt_step op x; mqtt_run ops x end.

(** ** One topic

    The configuration, the router stored for the topic, and, once the endpoint is started,
    the handlers that the client and the broker have for it. *)
Record topic_state : Type := mkTopic {
  ts_config : MqttConfig;
  ts_stored : option nat;
  ts_client : option (option Handler * option Handler)
}.
Definition topic_view (topic : string) (x : Mqtt) : topic_state :=
  mkTopic (me_Config x) (storage x !! topic) ((λ c, (mc_handlers c !! topic, mc_broker c !! topic)) <$> me_client x).

Section Topic.
Variable topic : string.
Definition topic_handler (s : topic_state) (a : nat) : Handler := mkHandler topic (mq_QOS (ts_config s)) a.
Definition topic_step (s : topic_state) (op : mqtt_op) : topic_state :=
  match op with
  | MInit _ configuration => mkTopic (Map2Struct configuration (ts_config s)).2 (ts_stored s) (ts_client s)
  | MAdd _ a =>
      if bool_decide ((from_From <$> (rs !! a ≫= rt_from)) = Some topic)
      then mkTopic (ts_config s) (Some a) ((λ _, (Some (topic_handler s a), Some (topic_handler s a))) <$> ts_client s)
      else s
  | MRemove unsub id =>
      if bool_decide (id = topic)
      then mkTopic (ts_config s) None (match unsub with None => (λ _, (None, None)) <$> ts_client s | Some _ => ts_client s end)
      else s
  | MStart (Ok _) _ =>
      match ts_client s with
      | None => mkTopic (ts_config s) (ts_stored s) (Some (topic_handler s <$> ts_stored s, topic_handler s <$> ts_stored s))
      | Some _ => s
      end
  | MStart (Err _) _ => s
  | MClose => mkTopic (ts_config s) (ts_stored s) ((λ '(held, at_broker), (held, match held with Some _ => None | None => at_broker end)) <$> ts_client s)
  | MReconnect kept _ =>
      mkTopic (ts_config s) (ts_stored s)
        ((λ '(held, at_broker), (held, match held with Some _ => held | None => if kept then at_broker else None end)) <$> ts_client s)
  end.
Definition topic_run (ops : list mqtt_op) : topic_state := foldl topic_step (topic_view topic Mqtt_New) ops.
End Topic.

(** A stored router has its topic as input, and so has a handler of the client. *)
Definition mqtt_ok (x : Mqtt) : Prop :=
  (∀ topic a, storage x !! topic = Some a → from_From <$> (rs !! a ≫= rt_from) = Some topic) ∧
  ∀ c, me_client x = Some c → handlers_ok c.

Lemma RegisterHandler_lookup answers h c c' :
  RegisterHandler answers h c = Some c' → handlers_ok c →
  handlers_ok c' ∧ mc_handlers c' = <[h_Topic h := h]> (mc_handlers c) ∧ mc_broker c' = <[h_Topic h := h]> (mc_broker c).
Proof.
  unfold RegisterHandler, handlers_ok. intros ->%subscribeHandler_Some Hok. simpl. split; [|done]. by apply map_Forall_insert_2.
Qed.

Lemma register_stored_lookup answers x l c c' :
  (∀ topic a, (topic, a) ∈ l → from_From <$> (rs !! a ≫= rt_from) = Some topic) →
  NoDup l.*1 → handlers_ok c → register_stored answers rs x l c = Some c' →
  handlers_ok c' ∧ ∀ topic,
    let h := mkHandler topic (mq_QOS (me_Config x)) <$> (list_to_map l : gmap string nat) !! topic in
    mc_handlers c' !! topic = from_option Some (mc_handlers c !! topic) h ∧ mc_broker c' !! topic = from_option Some (mc_broker c !! topic) h.
Proof.
  revert c. induction l as [|[t a] l IH]; intros c Hl Hnd Hs; simpl; [by intros [= <-]|].
  pose proof (Hl t a ltac:(constructor)) as Hf. destruct (rs !! a ≫= rt_from) as [f|]; simplify_eq/=.
  destruct (RegisterHandler _ _ c) as [c1|] eqn:E1; simpl; [|done]. intros E2.
  destruct (RegisterHandler_lookup _ _ _ _ E1 Hs) as (Hs1 & Hc1 & Hb1). inversion Hnd as [|? ? Hn Hnd']; subst.
  destruct (IH c1) as [Hs' Hc']; try done; [intros; apply Hl; by constructor|]. split; [done|].
  intros topic. destruct (Hc' topic) as [-> ->]. rewrite Hc1, Hb1. unfold mqtt_handler_of; simpl.
  destruct (decide (from_From f = topic)) as [<-|Hne].
  - rewrite !lookup_insert_eq. by rewrite not_elem_of_list_to_map_1.
  - by rewrite !lookup_insert_ne.
Qed.

Lemma close_lookup topic c :
  handlers_ok c → mc_broker (Client_Close c).2 !! topic = match mc_handlers c !! topic with Some _ => None | None => mc_broker c !! topic end.
Proof.
  intros Hok. unfold Client_Close. simpl.
  assert (∀ (l : list (string * Handler)) (b : gmap string Handler), (∀ k h, (k, h) ∈ l → h_Topic h = k) →
    foldl (λ m h, delete (h_Topic h) m) b l.*2 !! topic = if bool_decide (topic ∈ l.*1) then None else b !! topic) as H.
  { induction l as [|[k h] l IH]; intros b Hl; [done|]. simpl. rewrite IH by (intros; apply Hl; by constructor).
    rewrite (Hl k h) by constructor. destruct (decide (k = topic)) as [->|Hne].
    - rewrite lookup_delete_eq, (bool_decide_true (topic ∈ topic :: _)) by constructor. by case_bool_decide.
    - rewrite lookup_delete_ne by done. repeat case_bool_decide; set_solver. }
  rewrite H by (intros k h Hin%elem_of_map_to_list; by apply (Hok k h)).
  destruct (mc_handlers c !! topic) as [h|] eqn:Eh.
  - rewrite bool_decide_true; [done|]. apply list_elem_of_fmap. exists (topic, h). split; [done|]. by apply elem_of_map_to_list.
  - rewrite bool_decide_false; [done|]. intros ([k h] & -> & Hin%elem_of_map_to_list)%list_elem_of_fmap. simpl in *. congruence.
Qed.

Lemma mqtt_add_view answers a x x' :
  mqtt_ok x → mqtt_step (MAdd answers a) x = Some x' →
  mqtt_ok x' ∧ ∀ topic, topic_view topic x' = topic_step topic (topic_view topic x) (MAdd answers a).
Proof.
  intros [Hst Hcl]. simpl. unfold Mqtt_AddRouter. destruct (rs !! a) as [r|] eqn:Er; [|done].
  destruct (rt_from r) as [f|] eqn:Ef; [|done].
  assert (FromToString r = from_From f) as Hfr by (unfold FromToString; by rewrite Ef).
  assert (∀ topic b, <[FromToString r := a]> (storage x) !! topic = Some b →
    from_From <$> (rs !! b ≫= rt_from) = Some topic) as Hst'.
  { intros topic b [[<- <-]|[_ Hb]]%lookup_insert_Some; [|by apply Hst]. rewrite Er. simpl. by rewrite Ef, Hfr. }
  simpl. rewrite Ef. simpl. unfold saveRouter; simpl. destruct (me_client x) as [c|] eqn:Ec; simpl.
  - destruct (RegisterHandler _ _ c) as [c1|] eqn:E1; simpl; [|done]. intros [= <-].
    destruct (RegisterHandler_lookup _ _ _ _ E1 (Hcl c eq_refl)) as (Hs1 & Hc1 & Hb1). split; [split; [exact Hst'|by intros c2 [= <-]]|].
    intros topic. unfold topic_view, storage; simpl. rewrite Ec, Hc1, Hb1, Hfr. unfold topic_handler; simpl.
    case_bool_decide as Ht; [injection Ht as <-; by rewrite !lookup_insert_eq|]. rewrite !lookup_insert_ne by congruence. done.
  - intros [= <-]. split; [split; [exact Hst'|]; simpl; intros c; by rewrite Ec|].
    intros topic. unfold topic_view, storage; simpl. rewrite Ec, Hfr. simpl.
    case_bool_decide as Ht; [injection Ht as <-; by rewrite lookup_insert_eq|]. by rewrite lookup_insert_ne by congruence.
Qed.

Lemma mqtt_remove_view unsub id x x' :
  mqtt_ok x → mqtt_step (MRemove unsub id) x = Some x' →
  mqtt_ok x' ∧ ∀ topic, topic_view topic x' = topic_step topic (topic_view topic x) (MRemove unsub id).
Proof.
  intros [Hst Hcl]. simpl. unfold Mqtt_RemoveRouter; simpl. destruct (me_client x) as [c|] eqn:Ec; [|done].
  assert (∀ c', me_client (set_client c' (deleteRouter id x)) = Some c' ∧ storage (set_client c' (deleteRouter id x)) = delete id (storage x))
    as Hx by done.
  pose proof (Hcl c eq_refl) as Hok. destruct unsub as [err|]; simpl; intros [= <-].
  - split; [split; [|by intros c' [= <-]]|].
    { intros topic a Ha. unfold storage in Ha; simpl in Ha. apply lookup_delete_Some in Ha as [_ Ha]. by apply Hst. }
    intros topic. unfold topic_view, storage; simpl. rewrite Ec. simpl.
    case_bool_decide; [subst; by rewrite lookup_delete_eq|by rewrite lookup_delete_ne].
  - split; [split; [|intros c' [= <-]; by apply map_Forall_delete]|].
    { intros topic a Ha. unfold storage in Ha; simpl in Ha. apply lookup_delete_Some in Ha as [_ Ha]. by apply Hst. }
    intros topic. unfold topic_view, storage; simpl. rewrite Ec. simpl.
    case_bool_decide; [subst; by rewrite !lookup_delete_eq|by rewrite !lookup_delete_ne].
Qed.

Lemma mqtt_start_view connected answers x x' :
  mqtt_ok x → mqtt_step (MStart connected answers) x = Some x' →
  mqtt_ok x' ∧ ∀ topic, topic_view topic x' = topic_step topic (topic_view topic x) (MStart connected answers).
Proof.
  intros [Hst Hcl]. simpl. unfold Mqtt_Start. destruct (me_client x) as [c|] eqn:Ec; simpl.
  { intros [= <-]. split; [split; [done|]; by rewrite Ec|]. intros topic. unfold topic_view. rewrite Ec. by destruct connected. }
  destruct connected as [[]|err]; simpl; [|intros [= <-]; split; [split; [done|by rewrite Ec]|done]].
  destruct (register_stored _ _ _ _ _) as [c|] eqn:E1; simpl; [|done]. intros [= <-].
  destruct (register_stored_lookup answers x (range (storage x)) (mkClient ∅ ∅) c) as [Hs Hh]; try done.
  - intros topic a Hin%range_elem. by apply Hst.
  - apply range_NoDup.
  - split; [split; [done|]; by intros c' [= <-]|]. intros topic. unfold topic_view; simpl. destruct (Hh topic) as [-> ->]. rewrite Ec. simpl.
    assert ((list_to_map (range (storage x)) : gmap string nat) = storage x) as ->.
    { rewrite (list_to_map_proper _ (map_to_list (storage x))); [apply list_to_map_to_list|apply range_NoDup|apply range_perm]. }
    unfold topic_handler, storage; simpl. by destruct (be_RouterStorage (me_base x) !! topic).
Qed.

Lemma reconnect_lookup kept answers c c' topic :
  handlers_ok c → client_step (OReconnect kept answers) c = Some c' →
  mc_handlers c' = mc_handlers c ∧
  mc_broker c' !! topic = match mc_handlers c !! topic with Some h => Some h | None => if kept then mc_broker c !! topic else None end.
Proof.
  intros Hok. cbn [client_step]. unfold onConnected. intros [H1 H2]%subscribe_all_broker. split; [done|]. rewrite H2.
  cbn [mc_broker mc_handlers]. rewrite foldl_topics_lookup by done. destruct (mc_handlers c !! topic); [done|].
  destruct kept; [done|apply lookup_empty].
Qed.

Lemma mqtt_step_view op x x' :
  mqtt_ok x → mqtt_step op x = Some x' → mqtt_ok x' ∧ ∀ topic, topic_view topic x' = topic_step topic (topic_view topic x) op.
Proof.
  destruct op as [ruleConfig configuration|answers a|unsub id|connected answers| |kept answers].
  - intros [Hst Hcl] [= <-]. unfold Mqtt_Init. destruct (Map2Struct _ _) as [err conf] eqn:Ed. simpl. split; [done|].
    intros topic. unfold topic_view; simpl. by rewrite Ed.
  - apply mqtt_add_view.
  - apply mqtt_remove_view.
  - apply mqtt_start_view.
  - intros [Hst Hcl] [= <-]. unfold Mqtt_Close. destruct (me_client x) as [c|] eqn:Ec.
    + split; [split; [done|]; intros c' [= <-]; apply (Hcl c eq_refl)|]. intros topic. unfold topic_view. simpl. rewrite Ec.
      pose proof (close_lookup topic c (Hcl c eq_refl)) as Hb. simpl in Hb. by rewrite Hb.
    + split; [split; [done|]; intros c0 Hc0; simpl in Hc0; congruence|]. intros topic. unfold topic_view. simpl. by rewrite Ec.
  - intros [Hst Hcl]. cbn [mqtt_step]. destruct (me_client x) as [c|] eqn:Ec.
    + intros (c' & Hc' & [= <-])%bind_Some. pose proof (Hcl c eq_refl) as Hok.
      split; [split; [done|]|].
      * intros c2 [= <-]. unfold handlers_ok. by rewrite (proj1 (reconnect_lookup _ _ _ _ "" Hok Hc')).
      * intros topic. unfold topic_view; simpl. destruct (reconnect_lookup _ _ _ _ topic Hok Hc') as [-> ->]. rewrite Ec. simpl.
        by destruct (mc_handlers c !! topic).
    + intros [= <-]. split; [split; [done|]; intros c0 Hc0; simpl in Hc0; congruence|]. intros topic. unfold topic_view. simpl. by rewrite Ec.
Qed.

Lemma mqtt_run_view ops x x' topic :
  mqtt_ok x → mqtt_run ops x = Some x' → topic_view topic x' = foldl (topic_step topic) (topic_view topic x) ops.
Proof.
  revert x. induction ops as [|op ops IH]; intros x Hok H; simplify_eq/=; [done|].
  apply bind_Some in H as (x1 & H1 & H). destruct (mqtt_step_view op x x1 Hok H1) as [Hok1 Hv]. by rewrite (IH x1 Hok1 H), Hv.
Qed.

(** Operations after which the broker has what is stored: the endpoint is not closed nor
    configured again, and the broker does not refuse to unsubscribe. *)
Definition undisturbed (op : mqtt_op) : bool :=
  match op with MInit _ _ | MClose | MRemove (Some _) _ => false | _ => true end.

Lemma topic_step_stored topic s op :
  undisturbed op = true → (∀ p, ts_client s = Some p → p = (topic_handler topic s <$> ts_stored s, topic_handler topic s <$> ts_stored s)) →
  let s' := topic_step topic s op in
  ts_config s' = ts_config s ∧
  ∀ p, ts_client s' = Some p → p = (topic_handler topic s' <$> ts_stored s', topic_handler topic s' <$> ts_stored s').
Proof.
  intros Hu Hs. destruct s as [conf stored client]. unfold topic_handler in *. simpl in *.
  destruct op as [| answers a|[err|] id|[[]|err] answers| |kept answers]; simplify_eq/=; try done.
  - case_bool_decide; [|done]. simpl. split; [done|]. intros p (q & _ & ->)%fmap_Some. done.
  - case_bool_decide; [|done]. simpl. split; [done|]. intros p (q & _ & ->)%fmap_Some. done.
  - destruct client; simpl; [done|]. split; [done|]. by intros p [= <-].
  - split; [done|]. intros p ([held b] & Hq & ->)%fmap_Some. specialize (Hs _ Hq). simplify_eq. by destruct stored, kept.
Qed.


(** A router cannot be removed before the endpoint is started: the call panics, after
    the router is gone from the storage. *)
Theorem mqtt_remove_before_start unsub id x :
  me_client x = None →
  ∃ why, Mqtt_RemoveRouter unsub id x = (Panics why, deleteRouter id x) ∧ storage (deleteRouter id x) !! id = None.
Proof. intros Hc. unfold Mqtt_RemoveRouter; simpl. rewrite Hc. eexists. split; [done|]. apply lookup_delete_eq. Qed.

(** When the broker refuses to unsubscribe, the router is gone from the storage and its
    handler stays: messages of the topic are still processed by it. *)
Theorem mqtt_remove_refused err id x c h :
  me_client x = Some c → mc_broker c !! id = Some h →
  ∃ x' c', Mqtt_RemoveRouter (Some err) id x = (Returns (Some err), x') ∧ storage x' !! id = None ∧
    me_client x' = Some c' ∧ mc_broker c' !! id = Some h.
Proof.
  intros Hc Hh. unfold Mqtt_RemoveRouter; simpl. rewrite Hc. eexists _, _. split; [done|].
  split; [apply lookup_delete_eq|]. by split.
Qed.

End Mqtt.

Module MqttEndpointExample.
Import Samples NodeSamples.
#[export] Program Instance list_range : MapRange := {| range A m := map_to_list m |}.
Next Obligation. done. Qed.

Definition accept : sub_answer := mkAnswer None (Some 0%Z).
Definition router (topic : string) : Router := mkRouter (Some (mkFrom ∅ topic [] None)) DefaultRuleGo cfg 0.
Definition rs : routers := {[0 := router "a"; 1 := router "b"; 2 := router "b"]}.
#[local] Instance qos_decode : Decode MqttConfig := λ configuration conf,
  match configuration !! "qos" with Some (VInt _ q) => (None, mkMqttConfig "" "" "" 0 q false "" "" "" "") | _ => (None, conf) end.
Definition ops : list mqtt_op :=
  [MInit cfg {["qos" := VInt Kint 1]}; MAdd [] 0; MAdd [] 1; MStart (Ok tt) (λ _, [accept]); MAdd [accept] 2; MRemove None "a";
   MReconnect false (λ _, [accept])].


End MqttEndpointExample.
