(* ===== verification/Schedule.v ===== *)
(** * The schedule endpoint ([src/endpoint/schedule/schedule.go])

    Routers run at the times of their cron expression.  Package cron is a parameter:
    its entries are jobs by number; what is relied on is what it documents. *)

From Stdlib Require Import Ascii.
From S2P Require Import Prelude GoStrings Value Str Msg Config Dsl World RuleCtx JsEngine NodeApi Samples Mime Endpoint.

(** [cron.Cron]; the job of an entry is the router its closure holds. *)
Class Cron : Type := {
  cron : Type;
  cron_New : cron;
  cron_AddFunc : string → nat → cron → (Z * error) * cron;
  cron_Remove : Z → cron → cron;
  cron_Start : cron → cron;
  cron_Stop : cron → cron;
  cron_Entries : cron → gmap Z nat
}.
(** A job is added under a number that is not in use, or the expression is rejected;
    removal takes out the entry of the number. *)
Class CronLaws `(Cron) : Prop := {
  AddFunc_law : ∀ spec job c id err c', cron_AddFunc spec job c = ((id, err), c') →
    match err with
    | None => int64_range id ∧ cron_Entries c !! id = None ∧ cron_Entries c' = <[id := job]> (cron_Entries c)
    | Some _ => cron_Entries c' = cron_Entries c
    end;
  Remove_law : ∀ id c, cron_Entries (cron_Remove id c) = delete id (cron_Entries c)
}.

Section Schedule.
Context `{C : Components} `{CR : Cron}.
Variable now : Z.
Variable uuid : string.

(** ** Messages *)

Record ScheduleRequest : Type := mkScRequest { sq_headers : option MIMEHeader; sq_body : option string; sq_msg : option RuleMsg; sq_err : error }.
Definition ScheduleRequest_GetMsg (r : ScheduleRequest) : option RuleMsg * ScheduleRequest :=
  match sq_msg r with
  | Some msg => (Some msg, r)
  | None =>
      let ruleMsg := NewMsg now uuid uuid 0 "" JSON NewMetadata (default "" (sq_body r)) in
      (Some ruleMsg, mkScRequest (sq_headers r) (sq_body r) (Some ruleMsg) (sq_err r))
  end.
#[global] Instance ScheduleRequest_ops : MessageOps ScheduleRequest := {|
  Body r := (sq_body r, r);
  Headers r := (Some (default ∅ (sq_headers r)), mkScRequest (Some (default ∅ (sq_headers r))) (sq_body r) (sq_msg r) (sq_err r));
  From_ _ := "";
  SetMsg msg r := mkScRequest (sq_headers r) (sq_body r) (Some msg) (sq_err r);
  GetMsg := ScheduleRequest_GetMsg;
  SetStatusCode _ r := r;
  SetBody body r := mkScRequest (sq_headers r) (Some body) (sq_msg r) (sq_err r);
  SetError err r := mkScRequest (sq_headers r) (sq_body r) (sq_msg r) err;
  GetError := sq_err
|}.

Record ScheduleResponse : Type := mkScResponse { sp_headers : option MIMEHeader; sp_body : option string; sp_msg : option RuleMsg; sp_err : error }.
#[global] Instance ScheduleResponse_ops : MessageOps ScheduleResponse := {|
  Body r := (sp_body r, r);
  Headers r := (Some (default ∅ (sp_headers r)), mkScResponse (Some (default ∅ (sp_headers r))) (sp_body r) (sp_msg r) (sp_err r));
  From_ _ := "";
  SetMsg msg r := mkScResponse (sp_headers r) (sp_body r) (Some msg) (sp_err r);
  GetMsg r := (sp_msg r, r);
  SetStatusCode _ r := r;
  SetBody body r := mkScResponse (sp_headers r) (Some body) (sp_msg r) (sp_err r);
  SetError err r := mkScResponse (sp_headers r) (sp_body r) (sp_msg r) err;
  GetError := sp_err
|}.

(** ** The endpoint *)

Record Schedule : Type := mkSchedule {
  sc_id : string;
  sc_base : BaseEndpoint;
  sc_RuleConfig : Config;
  sc_cron : option cron
}.
Definition set_cron (c : cron) (x : Schedule) : Schedule := mkSchedule (sc_id x) (sc_base x) (sc_RuleConfig x) (Some c).

(** [New(ruleConfig)] *)
Definition NewSchedule (ruleConfig : Config) : Schedule := mkSchedule uuid (mkBase [] ∅) ruleConfig (Some cron_New).
Definition Schedule_New : Schedule := mkSchedule uuid (mkBase [] ∅) zeroConfig (Some cron_New).
Definition Schedule_Init (ruleConfig : Config) (x : Schedule) : error * Schedule :=
  (None, mkSchedule (sc_id x) (sc_base x) ruleConfig (sc_cron x)).
Definition Schedule_Close (x : Schedule) : error * Schedule :=
  (None, match sc_cron x with Some c => set_cron (cron_Stop c) x | None => x end).
Definition Schedule_Start (x : Schedule) : error * Schedule :=
  match sc_cron x with
  | None => (Some "cron has not been initialized yet", x)
  | Some c => (None, set_cron (cron_Start c) x)
  end.

(** [AddRouter]: the id is the number of the job; it returns "0" with an error. *)
Definition Schedule_AddRouter (router : option nat) (rs : routers) (x : Schedule) : (string * error) * Schedule :=
  match router with
  | None => (("", Some "router can not nil"), x)
  | Some a =>
      match rs !! a ≫= rt_from with
      | None => (("", Some "from can not nil"), x)
      | Some f =>
          let c := default cron_New (sc_cron x) in
          let '((id, err), c) := cron_AddFunc (from_From f) a c in
          ((Itoa id, err), set_cron c x)
      end
  end.

Definition Schedule_RemoveRouter (routeId : string) (x : Schedule) : error * Schedule :=
  match Atoi routeId with
  | Err _ => (Some (routeId +:+ " it is an illegal routing id"), x)
  | Ok entryID => (None, match sc_cron x with Some c => set_cron (cron_Remove entryID c) x | None => x end)
  end.

(** [schedule.handler(router)]: an exchange with nothing in it. *)
Variable E : Env ScheduleRequest ScheduleResponse.
Definition Schedule_handler (r : Router) (x : Schedule) : ended * Exchange ScheduleRequest ScheduleResponse * list (RuleMsg * error) :=
  let '(e, ex, pending) := do_process E (be_interceptors (sc_base x)) r
    (mkExchange (mkScRequest None None None None) (mkScResponse None None None None)) in
  (recovered e, ex, pending).

(** ** Properties *)

Definition entries (x : Schedule) : gmap Z nat := default ∅ (cron_Entries <$> sc_cron x).

(** A router that was added runs as the job of the id [AddRouter] returned, beside the
    other jobs; removing that id takes out that job and no other.  A rejected expression
    adds no job, and an id that is not a number is an error and changes nothing. *)
Theorem Schedule_add_remove `{!CronLaws CR} a rs x f c id err x' :
  (rs !! a ≫= rt_from) = Some f → sc_cron x = Some c →
  Schedule_AddRouter (Some a) rs x = ((id, err), x') →
  match err with
  | None => (∃ n, id = Itoa n ∧ entries x' = <[n := a]> (entries x) ∧ entries x !! n = None) ∧
      ∃ x'', Schedule_RemoveRouter id x' = (None, x'') ∧ entries x'' = entries x
  | Some _ => entries x' = entries x
  end ∧
  (∀ s, is_ok (Atoi s) = false → ∃ why, Schedule_RemoveRouter s x' = (Some why, x')).
Proof.
  intros Hf Hc. unfold Schedule_AddRouter. rewrite Hf, Hc; simpl.
  destruct (cron_AddFunc (from_From f) a c) as [[n err'] c'] eqn:Ea. intros [= <- <- <-].
  pose proof (AddFunc_law _ _ _ _ _ _ Ea) as Hlaw. unfold entries; simpl. rewrite Hc; simpl. split.
  - destruct err'; [done|]. destruct Hlaw as (Hr & Hn & ->). split; [by exists n|].
    unfold Schedule_RemoveRouter. rewrite Atoi_Itoa by done. simpl. eexists. split; [done|]. simpl.
    rewrite Remove_law. pose proof (AddFunc_law _ _ _ _ _ _ Ea) as (_ & _ & ->). by rewrite delete_insert_id.
  - intros s Hs. unfold Schedule_RemoveRouter. destruct (Atoi s); [done|]. by eexists.
Qed.

End Schedule.

Module ScheduleExample.
Import Samples NodeSamples.

(** Jobs are numbered from 1; the empty expression is rejected. *)
#[export] Instance counting : Cron := {|
  cron := Z * gmap Z nat;
  cron_New := (0%Z, ∅);
  cron_AddFunc spec job c :=
    if bool_decide (spec = "" ∨ ¬ int64_range (c.1 + 1) ∨ c.2 !! (c.1 + 1)%Z ≠ None) then ((0%Z, Some "empty spec string"), c)
    else (((c.1 + 1)%Z, None), ((c.1 + 1)%Z, <[(c.1 + 1)%Z := job]> c.2));
  cron_Remove id c := (c.1, delete id c.2);
  cron_Start c := c;
  cron_Stop c := c;
  cron_Entries c := c.2
|}.
#[export] Instance counting_laws : CronLaws counting.
Proof.
  split; [|done]. intros spec job [n m] id err c'; simpl. case_bool_decide as Hc; intros [= <- <- <-]; [done|].
  simpl. split; [destruct (decide (int64_range (n + 1))); tauto|]. split; [|done]. destruct (m !! (n + 1)%Z); [|done]. exfalso. auto.
Qed.

Definition rs : routers := {[0 := mkRouter (Some (mkFrom ∅ "*/1 * * * * *" [] None)) DefaultRuleGo cfg 0]}.

Lemma Schedule_add_remove_witness :
  ∃ id x' x'', Schedule_AddRouter (Some 0) rs (Schedule_New "u") = ((id, None), x') ∧ id = "1" ∧
    Schedule_RemoveRouter id x' = (None, x'') ∧ entries x'' = ∅.
Proof.
  destruct (Schedule_AddRouter (Some 0) rs (Schedule_New "u")) as [[id err] x'] eqn:E.
  assert (((id, err), x').1 = ("1", None)) as E1 by (rewrite <- E; vm_compute; reflexivity). simpl in E1.
  injection E1 as -> ->.
  destruct (Schedule_add_remove 0 rs (Schedule_New "u") (mkFrom ∅ "*/1 * * * * *" [] None) cron_New "1" None x'
    eq_refl eq_refl E) as [[_ (x'' & H1 & H2)] _].
  exists "1", x', x''. split; [reflexivity|]. split; [reflexivity|]. split; [exact H1|]. rewrite H2. reflexivity.
Defined.

End ScheduleExample.
