(* ===== verification/DbClient.v ===== *)
(** * The database component ([src/components/external/db_client_node.go])

    Package database/sql with its driver is a parameter.  The rows of a query are
    scanned into variables that all rows share, and the rows the component returns
    may point to them, so they are modelled as cells. *)

From Stdlib Require Import Ascii.
From S2P Require Import Prelude GoStrings Value Str Msg Config Dsl World RuleCtx CtxProps JsEngine NodeApi.

(** [sql.Rows]: the columns, what [Scan] gives for each row, and the final error. *)
Record Rows : Type := mkRows {
  rows_Columns : result (list string);
  rows_Scan : list (result (list value));
  rows_Err : error
}.
(** [sql.Result]; the error of [LastInsertId] is ignored by the component. *)
Record SqlResult : Type := mkSqlResult { sr_RowsAffected : result Z; sr_LastInsertId : Z }.

Class SqlDriver : Type := {
  DB : Type;
  sql_Open : string → string → result DB;
  db_SetMaxOpenConns : Z → DB → DB;
  db_SetMaxIdleConns : Z → DB → DB;
  db_Ping : DB → error * DB;
  db_Query : string → list value → DB → result Rows * DB;
  db_Exec : string → list value → DB → result SqlResult * DB
}.

Definition SELECT : string := "SELECT".
Definition INSERT : string := "INSERT".
Definition DELETE : string := "DELETE".
Definition UPDATE : string := "UPDATE".
Definition rowsAffectedKey : string := "rowsAffected".
Definition lastInsertIdKey : string := "lastInsertId".

Section DbClient.
Context `{J : Json} `{D : SqlDriver}.

Record DbClientNodeConfiguration : Type := mkDbConf {
  db_Sql : string;
  db_Params : list value;
  db_GetOne : bool;
  db_PoolSize : Z;
  db_DriverName : string;
  db_Dsn : string
}.
Record DbClientNode : Type := mkDbClient {
  dc_Config : DbClientNodeConfiguration;
  dc_db : option DB;
  dc_opType : string;
  dc_paramsHasVar : bool
}.

Definition DbClientNode_New : DbClientNode :=
  mkDbClient (mkDbConf "select * from test" [] false 0 "mysql" "root:root@tcp(127.0.0.1:3306)/test") None "" false.

Definition is_var_param (item : value) : bool := match item with VString v => CheckHasVar v | _ => false end.
Definition supported (opType : string) : bool := bool_decide (opType ∈ [SELECT; UPDATE; INSERT; DELETE]).

(** [Init]; a statement of white space only has no first word. *)
Definition DbClientNode_Init `{Decode DbClientNodeConfiguration} (ruleConfig : Config) (configuration : Configuration)
    (x : DbClientNode) : outcome (result DbClientNode) :=
  match Map2Struct configuration (dc_Config x) with
  | (Some err, _) => Returns (Err err)
  | (None, conf) =>
      let driver := if bool_decide (db_DriverName conf = "") then "mysql" else db_DriverName conf in
      if bool_decide (db_Sql conf = "") then Returns (Err "sql can not empty")
      else
        match sql_Open driver (db_Dsn conf) with
        | Err err => Returns (Err err)
        | Ok db =>
            let db := db_SetMaxIdleConns (Z.quot (db_PoolSize conf) 2) (db_SetMaxOpenConns (db_PoolSize conf) db) in
            let '(err, db) := db_Ping db in
            match Fields (db_Sql conf) with
            | [] => Panics "index out of range [0] with length 0"
            | word :: _ =>
                let opType := ToUpper word in
                let err := if supported opType then err else Some ("unsupported sql statement: " +:+ db_Sql conf) in
                let sql := ConvertDollarPlaceholder (db_Sql conf) driver in
                let conf := mkDbConf sql (db_Params conf) (db_GetOne conf) (db_PoolSize conf) driver (db_Dsn conf) in
                match err with
                | Some err => Returns (Err err)
                | None => Returns (Ok (mkDbClient conf (Some db) opType (existsb is_var_param (db_Params conf))))
                end
            end
        end
  end.

(** ** Queries *)

(** A value of a returned row: a text, or a pointer to the variable of a column. *)
Inductive dbval : Type := DText (s : string) | DPtr (cell : nat).

(** [row[columns[i]] = &v]: with equal column names the last counts. *)
Definition column_cells (columns : list string) : list (string * nat) :=
  foldl (λ row '(i, c), assoc_set c i row) [] (imap pair columns).

(** The copy of the current row. *)
Definition copy_row (row : list (string * nat)) (cells : list value) : list (string * dbval) :=
  (λ '(k, i), (k, match cells !! i with Some (VBytes b) => DText b | _ => DPtr i end)) <$> row.

(** The loop over the rows: what it collected, and the variables at its end. *)
Fixpoint fetch (row : list (string * nat)) (scans : list (result (list value))) (cells : list value)
    (acc : list (list (string * dbval))) : result (list (list (string * dbval)) * list value) :=
  match scans with
  | [] => Ok (acc, cells)
  | Err err :: _ => Err err
  | Ok cells :: rest => fetch row rest cells (acc ++ [copy_row row cells])
  end.

(** What a row shows when it is converted to text, which is after the loop. *)
Definition show_val (cells : list value) (v : dbval) : value :=
  match v with DText s => VString s | DPtr i => default VNil (cells !! i) end.
Definition show_row (cells : list value) (m : list (string * dbval)) : value := VMap (prod_map id (show_val cells) <$> m).

Definition query_rows (rows : Rows) (getOne : bool) : result value :=
  let? columns := rows_Columns rows in
  let? fetched := fetch (column_cells columns) (rows_Scan rows) (replicate (length columns) VNil) [] in
  match rows_Err rows with
  | Some err => Err err
  | None =>
      let '(result, cells) := fetched in
      if getOne then Ok (match result with m :: _ => show_row cells m | [] => VNil end)
      else Ok (VSlice (show_row cells <$> result))
  end.
Definition query (sqlStr : string) (params : list value) (getOne : bool) (db : DB) : result value * DB :=
  let '(rows, db) := db_Query sqlStr params db in (let? rows := rows in query_rows rows getOne, db).

(** [update] and [delete] are the same text. *)
Definition update (sqlStr : string) (params : list value) (db : DB) : result Z * DB :=
  let '(res, db) := db_Exec sqlStr params db in (let? res := res in sr_RowsAffected res, db).
Definition insert_ (sqlStr : string) (params : list value) (db : DB) : result (Z * Z) * DB :=
  let '(res, db) := db_Exec sqlStr params db in
  (let? res := res in let? rowsAffected := sr_RowsAffected res in Ok (rowsAffected, sr_LastInsertId res), db).

(** ** Messages *)

Definition int64 (z : Z) : value := VInt Kint64 z.
Definition put (key : string) (v : value) (msg : RuleMsg) : RuleMsg :=
  set_Metadata (Metadata_PutValue (m_Metadata msg) key (ToString v)) msg.

Definition bind_params (x : DbClientNode) (msg : RuleMsg) : list value :=
  if dc_paramsHasVar x
  then (λ item, match item with VString v => VString (SprintfDict v (Metadata_Values (m_Metadata msg))) | _ => item end)
         <$> db_Params (dc_Config x)
  else db_Params (dc_Config x).

(** The statement run on the database: the message it makes, or the error. *)
Definition run_statement (x : DbClientNode) (msg : RuleMsg) (db : DB) : result RuleMsg * DB :=
  let sqlStr := SprintfDict (db_Sql (dc_Config x)) (Metadata_Values (m_Metadata msg)) in
  let params := bind_params x msg in
  let op := dc_opType x in
  if bool_decide (op = SELECT) then
    let '(data, db) := query sqlStr params (db_GetOne (dc_Config x)) db in
    (let? data := data in Ok (set_Data (ToString data) msg), db)
  else if bool_decide (op = UPDATE ∨ op = DELETE) then
    let '(n, db) := update sqlStr params db in
    (let? n := n in Ok (put rowsAffectedKey (int64 n) msg), db)
  else if bool_decide (op = INSERT) then
    let '(ns, db) := insert_ sqlStr params db in
    (let? ns := ns in Ok (put lastInsertIdKey (int64 ns.2) (put rowsAffectedKey (int64 ns.1) msg)), db)
  else (Err ("unsupported sql statement: " +:+ sqlStr), db).

Definition DbClientNode_OnMsg (x : DbClientNode) (msg : RuleMsg) : list call * DbClientNode :=
  match dc_db x with
  | None => (nil_engine, x)
  | Some db =>
      let '(res, db) := run_statement x msg db in
      ([match res with Ok msg => TellSuccess msg | Err err => TellFailure msg (Some err) end],
       mkDbClient (dc_Config x) (Some db) (dc_opType x) (dc_paramsHasVar x))
  end.

(** ** Properties of queries *)

(** A row of the table as the database gave it, bytes as text. *)
Definition text_of (v : value) : value := match v with VBytes b => VString b | _ => v end.
Definition table_row (columns : list string) (vals : list value) : value :=
  VMap ((λ '(k, i), (k, text_of (default VNil (vals !! i)))) <$> column_cells columns).

Lemma fetch_Ok row rows cells acc :
  fetch row (Ok <$> rows) cells acc = Ok (acc ++ (copy_row row <$> rows), default cells (last rows)).
Proof.
  revert cells acc. induction rows as [|r rows IH]; intros cells acc; simpl; [by rewrite app_nil_r|].
  rewrite IH, <- app_assoc. do 2 f_equal. destruct rows as [|r' rows]; [done|].
  change (last (r :: r' :: rows)) with (last (r' :: rows)). by destruct (last (r' :: rows)) eqn:E; [|apply last_None in E].
Qed.

(** What a query shows: bytes are the row's own, every other value is that of the last row. *)
Definition shown_row (columns : list string) (last_row vals : list value) : value :=
  VMap ((λ '(k, i), (k, match vals !! i with Some (VBytes b) => VString b | _ => default VNil (last_row !! i) end))
          <$> column_cells columns).

Lemma show_copy columns last_row vals : show_row last_row (copy_row (column_cells columns) vals) = shown_row columns last_row vals.
Proof.
  unfold show_row, copy_row, shown_row. rewrite <- list_fmap_compose. f_equal. apply list_fmap_ext.
  intros _ [k i] _. simpl. unfold prod_map; simpl. by destruct (vals !! i) as [[]|].
Qed.

Lemma query_rows_shows columns rows getOne last_row :
  last rows = Some last_row →
  query_rows (mkRows (Ok columns) (Ok <$> rows) None) getOne =
    Ok (if getOne then shown_row columns last_row (default [] (head rows)) else VSlice (shown_row columns last_row <$> rows)).
Proof.
  intros Hl. unfold query_rows; simpl. rewrite fetch_Ok, Hl; simpl. destruct getOne.
  - destruct rows as [|r rows]; [done|]. simpl. by rewrite show_copy.
  - rewrite <- list_fmap_compose. do 2 f_equal. apply list_fmap_ext. intros _ r _. apply show_copy.
Qed.

Definition is_bytes (v : value) : bool := match v with VBytes _ => true | _ => false end.

Lemma assoc_set_elem {A} key (v : A) m p : p ∈ assoc_set key v m → p ∈ m ∨ p.2 = v.
Proof.
  induction m as [|[k w] m IH]; simpl; intros Hp; [apply list_elem_of_singleton in Hp as ->; by right|].
  case_bool_decide; apply elem_of_cons in Hp as [->|Hp]; simpl; [by right|left; by constructor|left; by constructor|].
  destruct (IH Hp); [left; by constructor|by right].
Qed.

Lemma column_cells_lt columns p : p ∈ column_cells columns → p.2 < length columns.
Proof.
  unfold column_cells.
  assert (∀ (l : list (nat * string)) acc, (∀ q, q ∈ l → q.1 < length columns) → (∀ q, q ∈ acc → q.2 < length columns) →
    p ∈ foldl (λ row '(i, c), assoc_set c i row) acc l → p.2 < length columns) as H.
  { induction l as [|[i c] l IH]; intros acc Hl Hacc Hp; simpl in *; [by apply Hacc|].
    eapply IH; [intros; apply Hl; by constructor| |exact Hp].
    intros q [Hq|Hq]%assoc_set_elem; [by apply Hacc|]. rewrite Hq. apply (Hl (i, c)). constructor. }
  apply H; [|intros q Hq; by apply elem_of_nil in Hq].
  intros [i c] [n Hn]%list_elem_of_lookup. rewrite list_lookup_imap in Hn.
  destruct (columns !! n) eqn:En; simpl in Hn; [|done]. injection Hn as <- <-. by eapply lookup_lt_Some.
Qed.

Lemma shown_row_bytes columns last_row vals :
  length vals = length columns → Forall (λ v, is_bytes v = true) vals → shown_row columns last_row vals = table_row columns vals.
Proof.
  intros Hlen Hb. unfold shown_row, table_row. f_equal. apply list_fmap_ext. intros j [k i] Hj. f_equal.
  assert (i < length columns) as Hi by (by eapply (column_cells_lt columns (k, i)), list_elem_of_lookup_2).
  rewrite <- Hlen in Hi. destruct (lookup_lt_is_Some_2 vals i Hi) as [v Hv]. rewrite Hv. simpl.
  pose proof (proj1 (Forall_lookup _ _) Hb i v Hv) as Hvb. by destruct v.
Qed.

(** C34. A query returns the table the database gave, row by row and with bytes as text, when
    all values are bytes or there is at most one row (or, for [getOne], the first row). *)
Theorem query_correct columns rows getOne :
  Forall (λ r, length r = length columns) rows →
  Forall (Forall (λ v, is_bytes v = true)) rows ∨ length rows ≤ 1 →
  query_rows (mkRows (Ok columns) (Ok <$> rows) None) getOne =
    Ok (if getOne then match rows with r :: _ => table_row columns r | [] => VNil end
        else VSlice (table_row columns <$> rows)).
Proof.
  intros Hlen Hok. destruct (last rows) as [lr|] eqn:El.
  2:{ apply last_None in El as ->. by destruct getOne. }
  rewrite (query_rows_shows columns rows getOne lr El).
  assert (∀ r, r ∈ rows → shown_row columns lr r = table_row columns r) as Hrow.
  { intros r Hr. destruct Hok as [Hb|Hone].
    - apply shown_row_bytes; [by apply (proj1 (Forall_forall _ _) Hlen)|by apply (proj1 (Forall_forall _ _) Hb)].
    - destruct rows as [|r1 [|]]; simpl in Hone; [by apply elem_of_nil in Hr| |lia].
      apply list_elem_of_singleton in Hr as ->. injection El as <-. unfold shown_row, table_row. f_equal.
      apply list_fmap_ext. intros _ [k i] _. f_equal. by destruct (r1 !! i) as [[]|]. }
  f_equal. destruct getOne.
  - destruct rows as [|r rows]; [done|]. simpl. apply Hrow. constructor.
  - f_equal. apply list_fmap_ext. intros i r Hr. apply Hrow. by eapply list_elem_of_lookup_2.
Qed.

(** ** Properties of the component *)

Lemma fields_from_nil word t : fields_from word t = [] ↔ word = "" ∧ Forall (λ c, isSpace c = true) (chars t).
Proof.
  revert word. induction t as [|c t IH]; intros word; simpl.
  - case_bool_decide; [|naive_solver]. subst. unfold chars; simpl. split; [by repeat constructor|done].
  - unfold chars in *; simpl. rewrite Forall_cons. destruct (isSpace c) eqn:Ec.
    + case_bool_decide; simpl; [rewrite IH; naive_solver|naive_solver].
    + rewrite IH. split; [|naive_solver]. intros [H _]. by destruct word.
Qed.

(** How a database component is initialised.  It panics exactly when the statement is
    white space only (and the database could be opened); when it succeeds, the statement
    starts with one of the four supported words, in any letter case, the database
    answered, and the statement that will be run has the placeholders of the driver. *)
Theorem DbClientNode_Init_spec `{Decode DbClientNodeConfiguration} ruleConfig configuration x conf :
  Map2Struct configuration (dc_Config x) = (None, conf) →
  let driver := if bool_decide (db_DriverName conf = "") then "mysql" else db_DriverName conf in
  ((∃ why, DbClientNode_Init ruleConfig configuration x = Panics why) ↔
     db_Sql conf ≠ "" ∧ is_ok (sql_Open driver (db_Dsn conf)) = true ∧ Forall (λ c, isSpace c = true) (chars (db_Sql conf))) ∧
  ∀ x', DbClientNode_Init ruleConfig configuration x = Returns (Ok x') →
    is_Some (dc_db x') ∧ dc_opType x' ∈ [SELECT; UPDATE; INSERT; DELETE] ∧
    (∃ word rest, Fields (db_Sql conf) = word :: rest ∧ dc_opType x' = ToUpper word) ∧
    db_Sql (dc_Config x') = ConvertDollarPlaceholder (db_Sql conf) driver ∧
    dc_paramsHasVar x' = existsb is_var_param (db_Params conf).
Proof.
  intros Hd driver. unfold DbClientNode_Init. rewrite Hd. fold driver.
  destruct (decide (db_Sql conf = "")) as [Hs|Hs]; [rewrite bool_decide_true by done; naive_solver|].
  rewrite bool_decide_false by done. destruct (sql_Open driver (db_Dsn conf)) as [db|err]; [|naive_solver].
  destruct (db_Ping _) as [err db']. pose proof (fields_from_nil "" (db_Sql conf)) as Hn. fold (Fields (db_Sql conf)) in Hn.
  destruct (Fields (db_Sql conf)) as [|word rest].
  - split; [|done]. split; [|by eexists]. intros _. split; [done|]. split; [done|]. by apply Hn.
  - split.
    + split; [intros [why Hw]; by repeat case_match|]. intros (_ & _ & Hsp). assert (word :: rest = []) by (by apply Hn). done.
    + intros x'. destruct (supported (ToUpper word)) eqn:Esup; [|done]. destruct err; [done|]. intros [= <-]. simpl.
      unfold supported in Esup. apply bool_decide_eq_true in Esup. naive_solver.
Qed.

(** What the driver reported, if it was an error. *)
Definition statement_error (x : DbClientNode) (msg : RuleMsg) (db : DB) : error :=
  let sqlStr := SprintfDict (db_Sql (dc_Config x)) (Metadata_Values (m_Metadata msg)) in
  let params := bind_params x msg in
  let err_of {A} (r : result A) : error := match r with Ok _ => None | Err e => Some e end in
  if bool_decide (dc_opType x = SELECT) then err_of (query sqlStr params (db_GetOne (dc_Config x)) db).1
  else match (db_Exec sqlStr params db).1 with Ok res => err_of (sr_RowsAffected res) | Err e => Some e end.

(** An initialised component answers every message exactly once: with [Failure] and the
    message as it came when the database reports an error, with [Success] otherwise; a
    query then changes the data only, the other statements the metadata only. *)
Theorem DbClientNode_OnMsg_spec x db msg :
  dc_db x = Some db → dc_opType x ∈ [SELECT; UPDATE; INSERT; DELETE] →
  ∃ c x', DbClientNode_OnMsg x msg = ([c], x') ∧
  match statement_error x msg db with
  | Some err => c = TellFailure msg (Some err)
  | None => ∃ msg', c = TellSuccess msg' ∧
      (if bool_decide (dc_opType x = SELECT) then msg' = set_Data (m_Data msg') msg
       else m_Data msg' = m_Data msg ∧ is_Some (m_Metadata msg' !! rowsAffectedKey) ∧
            ∀ k, k ≠ rowsAffectedKey → (dc_opType x ≠ INSERT ∨ k ≠ lastInsertIdKey) →
              m_Metadata msg' !! k = m_Metadata msg !! k)
  end.
Proof.
  intros Hdb Hop. unfold DbClientNode_OnMsg, run_statement, statement_error. rewrite Hdb. simpl.
  unfold update, insert_. set (sqlStr := SprintfDict _ _). set (params := bind_params x msg).
  assert (∀ k v, k ≠ rowsAffectedKey → m_Metadata (put rowsAffectedKey v msg) !! k = m_Metadata msg !! k) as Hput.
  { intros k v Hk. unfold put; simpl. rewrite Metadata_PutValue_lookup, bool_decide_false; naive_solver. }
  assert (∀ v, is_Some (m_Metadata (put rowsAffectedKey v msg) !! rowsAffectedKey)) as Hput'.
  { intros v. unfold put; simpl. rewrite Metadata_PutValue_lookup, bool_decide_true; [by eexists|]. by split. }
  destruct (decide (dc_opType x = SELECT)) as [Hs|Hs].
  - rewrite !bool_decide_true by done. destruct (query _ _ _ db) as [[v|e] db']; simpl; eexists _, _; (split; [done|]); [|done].
    eexists. split; [done|]. done.
  - rewrite !bool_decide_false by done. destruct (db_Exec sqlStr params db) as [[res|e] db'] eqn:Ee; simpl.
    2:{ destruct (decide (dc_opType x = UPDATE ∨ dc_opType x = DELETE)) as [Hu|Hu];
          [rewrite bool_decide_true by done|rewrite bool_decide_false by done; rewrite bool_decide_true by set_solver];
          simpl; eexists _, _; done. }
    destruct (sr_RowsAffected res) as [n|e]; simpl.
    2:{ destruct (decide (dc_opType x = UPDATE ∨ dc_opType x = DELETE)) as [Hu|Hu];
          [rewrite bool_decide_true by done|rewrite bool_decide_false by done; rewrite bool_decide_true by set_solver];
          simpl; eexists _, _; done. }
    destruct (decide (dc_opType x = UPDATE ∨ dc_opType x = DELETE)) as [Hu|Hu].
    + rewrite bool_decide_true by done. eexists _, _. split; [done|]. simpl. eexists. split; [done|]. split; [done|].
      split; [apply Hput'|]. intros k Hk _. by apply Hput.
    + rewrite bool_decide_false by done. rewrite bool_decide_true by set_solver. eexists _, _. split; [done|]. simpl.
      eexists. split; [done|]. split; [done|]. unfold put at 1 3; simpl.
      assert (dc_opType x = INSERT) as Hi by set_solver. split.
      * rewrite Metadata_PutValue_lookup, bool_decide_false; [apply Hput'|]. by intros [_ ?].
      * intros k Hk [?|Hk']; [done|]. rewrite Metadata_PutValue_lookup, bool_decide_false; [by apply Hput|naive_solver].
Qed.

End DbClient.

Module DbExample.
Import NodeSamples.

Definition rows2 : list (list value) := [[VInt Kint64 1; VBytes "ann"]; [VInt Kint64 2; VBytes "bob"]].

(** The driver of a database with one table; "select" gives its rows, other statements
    affect one row. *)
#[export] Instance one_table : SqlDriver := {|
  DB := nat;
  sql_Open := λ driver dsn, if bool_decide (driver = "mysql") then Ok 0 else Err "unknown driver";
  db_SetMaxOpenConns := λ _ d, d;
  db_SetMaxIdleConns := λ _ d, d;
  db_Ping := λ d, (None, d);
  db_Query := λ _ _ d, (Ok (mkRows (Ok ["id"; "name"]) (Ok <$> rows2) None), d);
  db_Exec := λ _ _ d, (Ok (mkSqlResult (Ok 1%Z) 7), S d)
|}.

Lemma query_correct_witness :
  query_rows (mkRows (Ok ["name"]) (Ok <$> [[VBytes "ann"]; [VBytes "bob"]]) None) false =
    Ok (VSlice [VMap [("name", VString "ann")]; VMap [("name", VString "bob")]]).
Proof.
  rewrite (query_correct ["name"] [[VBytes "ann"]; [VBytes "bob"]] false); [reflexivity| |left].
  - repeat constructor.
  - repeat constructor.
Defined.

(** Values that are not bytes, numbers for example, are those of the last row in every
    row, and in the single row of [getOne]. *)
Theorem query_rows_alias :
  query_rows (mkRows (Ok ["id"; "name"]) (Ok <$> rows2) None) false =
    Ok (VSlice [VMap [("id", VInt Kint64 2); ("name", VString "ann")]; VMap [("id", VInt Kint64 2); ("name", VString "bob")]]) ∧
  query_rows (mkRows (Ok ["id"; "name"]) (Ok <$> rows2) None) true =
    Ok (VMap [("id", VInt Kint64 2); ("name", VString "ann")]).
Proof. split; reflexivity. Qed.

Definition conf (sql : string) : DbClientNodeConfiguration := mkDbConf sql [] false 0 "" "dsn".

Lemma DbClientNode_Init_witness :
  (∃ why, DbClientNode_Init (H := decodes (conf "  ")) zeroConfig ∅ DbClientNode_New = Panics why) ∧
  ∃ x', DbClientNode_Init (H := decodes (conf "Delete from t")) zeroConfig ∅ DbClientNode_New = Returns (Ok x') ∧
        dc_opType x' = DELETE.
Proof.
  split.
  - apply (DbClientNode_Init_spec (H := decodes (conf "  ")) zeroConfig ∅ DbClientNode_New (conf "  ") eq_refl).
    split; [done|]. split; [reflexivity|by_decide].
  - destruct (DbClientNode_Init (H := decodes (conf "Delete from t")) zeroConfig ∅ DbClientNode_New) as [[x'|e]|why] eqn:E;
      [|vm_compute in E; discriminate E..].
    exists x'. split; [reflexivity|].
    destruct (DbClientNode_Init_spec (H := decodes (conf "Delete from t")) zeroConfig ∅ DbClientNode_New (conf "Delete from t") eq_refl)
      as [_ H]. destruct (H x' E) as (_ & _ & (word & rest & Hw & ->) & _). vm_compute in Hw. injection Hw as <- <-. reflexivity.
Defined.

End DbExample.
