(* ===== verification/RestApiCall.v ===== *)
(** * The HTTP client component ([src/components/external/rest_api_call_node.go])

    The network is a parameter: whether a request can be built, and what it is answered.
    Server-sent events are read with [bufio.Scanner], which gives up on lines that do
    not fit its buffer of 64 KiB. *)

From Stdlib Require Import Ascii.
From S2P Require Import Prelude GoStrings Value Str Msg Config Dsl World RuleCtx CtxProps JsEngine NodeApi Mime LineReader.

Record HttpReq : Type := mkHttpReq { hq_Method : string; hq_URL : string; hq_Body : option string; hq_Header : MIMEHeader }.
(** The body is what can be read of it, and the error reading ends with if it is not the end. *)
Record HttpResp : Type := mkHttpResp { hp_Status : string; hp_StatusCode : Z; hp_Body : string; hp_BodyErr : error }.
(** The client: [MaxConnsPerHost], the proxy with its user, and the time-out in milliseconds. *)
Record HttpClientConf : Type := mkHttpClient { hc_MaxConnsPerHost : Z; hc_Proxy : option (string * option (string * string)); hc_Timeout : Z }.

Class HttpNet : Type := {
  http_NewRequest_error : string → string → error;            (* of [http.NewRequest] *)
  http_Do : HttpClientConf → HttpReq → result HttpResp;
  url_Parse : string → result string
}.

Definition statusMetadataKey : string := "status".
Definition statusCodeMetadataKey : string := "statusCode".
Definition errorBodyMetadataKey : string := "errorBody".
Definition eventTypeMetadataKey : string := "eventType".
Definition contentTypeKey : string := "Content-Type".
Definition acceptKey : string := "Accept".
Definition eventStreamMime : string := "text/event-stream".

Section RestApiCall.
Context `{N : HttpNet} `{MR : MapRange}.

Record RestApiCallNodeConfiguration : Type := mkRestConf {
  ra_RestEndpointUrlPattern : string;
  ra_RequestMethod : string;
  ra_WithoutRequestBody : bool;
  ra_Headers : gmap string string;
  ra_ReadTimeoutMs : Z;
  ra_MaxParallelRequestsCount : Z;
  ra_EnableProxy : bool;
  ra_UseSystemProxyProperties : bool;
  ra_ProxyScheme : string;
  ra_ProxyHost : string;
  ra_ProxyPort : Z;
  ra_ProxyUser : string;
  ra_ProxyPassword : string
}.
Record RestApiCallNode : Type := mkRestApi {
  rn_Config : RestApiCallNodeConfiguration;
  rn_httpClient : option HttpClientConf;
  rn_isStream : bool
}.

Definition RestApiCallNode_New : RestApiCallNode :=
  mkRestApi (mkRestConf "" "POST" false {["Content-Type" := "application/json"]} 0 200 false false "" "" 0 "" "") None false.

(** [NewHttpClient]: the proxy URL may be nil, and its user is set all the same. *)
Definition NewHttpClient (config : RestApiCallNodeConfiguration) : outcome HttpClientConf :=
  let client proxy := Returns (mkHttpClient (ra_MaxParallelRequestsCount config) proxy (ra_ReadTimeoutMs config)) in
  if ra_EnableProxy config && negb (ra_UseSystemProxyProperties config) then
    let proxyUrl := ra_ProxyScheme config +:+ "://" +:+ ra_ProxyHost config +:+ ":" +:+ Itoa (ra_ProxyPort config) in
    let withUser := bool_decide (ra_ProxyUser config ≠ "" ∧ ra_ProxyPassword config ≠ "") in
    match url_Parse proxyUrl with
    | Ok u => client (Some (u, if withUser then Some (ra_ProxyUser config, ra_ProxyPassword config) else None))
    | Err _ => if withUser then Panics "invalid memory address or nil pointer dereference" else client None
    end
  else client None.

Definition set_method (m : string) (c : RestApiCallNodeConfiguration) : RestApiCallNodeConfiguration :=
  mkRestConf (ra_RestEndpointUrlPattern c) m (ra_WithoutRequestBody c) (ra_Headers c) (ra_ReadTimeoutMs c)
    (ra_MaxParallelRequestsCount c) (ra_EnableProxy c) (ra_UseSystemProxyProperties c) (ra_ProxyScheme c)
    (ra_ProxyHost c) (ra_ProxyPort c) (ra_ProxyUser c) (ra_ProxyPassword c).

Definition RestApiCallNode_Init `{Decode RestApiCallNodeConfiguration} (ruleConfig : Config) (configuration : Configuration)
    (x : RestApiCallNode) : outcome (result RestApiCallNode) :=
  match Map2Struct configuration (rn_Config x) with
  | (Some err, _) => Returns (Err err)
  | (None, conf) =>
      let conf := set_method (ToUpper (ra_RequestMethod conf)) conf in
      let header k := default "" (ra_Headers conf !! k) in
      match NewHttpClient conf with
      | Panics why => Panics why
      | Returns client =>
          Returns (Ok (mkRestApi conf (Some client)
            (HasPrefix eventStreamMime (header acceptKey) || HasPrefix eventStreamMime (header contentTypeKey) || rn_isStream x)))
      end
  end.

(** ** Server-sent events *)

Definition MaxScanTokenSize : nat := 65536.

(** The pieces of a text at newlines; nothing after the last one. *)
Fixpoint drop_last_empty (l : list string) : list string :=
  match l with
  | [] => []
  | [s] => if bool_decide (s = "") then [] else [s]
  | s :: l' => s :: drop_last_empty l'
  end.
(** The tokens of the scanner, and whether it gave up on a line that is too long. *)
Fixpoint scan_tokens (ls : list string) : list string * bool :=
  match ls with
  | [] => ([], false)
  | l :: rest =>
      if String.length l <? MaxScanTokenSize
      then let '(ts, long) := scan_tokens rest in (drop_cr l :: ts, long)
      else ([], true)
  end.
Definition Scanner_Err (long : bool) (bodyErr : error) : error :=
  if long then Some "bufio.Scanner: token too long" else bodyErr.

Definition put_md (key value : string) (msg : RuleMsg) : RuleMsg :=
  set_Metadata (Metadata_PutValue (m_Metadata msg) key value) msg.

(** The loop over the lines; [msg] is the variable it keeps changing. *)
Fixpoint stream_lines (lines : list string) (msg : RuleMsg) : list call * RuleMsg :=
  match lines with
  | [] => ([], msg)
  | line :: rest =>
      if bool_decide (line = "") then stream_lines rest msg
      else if HasPrefix ":" line then stream_lines rest msg
      else
        match SplitN2 line ":"%char with
        | [t; d] =>
            let msg := set_Data (TrimSpace d) (put_md eventTypeMetadataKey (TrimSpace t) msg) in
            let '(calls, msg') := stream_lines rest msg in
            (TellSuccess msg :: calls, msg')
        | _ => stream_lines rest msg
        end
  end.
Definition readFromStream (msg : RuleMsg) (resp : HttpResp) : list call :=
  let '(tokens, long) := scan_tokens (drop_last_empty (Split (hp_Body resp) LF)) in
  let '(calls, msg) := stream_lines tokens msg in
  calls ++ match Scanner_Err long (hp_BodyErr resp) with Some err => [TellFailure msg (Some err)] | None => [] end.

(** ** Messages *)

Definition request_of (x : RestApiCallNode) (msg : RuleMsg) : HttpReq :=
  let metaData := Metadata_Values (m_Metadata msg) in
  let conf := rn_Config x in
  mkHttpReq (ra_RequestMethod conf) (SprintfDict (ra_RestEndpointUrlPattern conf) metaData)
    (if ra_WithoutRequestBody conf then None else Some (m_Data msg))
    (foldl (λ h '(k, v), Header_Set (SprintfDict k metaData) (SprintfDict v metaData) h) ∅ (range (ra_Headers conf))).

Definition put_status (resp : HttpResp) (msg : RuleMsg) : RuleMsg :=
  put_md statusCodeMetadataKey (Itoa (hp_StatusCode resp)) (put_md statusMetadataKey (hp_Status resp) msg).

Definition RestApiCallNode_OnMsg (x : RestApiCallNode) (msg : RuleMsg) : list call :=
  let req := request_of x msg in
  match http_NewRequest_error (hq_Method req) (hq_URL req), rn_httpClient x with
  | Some err, _ => [TellFailure msg (Some err)]
  | None, None => nil_engine
  | None, Some client =>
      match http_Do client req with
      | Err err => [TellFailure msg (Some err)]
      | Ok response =>
          if rn_isStream x then
            let msg := put_status response msg in
            if bool_decide (hp_StatusCode response = 200)%Z then readFromStream msg response
            else [TellNext (put_md errorBodyMetadataKey (hp_Body response) msg) [Failure]]
          else
            match hp_BodyErr response with
            | Some err => [TellFailure msg (Some err)]
            | None =>
                let msg := put_status response msg in
                if bool_decide (hp_StatusCode response = 200)%Z then [TellSuccess (set_Data (hp_Body response) msg)]
                else [TellNext (put_md errorBodyMetadataKey (hp_Body response) msg) [Failure]]
            end
      end
  end.

(** ** Properties *)

(** One line of a stream on its own: an event, or nothing. *)
Definition parse_event (line : string) : option (string * string) :=
  if bool_decide (line = "") || HasPrefix ":" line then None
  else match SplitN2 line ":"%char with [t; d] => Some (TrimSpace t, TrimSpace d) | _ => None end.
Definition event_msg (msg : RuleMsg) (e : string * string) : RuleMsg :=
  set_Data e.2 (put_md eventTypeMetadataKey e.1 msg).

Lemma event_msg_again msg e e' : event_msg (event_msg msg e) e' = event_msg msg e'.
Proof.
  unfold event_msg, put_md; simpl. destruct msg; unfold set_Data, set_Metadata; simpl. f_equal.
  apply map_eq. intros k. rewrite !Metadata_PutValue_lookup. by repeat case_bool_decide.
Qed.

Lemma stream_lines_step line rest msg :
  stream_lines (line :: rest) msg =
    match parse_event line with
    | Some e => let '(calls, msg') := stream_lines rest (event_msg msg e) in (TellSuccess (event_msg msg e) :: calls, msg')
    | None => stream_lines rest msg
    end.
Proof.
  unfold parse_event. cbn [stream_lines]. destruct (bool_decide (line = "")); [done|].
  destruct (HasPrefix ":" line); [done|]. by destruct (SplitN2 line ":"%char) as [|t [|d [|]]].
Qed.

Lemma stream_lines_events lines msg :
  stream_lines lines msg =
    ((λ e, TellSuccess (event_msg msg e)) <$> omap parse_event lines,
     match last (omap parse_event lines) with Some e => event_msg msg e | None => msg end).
Proof.
  revert msg. induction lines as [|line lines IH]; intros msg; [done|]. rewrite stream_lines_step.
  change (omap parse_event (line :: lines)) with
    (match parse_event line with Some e => e :: omap parse_event lines | None => omap parse_event lines end).
  destruct (parse_event line) as [e|]; [|apply IH]. rewrite IH. f_equal.
  - rewrite fmap_cons. f_equal. apply list_fmap_ext. intros _ e' _. by rewrite event_msg_again.
  - destruct (omap parse_event lines) as [|e1 es]; [done|].
    change (last (e :: e1 :: es)) with (last (e1 :: es)).
    destruct (last (e1 :: es)) eqn:El; [by rewrite event_msg_again|by apply last_None in El].
Qed.

Lemma scan_tokens_short ls :
  Forall (λ l, String.length l < MaxScanTokenSize) ls → scan_tokens ls = (drop_cr <$> ls, false).
Proof.
  induction 1 as [|l ls Hl _ IH]; simpl; [done|]. rewrite (proj2 (Nat.ltb_lt _ _) Hl), IH. done.
Qed.

(** The events of a stream.  When every line fits the scanner, each line that is not empty,
    not a comment and has a colon is one [Success], in order, with the text before the
    colon as event type and the text after it as data, and everything else as in the
    message that was sent; a stream that breaks off ends with one [Failure]. *)
Theorem readFromStream_spec msg resp :
  let lines := drop_last_empty (Split (hp_Body resp) LF) in
  Forall (λ l, String.length l < MaxScanTokenSize) lines →
  readFromStream msg resp =
    ((λ e, TellSuccess (event_msg msg e)) <$> omap (parse_event ∘ drop_cr) lines) ++
    match hp_BodyErr resp with
    | Some err => [TellFailure (match last (omap (parse_event ∘ drop_cr) lines) with Some e => event_msg msg e | None => msg end) (Some err)]
    | None => []
    end.
Proof.
  intros lines Hl. unfold readFromStream. fold lines. rewrite scan_tokens_short by done.
  rewrite stream_lines_events. simpl.
  assert (omap parse_event (drop_cr <$> lines) = omap (parse_event ∘ drop_cr) lines) as ->; [|done].
  clear. induction lines as [|l ls IH]; [done|].
  change (match parse_event (drop_cr l) with Some e => e :: omap parse_event (drop_cr <$> ls) | None => omap parse_event (drop_cr <$> ls) end =
          match parse_event (drop_cr l) with Some e => e :: omap (parse_event ∘ drop_cr) ls | None => omap (parse_event ∘ drop_cr) ls end).
  by rewrite IH.
Qed.

(** Every message is answered exactly once unless the response is a stream: [Success]
    with the body as data when the status is 200; [Failure] when the request cannot be
    built, is not answered, or its answer cannot be read, with the message as it came;
    and [Failure] with the body in the metadata for any other status. *)
Theorem RestApiCallNode_OnMsg_spec x msg client :
  rn_httpClient x = Some client → rn_isStream x = false →
  let req := request_of x msg in
  RestApiCallNode_OnMsg x msg =
    match http_NewRequest_error (hq_Method req) (hq_URL req) with
    | Some err => [TellFailure msg (Some err)]
    | None =>
        match http_Do client req with
        | Err err => [TellFailure msg (Some err)]
        | Ok resp => from_option (λ err, [TellFailure msg (Some err)])
            [if bool_decide (hp_StatusCode resp = 200)%Z then TellSuccess (set_Data (hp_Body resp) (put_status resp msg))
             else TellNext (put_md errorBodyMetadataKey (hp_Body resp) (put_status resp msg)) [Failure]] (hp_BodyErr resp)
        end
    end ∧
  ∀ resp k, k ∉ [statusMetadataKey; statusCodeMetadataKey] → m_Metadata (put_status resp msg) !! k = m_Metadata msg !! k.
Proof.
  intros Hc Hs req. split.
  - unfold RestApiCallNode_OnMsg. fold req. rewrite Hc, Hs. destruct (http_NewRequest_error _ _); [done|].
    destruct (http_Do client req) as [resp|]; [|done]. destruct (hp_BodyErr resp); [done|]. simpl. by case_bool_decide.
  - intros resp k Hk. unfold put_status, put_md; simpl. rewrite !Metadata_PutValue_lookup.
    apply not_elem_of_cons in Hk as [H1 Hk]. apply not_elem_of_cons in Hk as [H2 _].
    rewrite !bool_decide_false; [done|by intros [_ ?]..].
Qed.

(** A stream without events leaves the message unanswered. *)
Theorem empty_stream_unanswered x msg client resp :
  rn_httpClient x = Some client → rn_isStream x = true →
  http_NewRequest_error (hq_Method (request_of x msg)) (hq_URL (request_of x msg)) = None →
  http_Do client (request_of x msg) = Ok resp → hp_StatusCode resp = 200%Z → hp_Body resp = "" → hp_BodyErr resp = None →
  RestApiCallNode_OnMsg x msg = [].
Proof.
  intros Hc Hs Hn Hd H200 Hb He. unfold RestApiCallNode_OnMsg. rewrite Hn, Hc, Hd, Hs. rewrite bool_decide_true by done.
  unfold readFromStream. rewrite Hb. simpl. by rewrite He.
Qed.

(** ** The metadata of end callbacks

    The events carry the same metadata map.  A next node gets a copy, but when the
    component is the last of its branch the end callback gets the message itself, later
    and on another goroutine. *)
Fixpoint stream_refs (events : list (string * string)) (msg : RuleMsgRef) (h : MetaStore) : list RuleMsgRef * MetaStore :=
  match events with
  | [] => ([], h)
  | (t, d) :: rest =>
      let h := PutValue_ref (m_Metadata msg) eventTypeMetadataKey t h in
      let msg := set_Data d msg in
      let '(ms, h) := stream_refs rest msg h in (msg :: ms, h)
  end.

(** Callbacks that run after the stream was read all see the type of the last event. *)
Theorem stream_shares_metadata events msg h md t d :
  h !! m_Metadata msg = Some md → last events = Some (t, d) →
  let '(ms, h') := stream_refs events msg h in
  m_Data <$> ms = events.*2 ∧ Forall (λ m, m_Metadata (deref h' m) !! eventTypeMetadataKey = Some t) ms.
Proof.
  revert msg h md. induction events as [|[t1 d1] events IH]; intros msg h md Hh Hl; [done|]. simpl.
  assert (∀ mm hh md0, hh !! m_Metadata (M := nat) mm = Some md0 →
    PutValue_ref (m_Metadata mm) eventTypeMetadataKey t1 hh !! m_Metadata mm = Some (Metadata_PutValue md0 eventTypeMetadataKey t1)) as Hput.
  { intros mm hh md0 Hm. unfold PutValue_ref. by rewrite lookup_alter_eq, Hm. }
  destruct events as [|e events].
  - injection Hl as -> ->. simpl. split; [done|]. constructor; [|constructor]. unfold deref; simpl.
    rewrite (Hput msg h md Hh). simpl. rewrite Metadata_PutValue_lookup. done.
  - specialize (IH (set_Data d1 msg) (PutValue_ref (m_Metadata msg) eventTypeMetadataKey t1 h) _ (Hput msg h md Hh) Hl).
    assert (∀ es (m : RuleMsgRef) hh, Forall (λ m', m_Metadata m' = m_Metadata m) (stream_refs es m hh).1) as Hsame.
    { induction es as [|[t' d'] es IHes]; intros m hh; simpl; [constructor|].
      specialize (IHes (set_Data d' m) (PutValue_ref (m_Metadata m) eventTypeMetadataKey t' hh)).
      destruct (stream_refs es _ _) as [ms' h'']; simpl in *. by constructor. }
    specialize (Hsame (e :: events) (set_Data d1 msg) (PutValue_ref (m_Metadata msg) eventTypeMetadataKey t1 h)).
    destruct (stream_refs (e :: events) _ _) as [ms h'] eqn:Es. destruct IH as [IH1 IH2]. simpl in Hsame. split.
    + rewrite !fmap_cons. by f_equal.
    + constructor; [|done]. destruct ms as [|m1 ms]; [simpl in Es; destruct e; by destruct (stream_refs events _ _)|].
      inversion Hsame as [|? ? Hm _]; subst. inversion IH2 as [|? ? Hv _]; subst.
      unfold deref in *; simpl in *. by rewrite Hm in Hv.
Qed.

End RestApiCall.

Module RestApiExample.
Import NodeSamples.
#[export] Program Instance list_range : MapRange := {| range A m := map_to_list m |}.
Next Obligation. done. Qed.

Definition nl : string := String LF "".
(** A server that answers by the URL. *)
#[export] Instance server : HttpNet := {|
  http_NewRequest_error := λ m url, if bool_decide (url = "") then Some "empty url" else None;
  http_Do := λ _ req,
    if bool_decide (hq_URL req = "/down") then Err "connection refused"
    else if bool_decide (hq_URL req = "/missing") then Ok (mkHttpResp "404 Not Found" 404 "no" None)
    else Ok (mkHttpResp "200 OK" 200 ("event: a" +:+ nl +:+ ": note" +:+ nl +:+ "data: b" +:+ nl) None);
  url_Parse := λ s, if Contains " " s then Err "invalid character" else Ok s
|}.
Definition client : HttpClientConf := mkHttpClient 0 None 0.
Definition node (url : string) (stream : bool) : RestApiCallNode :=
  mkRestApi (mkRestConf url "GET" true ∅ 0 0 false false "" "" 0 "" "") (Some client) stream.
Definition msg : RuleMsg := sample_msg "1" "d".

Lemma readFromStream_witness :
  (λ c, match c with CTell m _ _ => (m_Metadata m !! "eventType", m_Data m) | _ => (None, "") end)
    <$> readFromStream msg (mkHttpResp "200 OK" 200 ("event: a" +:+ nl +:+ ": note" +:+ nl +:+ "data: b" +:+ nl) None) =
  [(Some "event", "a"); (Some "data", "b")].
Proof.
  rewrite (readFromStream_spec msg (mkHttpResp "200 OK" 200 ("event: a" +:+ nl +:+ ": note" +:+ nl +:+ "data: b" +:+ nl) None)).
  - vm_compute. reflexivity.
  - repeat (constructor; [apply Nat.ltb_lt; vm_compute; reflexivity|]). constructor.
Defined.

Lemma RestApiCallNode_OnMsg_witness :
  RestApiCallNode_OnMsg (node "/missing" false) msg =
    [TellNext (put_md errorBodyMetadataKey "no" (put_status (mkHttpResp "404 Not Found" 404 "no" None) msg)) [Failure]].
Proof.
  rewrite (proj1 (RestApiCallNode_OnMsg_spec (node "/missing" false) msg client eq_refl eq_refl)). reflexivity.
Defined.

(** A proxy address that is not a URL panics when there is a user, and is otherwise ignored. *)
Theorem bad_proxy :
  let conf user := mkRestConf "/" "GET" true ∅ 0 0 true false "http" "a b" 80 user "pw" in
  NewHttpClient (conf "me") = Panics "invalid memory address or nil pointer dereference" ∧
  NewHttpClient (conf "") = Returns (mkHttpClient 0 None 0).
Proof. split; vm_compute; reflexivity. Qed.

End RestApiExample.
