(* ===== verification/NetNode.v ===== *)
(** * The TCP client component ([src/components/external/net_node.go])

    A node keeps one connection, a heartbeat timer, and a goroutine that reconnects.
    What the network answers is part of each event.  The functions are given twice: as a
    whole, for a node nothing else happens to meanwhile, and as the steps that other
    goroutines can come between: an access to [disconnected], to the connection, the
    timer or the channel, or a call that waits for the network. *)

From Stdlib Require Import Ascii.
From S2P Require Import Prelude GoStrings Value Str Msg Config Dsl World RuleCtx NodeApi LineReader.

Definition NetNotInitErr : string := "net not init error".

Record NetNodeConfiguration : Type := mkNetConf {
  nn_Protocol : string; nn_Server : string; nn_ConnectTimeout : Z; nn_HeartbeatInterval : Z
}.
(** [nn_conn]: whether the connection the node holds has been closed by it;
    [nn_timer]: whether the timer is scheduled; [nn_stop]: the tokens in the channel,
    [None] before [make], and whether it is closed. *)
Record NetNode : Type := mkNetNode {
  nn_Config : NetNodeConfiguration;
  nn_conn : option bool;
  nn_timer : option bool;
  nn_heartbeatDuration : Z;
  nn_stop : option (nat * bool);
  nn_disconnected : bool
}.
Definition NetNode_New : NetNode := mkNetNode (mkNetConf "tcp" "" 60 60) None None 0 None false.

Definition set_timer (b : bool) (x : NetNode) : NetNode :=
  mkNetNode (nn_Config x) (nn_conn x) (Some b) (nn_heartbeatDuration x) (nn_stop x) (nn_disconnected x).
Definition setDisconnected (b : bool) (x : NetNode) : NetNode :=
  mkNetNode (nn_Config x) (nn_conn x) (nn_timer x) (nn_heartbeatDuration x) (nn_stop x) b.
Definition set_conn (c : option bool) (x : NetNode) : NetNode :=
  mkNetNode (nn_Config x) c (nn_timer x) (nn_heartbeatDuration x) (nn_stop x) (nn_disconnected x).
Definition set_stop (s : option (nat * bool)) (x : NetNode) : NetNode :=
  mkNetNode (nn_Config x) (nn_conn x) (nn_timer x) (nn_heartbeatDuration x) s (nn_disconnected x).

(** [onConnect], with what dialling returns; an old connection is closed first.  The
    timer is created or reset: scheduled either way. *)
Definition onConnect (dial : error) (x : NetNode) : error * NetNode :=
  let x := set_conn ((λ _, true) <$> nn_conn x) x in
  match dial with
  | Some err => (Some err, x)
  | None => (None, set_timer true (setDisconnected false (set_conn (Some false) x)))
  end.

(** [onPing], run by the timer, which is not scheduled any more. *)
Definition onPing (write : error) (x : NetNode) : NetNode :=
  let x := set_timer false x in
  if nn_disconnected x then x
  else match write with
       | Some _ => setDisconnected true x
       | None => set_timer true x
       end.

(** [onWrite] *)
Definition onWrite (write : error) (msg : RuleMsg) (x : NetNode) : list call * NetNode :=
  match nn_conn x with
  | None => ([TellFailure msg (Some NetNotInitErr)], x)
  | Some _ =>
      match write with
      | Some err => ([TellFailure msg (Some err)], x)
      | None => ([TellSuccess msg], match nn_timer x with Some _ => set_timer true x | None => x end)
      end
  end.
(** [OnMsg]: the data sent is that of the message and a newline. *)
Definition net_data (msg : RuleMsg) : string := m_Data msg +:+ String LF "".
Definition NetNode_OnMsg (write : string → error) (msg : RuleMsg) (x : NetNode) : list call * NetNode :=
  onWrite (write (net_data msg)) msg x.

(** [onDisconnect]; both the timer and the connection are there when it is called. *)
Definition onDisconnect (x : NetNode) : NetNode :=
  setDisconnected true (set_timer false (set_conn ((λ _, true) <$> nn_conn x) x)).

Definition NetNode_Init `{Decode NetNodeConfiguration} (dial : NetNodeConfiguration → error) (configuration : Configuration)
    (x : NetNode) : result NetNode :=
  let x := set_stop (Some (0, false)) x in
  match Map2Struct configuration (nn_Config x) with
  | (Some err, _) => Err err
  | (None, conf) =>
      let conf := mkNetConf (if bool_decide (nn_Protocol conf = "") then "tcp" else nn_Protocol conf) (nn_Server conf)
        (if bool_decide (nn_ConnectTimeout conf ≤ 0)%Z then 60 else nn_ConnectTimeout conf)
        (if bool_decide (nn_HeartbeatInterval conf ≤ 0)%Z then 60 else nn_HeartbeatInterval conf) in
      let x := mkNetNode conf (nn_conn x) (nn_timer x) (nn_HeartbeatInterval conf) (nn_stop x) (nn_disconnected x) in
      match onConnect (dial conf) x with
      | (Some err, _) => Err err
      | (None, x) => Ok x
      end
  end.

(** [Destroy]: a send on the channel and a close; it blocks before [Init] and panics the
    second time. *)
Inductive destroyed : Type := Destroyed (x : NetNode) | DestroyBlocks | DestroyPanics.
Definition NetNode_Destroy (x : NetNode) : destroyed :=
  match nn_stop x with
  | None => DestroyBlocks
  | Some (n, true) => DestroyPanics
  | Some (0, false) => Destroyed (set_stop (Some (1, true)) x)
  | Some (_, false) => DestroyBlocks
  end.

(** One turn of [start]: whether the goroutine goes on. *)
Definition start_turn (dial : error) (x : NetNode) : bool * NetNode :=
  match nn_stop x with
  | Some (S n, closed) => (false, onDisconnect (set_stop (Some (n, closed)) x))
  | Some (0, true) => (false, onDisconnect x)
  | _ => (true, if nn_disconnected x then (onConnect dial x).2 else x)
  end.

(** ** The node at work

    Where the goroutine of [start] is: at [select]; reading [disconnected]; in
    [onConnect], about to close the old connection, dialling, or about to store the new connection, to
    store [disconnected] and to reset the timer; in [onDisconnect], about to close the connection, to stop the
    timer and to store [disconnected]; at its end. *)
Inductive loop_pc : Type :=
| LSelect | LCheck
| LCloseOld | LDial | LStore | LConnected | LReset
| LClose | LStopTimer | LDisconnected
| LEnded.
(** Where a run of [onPing] is: reading [disconnected], writing, and what comes after. *)
Inductive ping_pc : Type := PCheck | PWrite | PReset | PDisconnected.
(** An initialised node, its goroutine, the runs of [onPing], the number of messages that
    are written and about to reset the timer, and that of calls of [Destroy] about to close the channel. *)
Record net_state : Type := mkNetState {
  st_node : NetNode;
  st_loop : loop_pc;
  st_pings : list ping_pc;
  st_resets : nat;
  st_closing : nat
}.

Definition with_loop (x : NetNode) (pc : loop_pc) (s : net_state) : net_state :=
  mkNetState x pc (st_pings s) (st_resets s) (st_closing s).
(** A step of the goroutine; [dial] is what dialling returns, when it dials. *)
Definition loop_step (dial : error) (s : net_state) : option net_state :=
  let x := st_node s in
  match st_loop s with
  | LSelect =>
      match nn_stop x with
      | Some (S n, closed) => Some (with_loop (set_stop (Some (n, closed)) x) LClose s)
      | Some (0, true) => Some (with_loop x LClose s)
      | _ => Some (with_loop x LCheck s)
      end
  | LCheck => Some (with_loop x (if nn_disconnected x then LCloseOld else LSelect) s)
  | LCloseOld => Some (with_loop (set_conn ((λ _, true) <$> nn_conn x) x) LDial s)
  | LDial => Some (with_loop x (match dial with Some _ => LSelect | None => LStore end) s)
  | LStore => Some (with_loop (set_conn (Some false) x) LConnected s)
  | LConnected => Some (with_loop (setDisconnected false x) LReset s)
  | LReset => Some (with_loop (set_timer true x) LSelect s)
  | LClose => Some (with_loop (set_conn ((λ _, true) <$> nn_conn x) x) LStopTimer s)
  | LStopTimer => Some (with_loop (set_timer false x) LDisconnected s)
  | LDisconnected => Some (with_loop (setDisconnected true x) LEnded s)
  | LEnded => None
  end.
(** A step of run [i] of [onPing]; [write] is what writing returns, when it writes. *)
Definition ping_step (i : nat) (write : error) (s : net_state) : option net_state :=
  let x := st_node s in
  let goes pc := mkNetState x (st_loop s) (<[i := pc]> (st_pings s)) (st_resets s) (st_closing s) in
  let ends x := mkNetState x (st_loop s) (delete i (st_pings s)) (st_resets s) (st_closing s) in
  pc ← st_pings s !! i;
  Some match pc with
       | PCheck => if nn_disconnected x then ends x else goes PWrite
       | PWrite => goes (match write with Some _ => PDisconnected | None => PReset end)
       | PReset => ends (set_timer true x)
       | PDisconnected => ends (setDisconnected true x)
       end.

Inductive net_event : Type :=
| EvLoop (dial : error)
| EvTimer                            (* the timer fires *)
| EvPing (i : nat) (write : error)
| EvMsg (write : error)              (* a message is written *)
| EvMsgReset                         (* and resets the timer *)
| EvDestroy                          (* [Destroy] has sent *)
| EvDestroyClose.                    (* and closes the channel *)
(** [None]: the event cannot happen, because nothing of the kind is going on, or because it blocks or panics. *)
Definition net_step (e : net_event) (s : net_state) : option net_state :=
  let x := st_node s in
  match e with
  | EvLoop dial => loop_step dial s
  | EvTimer =>
      if bool_decide (nn_timer x = Some true)
      then Some (mkNetState (set_timer false x) (st_loop s) (st_pings s ++ [PCheck]) (st_resets s) (st_closing s)) else None
  | EvPing i write => ping_step i write s
  | EvMsg None => Some (mkNetState x (st_loop s) (st_pings s) (S (st_resets s)) (st_closing s))
  | EvMsg (Some _) => Some s
  | EvMsgReset =>
      match st_resets s with
      | S n => Some (mkNetState (set_timer true x) (st_loop s) (st_pings s) n (st_closing s))
      | 0 => None
      end
  | EvDestroy =>
      match nn_stop x with
      | Some (0, false) => Some (mkNetState (set_stop (Some (1, false)) x) (st_loop s) (st_pings s) (st_resets s) (S (st_closing s)))
      | _ => None
      end
  | EvDestroyClose =>
      match st_closing s, nn_stop x with
      | S n, Some (k, false) => Some (mkNetState (set_stop (Some (k, true)) x) (st_loop s) (st_pings s) (st_resets s) n)
      | _, _ => None
      end
  end.
Definition net_start (x : NetNode) : net_state := mkNetState x LSelect [] 0 0.
Fixpoint net_run (es : list net_event) (s : net_state) : option net_state :=
  match es with [] => Some s | e :: es => s ← net_step e s; net_run es s end.

(** *** The steps and the functions

    Run without anything in between, the steps do what the functions do. *)
Lemma loop_alone dial x pings resets closing :
  ∃ n, net_run (replicate n (EvLoop dial)) (mkNetState x LSelect pings resets closing) =
    Some (mkNetState (start_turn dial x).2 (if (start_turn dial x).1 then LSelect else LEnded) pings resets closing).
Proof.
  destruct x as [conf conn timer dur stop disc].
  destruct stop as [[[|n] []]|]; [by exists 4| |by exists 4..|]; (destruct disc; [destruct dial; [by exists 4|by exists 7]|by exists 2]).
Qed.

Lemma ping_alone write x loop resets closing :
  nn_timer x = Some true →
  ∃ n, net_run (EvTimer :: replicate n (EvPing 0 write)) (mkNetState x loop [] resets closing) =
    Some (mkNetState (onPing write x) loop [] resets closing).
Proof.
  intros Ht. destruct x as [conf conn timer dur stop disc]; simpl in Ht; subst.
  destruct disc; [by exists 1|]. by destruct write; exists 3.
Qed.

Lemma write_alone write msg x loop pings resets closing :
  is_Some (nn_conn x) → is_Some (nn_timer x) →
  net_run (EvMsg write :: match write with None => [EvMsgReset] | Some _ => [] end) (mkNetState x loop pings resets closing) =
    Some (mkNetState (onWrite write msg x).2 loop pings resets closing).
Proof. intros [c Hc] [t Ht]. unfold onWrite. rewrite Hc. by destruct write; [|rewrite Ht]. Qed.

(** *** The invariant *)

Definition stopping (pc : loop_pc) : Prop := pc = LClose ∨ pc = LStopTimer ∨ pc = LDisconnected.
(** What is still to come that schedules the next heartbeat or marks the connection as broken. *)
Definition heartbeat_due (s : net_state) : Prop :=
  nn_timer (st_node s) = Some true ∨ st_pings s ≠ [] ∨ st_loop s = LReset ∨ stopping (st_loop s).

Record net_inv (s : net_state) : Prop := {
  ni_conn : nn_disconnected (st_node s) = false → nn_conn (st_node s) = Some false ∨ stopping (st_loop s);
  ni_timer : nn_disconnected (st_node s) = false → heartbeat_due s;
  ni_loop : match st_loop s with
            | LCloseOld | LDial | LStore | LEnded => nn_disconnected (st_node s) = true
            | LConnected => nn_disconnected (st_node s) = true ∧ nn_conn (st_node s) = Some false
            | _ => True
            end
}.
(** Before [Destroy] is called. *)
Definition undestroyed (s : net_state) : Prop :=
  nn_stop (st_node s) = Some (0, false) ∧ st_closing s = 0 ∧ ¬ stopping (st_loop s) ∧ st_loop s ≠ LEnded.

Lemma NetNode_Init_inv `{Decode NetNodeConfiguration} dial configuration x :
  NetNode_Init dial configuration NetNode_New = Ok x → net_inv (net_start x) ∧ undestroyed (net_start x).
Proof.
  unfold NetNode_Init. destruct (Map2Struct _ _) as [[|] conf]; [done|].
  destruct (dial _); simpl; [done|]. intros [= <-]. split.
  - split; simpl; try done; by left.
  - unfold undestroyed, stopping. simpl. naive_solver.
Qed.

Lemma loop_step_inv dial s s' : net_inv s → loop_step dial s = Some s' → net_inv s'.
Proof.
  destruct s as [[conf conn timer dur stop disc] pc pings resets closing].
  intros [Hc Ht Hl]. unfold heartbeat_due, stopping in *. simpl in *.
  destruct pc, disc, dial; simpl; try (destruct stop as [[[|n] []]|]); intros [= <-]; split; unfold heartbeat_due, stopping; simpl in *;
    naive_solver.
Qed.

Lemma ping_step_inv i write s s' : net_inv s → ping_step i write s = Some s' → net_inv s'.
Proof.
  destruct s as [[conf conn timer dur stop disc] pc pings resets closing].
  intros [Hc Ht Hl]. unfold ping_step. intros (p & Hp & Heq)%bind_Some. simpl in *.
  assert (∀ p', <[i := p']> pings ≠ []) as Hne by (intros p' H%(f_equal length); rewrite length_insert in H; by destruct pings).
  destruct p, disc, write; simplify_eq; split; unfold heartbeat_due, stopping in *; simpl in *; try done;
    destruct pc; naive_solver.
Qed.

Lemma net_step_inv e s s' : net_inv s → net_step e s = Some s' → net_inv s'.
Proof.
  intros Hi. destruct e as [dial| |i write|[err|]| | |]; simpl.
  - by apply loop_step_inv.
  - destruct s as [[conf conn timer dur stop disc] pc pings resets closing]. case_bool_decide; [|done]. intros [= <-].
    destruct Hi as [Hc Ht Hl]. split; try done. intros _. right. left. simpl. by destruct pings.
  - by apply ping_step_inv.
  - by intros [= <-].
  - intros [= <-]. by destruct Hi.
  - destruct (st_resets s); [done|]. intros [= <-]. destruct Hi as [Hc Ht Hl]. split; try done. intros _. by left.
  - destruct (nn_stop (st_node s)) as [[[|n] []]|] eqn:E; try done. intros [= <-]. by destruct Hi.
  - destruct (st_closing s) as [|k] eqn:Ek, (nn_stop (st_node s)) as [[n []]|] eqn:E; try done. intros [= <-]. by destruct Hi.
Qed.

Lemma net_step_undestroyed e s s' : e ≠ EvDestroy → undestroyed s → net_step e s = Some s' → undestroyed s'.
Proof.
  destruct s as [[conf conn timer dur stop disc] pc pings resets closing]. intros He. unfold undestroyed, stopping. simpl.
  intros (-> & -> & Hns & Hne). destruct e as [dial| |i write|[err|]| | |]; simpl; try done.
  - destruct pc, disc, dial; simpl; intros [= <-]; simpl; naive_solver.
  - case_bool_decide; [|done]. by intros [= <-].
  - unfold ping_step; simpl. intros (p & _ & [= <-])%bind_Some. by destruct p; [destruct disc|..].
  - by intros [= <-].
  - by intros [= <-].
  - destruct resets; [done|]. by intros [= <-].
Qed.

#[global] Instance net_event_EqDecision : EqDecision net_event.
Proof. solve_decision. Defined.

(** C35. The goroutine of a node, its heartbeats, the messages it sends and [Destroy] run at
    the same time, in any interleaving of their steps, with any answers of the network.  Whenever the
    node counts its connection as connected: the connection has not been closed by the
    node, unless the goroutine is closing it for good; and the next heartbeat is
    scheduled, or a heartbeat is being sent, or the goroutine is about to reset the timer or is closing the connection
    for good; so a broken connection is noticed.  In particular, when no function of the node is under way, the
    connection of a connected node is open and the heartbeat is scheduled.  The goroutine only ends after
    [Destroy] was called, and then the node counts as disconnected. *)
Theorem net_heartbeat_scheduled `{Decode NetNodeConfiguration} dial configuration x0 es s :
  NetNode_Init dial configuration NetNode_New = Ok x0 → net_run es (net_start x0) = Some s →
  (nn_disconnected (st_node s) = false →
     (nn_conn (st_node s) = Some false ∨ stopping (st_loop s)) ∧ heartbeat_due s ∧ st_loop s ≠ LEnded ∧
     (st_pings s = [] → st_loop s = LSelect → nn_conn (st_node s) = Some false ∧ nn_timer (st_node s) = Some true)) ∧
  (st_loop s = LEnded → nn_disconnected (st_node s) = true ∧ EvDestroy ∈ es).
Proof.
  intros Hi Hr. destruct (NetNode_Init_inv _ _ _ Hi) as [H0 Hu].
  assert (net_inv s) as Hinv.
  { clear Hi Hu. revert H0 Hr. generalize (net_start x0). induction es as [|e es IH]; intros s0 H0 Hr; simplify_eq/=; [done|].
    apply bind_Some in Hr as (s1 & H1 & Hr). eapply IH; [|exact Hr]. by eapply net_step_inv. }
  split.
  - intros Hd. destruct Hinv as [Hc Ht Hl]. split_and!; [auto..| |].
    + intros E. rewrite E in Hl. congruence.
    + intros Hp El. destruct (Hc Hd) as [Hco|[|[|]]], (Ht Hd) as [Hti|[|[|[|[|]]]]]; done || congruence.
  - intros El. split; [pose proof (ni_loop _ Hinv) as Hl; by rewrite El in Hl|].
    apply dec_stable. intros Hn. clear Hi H0 Hinv. revert Hu Hr Hn. generalize (net_start x0).
    induction es as [|e es IH]; intros s0 Hu Hr Hn; simplify_eq/=; [by destruct Hu as (_ & _ & _ & ?)|].
    apply bind_Some in Hr as (s1 & H1 & Hr). apply not_elem_of_cons in Hn as [He Hn].
    apply (IH s1); [|done|done]. eapply net_step_undestroyed; [|exact Hu|exact H1]. congruence.
Qed.

(** A lost connection: the heartbeat notices it, and the next turn of the goroutine that
    can dial restores it, with the heartbeat going again. *)
Theorem net_reconnects x err x1 :
  nn_disconnected x = false → nn_timer x = Some true → nn_stop x = Some (0, false) →
  x1 = onPing (Some err) x →
  nn_disconnected x1 = true ∧
  (∀ e, (start_turn (Some e) x1).1 = true ∧ nn_disconnected (start_turn (Some e) x1).2 = true) ∧
  nn_disconnected (start_turn None x1).2 = false ∧ nn_timer (start_turn None x1).2 = Some true.
Proof.
  intros Hd Ht Hs ->. unfold onPing; simpl. rewrite Hd. simpl. split; [done|].
  unfold start_turn; simpl. rewrite Hs. by repeat split.
Qed.

(** A failed write is reported and does not mark the connection as broken: only the
    heartbeat does, and every successful write puts the heartbeat off. *)
Theorem onWrite_keeps_connected write msg x :
  nn_disconnected (onWrite write msg x).2 = nn_disconnected x ∧ length (onWrite write msg x).1 = 1.
Proof. unfold onWrite. destruct (nn_conn x); [|done]. destruct write; [done|]. by destruct (nn_timer x). Qed.

(** [Destroy] twice panics. *)
Theorem NetNode_Destroy_twice x x' : NetNode_Destroy x = Destroyed x' → NetNode_Destroy x' = DestroyPanics.
Proof. unfold NetNode_Destroy. destruct (nn_stop x) as [[[|n] []]|]; try done. by intros [= <-]. Qed.

Module NetNodeExample.
Import NodeSamples.

Definition conf : NetNodeConfiguration := mkNetConf "" "127.0.0.1:8888" 0 0.
Definition up : NetNodeConfiguration → error := λ _, None.
(** The heartbeat fails, the goroutine cannot dial, and then it can. *)
Definition es : list net_event :=
  EvTimer :: replicate 3 (EvPing 0 (Some "broken pipe")) ++ replicate 4 (EvLoop (Some "refused")) ++ replicate 7 (EvLoop None).

Lemma net_heartbeat_scheduled_witness :
  ∃ x0 s, NetNode_Init (H := decodes conf) up ∅ NetNode_New = Ok x0 ∧ net_run es (net_start x0) = Some s ∧
    nn_conn (st_node s) = Some false ∧ nn_timer (st_node s) = Some true.
Proof.
  destruct (NetNode_Init (H := decodes conf) up ∅ NetNode_New) as [x0|] eqn:Ei; [|discriminate Ei].
  exists x0. destruct (net_run es (net_start x0)) as [s|] eqn:Er.
  - exists s. split; [reflexivity|]. split; [reflexivity|].
    assert (nn_disconnected (st_node s) = false ∧ st_pings s = [] ∧ st_loop s = LSelect) as (Hd & Hp & Hl).
    { revert Er. vm_compute in Ei. injection Ei as <-. vm_compute. intros [= <-]. split_and!; reflexivity. }
    apply (proj1 (net_heartbeat_scheduled (H := decodes conf) up ∅ x0 es s Ei Er) Hd); [exact Hp|exact Hl].
  - exfalso. vm_compute in Ei. injection Ei as <-. vm_compute in Er. discriminate Er.
Defined.

End NetNodeExample.
