(* ===== verification/External.v ===== *)
(** * The remaining external components ([src/components/external])

    SSH commands, e-mail and MQTT publishing.  The servers are parameters. *)

From Stdlib Require Import Ascii.
From S2P Require Import Prelude GoStrings Value Str Msg Config Dsl World RuleCtx CtxProps JsEngine NodeApi MqttClient.

(** ** E-mail ([send_email_node.go]) *)

Record Email : Type := mkEmail {
  em_From : string; em_To : string; em_Cc : string; em_Bcc : string; em_Subject : string; em_Body : string
}.
Definition crlf : string := String (ascii_of_nat 13) (String (ascii_of_nat 10) "").

(** [createEmailMsg]: the text and the recipients. *)
Definition email_headers (e : Email) (subject : string) : string :=
  "To: " +:+ em_To e +:+ crlf +:+ "From: " +:+ em_From e +:+ crlf +:+ "Subject: " +:+ subject +:+ crlf +:+
  "Cc: " +:+ em_Cc e +:+ crlf +:+ "Bcc: " +:+ em_Bcc e +:+ crlf +:+
  "Content-Type: text/html; charset=UTF-8" +:+ crlf +:+ crlf.
Definition createEmailMsg (e : Email) (metadata : list (string * string)) : string * list string :=
  let subject := SprintfDict (em_Subject e) metadata in
  let body := SprintfDict (em_Body e) metadata in
  let sendTo := Split (em_To e) ","%char in
  let sendTo := if bool_decide (em_Cc e ≠ "") then sendTo ++ Split (em_Cc e) ","%char else sendTo in
  let sendTo := if bool_decide (em_Bcc e ≠ "") then sendTo ++ Split (em_Bcc e) ","%char else sendTo in
  (email_headers e subject +:+ body, sendTo).

(** The steps of a session with the server. *)
Inductive smtp_step : Type :=
| SDial (addr : string) | SClient | SAuth (user password host : string) | SMail (from : string) | SRcpt (to : string)
| SData | SWrite (text : string) | SEndData | SQuit.
#[global] Instance smtp_step_EqDecision : EqDecision smtp_step.
Proof. solve_decision. Defined.

Section Mail.
(** What the server answers to a step, given the steps before it; and [smtp.SendMail]. *)
Variable smtp_answer : list smtp_step → smtp_step → error.
Variable smtp_SendMail : string → string * string * string → string → list string → string → error.

(** The steps that are taken, up to the first error. *)
Fixpoint run_session (done_ : list smtp_step) (steps : list smtp_step) : list smtp_step * error :=
  match steps with
  | [] => (done_, None)
  | s :: rest =>
      match smtp_answer done_ s with
      | Some err => (done_ ++ [s], Some err)
      | None => run_session (done_ ++ [s]) rest
      end
  end.
Definition tls_steps (addr : string) (auth : string * string * string) (from : string) (sendTo : list string) (msg : string) : list smtp_step :=
  let '(user, password, host) := auth in
  [SDial addr; SClient; SAuth user password host; SMail from] ++ (SRcpt <$> sendTo) ++ [SData; SWrite msg; SEndData; SQuit].

Definition SendEmail (addr : string) (auth : string * string * string) (metadata : list (string * string)) (e : Email) : error :=
  let '(msg, sendTo) := createEmailMsg e metadata in smtp_SendMail addr auth (em_From e) sendTo msg.
Definition SendEmailWithTls (addr : string) (auth : string * string * string) (metadata : list (string * string)) (e : Email)
    : list smtp_step * error :=
  let '(msg, sendTo) := createEmailMsg e metadata in run_session [] (tls_steps addr auth (em_From e) sendTo msg).

Record SendEmailConfiguration : Type := mkMailConf {
  mc_SmtpHost : string; mc_SmtpPort : Z; mc_Username : string; mc_Password : string;
  mc_EnableTls : bool; mc_Email : Email; mc_ConnectTimeout : Z
}.
Record SendEmailNode : Type := mkSendEmail {
  se_Config : SendEmailConfiguration;
  se_ConnectTimeoutDuration : Z;
  se_smtpAddr : string;
  se_smtpAuth : string * string * string
}.
Definition SendEmailNode_New : SendEmailNode :=
  mkSendEmail (mkMailConf "" 0 "" "" false (mkEmail "" "" "" "" "" "") 10) 0 "" ("", "", "").
Definition SendEmailNode_Init `{Decode SendEmailConfiguration} (configuration : Configuration) (x : SendEmailNode)
    : result SendEmailNode :=
  match Map2Struct configuration (se_Config x) with
  | (Some err, _) => Err err
  | (None, c) =>
      if bool_decide (em_To (mc_Email c) = "") then Err "to address can not empty"
      else
        let timeout := if bool_decide (mc_ConnectTimeout c ≤ 0)%Z then 10%Z else mc_ConnectTimeout c in
        let c := mkMailConf (mc_SmtpHost c) (mc_SmtpPort c) (mc_Username c) (mc_Password c) (mc_EnableTls c) (mc_Email c) timeout in
        Ok (mkSendEmail c timeout (mc_SmtpHost c +:+ ":" +:+ Itoa (mc_SmtpPort c)) (mc_Username c, mc_Password c, mc_SmtpHost c))
  end.
Definition SendEmailNode_OnMsg (x : SendEmailNode) (msg : RuleMsg) : list call :=
  let metaData := Metadata_Values (m_Metadata msg) in
  let err :=
    if mc_EnableTls (se_Config x) then (SendEmailWithTls (se_smtpAddr x) (se_smtpAuth x) metaData (mc_Email (se_Config x))).2
    else SendEmail (se_smtpAddr x) (se_smtpAuth x) metaData (mc_Email (se_Config x)) in
  [match err with Some _ => TellFailure msg err | None => TellSuccess msg end].

Lemma run_session_spec d steps ran err :
  run_session d steps = (ran, err) →
  match err with
  | None => ran = d ++ steps ∧ ∀ pre s post, steps = pre ++ s :: post → smtp_answer (d ++ pre) s = None
  | Some e => ∃ pre s post, steps = pre ++ s :: post ∧ ran = d ++ pre ++ [s] ∧ smtp_answer (d ++ pre) s = Some e
  end.
Proof.
  revert d. induction steps as [|s steps IH]; intros d; simpl.
  - intros [= <- <-]. rewrite app_nil_r. split; [done|]. intros [|? ?]; by simpl.
  - destruct (smtp_answer d s) as [e|] eqn:Ea.
    + intros [= <- <-]. exists [], s, steps. by rewrite app_nil_r.
    + intros Hr. apply IH in Hr. destruct err as [e|].
      * destruct Hr as (pre & s' & post & -> & -> & Hs). exists (s :: pre), s', post. rewrite <- !app_assoc in *. done.
      * destruct Hr as [-> Hr]. rewrite <- app_assoc. split; [done|]. intros [|p pre] s' post; simpl; intros [= -> ->].
        -- by rewrite app_nil_r.
        -- specialize (Hr pre s' post eq_refl). by rewrite <- app_assoc in Hr.
Qed.

(** Sending over TLS.  The component answers [Success] exactly when the server accepted
    every step of the session, and then it has named every recipient, those of To, Cc
    and Bcc in that order, and passed on the message once, after them; otherwise it
    answers [Failure] with the error of the first step that was refused, and no step
    after that one is taken. *)
Theorem SendEmail_tls_spec x msg :
  mc_EnableTls (se_Config x) = true →
  let e := mc_Email (se_Config x) in
  let '(text, sendTo) := createEmailMsg e (Metadata_Values (m_Metadata msg)) in
  let steps := tls_steps (se_smtpAddr x) (se_smtpAuth x) (em_From e) sendTo text in
  let '(ran, err) := SendEmailWithTls (se_smtpAddr x) (se_smtpAuth x) (Metadata_Values (m_Metadata msg)) e in
  SendEmailNode_OnMsg x msg = [match err with Some _ => TellFailure msg err | None => TellSuccess msg end] ∧
  match err with
  | None => ran = steps
  | Some e => ∃ pre s post, steps = pre ++ s :: post ∧ ran = pre ++ [s] ∧ smtp_answer pre s = Some e
  end ∧
  (∀ r, SRcpt r ∈ steps ↔
    r ∈ Split (em_To e) ","%char ∨ (em_Cc e ≠ "" ∧ r ∈ Split (em_Cc e) ","%char) ∨ (em_Bcc e ≠ "" ∧ r ∈ Split (em_Bcc e) ","%char)).
Proof.
  intros Htls e. destruct (createEmailMsg e _) as [text sendTo] eqn:Ec. unfold SendEmailNode_OnMsg. rewrite Htls. fold e.
  unfold SendEmailWithTls. rewrite Ec. destruct (run_session [] _) as [ran err] eqn:Er. split; [done|].
  apply run_session_spec in Er. split; [by destruct err; [|destruct Er]|]. intros r.
  assert (sendTo = Split (em_To e) ","%char ++ (if bool_decide (em_Cc e ≠ "") then Split (em_Cc e) ","%char else []) ++
    (if bool_decide (em_Bcc e ≠ "") then Split (em_Bcc e) ","%char else [])) as Hto.
  { unfold createEmailMsg in Ec. injection Ec as _ <-. repeat case_bool_decide; rewrite ?app_nil_r, <- ?app_assoc; done. }
  unfold tls_steps. destruct (se_smtpAuth x) as [[user pw] host].
  assert (SRcpt r ∈ [SDial (se_smtpAddr x); SClient; SAuth user pw host; SMail (em_From e)] ++ (SRcpt <$> sendTo) ++
      [SData; SWrite text; SEndData; SQuit] ↔ r ∈ sendTo) as ->.
  { rewrite !elem_of_app. split; [|intros Hr; right; left; by apply list_elem_of_fmap_2].
    intros [H|[(r' & [= ->] & Hr)%list_elem_of_fmap|H]]; [|done|];
      repeat (apply elem_of_cons in H as [H|H]; [discriminate H|]); by apply elem_of_nil in H. }
  rewrite Hto, !elem_of_app. repeat case_bool_decide; rewrite ?elem_of_nil; naive_solver.
Qed.

End Mail.

(** ** SSH ([ssh_node.go]) *)

Definition SshConfigEmptyErr : string := "ssh config can not empty".
Definition SshClientNotInitErr : string := "ssh client not initialized".
Definition SshCmdEmptyErr : string := "cmd can not empty".

(** [ssh.Dial], [NewSession] and [CombinedOutput], whose output comes with its error. *)
Class Ssh : Type := {
  SshClient : Type;
  ssh_Dial : string → string → string → result SshClient;
  ssh_NewSession : SshClient → error;
  ssh_CombinedOutput : SshClient → string → string * error
}.

Section SshNode.
Context `{S : Ssh}.
Record SshConfiguration : Type := mkSshConf { sh_Host : string; sh_Port : Z; sh_Username : string; sh_Password : string; sh_Cmd : string }.
Record SshNode : Type := mkSsh { sh_Config : SshConfiguration; sh_client : option SshClient }.
Definition SshNode_New : SshNode := mkSsh (mkSshConf "127.0.0.1" 22 "root" "password" "") None.

Definition SshNode_Init `{Decode SshConfiguration} (configuration : Configuration) (x : SshNode) : result SshNode :=
  match Map2Struct configuration (sh_Config x) with
  | (Some err, _) => Err err
  | (None, c) =>
      if bool_decide (sh_Host c ≠ "" ∧ sh_Port c ≠ 0%Z ∧ sh_Username c ≠ "" ∧ sh_Password c ≠ "") then
        let? client := ssh_Dial (sh_Host c +:+ ":" +:+ Itoa (sh_Port c)) (sh_Username c) (sh_Password c) in
        Ok (mkSsh c (Some client))
      else Err SshConfigEmptyErr
  end.

(** The output replaces the data even when the command fails. *)
Definition SshNode_OnMsg (x : SshNode) (msg : RuleMsg) : list call :=
  match sh_client x with
  | None => [TellFailure msg (Some SshClientNotInitErr)]
  | Some client =>
      if bool_decide (sh_Cmd (sh_Config x) = "") then [TellFailure msg (Some SshCmdEmptyErr)]
      else
        let cmd := SprintfDict (sh_Cmd (sh_Config x)) (Metadata_Values (m_Metadata msg)) in
        match ssh_NewSession client with
        | Some err => [TellFailure msg (Some err)]
        | None =>
            let '(output, err) := ssh_CombinedOutput client cmd in
            let msg := set_DataType TEXT (set_Data output msg) in
            [match err with Some _ => TellFailure msg err | None => TellSuccess msg end]
        end
  end.

(** Every message is answered once, and the remote command of an initialised node is the
    configured text with the metadata filled in; it is run at most once. *)
Theorem SshNode_OnMsg_spec `{Decode SshConfiguration} configuration x msg :
  SshNode_Init configuration SshNode_New = Ok x →
  ∃ client, sh_client x = Some client ∧ ∃ c, SshNode_OnMsg x msg = [c] ∧
  (sh_Cmd (sh_Config x) ≠ "" → ssh_NewSession client = None →
   let '(output, err) := ssh_CombinedOutput client (SprintfDict (sh_Cmd (sh_Config x)) (Metadata_Values (m_Metadata msg))) in
   ∃ msg', c = (match err with Some _ => TellFailure msg' err | None => TellSuccess msg' end) ∧
     m_Data msg' = output ∧ m_DataType msg' = TEXT ∧ m_Metadata msg' = m_Metadata msg).
Proof.
  unfold SshNode_Init. destruct (Map2Struct _ _) as [[|] c]; [done|]. case_bool_decide; [|done].
  destruct (ssh_Dial _ _ _) as [client|]; [|done]. intros [= <-]. exists client. split; [done|].
  unfold SshNode_OnMsg; simpl. case_bool_decide; [by eexists|]. destruct (ssh_NewSession client); [by eexists|].
  destruct (ssh_CombinedOutput _ _) as [output err]. eexists. split; [done|]. intros _ _. by eexists.
Qed.
End SshNode.

(** ** MQTT ([mqtt_client_node.go]) *)

Definition MqttClientNotInitErr : string := "mqtt client not initialized".

Record MqttClientNodeConfiguration : Type := mkMqttNodeConf {
  mn_Topic : string; mn_Server : string; mn_Username : string; mn_Password : string; mn_MaxReconnectInterval : Z;
  mn_QOS : Z; mn_CleanSession : bool; mn_ClientID : string; mn_CAFile : string; mn_CertFile : string; mn_CertKeyFile : string
}.
(** [ToMqttConfig]; the interval is given in seconds. *)
Definition ToMqttConfig (x : MqttClientNodeConfiguration) : MqttConfig :=
  let interval := if bool_decide (mn_MaxReconnectInterval x < 0)%Z then 60%Z else mn_MaxReconnectInterval x in
  mkMqttConfig (mn_Server x) (mn_Username x) (mn_Password x) (interval * 1000) (mn_QOS x) (mn_CleanSession x)
    (mn_ClientID x) (mn_CAFile x) (mn_CertFile x) (mn_CertKeyFile x).

Record MqttClientNode : Type := mkMqttNode { mn_Config : MqttClientNodeConfiguration; mn_mqttClient : option Client }.
Definition MqttClientNode_New : MqttClientNode :=
  mkMqttNode (mkMqttNodeConf "/device/msg" "127.0.0.1:1883" "" "" 60 0 false "" "" "" "") None.

(** [Init] gives the connection sixteen seconds; nine attempts are enough fuel
    ([NewClient_terminates]). *)
Definition MqttClientNode_Init `{Decode MqttClientNodeConfiguration} (attempts : nat → attempt) (configuration : Configuration)
    (x : MqttClientNode) : option (result MqttClientNode) :=
  match Map2Struct configuration (mn_Config x) with
  | (Some err, _) => Some (Err err)
  | (None, c) =>
      match NewClient 9 16000 attempts with
      | Some (Ok client) => Some (Ok (mkMqttNode c (Some client)))
      | Some (Err err) => Some (Err err)
      | None => None
      end
  end.
(** [answer] is what the broker answers to a topic, quality of service and data. *)
Definition MqttClientNode_OnMsg (answer : string → Z → string → error) (x : MqttClientNode) (msg : RuleMsg) : list call :=
  let topic := SprintfDict (mn_Topic (mn_Config x)) (Metadata_Values (m_Metadata msg)) in
  match mn_mqttClient x with
  | None => [TellFailure msg (Some MqttClientNotInitErr)]
  | Some _ =>
      match Publish (answer topic (mn_QOS (mn_Config x)) (m_Data msg)) topic (mn_QOS (mn_Config x)) (m_Data msg) with
      | Some err => [TellFailure msg (Some err)]
      | None => [TellSuccess msg]
      end
  end.

Module ExternalExample.
Import NodeSamples.

Definition mail : Email := mkEmail "me@x" "a@x,b@x" "" "c@x" "hello ${k}" "body".
Definition mail_node : SendEmailNode :=
  mkSendEmail (mkMailConf "smtp" 25 "me" "pw" true mail 10) 10 "smtp:25" ("me", "pw", "smtp").
(** The server refuses the recipient "b@x". *)
Definition refuses_b (ran : list smtp_step) (s : smtp_step) : error := if bool_decide (s = SRcpt "b@x") then Some "550" else None.
Definition send_ok (addr : string) (auth : string * string * string) (from : string) (to : list string) (text : string) : error := None.

Lemma SendEmail_tls_witness :
  SendEmailNode_OnMsg refuses_b send_ok mail_node (sample_msg "1" "d") = [TellFailure (sample_msg "1" "d") (Some "550")].
Proof.
  pose proof (SendEmail_tls_spec refuses_b send_ok mail_node (sample_msg "1" "d") eq_refl) as H. cbv zeta in H.
  destruct (createEmailMsg (mc_Email (se_Config mail_node)) _) as [text sendTo].
  destruct (SendEmailWithTls refuses_b _ _ _ _) as [ran err] eqn:E. destruct H as (H & _ & _). rewrite H.
  assert ((ran, err).2 = Some "550") as Herr by (rewrite <- E; vm_compute; reflexivity). simpl in Herr. subst err. reflexivity.
Defined.

(** The addresses of Bcc are in the headers every recipient gets. *)
Theorem email_bcc_disclosed e metadata :
  ∃ pre post, (createEmailMsg e metadata).1 = pre +:+ "Bcc: " +:+ em_Bcc e +:+ post.
Proof.
  exists ("To: " +:+ em_To e +:+ crlf +:+ "From: " +:+ em_From e +:+ crlf +:+ "Subject: " +:+ SprintfDict (em_Subject e) metadata +:+
    crlf +:+ "Cc: " +:+ em_Cc e +:+ crlf).
  exists (crlf +:+ "Content-Type: text/html; charset=UTF-8" +:+ crlf +:+ crlf +:+ SprintfDict (em_Body e) metadata).
  unfold createEmailMsg, email_headers. cbn [fst]. rewrite !string_app_assoc. reflexivity.
Qed.

(** A line break in the metadata becomes a header of its own. *)
Theorem email_header_injection :
  ∃ pre post, (createEmailMsg mail [("k", "x" +:+ crlf +:+ "X-Evil: 1")]).1 = pre +:+ crlf +:+ "X-Evil: 1" +:+ crlf +:+ post.
Proof.
  exists ("To: a@x,b@x" +:+ crlf +:+ "From: me@x" +:+ crlf +:+ "Subject: hello x").
  exists ("Cc: " +:+ crlf +:+ "Bcc: c@x" +:+ crlf +:+ "Content-Type: text/html; charset=UTF-8" +:+ crlf +:+ crlf +:+ "body").
  vm_compute. reflexivity.
Qed.

End ExternalExample.
