(* ===== verification/Forms.v ===== *)
(** * Component forms ([src/api/types/component.go], [src/utils/reflect/reflect.go])

    The description of components for visual editors.  Reflection is modelled on a
    description of Go types: a struct type is the list of its fields, with their tags
    and, where [CanInterface] says so, their values. *)

From Stdlib Require Import Ascii.
From S2P Require Import Prelude Sorting GoStrings Value Str Msg Config JsEngine Registry.

(** ** Data *)

Inductive ComponentFormField : Type := mkFormField {
  ff_Name : string;
  ff_Type : string;
  ff_DefaultValue : value;
  ff_Label : string;
  ff_Desc : string;
  ff_Validate : string;
  ff_Fields : list ComponentFormField
}.
Record ComponentForm : Type := mkForm {
  fo_Type : string;
  fo_Category : string;
  fo_Fields : list ComponentFormField;
  fo_Label : string;
  fo_Desc : string;
  fo_Icon : string;
  fo_RelationTypes : option (list string)
}.
Definition emptyForm : ComponentForm := mkForm "" "" [] "" "" "" None.

(** [ComponentFormFieldList.GetField] *)
Fixpoint GetField (name : string) (c : list ComponentFormField) : option ComponentFormField :=
  match c with
  | [] => None
  | field :: c' => if bool_decide (ff_Name field = name) then Some field else GetField name c'
  end.

Section FormList.
Context `{MR : MapRange}.
Abbreviation ComponentFormList := (gmap string ComponentForm).

(** [ComponentFormList.GetComponent]: the first entry of the walk with the type. *)
Definition GetComponent (name : string) (c : ComponentFormList) : option ComponentForm :=
  snd <$> List.find (λ kv, bool_decide (fo_Type kv.2 = name)) (range c).

Definition form_less (a b : ComponentForm) : bool :=
  if bool_decide (fo_Category a ≠ fo_Category b) then str_less (fo_Category a) (fo_Category b)
  else str_less (fo_Type a) (fo_Type b).
(** [ComponentFormList.Values] *)
Definition Values (c : ComponentFormList) : list ComponentForm := sort_Slice form_less (range c).*2.

(** ** Reflection *)

Inductive gotype : Type :=
| TStruct (name : string) (fields : list (string * list (string * string) * option value * gotype))
| TMap
| TSlice
| TArray
| TOther (name : string).
Definition type_name (t : gotype) : string :=
  match t with TStruct _ _ => "struct" | TMap => "map" | TSlice | TArray => "array" | TOther n => n end.

(** [GetFields] on a struct type; [None]: the type is not a struct, and [NumField] panics. *)
Fixpoint GetFields (t : gotype) : option (list ComponentFormField) :=
  match t with
  | TStruct _ fields =>
      Some ((λ '(name, tag, v, ft),
        mkFormField (ToLowerFirst name) (type_name ft) (default VNil v)
          (default "" (assoc "label" tag)) (default "" (assoc "desc" tag)) (default "" (assoc "validate" tag))
          (match ft with TStruct _ _ => default [] (GetFields ft) | _ => [] end)) <$> fields)
  | _ => None
  end.

(** A component: its Go type, what [Type()] returns, and what [Def()] returns if there is one. *)
Record GoComponent : Type := mkGoComponent {
  gc_Name : string;
  gc_PkgPath : string;
  gc_fields : list (string * gotype);
  gc_Type : string;
  gc_Def : option ComponentForm
}.

(** [GetComponentConfig]: the field "config", or else "Config". *)
Definition GetComponentConfig (c : GoComponent) : option gotype :=
  match assoc "config" (gc_fields c) with
  | Some t => Some t
  | None => assoc "Config" (gc_fields c)
  end.

Definition coverComponentForm (def to : ComponentForm) : ComponentForm :=
  mkForm (if bool_decide (fo_Type def ≠ "") then fo_Type def else fo_Type to)
    (if bool_decide (fo_Category def ≠ "") then fo_Category def else fo_Category to)
    (match fo_Fields def with [] => fo_Fields to | l => l end)
    (if bool_decide (fo_Label def ≠ "") then fo_Label def else fo_Label to)
    (if bool_decide (fo_Desc def ≠ "") then fo_Desc def else fo_Desc to)
    (fo_Icon to)
    (match fo_RelationTypes def with Some r => Some r | None => fo_RelationTypes to end).

Definition form_relations (type label : string) : list string :=
  if bool_decide (type = "iterator") then [True_; False_; Success; Failure]
  else if Contains "filter" (ToLower label) then [True_; False_; Failure]
  else if Contains "switch" (ToLower label) then []
  else [Success; Failure].

Definition GetComponentForm (c : GoComponent) : outcome ComponentForm :=
  let category := Replace (Replace (gc_PkgPath c) "github.com/rulego/rulego/components/" "" None)
                    "github.com/rulego/rulego-components/" "" None in
  let form fields := mkForm (gc_Type c) category fields (gc_Name c) "" "" (Some (form_relations (gc_Type c) (gc_Name c))) in
  let cover f := match gc_Def c with Some def => coverComponentForm def f | None => f end in
  match GetComponentConfig c with
  | None => Returns (cover (form []))
  | Some t => match GetFields t with
              | Some fields => Returns (cover (form fields))
              | None => Panics "reflect: NumField of non-struct type"
              end
  end.

(** [GetComponentForms] of a registry; [describe] is the Go type of a component. *)
Fixpoint collect_forms {Node} `{NodeClass Node} (describe : Node → GoComponent) (l : list (string * Node))
    (components : ComponentFormList) : outcome ComponentFormList :=
  match l with
  | [] => Returns components
  | (_, component) :: rest =>
      match GetComponentForm (describe (node_New component)) with
      | Panics why => Panics why
      | Returns form => collect_forms describe rest (<[node_Type component := form]> components)
      end
  end.
Definition GetComponentForms {Node} `{NodeClass Node} (describe : Node → GoComponent) (r : RuleComponentRegistry)
    : outcome ComponentFormList := collect_forms describe (range (r_components r)) ∅.

(** ** Sorting *)

Definition form_le (a b : ComponentForm) : Prop :=
  if bool_decide (fo_Category a ≠ fo_Category b) then String.le (fo_Category a) (fo_Category b)
  else String.le (fo_Type a) (fo_Type b).

#[global] Instance form_le_trans : Transitive form_le.
Proof.
  intros a b c. unfold form_le. repeat case_bool_decide; intros H1' H2'.
  all: try (destruct (decide (fo_Category a = fo_Category b)) as [Eab|Eab]; [|try tauto]).
  all: try (destruct (decide (fo_Category b = fo_Category c)) as [Ebc|Ebc]; [|try tauto]).
  all: try congruence; try (rewrite ?Eab, ?Ebc in *; done); try (by etransitivity).
  exfalso. apply Eab. apply (anti_symm String.le); [done|]. destruct (decide (fo_Category a = fo_Category c)) as [->|]; tauto.
Qed.

#[global] Instance form_less_le : LessFor form_less form_le.
Proof.
  destruct str_less_le as [_ H1 H2]. split; [apply _|..]; intros a b; unfold form_less, form_le.
  - case_bool_decide; apply H1.
  - destruct (decide (fo_Category a = fo_Category b)) as [E|E].
    + rewrite (bool_decide_false (fo_Category a ≠ fo_Category b)), (bool_decide_false (fo_Category b ≠ fo_Category a)) by (rewrite E; tauto).
      apply H2.
    + rewrite (bool_decide_true (fo_Category a ≠ fo_Category b)), (bool_decide_true (fo_Category b ≠ fo_Category a)) by congruence.
      apply H2.
Qed.

Lemma form_le_antisymm a b : form_le a b → form_le b a → fo_Category a = fo_Category b ∧ fo_Type a = fo_Type b.
Proof.
  unfold form_le. destruct (decide (fo_Category a = fo_Category b)) as [E|E].
  - rewrite (bool_decide_false (fo_Category a ≠ fo_Category b)), (bool_decide_false (fo_Category b ≠ fo_Category a)) by (rewrite E; tauto).
    intros. split; [done|]. by apply (anti_symm String.le).
  - rewrite (bool_decide_true (fo_Category a ≠ fo_Category b)), (bool_decide_true (fo_Category b ≠ fo_Category a)) by congruence.
    intros. destruct E. by apply (anti_symm String.le).
Qed.

Lemma form_sort_unique l1 l2 :
  l1 ≡ₚ l2 → NoDup ((λ f, (fo_Category f, fo_Type f)) <$> l1) → sort_Slice form_less l1 = sort_Slice form_less l2.
Proof.
  apply (sort_Slice_unique _ form_le). intros a b Hab Hba. by destruct (form_le_antisymm a b Hab Hba) as [-> ->].
Qed.

End FormList.

(** The list of component forms is the same however Go happens to walk the map, when no
    two forms share category and type: sorted by category, then by type, with every
    form of the map exactly once. *)
Theorem Values_deterministic (MR1 MR2 : MapRange) (c : gmap string ComponentForm) :
  NoDup ((λ f, (fo_Category f, fo_Type f)) <$> (map_to_list c).*2) →
  Values (MR := MR1) c = Values (MR := MR2) c ∧
  StronglySorted form_le (Values (MR := MR1) c) ∧ Values (MR := MR1) c ≡ₚ (map_to_list c).*2.
Proof.
  intros Hnd. unfold Values.
  assert (∀ MR : MapRange, (range c).*2 ≡ₚ (map_to_list c).*2) as Hr by (intros MR; by rewrite range_perm).
  split_and!.
  - apply form_sort_unique; [by rewrite !Hr|]. by rewrite Hr.
  - apply sort_Slice_StronglySorted, _.
  - by rewrite sort_Slice_perm, Hr.
Qed.

Module FormsExample.

Definition conf : gotype := TStruct "JsFilterNodeConfiguration" [("JsScript", [("label", "script")], Some (VString "return true;"), TOther "string")].
Definition jsFilter : GoComponent :=
  mkGoComponent "JsFilterNode" "github.com/rulego/rulego/components/filter" [("Config", conf)] "jsFilter" None.
Definition form : ComponentForm :=
  mkForm "jsFilter" "filter" [mkFormField "jsScript" "string" (VString "return true;") "script" "" "" []] "JsFilterNode" "" ""
    (Some ["True"; "False"; "Failure"]).

Example jsFilter_form : GetComponentForm jsFilter = Returns form.
Proof. vm_compute. reflexivity. Qed.

Definition forms : gmap string ComponentForm :=
  {["jsFilter" := form; "log" := mkForm "log" "action" [] "LogNode" "" "" None; "delay" := mkForm "delay" "action" [] "DelayNode" "" "" None]}.
Program Definition forwards : MapRange := {| range A m := map_to_list m |}.
Next Obligation. done. Qed.
Program Definition backwards : MapRange := {| range A m := reverse (map_to_list m) |}.
Next Obligation. intros. apply reverse_Permutation. Qed.

Lemma Values_deterministic_witness :
  Values (MR := backwards) forms = Values (MR := forwards) forms ∧ fo_Type <$> Values (MR := forwards) forms = ["delay"; "log"; "jsFilter"].
Proof.
  split; [apply (Values_deterministic backwards forwards forms)|vm_compute; reflexivity]. by_decide.
Defined.

End FormsExample.
