(* ===== verification/FileWalk.v ===== *)
(** * Finding files ([src/utils/fs/fs.go])

    [GetFilePaths] on a directory tree, with [filepath.WalkDir] as it walks: in the
    order of the names, a directory before what it holds.  [filepath.Match] and
    [filepath.Join] are parameters.  The walk gives [RuleGo.Load] its files.
    [SaveFile] writes one, [CreateDirs] makes a directory, with the calls of package os as
    parameters. *)

From Stdlib Require Import Ascii.
From S2P Require Import Prelude GoStrings Value Str Msg Config Dsl World Engine.

(** [os.OpenFile] for writing, which creates or truncates, and [Write] on the open file:
    the number of bytes written, which is all of them when there is no error. *)
Class Os : Type := {
  os_OpenFile : string → error;
  os_Write : string → string → nat * error;
  os_Write_all : ∀ path data n, os_Write path data = (n, None) → n = String.length data
}.

Abbreviation Files := (gmap string string).

Definition SaveFile `{Os} (path data : string) (files : Files) : error * Files :=
  match os_OpenFile path with
  | Some err => (Some err, files)
  | None => let '(n, err) := os_Write path data in (err, <[path := String.substring 0 n data]> files)
  end.

Lemma substring_all s : String.substring 0 (String.length s) s = s.
Proof. induction s as [|c s IH]; simpl; [done|]. by rewrite IH. Qed.

(** Saved without an error, the file holds the data; with one, no other file changed. *)
Lemma SaveFile_spec `{Os} path data files :
  let '(err, files') := SaveFile path data files in
  (err = None → files' = <[path := data]> files) ∧ ∀ other, other ≠ path → files' !! other = files !! other.
Proof.
  unfold SaveFile. destruct (os_OpenFile path) as [err|]; [done|].
  destruct (os_Write path data) as [n err] eqn:E. split.
  - intros ->. apply os_Write_all in E as ->. by rewrite substring_all.
  - intros other Hne. by rewrite lookup_insert_ne.
Qed.

(** ** Directories

    [os.Stat] and [os.MkdirAll] on the state [D] of the directories, and the two
    tests of package os on an error of [Stat].  [MkdirAll] makes the path a directory when it
    reports no error. *)
Class OsDirs (D : Type) : Type := {
  os_Stat : string → D → error;
  os_IsExist : string → bool;
  os_IsNotExist : string → bool;
  os_MkdirAll : string → D → error * D;
  os_MkdirAll_made : ∀ path d d', os_MkdirAll path d = (None, d') → os_Stat path d' = None
}.

Definition IsExist {D} `{OsDirs D} (path : string) (d : D) : bool :=
  match os_Stat path d with
  | Some err => if os_IsExist err then true else if os_IsNotExist err then false else false
  | None => true
  end.
Definition CreateDirs {D} `{OsDirs D} (path : string) (d : D) : error * D :=
  if negb (IsExist path d) then os_MkdirAll path d else (None, d).

(** Without an error the path exists afterwards, and creating it again changes nothing. *)
Lemma CreateDirs_exists {D} `{OsDirs D} path d d' :
  CreateDirs path d = (None, d') → IsExist path d' = true ∧ CreateDirs path d' = (None, d').
Proof.
  unfold CreateDirs. intros E.
  assert (HE : IsExist path d' = true).
  { destruct (IsExist path d) eqn:Hd; simpl in E; [by injection E as <-|].
    unfold IsExist. by rewrite (os_MkdirAll_made _ _ _ E). }
  by rewrite HE.
Qed.

(** A file, or a directory with what [ReadDir] gives of it: its entries or an error. *)
Inductive entry : Type :=
| EFile (name : string)
| EDir (name : string) (err : error) (children : list entry).
Definition entry_name (e : entry) : string := match e with EFile n | EDir n _ _ => n end.

Section entry_ind.
Variable P : entry → Prop.
Hypothesis Hfile : ∀ n, P (EFile n).
Hypothesis Hdir : ∀ n err es, Forall P es → P (EDir n err es).
Fixpoint entry_ind' (e : entry) : P e :=
  match e with
  | EFile n => Hfile n
  | EDir n err es => Hdir n err es ((fix go l : Forall P l :=
      match l with [] => Forall_nil_2 P | e :: l => Forall_cons_2 P e l (entry_ind' e) (go l) end) es)
  end.
End entry_ind.

Section FileWalk.
(** [filepath.Match] with its error ignored, [filepath.Join]. *)
Variable Match_ : string → string → bool.
Variable Join : string → string → string.

(** [isMatch] *)
Definition isMatch (name : string) (patterns : list string) : bool := existsb (λ item, Match_ item name) patterns.

(** [filepath.WalkDir] with the function of [GetFilePaths]: the paths collected, and the
    error the walk ends with. *)
Fixpoint walk (file : string) (excluded : list string) (path : string) (e : entry) : list string * error :=
  match e with
  | EFile name => (if Match_ file name && negb (isMatch name excluded) then [path] else [], None)
  | EDir name err children =>
      if isMatch name excluded then ([], None)   (* SkipDir *)
      else match err with
           | Some err => ([], Some err)
           | None =>
               (fix go (l : list entry) : list string * error :=
                  match l with
                  | [] => ([], None)
                  | e :: l =>
                      match walk file excluded (Join path (entry_name e)) e with
                      | (ps, Some err) => (ps, Some err)
                      | (ps, None) => let '(ps', err) := go l in (ps ++ ps', err)
                      end
                  end) children
           end
  end.

(** [filepath.Split]: the directory with its separator, and the file. *)
Fixpoint split_path (s : string) : string * string :=
  match s with
  | EmptyString => ("", "")
  | String c s' =>
      let '(dir, file) := split_path s' in
      if bool_decide (dir = "") then (if bool_decide (c = "/"%char) then (String c "", file) else ("", String c file))
      else (String c dir, file)
  end.

(** [GetFilePaths] with what is found at a directory path, which may be an error. *)
Definition GetFilePaths (lstat : string → result entry) (loadFilePattern : string) (excludedPatterns : list string)
    : list string * error :=
  let '(dir, file) := split_path loadFilePattern in
  match lstat dir with
  | Err err => ([], Some err)
  | Ok root => walk file excludedPatterns dir root
  end.

(** The file system [RuleGo.Load] sees. *)
Definition walk_FileSystem (lstat : string → result entry) (ReadFile : string → result string) : FileSystem := {|
  fs_GetFilePaths pattern := match GetFilePaths lstat pattern [] with (_, Some err) => Err err | (paths, None) => Ok paths end;
  fs_LoadFile path := match ReadFile path with Ok b => Some b | Err _ => None end
|}.

(** ** Properties *)

(** A path that the walk should report: a matching file that is not excluded, in
    directories that are not. *)
Inductive found (file : string) (excluded : list string) : string → entry → string → Prop :=
| found_file path name :
    Match_ file name = true → isMatch name excluded = false → found file excluded path (EFile name) path
| found_dir path name err children e p :
    isMatch name excluded = false → e ∈ children → found file excluded (Join path (entry_name e)) e p →
    found file excluded path (EDir name err children) p.

(** Every directory that is entered can be read. *)
Fixpoint readable (excluded : list string) (e : entry) : bool :=
  match e with
  | EFile _ => true
  | EDir name err children => isMatch name excluded || (bool_decide (err = None) && forallb (readable excluded) children)
  end.

Lemma walk_dir file excluded path name children :
  isMatch name excluded = false →
  Forall (λ e, ∀ path, readable excluded e = true → (walk file excluded path e).2 = None) children →
  forallb (readable excluded) children = true →
  walk file excluded path (EDir name None children) =
    (children ≫= λ e, (walk file excluded (Join path (entry_name e)) e).1, None).
Proof.
  intros Hn Hch Hr. simpl. rewrite Hn. induction Hch as [|e l He _ IH]; simpl in *; [done|].
  apply andb_true_iff in Hr as [Hre Hr]. specialize (He (Join path (entry_name e)) Hre).
  destruct (walk file excluded (Join path (entry_name e)) e) as [ps err]; simpl in *. subst err. by rewrite IH.
Qed.

Lemma walk_no_error file excluded e path : readable excluded e = true → (walk file excluded path e).2 = None.
Proof.
  revert path. induction e as [name|name err children IH] using entry_ind'; intros path Hr; [done|].
  simpl in Hr. destruct (isMatch name excluded) eqn:En; [simpl; by rewrite En|].
  simpl in Hr. apply andb_true_iff in Hr as [Herr Hr]. apply bool_decide_eq_true in Herr as ->.
  by rewrite walk_dir.
Qed.

Lemma walk_found file excluded e path p :
  readable excluded e = true → p ∈ (walk file excluded path e).1 ↔ found file excluded path e p.
Proof.
  revert path. induction e as [name|name err children IH] using entry_ind'; intros path Hr.
  - simpl. destruct (Match_ file name) eqn:Em, (isMatch name excluded) eqn:Ei; simpl;
      rewrite ?list_elem_of_singleton, ?elem_of_nil; split; try done; try (by inversion 1; congruence).
    intros ->. by constructor.
  - simpl in Hr. destruct (isMatch name excluded) eqn:En.
    { simpl. rewrite En. simpl. rewrite elem_of_nil. split; [done|]. inversion 1; congruence. }
    simpl in Hr. apply andb_true_iff in Hr as [Herr Hr]. apply bool_decide_eq_true in Herr as ->.
    rewrite walk_dir; [|done| |done].
    2:{ apply Forall_forall. intros e _ path'. apply walk_no_error. }
    simpl. rewrite list_elem_of_bind. rewrite forallb_forall in Hr. rewrite Forall_forall in IH. split.
    + intros (e & Hp & He). econstructor; [done|exact He|]. apply IH; [done|by apply Hr, list_elem_of_In|done].
    + inversion 1; subst. eexists. split; [|done]. apply IH; [done|by apply Hr, list_elem_of_In|done].
Qed.

(** The files of a pattern: when every directory that is entered can be read, the paths
    returned are exactly those of the files below the directory of the pattern, at any
    depth, whose name matches it and no excluded pattern, and that are not below a
    directory with an excluded name. *)
Theorem GetFilePaths_spec lstat pattern excluded dir file root :
  split_path pattern = (dir, file) → lstat dir = Ok root → readable excluded root = true →
  let '(paths, err) := GetFilePaths lstat pattern excluded in
  err = None ∧ ∀ p, p ∈ paths ↔ found file excluded dir root p.
Proof.
  intros Hs Hl Hr. unfold GetFilePaths. rewrite Hs, Hl.
  pose proof (walk_no_error file excluded root dir Hr) as He.
  pose proof (walk_found file excluded root dir) as Hf.
  destruct (walk file excluded dir root) as [paths err]. split; [done|]. intros p. by apply Hf.
Qed.

(** A directory that cannot be read makes the whole search an error. *)
Theorem GetFilePaths_unreadable lstat pattern excluded dir file name err children :
  split_path pattern = (dir, file) → lstat dir = Ok (EDir name (Some err) children) → isMatch name excluded = false →
  GetFilePaths lstat pattern excluded = ([], Some err).
Proof. intros Hs Hl Hn. unfold GetFilePaths. rewrite Hs, Hl. simpl. by rewrite Hn. Qed.

End FileWalk.

Module FileWalkExample.

(** Patterns are a star and a suffix, or a plain name. *)
Definition glob (pat name : string) : bool :=
  match pat with String "*" suf => HasSuffix suf name | _ => bool_decide (pat = name) end.
Definition join (a b : string) : string := if HasSuffix "/" a then a +:+ b else a +:+ "/" +:+ b.
Definition tree : entry :=
  EDir "rules" None [EFile "a.json"; EFile "note.txt"; EDir "old" None [EFile "b.json"]; EDir "sub" None [EFile "c.json"]].
Definition at_rules (dir : string) : result entry := if bool_decide (dir = "rules/") then Ok tree else Err "no such file".

Lemma GetFilePaths_witness :
  let x := GetFilePaths glob join at_rules "rules/*.json" ["old"] in
  x.2 = None ∧ "rules/sub/c.json" ∈ x.1 ∧ "rules/old/b.json" ∉ x.1.
Proof.
  pose proof (GetFilePaths_spec glob join at_rules "rules/*.json" ["old"] "rules/" "*.json" tree) as H.
  specialize (H ltac:(vm_compute; reflexivity) ltac:(vm_compute; reflexivity) ltac:(vm_compute; reflexivity)).
  destruct (GetFilePaths glob join at_rules "rules/*.json" ["old"]) as [paths err] eqn:E. destruct H as [He Hf].
  cbv zeta. simpl. split; [exact He|].
  assert (paths = ["rules/a.json"; "rules/sub/c.json"]) as ->.
  { assert ((paths, err).1 = ["rules/a.json"; "rules/sub/c.json"]) as E1 by (rewrite <- E; vm_compute; reflexivity). exact E1. }
  split; by_decide.
Defined.

End FileWalkExample.
