(* ===== verification/DebugData.v ===== *)
(** * The debug store of the server ([src/examples/server/event/node_debug_data.go])

    The server keeps the latest debug events of every node of every chain: a map of
    chains to maps of nodes to queues of a fixed size.  A store, its maps and its queues
    are reached through the store only.  Each method holds the locks it needs for its
    whole body, except [GetToPage], which sorts the queue it was given after its lock
    is released. *)

From S2P Require Import Prelude Msg.

Record DebugData : Type := mkDebugData {
  dd_Ts : Z;
  dd_NodeId : string;
  dd_FlowType : string;
  dd_Msg : RuleMsg;
  dd_RelationType : string;
  dd_Err : string
}.
Record DebugDataPage : Type := mkPage {
  pg_Size : Z;
  pg_Current : Z;
  pg_Total : Z;
  pg_Items : list DebugData
}.

(** ** Queues *)

Record FixedQueue : Type := mkQueue { q_Items : list DebugData; q_MaxSize : Z }.

(** Sizes are taken to be small enough for the memory: [make] also panics for others. *)
Definition NewFixedQueue (maxSize : Z) : outcome FixedQueue :=
  if bool_decide (maxSize < 0)%Z then Panics "makeslice: cap out of range" else Returns (mkQueue [] maxSize).

Definition Push (item : DebugData) (q : FixedQueue) : outcome FixedQueue :=
  if bool_decide (Z.of_nat (length (q_Items q)) = q_MaxSize q) then
    match q_Items q with
    | [] => Panics "slice bounds out of range"
    | _ :: items => Returns (mkQueue (items ++ [item]) (q_MaxSize q))
    end
  else Returns (mkQueue (q_Items q ++ [item]) (q_MaxSize q)).
Definition Pop (q : FixedQueue) : option DebugData * FixedQueue :=
  match q_Items q with
  | [] => (None, q)
  | item :: items => (Some item, mkQueue items (q_MaxSize q))
  end.
Definition Len (q : FixedQueue) : Z := Z.of_nat (length (q_Items q)).
Definition Peek (q : FixedQueue) : option DebugData := head (q_Items q).
Definition FixedQueue_Clear (q : FixedQueue) : FixedQueue := mkQueue [] (q_MaxSize q).

(** ** The nodes of a chain *)

Record NodeDebugData : Type := mkNodeDebug { nd_Data : gmap string FixedQueue; nd_MaxSize : Z }.

Definition NewNodeDebugData (maxSize : Z) : NodeDebugData :=
  mkNodeDebug ∅ (if bool_decide (maxSize <= 0)%Z then 60 else maxSize).
Definition NodeDebugData_Add (nodeId : string) (data : DebugData) (d : NodeDebugData) : outcome NodeDebugData :=
  match (match nd_Data d !! nodeId with Some l => Returns l | None => NewFixedQueue (nd_MaxSize d) end) with
  | Panics why => Panics why
  | Returns list =>
      match Push data list with
      | Panics why => Panics why
      | Returns list => Returns (mkNodeDebug (<[nodeId := list]> (nd_Data d)) (nd_MaxSize d))
      end
  end.
Definition NodeDebugData_Get (nodeId : string) (d : NodeDebugData) : option FixedQueue := nd_Data d !! nodeId.
Definition NodeDebugData_Clear (nodeId : string) (d : NodeDebugData) : NodeDebugData :=
  mkNodeDebug (delete nodeId (nd_Data d)) (nd_MaxSize d).

(** ** The chains *)

Record RuleChainDebugData : Type := mkChainDebug { rd_Data : gmap string NodeDebugData; rd_MaxSize : Z }.
Definition set_rd_Data (data : gmap string NodeDebugData) (d : RuleChainDebugData) : RuleChainDebugData :=
  mkChainDebug data (rd_MaxSize d).

Definition NewRuleChainDebugData (maxSize : Z) : RuleChainDebugData :=
  mkChainDebug ∅ (if bool_decide (maxSize <= 0)%Z then 60 else maxSize).
Definition RuleChainDebugData_Add (chainId nodeId : string) (data : DebugData) (d : RuleChainDebugData)
    : outcome RuleChainDebugData :=
  let ruleChainData := default (NewNodeDebugData (rd_MaxSize d)) (rd_Data d !! chainId) in
  match NodeDebugData_Add nodeId data ruleChainData with
  | Panics why => Panics why
  | Returns ruleChainData => Returns (set_rd_Data (<[chainId := ruleChainData]> (rd_Data d)) d)
  end.
Definition RuleChainDebugData_Get (chainId nodeId : string) (d : RuleChainDebugData) : option FixedQueue :=
  rd_Data d !! chainId ≫= NodeDebugData_Get nodeId.
Definition RuleChainDebugData_Clear (chainId : string) (d : RuleChainDebugData) : RuleChainDebugData :=
  set_rd_Data (delete chainId (rd_Data d)) d.

(** [sort.Slice] by descending time, which may order events of one time as it likes. *)
Class TsSort : Type := {
  sort_Ts : list DebugData → list DebugData;
  sort_Ts_perm l : sort_Ts l ≡ₚ l;
  sort_Ts_sorted l : StronglySorted (λ a b, dd_Ts b <= dd_Ts a)%Z (sort_Ts l)
}.

Section Store.
Context `{TS : TsSort}.

(** [GetToPage] sorts the items of the queue where they are. *)
Definition GetToPage (chainId nodeId : string) (d : RuleChainDebugData) : DebugDataPage * RuleChainDebugData :=
  match RuleChainDebugData_Get chainId nodeId d with
  | None => (mkPage 0 0 0 [], d)
  | Some list =>
      let items := sort_Ts (q_Items list) in
      (mkPage 0 0 (Len list) items,
       set_rd_Data (alter (λ nd, mkNodeDebug (<[nodeId := mkQueue items (q_MaxSize list)]> (nd_Data nd)) (nd_MaxSize nd))
         chainId (rd_Data d)) d)
  end.

(** ** Histories *)

Inductive debug_op : Type :=
| OAdd (chainId nodeId : string) (data : DebugData)
| OGetToPage (chainId nodeId : string)
| OClear (chainId : string)
| OClearNode (chainId nodeId : string).

Definition debug_step (op : debug_op) (d : RuleChainDebugData) : outcome RuleChainDebugData :=
  match op with
  | OAdd c n data => RuleChainDebugData_Add c n data d
  | OGetToPage c n => Returns (GetToPage c n d).2
  | OClear c => Returns (RuleChainDebugData_Clear c d)
  | OClearNode c n => Returns (set_rd_Data (alter (NodeDebugData_Clear n) c (rd_Data d)) d)
  end.
Fixpoint debug_run (ops : list debug_op) (d : RuleChainDebugData) : outcome RuleChainDebugData :=
  match ops with
  | [] => Returns d
  | op :: ops => match debug_step op d with Panics why => Panics why | Returns d => debug_run ops d end
  end.

(** What was recorded for a node since it was last cleared. *)
Definition record_step (c n : string) (h : list DebugData) (op : debug_op) : list DebugData :=
  match op with
  | OAdd c' n' data => if bool_decide (c' = c ∧ n' = n) then h ++ [data] else h
  | OGetToPage _ _ => h
  | OClear c' => if bool_decide (c' = c) then [] else h
  | OClearNode c' n' => if bool_decide (c' = c ∧ n' = n) then [] else h
  end.
Definition recorded (c n : string) (ops : list debug_op) : list DebugData := foldl (record_step c n) [] ops.

Definition is_page (op : debug_op) : bool := match op with OGetToPage _ _ => true | _ => false end.
Definition items_of (c n : string) (d : RuleChainDebugData) : list DebugData :=
  default [] (q_Items <$> RuleChainDebugData_Get c n d).
Definition latest (k : nat) (l : list DebugData) : list DebugData := drop (length l - k) l.

(** ** Properties

    A relation [R] between what a queue holds and what was recorded is kept by every
    history when pushing keeps it, and sorting where pages are read. *)
Section Relation.
Variable s : nat.
Hypothesis Hs : 0 < s.
Variable R : list DebugData → list DebugData → Prop.
Variable pages : bool.
Definition pushed (x : DebugData) (items : list DebugData) : list DebugData :=
  (if decide (length items = s) then tail items else items) ++ [x].
Hypothesis R_nil : R [] [].
Hypothesis R_push : ∀ items h x, R items h → R (pushed x items) (h ++ [x]).
Hypothesis R_sort : ∀ items h, pages = true → R items h → R (sort_Ts items) h.

Record store_ok (h : string → string → list DebugData) (d : RuleChainDebugData) : Prop := {
  ok_max : rd_MaxSize d = Z.of_nat s;
  ok_nodes : ∀ c nd, rd_Data d !! c = Some nd → nd_MaxSize nd = Z.of_nat s;
  ok_queues : ∀ c n q, RuleChainDebugData_Get c n d = Some q → q_MaxSize q = Z.of_nat s;
  ok_items : ∀ c n, R (items_of c n d) (h c n)
}.

Lemma Push_ok x q : q_MaxSize q = Z.of_nat s → Push x q = Returns (mkQueue (pushed x (q_Items q)) (Z.of_nat s)).
Proof.
  intros Hm. unfold Push, pushed. rewrite Hm. case_bool_decide as Hl; destruct (decide _) as [Hd|Hd]; try lia; [|done].
  destruct (q_Items q); simpl in *; [lia|done].
Qed.

Lemma NodeDebugData_Add_ok n x nd :
  nd_MaxSize nd = Z.of_nat s → (∀ q, nd_Data nd !! n = Some q → q_MaxSize q = Z.of_nat s) →
  NodeDebugData_Add n x nd = Returns (mkNodeDebug
    (<[n := mkQueue (pushed x (default [] (q_Items <$> nd_Data nd !! n))) (Z.of_nat s)]> (nd_Data nd)) (Z.of_nat s)).
Proof.
  intros Hm Hq. unfold NodeDebugData_Add. destruct (nd_Data nd !! n) as [q|] eqn:Eq; simpl.
  - rewrite Push_ok by auto. by rewrite Hm.
  - unfold NewFixedQueue. rewrite bool_decide_false by lia. rewrite Push_ok by done. by rewrite Hm.
Qed.

(** What is looked up after the data of one chain was replaced. *)
Lemma Get_set_chain c c' n nd d :
  RuleChainDebugData_Get c' n (set_rd_Data (<[c := nd]> (rd_Data d)) d) =
    if decide (c = c') then nd_Data nd !! n else RuleChainDebugData_Get c' n d.
Proof.
  unfold RuleChainDebugData_Get, set_rd_Data; simpl. destruct (decide (c = c')) as [<-|Hne].
  - by rewrite lookup_insert_eq.
  - by rewrite lookup_insert_ne.
Qed.

Lemma store_ok_replace h h' d c nd :
  store_ok h d → nd_MaxSize nd = Z.of_nat s →
  (∀ n q, nd_Data nd !! n = Some q → q_MaxSize q = Z.of_nat s) →
  (∀ n, R (default [] (q_Items <$> nd_Data nd !! n)) (h' c n)) →
  (∀ c' n, c ≠ c' → h' c' n = h c' n) →
  store_ok h' (set_rd_Data (<[c := nd]> (rd_Data d)) d).
Proof.
  intros [H1 H2 H3 H4] Hm Hq Hi Hh. split; simpl; [done|..].
  - intros c' nd'. rewrite lookup_insert. destruct (decide (c = c')); [by intros [= <-]|by apply H2].
  - intros c' n q. rewrite Get_set_chain. destruct (decide (c = c')); [by apply Hq|by apply H3].
  - intros c' n. unfold items_of. rewrite Get_set_chain. destruct (decide (c = c')) as [<-|Hne]; [by apply Hi|].
    rewrite Hh by done. apply H4.
Qed.

Lemma chain_of_ok h d c (nd := default (NewNodeDebugData (rd_MaxSize d)) (rd_Data d !! c)) :
  store_ok h d → nd_MaxSize nd = Z.of_nat s ∧ (∀ n q, nd_Data nd !! n = Some q → q_MaxSize q = Z.of_nat s) ∧
  ∀ n, R (default [] (q_Items <$> nd_Data nd !! n)) (h c n).
Proof.
  intros [H1 H2 H3 H4]. subst nd. destruct (rd_Data d !! c) as [nd|] eqn:Ec; simpl.
  - split; [by eapply H2|]. split; intros n.
    + intros q Hq. apply (H3 c n). unfold RuleChainDebugData_Get. by rewrite Ec.
    + specialize (H4 c n). unfold items_of, RuleChainDebugData_Get in H4. by rewrite Ec in H4.
  - rewrite H1. rewrite bool_decide_false by lia. split; [done|]. split; [by intros n q; rewrite lookup_empty|].
    intros n. rewrite lookup_empty; simpl. specialize (H4 c n). unfold items_of, RuleChainDebugData_Get in H4.
    by rewrite Ec in H4.
Qed.

Lemma Add_ok h d c n x :
  store_ok h d →
  ∃ d', RuleChainDebugData_Add c n x d = Returns d' ∧ store_ok (λ c' n', record_step c' n' (h c' n') (OAdd c n x)) d'.
Proof.
  intros Hok. destruct (chain_of_ok h d c Hok) as (Hm & Hq & Hi). unfold RuleChainDebugData_Add; simpl.
  rewrite NodeDebugData_Add_ok by eauto. eexists. split; [reflexivity|].
  apply (store_ok_replace h); [done|done|..]; simpl.
  - intros n' q. rewrite lookup_insert. destruct (decide (n = n')); [by intros [= <-]|by apply Hq].
  - intros n'. rewrite lookup_insert. destruct (decide (n = n')) as [<-|Hne]; simpl.
    + rewrite bool_decide_true by done. apply R_push, Hi.
    + rewrite bool_decide_false by tauto. apply Hi.
  - intros c' n' Hne. by rewrite bool_decide_false by tauto.
Qed.

Lemma alter_chain f c d nd :
  rd_Data d !! c = Some nd → set_rd_Data (alter f c (rd_Data d)) d = set_rd_Data (<[c := f nd]> (rd_Data d)) d.
Proof.
  intros Hc. f_equal. apply map_eq. intros c'. rewrite lookup_alter, lookup_insert.
  destruct (decide (c = c')) as [<-|]; [by rewrite Hc|done].
Qed.

Lemma GetToPage_ok h d c n : pages = true → store_ok h d → store_ok h (GetToPage c n d).2.
Proof.
  intros Hp Hok. unfold GetToPage. destruct (RuleChainDebugData_Get c n d) as [q|] eqn:Eq; [|done]. simpl.
  pose proof (chain_of_ok h d c Hok) as (Hm & Hq & Hi). unfold RuleChainDebugData_Get, NodeDebugData_Get in Eq.
  destruct (rd_Data d !! c) as [nd|] eqn:Ec; [|done]. simpl in *.
  erewrite alter_chain by done. apply (store_ok_replace h); [done|done|..|done]; simpl.
  - intros n' q'. rewrite lookup_insert. destruct (decide (n = n')); [intros [= <-]; exact (Hq n q Eq)|by apply Hq].
  - intros n'. rewrite lookup_insert. destruct (decide (n = n')) as [<-|]; simpl; [|apply Hi].
    apply R_sort; [done|]. specialize (Hi n). by rewrite Eq in Hi.
Qed.

Lemma ClearNode_ok h d c n :
  store_ok h d →
  store_ok (λ c' n', record_step c' n' (h c' n') (OClearNode c n)) (set_rd_Data (alter (NodeDebugData_Clear n) c (rd_Data d)) d).
Proof.
  intros Hok. pose proof (chain_of_ok h d c Hok) as (Hm & Hq & Hi). destruct (rd_Data d !! c) as [nd|] eqn:Ec; simpl in *.
  - erewrite alter_chain by done. apply (store_ok_replace h); [done|done|..]; simpl.
    + intros n' q'. rewrite lookup_delete. destruct (decide (n = n')); [done|by apply Hq].
    + intros n'. rewrite lookup_delete. destruct (decide (n = n')) as [<-|Hne]; simpl.
      * by rewrite bool_decide_true by done.
      * rewrite bool_decide_false by tauto. apply Hi.
    + intros c' n' Hne. by rewrite bool_decide_false by tauto.
  - replace (set_rd_Data _ d) with d.
    2:{ destruct d; unfold set_rd_Data; simpl in *. f_equal. apply map_eq. intros c'. rewrite lookup_alter.
        destruct (decide (c = c')) as [<-|]; [by rewrite Ec|done]. }
    clear Hm. destruct Hok as [H1 H2 H3 H4]. split; [done..|]. intros c' n'. simpl. case_bool_decide as He; [|apply H4].
    destruct He as [<- <-]. unfold items_of, RuleChainDebugData_Get. by rewrite Ec.
Qed.

Lemma Clear_ok h d c :
  store_ok h d → store_ok (λ c' n', record_step c' n' (h c' n') (OClear c)) (RuleChainDebugData_Clear c d).
Proof.
  intros [H1 H2 H3 H4]. unfold RuleChainDebugData_Clear, set_rd_Data.
  assert (∀ c' n, RuleChainDebugData_Get c' n (mkChainDebug (delete c (rd_Data d)) (rd_MaxSize d)) =
    if decide (c = c') then None else RuleChainDebugData_Get c' n d) as Hg.
  { intros c' n. unfold RuleChainDebugData_Get; simpl. rewrite lookup_delete. by destruct (decide (c = c')). }
  split; simpl; [done|..].
  - intros c' nd. rewrite lookup_delete. destruct (decide (c = c')); [done|by apply H2].
  - intros c' n q. rewrite Hg. destruct (decide (c = c')); [done|by apply H3].
  - intros c' n. unfold items_of. rewrite Hg. destruct (decide (c = c')) as [<-|Hne]; simpl.
    + by rewrite bool_decide_true by done.
    + rewrite bool_decide_false by done. apply H4.
Qed.

Lemma debug_run_ok ops h d :
  store_ok h d → (∀ op, op ∈ ops → is_page op = true → pages = true) →
  ∃ d', debug_run ops d = Returns d' ∧ store_ok (λ c n, foldl (record_step c n) (h c n) ops) d'.
Proof.
  revert h d. induction ops as [|op ops IH]; intros h d Hok Hp; simpl; [by eexists|].
  assert (∃ d', debug_step op d = Returns d' ∧ store_ok (λ c n, record_step c n (h c n) op) d') as (d' & -> & Hok').
  { destruct op as [c n x|c n|c|c n]; simpl.
    - by apply Add_ok.
    - eexists. split; [done|]. apply GetToPage_ok; [|done]. by apply (Hp (OGetToPage c n)); [constructor|].
    - eexists. split; [done|]. by apply Clear_ok.
    - eexists. split; [done|]. by apply ClearNode_ok. }
  apply (IH _ _ Hok'). intros op' Hin. apply Hp. by constructor.
Qed.

Lemma new_store_ok m : (if bool_decide (m <= 0)%Z then 60 else m)%Z = Z.of_nat s → store_ok (λ _ _, []) (NewRuleChainDebugData m).
Proof.
  intros Hm. split; simpl; [done|by intros c nd; rewrite lookup_empty|by intros c n q; unfold RuleChainDebugData_Get; simpl; rewrite lookup_empty|].
  intros c n. unfold items_of, RuleChainDebugData_Get; simpl. by rewrite lookup_empty.
Qed.

End Relation.

(** The number of events kept per node. *)
Definition kept (maxSize : Z) : nat := Z.to_nat (if bool_decide (maxSize <= 0)%Z then 60 else maxSize).
Lemma kept_spec m : 0 < kept m ∧ (if bool_decide (m <= 0)%Z then 60 else m)%Z = Z.of_nat (kept m).
Proof. unfold kept. case_bool_decide; lia. Qed.

Lemma pushed_length s x items : 0 < s → length items ≤ s → length (pushed s x items) = s `min` S (length items).
Proof. intros Hs Hl. unfold pushed. rewrite length_app; simpl. destruct (decide _) as [E|E]; destruct items; simpl in *; lia. Qed.

Lemma pushed_latest s x h : 0 < s → pushed s x (latest s h) = latest s (h ++ [x]).
Proof.
  intros Hs. unfold pushed, latest. rewrite length_app, length_drop; simpl. destruct (decide _) as [E|E].
  - assert (s ≤ length h) by lia. replace (length h + 1 - s) with (S (length h - s)) by lia.
    rewrite drop_app_le by lia. f_equal. change (tail (drop (length h - s) h)) with (drop 1 (drop (length h - s) h)). by rewrite drop_drop, Nat.add_1_r.
  - replace (length h + 1 - s) with 0 by lia. replace (length h - s) with 0 by lia. by rewrite !drop_0.
Qed.

(** C36. The debug store: whatever is added, read and cleared, no operation panics, and a
    node has as many events as were added since it was last cleared, up to the limit
    (60 when the limit given is not positive), each of them one that was added.  As long
    as no page was read they are exactly the latest ones, in order; a page shows the
    events of its node, the newest first. *)
Theorem debug_data_spec maxSize ops :
  ∃ d, debug_run ops (NewRuleChainDebugData maxSize) = Returns d ∧
  ∀ c n,
    length (items_of c n d) = kept maxSize `min` length (recorded c n ops) ∧
    items_of c n d ⊆+ recorded c n ops ∧
    (forallb (negb ∘ is_page) ops = true → items_of c n d = latest (kept maxSize) (recorded c n ops)) ∧
    let page := (GetToPage c n d).1 in
    pg_Items page ≡ₚ items_of c n d ∧ pg_Total page = Z.of_nat (length (pg_Items page)) ∧
    StronglySorted (λ a b, dd_Ts b <= dd_Ts a)%Z (pg_Items page).
Proof.
  destruct (kept_spec maxSize) as [Hs Hk].
  destruct (debug_run_ok (kept maxSize) Hs
    (λ items h, length items = kept maxSize `min` length h ∧ items ⊆+ h) true) with (ops := ops)
    (h := λ _ _ : string, @nil DebugData) (d := NewRuleChainDebugData maxSize) as (d & Hd & Hok); [..|done|].
  { split; [simpl; lia|done]. }
  { intros items h x [Hl Hsub]. split.
    - rewrite pushed_length by lia. rewrite length_app; simpl. lia.
    - unfold pushed. destruct (decide _); [|by apply submseteq_app].
      apply submseteq_app; [|done]. etrans; [|exact Hsub]. destruct items; simpl; [done|]. by apply submseteq_cons. }
  { intros items h _ [Hl Hsub]. by rewrite sort_Ts_perm. }
  { apply new_store_ok; [|done]. split; [simpl; lia|done]. }
  exists d. split; [done|]. intros c n. destruct (ok_items _ _ _ _ Hok c n) as [Hl Hsub].
  split; [exact Hl|]. split; [exact Hsub|]. split.
  - intros Hnp. destruct (debug_run_ok (kept maxSize) Hs (λ items h, items = latest (kept maxSize) h) false)
      with (ops := ops) (h := λ _ _ : string, @nil DebugData) (d := NewRuleChainDebugData maxSize) as (d' & Hd' & Hok').
    + done.
    + intros items h x ->. by apply pushed_latest.
    + done.
    + by apply new_store_ok.
    + intros op Hin Hop. rewrite forallb_forall in Hnp. apply list_elem_of_In, Hnp in Hin. simpl in Hin. by rewrite Hop in Hin.
    + rewrite Hd in Hd'. injection Hd' as <-. apply (ok_items _ _ _ _ Hok' c n).
  - simpl. unfold GetToPage, items_of. destruct (RuleChainDebugData_Get c n d) as [q|]; simpl.
    + split; [apply sort_Ts_perm|]. split; [by rewrite sort_Ts_perm|apply sort_Ts_sorted].
    + split; [done|]. split; [done|constructor].
Qed.

End Store.

Module DebugExample.

Definition later (a b : DebugData) : Prop := (dd_Ts b <= dd_Ts a)%Z.
#[global] Instance later_dec a b : Decision (later a b) := ltac:(unfold later; apply _).
#[global] Instance later_total : Total later.
Proof. intros a b. unfold later. lia. Qed.
#[global] Instance later_trans : Transitive later.
Proof. intros a b c. unfold later. lia. Qed.
#[global] Program Instance merge_Ts : TsSort := {| sort_Ts := merge_sort later |}.
Next Obligation. intros. apply merge_sort_Permutation. Qed.
Next Obligation. intros. apply StronglySorted_merge_sort; apply _. Qed.

Definition at_ (ts : Z) : DebugData := mkDebugData ts "n" "IN" (mkMsg 0 "id" JSON "T" "" ∅) "" "".
Definition add (ts : Z) : debug_op := OAdd "c" "n" (at_ ts).
Definition after (ops : list debug_op) : outcome (list Z) :=
  match debug_run ops (NewRuleChainDebugData 2) with
  | Returns d => Returns (dd_Ts <$> items_of "c" "n" d)
  | Panics why => Panics why
  end.

Example two_latest : after [add 1; add 2; add 3] = Returns [2; 3]%Z.
Proof. vm_compute. reflexivity. Qed.

(** Reading a page turns the queue round: the next event pushes out the newest one of
    those before it, and the oldest stays. *)
Theorem page_drops_newest : after [add 1; add 2; OGetToPage "c" "n"; add 3] = Returns [1; 3]%Z.
Proof. vm_compute. reflexivity. Qed.

End DebugExample.
