(* ===== verification/JsonText.v ===== *)
(** * JSON text ([src/utils/json/json.go], Go's [encoding/json])

    The texts the program reads and writes.  A text is scanned byte by byte into tokens
    ([lex], the states of Go's scanner), the tokens are read by a machine with a stack of
    open arrays and objects ([pstep]), and [print] and [Format] write texts.  Strings are
    bytes; quoting and unquoting know UTF-8.  The wording of syntax errors is not
    followed. *)

From Stdlib Require Import Ascii.
From S2P Require Import Prelude GoStrings.

Definition code (c : ascii) : N := N_of_ascii c.
Definition between (lo hi : N) (c : ascii) : bool := (lo <=? code c)%N && (code c <=? hi)%N.
Definition dq : ascii := ascii_of_N 34.
Definition backslash : ascii := ascii_of_N 92.
Definition str1 (c : ascii) : string := String c "".

Lemma string_app_cons c (a b : string) : String c a +:+ b = String c (a +:+ b).
Proof. done. Qed.

(** ** Working through a string in units

    [f] reads one unit at the head of the rest: what to write, and how many bytes it
    took ([None]: the string is malformed). *)
Fixpoint units (f : string → option (string * nat)) (skip : nat) (s : string) : option string :=
  match s with
  | EmptyString => Some ""
  | String _ s' =>
      match skip with
      | S k => units f k s'
      | O => '(out, n) ← f s; rest ← units f (pred n) s'; Some (out +:+ rest)
      end
  end.

Lemma units_skip f ch s : units f (String.length ch) (ch +:+ s) = units f 0 s.
Proof. induction ch as [|c ch IH]; simpl; [by destruct s|done]. Qed.

Lemma units_step f ch s out :
  ch ≠ "" → f (ch +:+ s) = Some (out, String.length ch) →
  units f 0 (ch +:+ s) = (rest ← units f 0 s; Some (out +:+ rest)).
Proof.
  intros Hne Hf. destruct ch as [|c ch]; [done|]. simpl in *. rewrite Hf. simpl. by rewrite units_skip.
Qed.

(** ** UTF-8 *)

Definition rune_need (a : ascii) : nat :=
  if (code a <? 128)%N then 1 else if between 194 223 a then 2
  else if between 224 239 a then 3 else if between 240 244 a then 4 else 0.
Definition second_ok (a b : ascii) : bool :=
  if bool_decide (code a = 224%N) then between 160 191 b
  else if bool_decide (code a = 237%N) then between 128 159 b
  else if bool_decide (code a = 240%N) then between 144 191 b
  else if bool_decide (code a = 244%N) then between 128 143 b
  else between 128 191 b.
Fixpoint conts (k : nat) (s : string) : bool :=
  match k, s with
  | O, _ => true
  | S k, String c s => between 128 191 c && conts k s
  | S _, EmptyString => false
  end.

(** The length of the rune at the head; [None] when the bytes are not valid UTF-8. *)
Definition rune_len (s : string) : option nat :=
  match s with
  | EmptyString => None
  | String a s1 =>
      match rune_need a with
      | O => None
      | 1 => Some 1
      | S (S k) =>
          match s1 with
          | String b s2 => if second_ok a b && conts k s2 then Some (S (S k)) else None
          | EmptyString => None
          end
      end
  end.

(** The UTF-8 bytes of a code point. *)
Definition encode_rune (r : N) : string :=
  if (r <? 128)%N then str1 (ascii_of_N r)
  else if (r <? 2048)%N then String (ascii_of_N (192 + r / 64)) (str1 (ascii_of_N (128 + r mod 64)))
  else if (r <? 65536)%N then
    String (ascii_of_N (224 + r / 4096)) (String (ascii_of_N (128 + r / 64 mod 64)) (str1 (ascii_of_N (128 + r mod 64))))
  else String (ascii_of_N (240 + r / 262144)) (String (ascii_of_N (128 + r / 4096 mod 64))
         (String (ascii_of_N (128 + r / 64 mod 64)) (str1 (ascii_of_N (128 + r mod 64))))).
Definition RuneError : string := encode_rune 65533.

(** The string with every byte that is not part of a rune replaced. *)
Definition valid_unit (s : string) : option (string * nat) :=
  match rune_len s with
  | Some n => Some (String.substring 0 n s, n)
  | None => Some (RuneError, 1)
  end.
Definition to_valid (s : string) : string := default "" (units valid_unit 0 s).
Definition valid_utf8 (s : string) : bool := bool_decide (to_valid s = s).

Lemma substring_app_l a b : String.substring 0 (String.length a) (a +:+ b) = a.
Proof. induction a as [|c a IH]; simpl; [by destruct b|by rewrite IH]. Qed.

Lemma conts_split k s : conts k s = true → ∃ ch t, s = ch +:+ t ∧ String.length ch = k ∧ ∀ t', conts k (ch +:+ t') = true.
Proof.
  revert s. induction k as [|k IH]; intros s H; [by exists "", s|].
  destruct s as [|c s]; [done|]. simpl in H. apply andb_true_iff in H as [Hc H].
  destruct (IH s H) as (ch & t & -> & Hl & Hch). exists (String c ch), t. simpl. rewrite Hl, Hc. naive_solver.
Qed.

(** A rune is the same whatever follows. *)
Lemma rune_split s n :
  rune_len s = Some n →
  ∃ ch t, s = ch +:+ t ∧ ch ≠ "" ∧ String.length ch = n ∧ ∀ t', rune_len (ch +:+ t') = Some n.
Proof.
  destruct s as [|a s]; [done|]. unfold rune_len at 1. destruct (rune_need a) as [|[|k]] eqn:En; [done|..].
  - intros [= <-]. exists (str1 a), s. split; [done|]. split; [done|]. split; [done|]. intros t'. simpl. by rewrite En.
  - destruct s as [|b s]; [done|]. destruct (second_ok a b && conts k s) eqn:E; [|done]. intros [= <-].
    apply andb_true_iff in E as [Eb Ec]. destruct (conts_split k s Ec) as (ch & t & -> & Hl & Hch).
    exists (String a (String b ch)), t. split; [done|]. split; [done|]. simpl. rewrite Hl. split; [done|].
    intros t'. by rewrite En, Eb, Hch.
Qed.

(** ** Strings *)

Definition hex_digit (n : N) : ascii := if (n <? 10)%N then ascii_of_N (48 + n) else ascii_of_N (87 + n).
Definition escape_u (n : N) : string :=
  String backslash (String "u" (String (hex_digit (n / 4096)) (String (hex_digit (n / 256 mod 16))
    (String (hex_digit (n / 16 mod 16)) (str1 (hex_digit (n mod 16))))))).

(** How the encoder writes a byte below 128 (without HTML escaping). *)
Definition escape_byte (c : ascii) : string :=
  if bool_decide (c = dq) || bool_decide (c = backslash) then String backslash (str1 c)
  else if bool_decide (code c = 10%N) then String backslash (str1 "n")
  else if bool_decide (code c = 13%N) then String backslash (str1 "r")
  else if bool_decide (code c = 9%N) then String backslash (str1 "t")
  else if (code c <? 32)%N then escape_u (code c)
  else str1 c.
(** The line separators U+2028 and U+2029 are escaped, other runes copied. *)
Definition quote_unit (s : string) : option (string * nat) :=
  match s with
  | EmptyString => None
  | String c _ =>
      if (code c <? 128)%N then Some (escape_byte c, 1)
      else match rune_len s with
           | None => Some (escape_u 65533, 1)
           | Some n =>
               let ch := String.substring 0 n s in
               if bool_decide (ch = encode_rune 8232) then Some (escape_u 8232, n)
               else if bool_decide (ch = encode_rune 8233) then Some (escape_u 8233, n)
               else Some (ch, n)
           end
  end.
Definition quote (s : string) : string := default "" (units quote_unit 0 s).

Definition hex_val (c : ascii) : option N :=
  if between 48 57 c then Some (code c - 48)%N
  else if between 97 102 c then Some (code c - 87)%N
  else if between 65 70 c then Some (code c - 55)%N
  else None.
Definition hex4 (s : string) : option N :=
  match s with
  | String a (String b (String c (String d _))) =>
      a ← hex_val a; b ← hex_val b; c ← hex_val c; d ← hex_val d; Some (((a * 16 + b) * 16 + c) * 16 + d)%N
  | _ => None
  end.
Definition high_surrogate (r : N) : bool := (55296 <=? r)%N && (r <=? 56319)%N.
Definition low_surrogate (r : N) : bool := (56320 <=? r)%N && (r <=? 57343)%N.
(** The second half of a surrogate pair, if it follows. *)
Definition low_half (s : string) : option N :=
  match s with
  | String a (String b s) =>
      if bool_decide (a = backslash ∧ b = "u"%char) then r ← hex4 s; if low_surrogate r then Some r else None
      else None
  | _ => None
  end.

Definition str_drop (n : nat) (s : string) : string := String.substring n (String.length s - n) s.
Definition simple_escapes : list (ascii * N) :=
  [(dq, 34); (backslash, 92); ("/"%char, 47); ("'"%char, 39); ("b"%char, 8); ("f"%char, 12); ("n"%char, 10);
   ("r"%char, 13); ("t"%char, 9)]%N.
Fixpoint find_escape (c : ascii) (l : list (ascii * N)) : option N :=
  match l with [] => None | (a, n) :: l => if bool_decide (a = c) then Some n else find_escape c l end.

Definition unquote_unit (s : string) : option (string * nat) :=
  match s with
  | EmptyString => None
  | String c s1 =>
      if bool_decide (c = backslash) then
        match s1 with
        | EmptyString => None
        | String e s2 =>
            if bool_decide (e = "u"%char) then
              r ← hex4 s2;
              if high_surrogate r || low_surrogate r then
                match (if high_surrogate r then low_half (str_drop 4 s2) else None) with
                | Some r2 => Some (encode_rune (65536 + (r - 55296) * 1024 + (r2 - 56320))%N, 12)
                | None => Some (RuneError, 6)
                end
              else Some (encode_rune r, 6)
            else n ← find_escape e simple_escapes; Some (str1 (ascii_of_N n), 2)
        end
      else if bool_decide (c = dq) || (code c <? 32)%N then None
      else if (code c <? 128)%N then Some (str1 c, 1)
      else valid_unit s
  end.
Definition unquote (s : string) : option string := units unquote_unit 0 s.

(** One unit, quoted: it was the head [ch] of the string, and unquoting what was written
    for it gives the valid form of [ch], whatever follows. *)
Lemma quote_unit_spec s :
  s ≠ "" → ∃ ch t out v, s = ch +:+ t ∧ ch ≠ "" ∧ quote_unit (ch +:+ t) = Some (out, String.length ch) ∧ out ≠ "" ∧
    valid_unit (ch +:+ t) = Some (v, String.length ch) ∧
    ∀ X, unquote_unit (out +:+ X) = Some (v, String.length out).
Proof.
  intros Hs. destruct s as [|c s]; [done|]. destruct (code c <? 128)%N eqn:Ec.
  - exists (str1 c), s, (escape_byte c), (str1 c). split; [done|]. split; [done|]. simpl. rewrite Ec. split; [done|].
    unfold valid_unit, rune_len, rune_need. simpl. rewrite Ec.
    split; [clear - Ec; destruct c as [[] [] [] [] [] [] [] []]; done|]. split; [by destruct s|].
    intros X. clear - Ec. destruct c as [[] [] [] [] [] [] [] []]; try discriminate Ec; reflexivity.
  - unfold quote_unit, valid_unit. destruct (rune_len (String c s)) as [n|] eqn:En.
    + destruct (rune_split _ _ En) as (ch & t & Es & Hne & Hl & Hr).
      assert (String.substring 0 n (String c s) = ch) as Esub by (rewrite Es, <- Hl; apply substring_app_l).
      exists ch, t. rewrite <- Es. rewrite Ec, En, Esub, Hl.
      case_bool_decide as E1; [|case_bool_decide as E2].
      * exists (escape_u 8232), ch. split; [done|]. split; [done|]. split; [done|]. split; [done|]. split; [done|].
        intros X. rewrite E1. reflexivity.
      * exists (escape_u 8233), ch. split; [done|]. split; [done|]. split; [done|]. split; [done|]. split; [done|].
        intros X. rewrite E2. reflexivity.
      * exists ch, ch. split; [done|]. split; [done|]. split; [done|]. split; [done|]. split; [done|].
        intros X. destruct ch as [|c' ch]; [done|]. injection Es as <- _. specialize (Hr X). cbn [String.append] in Hr |- *.
        unfold unquote_unit. assert (c ≠ backslash ∧ c ≠ dq ∧ (code c <? 32)%N = false) as (H1 & H2 & H3).
        { split; [intros ->; discriminate Ec|]. split; [intros ->; discriminate Ec|]. apply N.ltb_ge in Ec. apply N.ltb_ge. lia. }
        rewrite (bool_decide_false (c = backslash)), (bool_decide_false (c = dq)) by done. rewrite H3, Ec. simpl.
        unfold valid_unit. rewrite Hr. f_equal. f_equal; [|done].
        replace n with (String.length (String c ch)) by done. apply (substring_app_l (String c ch) X).
    + exists (str1 c), s, (escape_u 65533), RuneError. change (str1 c +:+ s) with (String c s). cbv beta iota. rewrite Ec, En. done.
Qed.

Lemma units_empty f k : units f k "" = Some "".
Proof. by destruct k. Qed.

Lemma quote_to_valid s :
  ∃ q v, units quote_unit 0 s = Some q ∧ units valid_unit 0 s = Some v ∧ ∀ X, units unquote_unit 0 (q +:+ X) = (rest ← units unquote_unit 0 X; Some (v +:+ rest)).
Proof.
  remember (String.length s) as n eqn:Hn. revert s Hn. induction n as [n IH] using lt_wf_ind; intros s ->.
  destruct (decide (s = "")) as [->|Hs].
  { exists "", "". split; [done|]. split; [done|]. intros X. simpl. by destruct (units unquote_unit 0 X). }
  destruct (quote_unit_spec s Hs) as (ch & t & out & v & -> & Hch & Hq & Hout & Hv & Hu).
  destruct (IH (String.length t)) with (s := t) as (q & v' & Eq & Ev & EX); [|done|].
  { rewrite string_app_length. destruct ch; [done|simpl; lia]. }
  exists (out +:+ q), (v +:+ v'). rewrite (units_step _ _ _ out Hch Hq), Eq, (units_step _ _ _ v Hch Hv), Ev.
  split; [done|]. split; [done|]. intros X. rewrite string_app_assoc.
  rewrite (units_step _ _ _ v Hout (Hu _)), EX. destruct (units unquote_unit 0 X); simpl; [by rewrite string_app_assoc|done].
Qed.

(** Unquoting a quoted string gives it back, with invalid bytes replaced. *)
Theorem unquote_quote s : unquote (quote s) = Some (to_valid s).
Proof.
  destruct (quote_to_valid s) as (q & v & Eq & Ev & EX). unfold unquote, quote, to_valid. rewrite Eq, Ev. simpl.
  rewrite <- (string_app_nil_r q), EX. simpl. by rewrite string_app_nil_r.
Qed.
