(* ===== verification/JsonParse.v ===== *)
(** * Reading and writing JSON ([src/utils/json/json.go], Go's [encoding/json])

    Tokens, the grammar, [print] (the encoder) and [Format] ([json.Indent] with two
    blanks).  The scanner goes byte by byte as Go's does; the parser keeps the open
    arrays and objects on a stack of at most 10000. *)

From Stdlib Require Import Ascii.
From S2P Require Import Prelude GoStrings JsonText.

(** ** Tokens *)

Inductive token : Type :=
| TLBrace | TRBrace | TLBrack | TRBrack | TColon | TComma
| TStr (raw : string)     (* the bytes between the quotes *)
| TNum (raw : string)
| TTrue | TFalse | TNull.

(** The states of a number: after a sign, a leading zero, digits, the point, digits
    after it, the exponent mark, its sign, its digits. *)
Inductive numst : Type := NNeg | N0 | N1 | NDot | NDot0 | NE | NESign | NE0.
Definition isDigit (c : ascii) : bool := between 48 57 c.
Definition num_start (c : ascii) : option numst :=
  if bool_decide (c = "-"%char) then Some NNeg else if bool_decide (c = "0"%char) then Some N0
  else if isDigit c then Some N1 else None.
Definition isE (c : ascii) : bool := bool_decide (c = "e"%char) || bool_decide (c = "E"%char).
Definition num_step (st : numst) (c : ascii) : option numst :=
  match st with
  | NNeg => if bool_decide (c = "0"%char) then Some N0 else if isDigit c then Some N1 else None
  | N1 => if isDigit c then Some N1 else if bool_decide (c = "."%char) then Some NDot else if isE c then Some NE else None
  | N0 => if bool_decide (c = "."%char) then Some NDot else if isE c then Some NE else None
  | NDot => if isDigit c then Some NDot0 else None
  | NDot0 => if isDigit c then Some NDot0 else if isE c then Some NE else None
  | NE => if bool_decide (c = "+"%char) || bool_decide (c = "-"%char) then Some NESign else if isDigit c then Some NE0 else None
  | NESign | NE0 => if isDigit c then Some NE0 else None
  end.
Definition num_ends (st : numst) : bool := match st with N0 | N1 | NDot0 | NE0 => true | _ => false end.

Inductive lexst : Type :=
| LIdle
| LStr (raw : string)
| LEsc (raw : string)
| LHex (k : nat) (raw : string)       (* [S k] hexadecimal digits to come *)
| LNum (st : numst) (raw : string)
| LWord (rest : string) (tok : token).

Definition isWs (c : ascii) : bool :=
  bool_decide (code c = 32%N) || bool_decide (code c = 9%N) || bool_decide (code c = 10%N) || bool_decide (code c = 13%N).

(** The first byte of a token, or white space. *)
Definition lex_idle (c : ascii) : option (list token * lexst) :=
  if isWs c then Some ([], LIdle)
  else if bool_decide (c = "{"%char) then Some ([TLBrace], LIdle)
  else if bool_decide (c = "}"%char) then Some ([TRBrace], LIdle)
  else if bool_decide (c = "["%char) then Some ([TLBrack], LIdle)
  else if bool_decide (c = "]"%char) then Some ([TRBrack], LIdle)
  else if bool_decide (c = ":"%char) then Some ([TColon], LIdle)
  else if bool_decide (c = ","%char) then Some ([TComma], LIdle)
  else if bool_decide (c = dq) then Some ([], LStr "")
  else if bool_decide (c = "t"%char) then Some ([], LWord "rue" TTrue)
  else if bool_decide (c = "f"%char) then Some ([], LWord "alse" TFalse)
  else if bool_decide (c = "n"%char) then Some ([], LWord "ull" TNull)
  else st ← num_start c; Some ([], LNum st (str1 c)).

Definition escapes : list ascii := ["b"; "f"; "n"; "r"; "t"; backslash; "/"; dq]%char.
Definition lex_step (st : lexst) (c : ascii) : option (list token * lexst) :=
  match st with
  | LIdle => lex_idle c
  | LStr raw =>
      if bool_decide (c = dq) then Some ([TStr raw], LIdle)
      else if bool_decide (c = backslash) then Some ([], LEsc (raw +:+ str1 c))
      else if (code c <? 32)%N then None
      else Some ([], LStr (raw +:+ str1 c))
  | LEsc raw =>
      if bool_decide (c ∈ escapes) then Some ([], LStr (raw +:+ str1 c))
      else if bool_decide (c = "u"%char) then Some ([], LHex 3 (raw +:+ str1 c)) else None
  | LHex k raw =>
      match hex_val c with
      | None => None
      | Some _ => Some ([], match k with O => LStr (raw +:+ str1 c) | S k => LHex k (raw +:+ str1 c) end)
      end
  | LNum n raw =>
      match num_step n c with
      | Some n => Some ([], LNum n (raw +:+ str1 c))
      | None => if num_ends n then '(ts, st) ← lex_idle c; Some (TNum raw :: ts, st) else None
      end
  | LWord rest tok =>
      match rest with
      | String r rest => if bool_decide (r = c) then Some (if bool_decide (rest = "") then ([tok], LIdle) else ([], LWord rest tok)) else None
      | EmptyString => None
      end
  end.
Definition lex_end (st : lexst) : option (list token) :=
  match st with
  | LIdle => Some []
  | LNum n raw => if num_ends n then Some [TNum raw] else None
  | _ => None
  end.
Fixpoint lex (st : lexst) (s : string) : option (list token) :=
  match s with
  | EmptyString => lex_end st
  | String c s => '(ts, st) ← lex_step st c; rest ← lex st s; Some (ts ++ rest)
  end.

(** ** The grammar *)

Inductive json : Type :=
| JNull
| JBool (b : bool)
| JNum (lit : string)
| JStr (s : string)
| JArr (l : list json)
| JObj (l : list (string * json)).

Inductive frame : Type := FArr (acc : list json) | FObj (acc : list (string * json)) (key : string).
(** What may come next: a value, a value or the end of an empty array, a key or the
    end of an empty object, a key, a colon, a comma or an end; or the value is read. *)
Inductive mode : Type := MValue | MFirst | MKeyOrEnd | MKey | MColon | MAfter | MDone (v : json).
Definition pstate : Type := list frame * mode.

Definition complete (v : json) (stack : list frame) : pstate :=
  match stack with
  | [] => ([], MDone v)
  | FArr acc :: st => (FArr (acc ++ [v]) :: st, MAfter)
  | FObj acc k :: st => (FObj (acc ++ [(k, v)]) k :: st, MAfter)
  end.
Definition maxNestingDepth : N := 10000.
Definition push (f : frame) (m : mode) (stack : list frame) : option pstate :=
  if (N.of_nat (S (length stack)) <=? maxNestingDepth)%N then Some (f :: stack, m) else None.

Definition pvalue (stack : list frame) (t : token) : option pstate :=
  match t with
  | TNull => Some (complete JNull stack)
  | TTrue => Some (complete (JBool true) stack)
  | TFalse => Some (complete (JBool false) stack)
  | TNum raw => Some (complete (JNum raw) stack)
  | TStr raw => s ← unquote raw; Some (complete (JStr s) stack)
  | TLBrack => push (FArr []) MFirst stack
  | TLBrace => push (FObj [] "") MKeyOrEnd stack
  | _ => None
  end.
Definition pkey (acc : list (string * json)) (st : list frame) (raw : string) : option pstate :=
  k ← unquote raw; Some (FObj acc k :: st, MColon).

Definition pstep (s : pstate) (t : token) : option pstate :=
  let '(stack, m) := s in
  match m, stack, t with
  | MValue, _, _ => pvalue stack t
  | MFirst, FArr acc :: st, TRBrack => Some (complete (JArr acc) st)
  | MFirst, _, _ => pvalue stack t
  | MKeyOrEnd, FObj acc _ :: st, TRBrace => Some (complete (JObj acc) st)
  | (MKeyOrEnd | MKey), FObj acc _ :: st, TStr raw => pkey acc st raw
  | MColon, _, TColon => Some (stack, MValue)
  | MAfter, FArr _ :: _, TComma => Some (stack, MValue)
  | MAfter, FArr acc :: st, TRBrack => Some (complete (JArr acc) st)
  | MAfter, FObj _ _ :: _, TComma => Some (stack, MKey)
  | MAfter, FObj acc _ :: st, TRBrace => Some (complete (JObj acc) st)
  | _, _, _ => None
  end.
Fixpoint pfrom (s : pstate) (ts : list token) : option pstate :=
  match ts with
  | [] => Some s
  | t :: ts => s ← pstep s t; pfrom s ts
  end.
Definition parse_tokens (ts : list token) : option json :=
  s ← pfrom ([], MValue) ts; match s.2 with MDone v => Some v | _ => None end.

(** The value a text stands for. *)
Definition parse_json (text : string) : option json := ts ← lex LIdle text; parse_tokens ts.

(** ** Writing *)

Definition tok_text (t : token) : string :=
  match t with
  | TLBrace => "{" | TRBrace => "}" | TLBrack => "[" | TRBrack => "]" | TColon => ":" | TComma => ","
  | TStr raw => String dq (raw +:+ str1 dq)
  | TNum raw => raw
  | TTrue => "true" | TFalse => "false" | TNull => "null"
  end.
(** Tokens with the white space before each. *)
Fixpoint render (l : list (string * token)) : string :=
  match l with [] => "" | (ws, t) :: l => ws +:+ tok_text t +:+ render l end.

Fixpoint sep_by (ls : list (list token)) : list token :=
  match ls with
  | [] => []
  | x :: rest => match rest with [] => x | _ => x ++ TComma :: sep_by rest end
  end.
Fixpoint tokens_of (j : json) : list token :=
  match j with
  | JNull => [TNull]
  | JBool b => [if b then TTrue else TFalse]
  | JNum lit => [TNum lit]
  | JStr s => [TStr (quote s)]
  | JArr l => TLBrack :: sep_by (tokens_of <$> l) ++ [TRBrack]
  | JObj l => TLBrace :: sep_by ((λ kv, TStr (quote kv.1) :: TColon :: tokens_of kv.2) <$> l) ++ [TRBrace]
  end.
(** The encoder writes no white space, and a line end after the value. *)
Definition print (j : json) : string := render ((λ t, ("", t)) <$> tokens_of j).
Definition newline_char : ascii := ascii_of_N 10.
Definition Encode (j : json) : string := print j +:+ str1 newline_char.
Fixpoint drop_last (s : string) : string :=
  match s with
  | EmptyString => ""
  | String c s' => match s' with EmptyString => "" | _ => String c (drop_last s') end
  end.
(** [json.Marshal2] of a value the encoder writes as [j]: the line end is cut off. *)
Definition Marshal2 (j : json) : string := drop_last (Encode j).

(** [json.Indent]: a new line in front of every element and behind the last; nothing
    inside an empty array or object; a blank behind a colon. *)
Fixpoint blanks (n : nat) : string := match n with O => "" | S n => "  " +:+ blanks n end.
Definition newline_at (depth : nat) : string := String newline_char (blanks depth).
Fixpoint indent (depth : nat) (needIndent : bool) (pending : string) (ts : list token) : list (string * token) :=
  match ts with
  | [] => []
  | t :: ts =>
      match t with
      | TRBrace | TRBrack =>
          if needIndent then ("", t) :: indent depth false "" ts
          else (newline_at (pred depth), t) :: indent (pred depth) false "" ts
      | _ =>
          let depth := if needIndent then S depth else depth in
          let ws := if needIndent then newline_at depth else pending in
          match t with
          | TLBrace | TLBrack => (ws, t) :: indent depth true "" ts
          | TComma => (ws, t) :: indent depth false (newline_at depth) ts
          | TColon => (ws, t) :: indent depth false " " ts
          | _ => (ws, t) :: indent depth false "" ts
          end
      end
  end.
(** The white space at the end of a text. *)
Definition all_ws (s : string) : bool := forallb isWs (chars s).
Fixpoint trailing (s : string) : string :=
  match s with "" => "" | String _ s' => if all_ws s then s else trailing s' end.
(** [json.Format]: white space before and between the tokens is dropped, at the end it is kept. *)
Definition Format (text : string) : option string :=
  ts ← lex LIdle text; _ ← parse_tokens ts; Some (render (indent 0 false "" ts) +:+ trailing text).

(** ** Scanning what was written *)

Lemma lex_quiet st c st' s : lex_step st c = Some ([], st') → lex st (String c s) = lex st' s.
Proof. intros H. simpl. rewrite H. simpl. by destruct (lex st' s). Qed.

Lemma trailing_ws s : all_ws (trailing s) = true.
Proof. induction s as [|c s IH]; [done|]. cbn [trailing]. by destruct (all_ws (String c s)) eqn:E. Qed.

Lemma lex_ws ws s : all_ws ws = true → lex LIdle (ws +:+ s) = lex LIdle s.
Proof.
  induction ws as [|c ws IH]; [done|]. intros [Hc H]%andb_true_iff. rewrite string_app_cons.
  rewrite (lex_quiet LIdle c LIdle); [by apply IH|]. simpl. unfold lex_idle. by rewrite Hc.
Qed.

(** A string body that the scanner reads to its end. *)
Definition str_ok (raw : string) : Prop := ∀ acc s, lex (LStr acc) (raw +:+ s) = lex (LStr (acc +:+ raw)) s.

Lemma str_ok_app a b : str_ok a → str_ok b → str_ok (a +:+ b).
Proof. intros Ha Hb acc s. by rewrite string_app_assoc, Ha, Hb, string_app_assoc. Qed.
Lemma str_ok_nil : str_ok "".
Proof. intros acc s. by rewrite string_app_nil_r. Qed.
Lemma str_ok_char c : c ≠ dq → c ≠ backslash → (code c <? 32)%N = false → str_ok (str1 c).
Proof.
  intros H1 H2 H3 acc s. unfold str1 at 1. rewrite !string_app_cons. apply lex_quiet. simpl. by rewrite !bool_decide_false, H3 by done.
Qed.
Lemma str_ok_high s : forallb (λ c, (128 <=? code c)%N) (chars s) = true → str_ok s.
Proof.
  induction s as [|c s IH]; simpl; [intros _; apply str_ok_nil|]. intros [Hc H]%andb_true_iff. apply N.leb_le in Hc.
  change (String c s) with (str1 c +:+ s). apply str_ok_app; [|by apply IH].
  apply str_ok_char; [intros ->; by vm_compute in Hc|intros ->; by vm_compute in Hc|apply N.ltb_ge; lia].
Qed.

Lemma conts_high k s : conts k s = true → forallb (λ c, (128 <=? code c)%N) (chars (String.substring 0 k s)) = true.
Proof.
  revert s. induction k as [|k IH]; intros [|c s]; simpl; try done. unfold between. intros [[H _]%andb_true_iff Hs]%andb_true_iff.
  by rewrite H, IH.
Qed.
Lemma rune_high c s n :
  (code c <? 128)%N = false → rune_len (String c s) = Some n →
  forallb (λ c, (128 <=? code c)%N) (chars (String.substring 0 n (String c s))) = true.
Proof.
  intros Hc. unfold rune_len. destruct (rune_need c) as [|[|k]] eqn:En; [done|..].
  - unfold rune_need in En. rewrite Hc in En. by repeat case_match.
  - destruct s as [|b s]; [done|]. destruct (second_ok c b && conts k s) eqn:E; [|done]. intros [= <-].
    apply andb_true_iff in E as [Eb Ek]. simpl. rewrite conts_high by done. apply N.ltb_ge in Hc.
    apply andb_true_iff. split; [by apply N.leb_le|]. apply andb_true_iff. split; [|done].
    unfold second_ok, between in Eb. repeat case_match; apply andb_true_iff in Eb as [Eb _]; apply N.leb_le in Eb; apply N.leb_le; lia.
Qed.

Lemma str_ok_escape e : e ∈ escapes → str_ok (String backslash (str1 e)).
Proof.
  intros He acc s. unfold str1 at 1. rewrite !string_app_cons. rewrite (lex_quiet _ _ (LEsc (acc +:+ str1 backslash))) by done.
  rewrite (lex_quiet _ _ (LStr ((acc +:+ str1 backslash) +:+ str1 e))); [by rewrite string_app_assoc|].
  simpl. by rewrite bool_decide_true.
Qed.

Lemma hex_digit_val n : (n < 16)%N → hex_val (hex_digit n) ≠ None.
Proof.
  intros Hn. assert (n ∈ (N.of_nat <$> seq 0 16)) as Hin.
  { apply list_elem_of_fmap. exists (N.to_nat n). split; [lia|]. apply elem_of_seq. lia. }
  repeat (apply elem_of_cons in Hin as [->|Hin]; [done|]). by apply elem_of_nil in Hin.
Qed.

Lemma lex_hex k raw c s :
  hex_val c ≠ None → lex (LHex k raw) (String c s) = lex (match k with O => LStr (raw +:+ str1 c) | S k => LHex k (raw +:+ str1 c) end) s.
Proof. intros Hc. apply lex_quiet. simpl. by destruct (hex_val c). Qed.

Lemma str_ok_escape_u n : (n < 65536)%N → str_ok (escape_u n).
Proof.
  intros Hn acc s. unfold escape_u at 1, str1 at 1. rewrite !string_app_cons.
  rewrite (lex_quiet _ _ (LEsc (acc +:+ str1 backslash))) by done.
  rewrite (lex_quiet _ _ (LHex 3 ((acc +:+ str1 backslash) +:+ str1 "u"))) by done.
  rewrite !lex_hex by (apply hex_digit_val; try apply N.mod_lt; try (apply N.Div0.div_lt_upper_bound); lia).
  by rewrite !string_app_assoc.
Qed.

Lemma quote_unit_ok s out n : quote_unit s = Some (out, n) → str_ok out.
Proof.
  destruct s as [|c s]; [done|]. unfold quote_unit. destruct (code c <? 128)%N eqn:Ec.
  - intros [= <- _]. unfold escape_byte. destruct (bool_decide (c = dq)) eqn:E1; simpl.
    { apply bool_decide_eq_true in E1 as ->. by apply str_ok_escape; by_decide. }
    apply bool_decide_eq_false in E1. case_bool_decide as E2; [subst; apply str_ok_escape; by_decide|].
    repeat (case_bool_decide; [apply str_ok_escape; by_decide|]).
    destruct (code c <? 32)%N eqn:E3; [apply str_ok_escape_u; apply N.ltb_lt in E3; lia|by apply str_ok_char].
  - destruct (rune_len (String c s)) as [k|] eqn:Ek.
    + repeat case_bool_decide; intros [= <- _]; [apply str_ok_escape_u; lia..|]. by apply str_ok_high, rune_high.
    + intros [= <- _]. apply str_ok_escape_u. lia.
Qed.

Lemma quote_ok s : str_ok (quote s).
Proof.
  unfold quote. remember (String.length s) as n eqn:Hn. revert s Hn. induction n as [n IH] using lt_wf_ind; intros s ->.
  destruct (decide (s = "")) as [->|Hs]; [apply str_ok_nil|].
  destruct (quote_unit_spec s Hs) as (ch & t & out & v & -> & Hch & Hq & _).
  rewrite (units_step _ _ _ out Hch Hq). destruct (units quote_unit 0 t) as [q|] eqn:Eq; [|apply str_ok_nil]. simpl.
  apply str_ok_app; [by apply quote_unit_ok in Hq|].
  assert (str_ok (default "" (units quote_unit 0 t))) as Ht; [|by rewrite Eq in Ht].
  eapply IH; [|done]. rewrite string_app_length. destruct ch; [done|simpl; lia].
Qed.

(** ** Tokens that are read as they are written *)

Fixpoint num_run (st : numst) (s : string) : option numst :=
  match s with EmptyString => Some st | String c s => st ← num_step st c; num_run st s end.
Definition num_state (s : string) : option numst :=
  match s with EmptyString => None | String c s => st ← num_start c; num_run st s end.
Definition is_number (s : string) : bool := match num_state s with Some st => num_ends st | None => false end.

Lemma num_run_app st a b : num_run st (a +:+ b) = (st ← num_run st a; num_run st b).
Proof. revert st. induction a as [|c a IH]; intros st; [done|]. simpl. destruct (num_step st c); [apply IH|done]. Qed.

Definition tok_ok (t : token) : Prop :=
  match t with TStr raw => str_ok raw | TNum raw => is_number raw = true | _ => True end.

(** A byte that no number goes on with. *)
Definition delim (s : string) : bool :=
  match s with
  | EmptyString => true
  | String c _ => negb (isDigit c || isE c || bool_decide (c = "."%char) || bool_decide (c = "+"%char) || bool_decide (c = "-"%char))
  end.

Lemma delim_num_step c s st : delim (String c s) = true → num_step st c = None.
Proof.
  simpl. rewrite negb_true_iff, !orb_false_iff. intros [[[[H1 H2] H3] H4] H5].
  destruct st; simpl; rewrite ?H1, ?H2, ?H3, ?H4, ?H5; try done.
  assert (bool_decide (c = "0"%char) = false) as ->; [|done]. apply bool_decide_eq_false. by intros ->.
Qed.

Lemma lex_num_run st raw acc s st' : num_run st raw = Some st' → lex (LNum st acc) (raw +:+ s) = lex (LNum st' (acc +:+ raw)) s.
Proof.
  revert st acc. induction raw as [|c raw IH]; intros st acc; simpl.
  - intros [= <-]. by rewrite string_app_nil_r.
  - destruct (num_step st c) as [st1|] eqn:E; [|done]. simpl. intros H.
    rewrite (IH st1 _ H). destruct (lex _ s) eqn:El; rewrite string_app_assoc in El; simpl in El; by rewrite El.
Qed.

Lemma lex_num_end st raw s :
  num_ends st = true → delim s = true → lex (LNum st raw) s = (ts ← lex LIdle s; Some (TNum raw :: ts)).
Proof.
  intros He Hd. destruct s as [|c s]; simpl; [by rewrite He|]. rewrite (delim_num_step c s st Hd), He.
  destruct (lex_idle c) as [[ts st']|]; [|done]. simpl. by destruct (lex st' s).
Qed.

Lemma num_start_idle c st : num_start c = Some st → lex_idle c = Some ([], LNum st (str1 c)).
Proof.
  unfold num_start. intros H. assert (c ∈ ("-"%char :: (ascii_of_nat <$> seq 48 10))) as Hin.
  { case_bool_decide; [subst; constructor|]. constructor. case_bool_decide; [subst; by_decide|].
    destruct (isDigit c) eqn:Ed; [|done]. unfold isDigit, between, code in Ed. apply andb_true_iff in Ed as [E1 E2].
    apply N.leb_le in E1, E2. apply list_elem_of_fmap. exists (nat_of_ascii c). rewrite ascii_nat_embedding. split; [done|].
    apply elem_of_seq. unfold nat_of_ascii. lia. }
  revert H. repeat (apply elem_of_cons in Hin as [->|Hin]; [vm_compute; by intros [= <-]|]). by apply elem_of_nil in Hin.
Qed.

Lemma lex_tok t s :
  tok_ok t → (∀ raw, t = TNum raw → delim s = true) →
  lex LIdle (tok_text t +:+ s) = (ts ← lex LIdle s; Some (t :: ts)).
Proof.
  intros Ht Hd. destruct t; try (simpl; by destruct (lex LIdle s)).
  - simpl in Ht. change (tok_text (TStr raw)) with (String dq (raw +:+ str1 dq)). rewrite string_app_cons.
    rewrite (lex_quiet LIdle dq (LStr "")) by done. rewrite string_app_assoc, Ht. simpl. by destruct (lex LIdle s).
  - simpl in Ht. unfold is_number, num_state in Ht. destruct raw as [|c raw]; [done|]. simpl in Ht.
    destruct (num_start c) as [st0|] eqn:Es; [|done]. simpl in Ht. destruct (num_run st0 raw) as [st1|] eqn:Er; [|done].
    change (tok_text (TNum (String c raw))) with (String c raw). rewrite string_app_cons.
    rewrite (lex_quiet LIdle c (LNum st0 (str1 c))) by (by apply num_start_idle).
    rewrite (lex_num_run _ _ _ _ _ Er). by rewrite lex_num_end by eauto.
Qed.

(** After a number comes a comma or an end. *)
Definition is_num (t : token) : bool := match t with TNum _ => true | _ => false end.
Definition is_punct (t : token) : bool := match t with TComma | TRBrack | TRBrace => true | _ => false end.
Fixpoint separated (ts : list token) : bool :=
  match ts with
  | [] => true
  | t :: rest => (negb (is_num t) || match rest with [] => true | t' :: _ => is_punct t' end) && separated rest
  end.

Lemma isWs_delim c s : isWs c = true → delim (String c s) = true.
Proof.
  unfold isWs. intros H. rewrite !orb_true_iff, !bool_decide_eq_true in H.
  assert (c = ascii_of_N (code c)) as -> by (symmetry; apply ascii_N_embedding).
  destruct H as [[[H|H]|H]|H]; rewrite H; reflexivity.
Qed.

Lemma all_ws_delim ws s : all_ws ws = true → (ws = "" → delim s = true) → delim (ws +:+ s) = true.
Proof. destruct ws as [|c ws]; simpl; [auto|]. intros [Hc _]%andb_true_iff _. exact (isWs_delim c "" Hc). Qed.

Lemma render_delim l tail :
  match l with [] => True | (_, t) :: _ => is_punct t = true end → Forall (λ x, all_ws x.1 = true) l → all_ws tail = true →
  delim (render l +:+ tail) = true.
Proof.
  destruct l as [|[ws t] l]; intros Ht H Hw.
  - simpl. rewrite <- (string_app_nil_r tail). by apply all_ws_delim.
  - apply Forall_cons in H as [Hws _]. simpl in *. rewrite string_app_assoc. apply all_ws_delim; [done|]. intros _. by destruct t.
Qed.

(** Tokens with white space between and behind them are read back. *)
Lemma lex_render_tail l tail :
  Forall (λ x, all_ws x.1 = true) l → Forall tok_ok l.*2 → separated l.*2 = true → all_ws tail = true →
  lex LIdle (render l +:+ tail) = Some l.*2.
Proof.
  induction l as [|[ws t] l IH]; intros Hw Ht Hs Ha; [simpl; rewrite <- (string_app_nil_r tail); by rewrite lex_ws|].
  rewrite fmap_cons in *. apply Forall_cons in Hw as [Hw0 Hw].
  apply Forall_cons in Ht as [Ht0 Ht]. apply andb_true_iff in Hs as [Hs0 Hs]. simpl in *. rewrite !string_app_assoc.
  rewrite lex_ws by done. rewrite lex_tok; [by rewrite IH|done|].
  intros raw ->. apply render_delim; [|done..]. simpl in Hs0. by destruct l as [|[ws' t'] l].
Qed.
Lemma lex_render l :
  Forall (λ x, all_ws x.1 = true) l → Forall tok_ok l.*2 → separated l.*2 = true → lex LIdle (render l) = Some l.*2.
Proof. intros. rewrite <- (string_app_nil_r (render l)). by apply lex_render_tail. Qed.

(** ** What the scanner lets through *)

Definition lexst_ok (st : lexst) : Prop :=
  match st with
  | LIdle => True
  | LStr raw => str_ok raw
  | LEsc raw => ∀ acc s, lex (LStr acc) (raw +:+ s) = lex (LEsc (acc +:+ raw)) s
  | LHex k raw => ∀ acc s, lex (LStr acc) (raw +:+ s) = lex (LHex k (acc +:+ raw)) s
  | LNum n raw => num_state raw = Some n
  | LWord _ tok => tok_ok tok
  end.

Lemma lex_idle_ok c ts st : lex_idle c = Some (ts, st) → lexst_ok st ∧ Forall tok_ok ts.
Proof.
  unfold lex_idle. intros H.
  repeat (case_match; [simplify_eq; split; [try done; apply str_ok_nil|by repeat constructor]|]).
  destruct (num_start c) as [n|] eqn:En; simplify_eq/=. rewrite En. split; [done|constructor].
Qed.

(** One more byte of a string keeps what was read of it. *)
Lemma lex_more (f g : string → lexst) raw c :
  (∀ acc s, lex (LStr acc) (raw +:+ s) = lex (f (acc +:+ raw)) s) →
  (∀ x, lex_step (f x) c = Some ([], g (x +:+ str1 c))) →
  ∀ acc s, lex (LStr acc) ((raw +:+ str1 c) +:+ s) = lex (g (acc +:+ (raw +:+ str1 c))) s.
Proof.
  intros Hf Hg acc s. rewrite string_app_assoc, Hf. unfold str1 at 1. rewrite string_app_cons.
  rewrite (lex_quiet _ _ _ _ (Hg _)). by rewrite string_app_assoc.
Qed.

Lemma lex_step_ok st c ts st' : lexst_ok st → lex_step st c = Some (ts, st') → lexst_ok st' ∧ Forall tok_ok ts.
Proof.
  destruct st as [|raw|raw|k raw|n raw|rest tok]; simpl; intros Hok H.
  - by eapply lex_idle_ok.
  - case_bool_decide as E1; [simplify_eq; split; [done|by repeat constructor]|].
    case_bool_decide as E2; [simplify_eq; split; [|constructor]|].
    + by refine (lex_more LStr LEsc raw _ Hok _).
    + destruct (code c <? 32)%N eqn:E3; simplify_eq. split; [|constructor]. apply str_ok_app; [done|by apply str_ok_char].
  - case_bool_decide as E1; [simplify_eq; split; [|constructor]|case_bool_decide as E2; simplify_eq; split; [|constructor]].
    + refine (lex_more LEsc LStr raw _ Hok _). intros x. simpl. by rewrite bool_decide_true.
    + by refine (lex_more LEsc (LHex 3) raw _ Hok _).
  - destruct (hex_val c) as [v|] eqn:E; simplify_eq. split; [|constructor]. destruct k as [|k].
    + refine (lex_more (LHex 0) LStr raw _ Hok _). intros x. simpl. by rewrite E.
    + refine (lex_more (LHex (S k)) (LHex k) raw _ Hok _). intros x. simpl. by rewrite E.
  - destruct (num_step n c) as [n'|] eqn:E; simplify_eq/=.
    + split; [|constructor]. unfold num_state in *. destruct raw as [|c0 raw]; [done|]. simpl.
      destruct (num_start c0) as [n0|]; [|done]. simpl in *. rewrite num_run_app, Hok. simpl. by rewrite E.
    + destruct (num_ends n) eqn:En; [|done]. destruct (lex_idle c) as [[ts0 st0]|] eqn:Ei; simplify_eq/=.
      destruct (lex_idle_ok _ _ _ Ei) as [Ho Ht]. split; [done|]. constructor; [|done]. simpl. unfold is_number. by rewrite Hok.
  - destruct rest as [|r rest]; [done|]. repeat case_bool_decide; simplify_eq; (split; [done|]); by repeat constructor.
Qed.

Lemma lex_ok s st ts : lexst_ok st → lex st s = Some ts → Forall tok_ok ts.
Proof.
  revert st ts. induction s as [|c s IH]; intros st ts Hok H; simpl in H.
  - destruct st; simplify_eq/=; [constructor|]. destruct (num_ends st) eqn:E; simplify_eq. constructor; [|constructor].
    simpl. unfold is_number. by rewrite Hok.
  - destruct (lex_step st c) as [[ts0 st0]|] eqn:E; [|done]. simpl in H. destruct (lex st0 s) as [rest|] eqn:El; simplify_eq/=.
    destruct (lex_step_ok _ _ _ _ Hok E) as [H1 H2]. apply Forall_app. split; [done|]. by eapply IH.
Qed.

(** ** What the grammar lets through *)

Definition at_end (m : mode) : bool := match m with MAfter | MDone _ => true | _ => false end.

Lemma complete_end v stack : at_end (complete v stack).2 = true.
Proof. by destruct stack as [|[]]. Qed.

Lemma pstep_end s t s' : pstep s t = Some s' → at_end s.2 = true → is_punct t = true.
Proof. destruct s as [stack m]. destruct m, stack as [|[] ?], t; simpl; try done. Qed.

Lemma pstep_num s t s' : pstep s t = Some s' → is_num t = true → at_end s'.2 = true.
Proof.
  destruct t; try done. intros H _. destruct s as [stack m].
  destruct m; destruct stack as [|[acc|acc k] stack]; simpl in H; by simplify_eq.
Qed.

Lemma pfrom_separated ts s s' :
  pfrom s ts = Some s' → separated ts = true ∧ (at_end s.2 = true → match ts with [] => True | t :: _ => is_punct t = true end).
Proof.
  revert s. induction ts as [|t ts IH]; intros s H; [done|]. simpl in H.
  destruct (pstep s t) as [s1|] eqn:E; [|done]. simpl in H. destruct (IH s1 H) as [Hs Hp]. split.
  - simpl. rewrite Hs, andb_true_r. destruct (is_num t) eqn:En; [|done]. simpl.
    specialize (Hp (pstep_num _ _ _ E En)). by destruct ts.
  - intros Hend. by eapply pstep_end.
Qed.

(** ** Formatting *)

Lemma blanks_ws n : all_ws (blanks n) = true.
Proof. induction n as [|n IH]; [done|]. unfold all_ws in *. by rewrite <- IH. Qed.

Lemma indent_ok ts depth need pending :
  all_ws pending = true →
  (indent depth need pending ts).*2 = ts ∧ Forall (λ x, all_ws x.1 = true) (indent depth need pending ts).
Proof.
  assert (∀ d, all_ws (newline_at d) = true) as Hnl by (intros d; unfold newline_at, all_ws; simpl; apply blanks_ws).
  revert depth need pending. induction ts as [|t ts IH]; intros depth need pending Hp; [by split|].
  assert (∀ d n p, all_ws p = true → (indent d n p ts).*2 = ts) as IH1 by (intros; by apply IH).
  assert (∀ d n p, all_ws p = true → Forall (λ x, all_ws x.1 = true) (indent d n p ts)) as IH2 by (intros; by apply IH).
  destruct t, need; csimpl; (split; [f_equal; by apply IH1|constructor; [first [done|apply Hnl]|by apply IH2]]).
Qed.

Lemma parse_indented text ts tail j :
  lex LIdle text = Some ts → parse_tokens ts = Some j → all_ws tail = true → parse_json (render (indent 0 false "" ts) +:+ tail) = Some j.
Proof.
  intros El Ep Ht. destruct (indent_ok ts 0 false "" eq_refl) as [H1 H2]. unfold parse_json.
  rewrite lex_render_tail; [simpl; by rewrite H1|done|rewrite H1; by apply (lex_ok text LIdle)| |done].
  rewrite H1. unfold parse_tokens in Ep. destruct (pfrom _ ts) as [s|] eqn:Ef; [|done]. by apply pfrom_separated in Ef as [? _].
Qed.

Lemma Format_parse text j : parse_json text = Some j → ∃ text', Format text = Some text' ∧ parse_json text' = Some j.
Proof.
  unfold parse_json at 1. unfold Format. destruct (lex LIdle text) as [ts|] eqn:El; [|done]. simpl. intros Ep. rewrite Ep. simpl.
  eexists. split; [reflexivity|]. apply (parse_indented text); [done..|apply trailing_ws].
Qed.

(** C39. Formatting a text changes nothing of what it says: a text that is JSON is
    formatted, and the result is read as the same value; any other text is refused. *)
Theorem Format_preserves text :
  match parse_json text with
  | Some j => ∃ text', Format text = Some text' ∧ parse_json text' = Some j
  | None => Format text = None
  end.
Proof.
  destruct (parse_json text) as [j|] eqn:E; [by apply Format_parse|]. unfold parse_json, Format in *.
  destruct (lex LIdle text) as [ts|]; [|done]. simpl in *. by rewrite E.
Qed.

(** ** Reading what was printed *)

Section json_ind.
Variable P : json → Prop.
Hypothesis Hnull : P JNull.
Hypothesis Hbool : ∀ b, P (JBool b).
Hypothesis Hnum : ∀ lit, P (JNum lit).
Hypothesis Hstr : ∀ s, P (JStr s).
Hypothesis Harr : ∀ l, Forall P l → P (JArr l).
Hypothesis Hobj : ∀ l, Forall (λ kv, P kv.2) l → P (JObj l).
Fixpoint json_ind' (j : json) : P j :=
  match j with
  | JNull => Hnull
  | JBool b => Hbool b
  | JNum lit => Hnum lit
  | JStr s => Hstr s
  | JArr l => Harr l ((fix go l : Forall P l :=
      match l with [] => Forall_nil_2 P | j :: l => Forall_cons_2 P j l (json_ind' j) (go l) end) l)
  | JObj l => Hobj l ((fix go l : Forall (λ kv, P kv.2) l :=
      match l with [] => Forall_nil_2 _ | kv :: l => Forall_cons_2 _ kv l (json_ind' kv.2) (go l) end) l)
  end.
End json_ind.

(** Every number is one; strings with invalid bytes replaced; how deep arrays and objects
    are nested. *)
Fixpoint numbers_ok (j : json) : bool :=
  match j with
  | JNum lit => is_number lit
  | JArr l => forallb numbers_ok l
  | JObj l => forallb (λ kv, numbers_ok kv.2) l
  | _ => true
  end.
Fixpoint json_valid (j : json) : json :=
  match j with
  | JStr s => JStr (to_valid s)
  | JArr l => JArr (json_valid <$> l)
  | JObj l => JObj ((λ kv, (to_valid kv.1, json_valid kv.2)) <$> l)
  | j => j
  end.
Fixpoint depth (j : json) : nat :=
  match j with
  | JArr l => S (foldr (λ j n, depth j `max` n) 0 l)
  | JObj l => S (foldr (λ kv n, depth kv.2 `max` n) 0 l)
  | _ => 0
  end.
Definition fits (n : nat) : Prop := (N.of_nat n <= maxNestingDepth)%N.

Lemma push_ok f m stack : fits (S (length stack)) → push f m stack = Some (f :: stack, m).
Proof. intros H. unfold push. by rewrite (proj2 (N.leb_le _ _) H). Qed.

(** From a state that waits for a value, the tokens of [j] are read as [j]. *)
Definition reads (j : json) : Prop := ∀ stack m rest,
  m = MValue ∨ (m = MFirst ∧ ∃ st, stack = FArr [] :: st) → fits (length stack + depth j) →
  pfrom (stack, m) (tokens_of j ++ rest) = pfrom (complete (json_valid j) stack) rest.

Lemma pfrom_step s t ts s' : pstep s t = Some s' → pfrom s (t :: ts) = pfrom s' ts.
Proof. intros H. simpl. by rewrite H. Qed.

Lemma pstep_value stack m t :
  m = MValue ∨ (m = MFirst ∧ ∃ st, stack = FArr [] :: st) → t ≠ TRBrack → pstep (stack, m) t = pvalue stack t.
Proof. intros [->|[-> [st ->]]] Ht; [done|]. by destruct t. Qed.

Lemma reads_elements l st acc m rest :
  Forall reads l → l ≠ [] → m = MValue ∨ (m = MFirst ∧ acc = []) →
  fits (S (length st) + foldr (λ j n, depth j `max` n) 0 l) →
  pfrom (FArr acc :: st, m) (sep_by (tokens_of <$> l) ++ TRBrack :: rest) =
    pfrom (complete (JArr (acc ++ (json_valid <$> l))) st) rest.
Proof.
  intros H. revert acc m. induction H as [|j l Hj _ IH]; intros acc m Hne Hm Hd; [done|]. rewrite !fmap_cons. simpl in Hd.
  assert (m = MValue ∨ m = MFirst ∧ ∃ st0, FArr acc :: st = FArr [] :: st0) as Hm'.
  { destruct Hm as [->|[-> ->]]; [by left|right; by eauto]. }
  destruct l as [|j' l].
  - change (sep_by (tokens_of j :: (tokens_of <$> []))) with (tokens_of j). rewrite Hj; [done|done|]. unfold fits in *. simpl. lia.
  - rewrite fmap_cons. change (sep_by (tokens_of j :: tokens_of j' :: (tokens_of <$> l)))
      with (tokens_of j ++ TComma :: sep_by (tokens_of <$> (j' :: l))).
    rewrite <- (assoc_L (++)), Hj; [|done|unfold fits in *; simpl; lia]. simpl (complete _ _).
    rewrite <- app_comm_cons, (pfrom_step _ _ _ (FArr (acc ++ [json_valid j]) :: st, MValue)) by done.
    rewrite IH; [by rewrite <- (assoc_L (++))|done|by left|]. unfold fits in *. simpl in *. lia.
Qed.

Lemma reads_members l st acc k0 m rest :
  Forall (λ kv, reads kv.2) l → l ≠ [] → m = MKey ∨ (m = MKeyOrEnd ∧ acc = []) →
  fits (S (length st) + foldr (λ kv n, depth kv.2 `max` n) 0 l) →
  pfrom (FObj acc k0 :: st, m) (sep_by ((λ kv, TStr (quote kv.1) :: TColon :: tokens_of kv.2) <$> l) ++ TRBrace :: rest) =
    pfrom (complete (JObj (acc ++ ((λ kv, (to_valid kv.1, json_valid kv.2)) <$> l))) st) rest.
Proof.
  intros H. revert acc k0 m. induction H as [|[k j] l Hj _ IH]; intros acc k0 m Hne Hm Hd; [done|]. rewrite !fmap_cons.
  simpl in Hd, Hj.
  assert (∀ ts, pfrom (FObj acc k0 :: st, m) (TStr (quote k) :: TColon :: tokens_of j ++ ts) =
    pfrom (FObj (acc ++ [(to_valid k, json_valid j)]) (to_valid k) :: st, MAfter) ts) as Hmember.
  { intros ts. rewrite (pfrom_step _ _ _ (FObj acc (to_valid k) :: st, MColon)).
    2:{ destruct Hm as [->|[-> ->]]; simpl; unfold pkey; by rewrite unquote_quote. }
    rewrite (pfrom_step _ _ _ (FObj acc (to_valid k) :: st, MValue)) by done.
    rewrite Hj; [done|by left|]. unfold fits in *. simpl. lia. }
  set (f := λ kv : string * json, TStr (quote kv.1) :: TColon :: tokens_of kv.2) in *.
  destruct l as [|kj l].
  - exact (Hmember (TRBrace :: rest)).
  - change (TStr (quote (k, j).1) :: TColon :: tokens_of (k, j).2) with (f (k, j)).
    assert (sep_by (f (k, j) :: (f <$> (kj :: l))) ++ TRBrace :: rest =
      TStr (quote k) :: TColon :: tokens_of j ++ TComma :: sep_by (f <$> (kj :: l)) ++ TRBrace :: rest) as ->.
    { rewrite fmap_cons. cbn [sep_by]. rewrite <- (assoc_L (++)). done. }
    rewrite Hmember, (pfrom_step _ _ _ (FObj (acc ++ [(to_valid k, json_valid j)]) (to_valid k) :: st, MKey)) by done.
    rewrite IH; [by rewrite <- (assoc_L (++))|done|by left|]. unfold fits in *. simpl in *. lia.
Qed.

Lemma reads_json j : reads j.
Proof.
  induction j as [|b|lit|s|l IH|l IH] using json_ind'; intros stack m rest Hm Hd.
  1-4: simpl tokens_of; rewrite <- app_comm_cons; apply pfrom_step; rewrite pstep_value by (by try destruct b); try done.
  - by destruct b.
  - simpl. by rewrite unquote_quote.
  - simpl tokens_of. rewrite <- app_comm_cons, <- (assoc_L (++)).
    rewrite (pfrom_step _ _ _ (FArr [] :: stack, MFirst)).
    2:{ rewrite pstep_value by done. apply push_ok. unfold fits in *. simpl in Hd. lia. }
    destruct l as [|j l]; [done|]. apply (reads_elements (j :: l) stack []); [done|done|by right|]. unfold fits in *. simpl in *. lia.
  - simpl tokens_of. rewrite <- app_comm_cons, <- (assoc_L (++)).
    rewrite (pfrom_step _ _ _ (FObj [] "" :: stack, MKeyOrEnd)).
    2:{ rewrite pstep_value by done. apply push_ok. unfold fits in *. simpl in Hd. lia. }
    destruct l as [|kj l]; [done|]. apply (reads_members (kj :: l) stack []); [done|done|by right|]. unfold fits in *. simpl in *. lia.
Qed.

Lemma parse_tokens_of j : fits (depth j) → parse_tokens (tokens_of j) = Some (json_valid j).
Proof.
  intros Hd. unfold parse_tokens. rewrite <- (app_nil_r (tokens_of j)), (reads_json j); [done|by left|done].
Qed.

Lemma Forall_sep_by (P : token → Prop) ls : P TComma → Forall (Forall P) ls → Forall P (sep_by ls).
Proof.
  intros Hc H. induction H as [|x l Hx Hl IH]; [constructor|]. destruct l; [done|].
  simpl. apply Forall_app. split; [done|]. by constructor.
Qed.

Lemma tokens_ok j : numbers_ok j = true → Forall tok_ok (tokens_of j).
Proof.
  induction j as [|b|lit|s|l IH|l IH] using json_ind'; simpl; intros Hn.
  - by repeat constructor.
  - by destruct b; repeat constructor.
  - by repeat constructor.
  - constructor; [apply quote_ok|constructor].
  - constructor; [done|]. apply Forall_app. split; [|by repeat constructor]. apply Forall_sep_by; [done|].
    rewrite forallb_forall in Hn. apply Forall_fmap, Forall_forall. intros j Hj. rewrite Forall_forall in IH.
    apply IH; [done|]. by apply Hn, list_elem_of_In.
  - constructor; [done|]. apply Forall_app. split; [|by repeat constructor]. apply Forall_sep_by; [done|].
    rewrite forallb_forall in Hn. apply Forall_fmap, Forall_forall. intros kv Hkv. rewrite Forall_forall in IH.
    constructor; [apply quote_ok|]. constructor; [done|]. apply IH; [done|]. by apply Hn, list_elem_of_In.
Qed.

Lemma parse_print j : numbers_ok j = true → fits (depth j) → parse_json (print j) = Some (json_valid j).
Proof.
  intros Hn Hd. unfold parse_json, print.
  assert (((λ t, ("", t)) <$> tokens_of j).*2 = tokens_of j) as E2.
  { rewrite <- list_fmap_compose. apply list_fmap_id. }
  rewrite lex_render; [simpl; rewrite E2; by apply parse_tokens_of|..].
  - apply Forall_fmap, Forall_forall. done.
  - rewrite E2. by apply tokens_ok.
  - rewrite E2. pose proof (parse_tokens_of j Hd) as Hp. unfold parse_tokens in Hp.
    destruct (pfrom _ _) as [s|] eqn:Ef; [|done]. by apply pfrom_separated in Ef as [? _].
Qed.

Lemma drop_last_snoc s c : drop_last (s +:+ str1 c) = s.
Proof. induction s as [|a s IH]; [done|]. simpl. rewrite IH. by destruct s. Qed.

Lemma Marshal2_print j : Marshal2 j = print j.
Proof. apply drop_last_snoc. Qed.

(** What the encoder prints is read back, as it is and after formatting: for a value
    with well-formed numbers that is not nested more than 10000 deep, parsing the text
    gives the value again, with the bytes of its strings that are not UTF-8 replaced. *)
Theorem json_roundtrip j :
  numbers_ok j = true → fits (depth j) →
  parse_json (Marshal2 j) = Some (json_valid j) ∧
  ∃ text, Format (Marshal2 j) = Some text ∧ parse_json text = Some (json_valid j).
Proof.
  intros Hn Hd. rewrite Marshal2_print. pose proof (parse_print j Hn Hd) as Hp. split; [done|]. by apply Format_parse.
Qed.
