(* ===== verification/JsonValid.v ===== *)
(** * What is read from JSON is valid UTF-8

    The decoder replaces bytes that are not UTF-8 and halves of surrogate pairs, and
    writes the runes of escapes as UTF-8: every string and every key of a value that was
    parsed is valid. *)

From Stdlib Require Import Ascii.
From S2P Require Import Prelude GoStrings JsonText JsonParse.

(** A string of whole runes: it stays what it is, whatever comes after. *)
Definition whole (a : string) : Prop := ∀ b, to_valid (a +:+ b) = a +:+ to_valid b.

Lemma units_valid_total s : ∃ v, units valid_unit 0 s = Some v.
Proof. destruct (quote_to_valid s) as (_ & v & _ & Hv & _). eauto. Qed.

Lemma whole_nil : whole "".
Proof. done. Qed.
Lemma whole_app a b : whole a → whole b → whole (a +:+ b).
Proof. intros Ha Hb c. by rewrite string_app_assoc, Ha, Hb, string_app_assoc. Qed.
Lemma whole_valid a : whole a → to_valid a = a.
Proof. intros H. specialize (H ""). by rewrite !string_app_nil_r in H. Qed.

Lemma whole_rune a : a ≠ "" → (∀ b, rune_len (a +:+ b) = Some (String.length a)) → whole a.
Proof.
  intros Hne Hr b. unfold to_valid. rewrite (units_step _ a b a Hne).
  - by destruct (units_valid_total b) as [v ->].
  - unfold valid_unit. by rewrite Hr, substring_app_l.
Qed.

(** ** Encoded runes *)

Lemma code_ascii n : (n < 256)%N → code (ascii_of_N n) = n.
Proof. apply N_ascii_embedding. Qed.

Lemma between_ascii lo hi n : (n < 256)%N → between lo hi (ascii_of_N n) = ((lo <=? n) && (n <=? hi))%N.
Proof. intros Hn. unfold between. by rewrite code_ascii. Qed.

Lemma rune_need_ascii n : (n < 256)%N → rune_need (ascii_of_N n) =
  if (n <? 128)%N then 1 else if ((194 <=? n) && (n <=? 223))%N then 2 else if ((224 <=? n) && (n <=? 239))%N then 3
  else if ((240 <=? n) && (n <=? 244))%N then 4 else 0.
Proof. intros Hn. unfold rune_need. by rewrite code_ascii, !between_ascii. Qed.

Lemma second_ok_ascii a b :
  (a < 256)%N → (128 <= b <= 191)%N → (a = 224 → 160 <= b)%N → (a = 237 → b <= 159)%N → (a = 240 → 144 <= b)%N → (a = 244 → b <= 143)%N →
  second_ok (ascii_of_N a) (ascii_of_N b) = true.
Proof.
  intros Ha Hb H1 H2 H3 H4. unfold second_ok. rewrite code_ascii, !between_ascii by lia.
  repeat case_bool_decide; apply andb_true_iff; rewrite !N.leb_le; lia.
Qed.
Lemma cont_ascii b : (b <= 63)%N → between 128 191 (ascii_of_N (128 + b)) = true.
Proof. intros Hb. rewrite between_ascii by lia. apply andb_true_iff. rewrite !N.leb_le. lia. Qed.

(** The lead byte of a rune of [k] bytes, and the bytes after it. *)
Lemma rune_len_lead a b k s :
  rune_need (ascii_of_N a) = S (S k) → second_ok (ascii_of_N a) (ascii_of_N b) = true → conts k s = true →
  rune_len (String (ascii_of_N a) (String (ascii_of_N b) s)) = Some (S (S k)).
Proof. intros Ha Hb Hs. unfold rune_len. by rewrite Ha, Hb, Hs. Qed.

Ltac rune_need_tac := rewrite rune_need_ascii by lia; repeat case_match; try done; exfalso;
  rewrite ?andb_true_iff, ?andb_false_iff, ?N.leb_le, ?N.leb_gt, ?N.ltb_lt, ?N.ltb_ge in *; lia.

Lemma whole_rune1 r : (r < 128)%N → whole (str1 (ascii_of_N r)).
Proof.
  intros Hr. apply whole_rune; [done|]. intros s. unfold str1. rewrite string_app_cons. unfold rune_len.
  assert (rune_need (ascii_of_N r) = 1) as -> by rune_need_tac. done.
Qed.

Lemma whole_rune2 q k :
  (2 <= q < 32)%N → (k < 64)%N → whole (String (ascii_of_N (192 + q)) (str1 (ascii_of_N (128 + k)))).
Proof.
  intros Hq Hk. apply whole_rune; [done|]. intros s. unfold str1. rewrite !string_app_cons.
  apply rune_len_lead; [rune_need_tac|apply second_ok_ascii; lia|done].
Qed.

Lemma whole_rune3 q m k :
  (q < 16)%N → (m < 64)%N → (k < 64)%N → (q = 0 → 32 <= m)%N → (q = 13 → m <= 31)%N →
  whole (String (ascii_of_N (224 + q)) (String (ascii_of_N (128 + m)) (str1 (ascii_of_N (128 + k))))).
Proof.
  intros Hq Hm Hk H0 H13. apply whole_rune; [done|]. intros s. unfold str1. rewrite !string_app_cons.
  apply rune_len_lead; [rune_need_tac|apply second_ok_ascii; lia|]. simpl. by rewrite cont_ascii by lia.
Qed.

Lemma whole_rune4 q p m k :
  (q < 5)%N → (p < 64)%N → (m < 64)%N → (k < 64)%N → (q = 0 → 16 <= p)%N → (q = 4 → p <= 15)%N →
  whole (String (ascii_of_N (240 + q)) (String (ascii_of_N (128 + p)) (String (ascii_of_N (128 + m)) (str1 (ascii_of_N (128 + k)))))).
Proof.
  intros Hq Hp Hm Hk H0 H4. apply whole_rune; [done|]. intros s. unfold str1. rewrite !string_app_cons.
  apply rune_len_lead; [rune_need_tac|apply second_ok_ascii; lia|]. simpl. by rewrite !cont_ascii by lia.
Qed.

Lemma div_mod_64 r : (r = 64 * (r / 64) + r mod 64 ∧ r mod 64 < 64)%N.
Proof. split; [by apply N.div_mod|by apply N.mod_lt]. Qed.

Lemma encode_rune_whole r : (r < 1114112)%N → (r < 55296 ∨ 57343 < r)%N → whole (encode_rune r).
Proof.
  intros Hr Hs. unfold encode_rune. pose proof (div_mod_64 r) as [E0 L0]. pose proof (div_mod_64 (r / 64)) as [E1 L1].
  pose proof (div_mod_64 (r / 4096)) as [E2 L2].
  rewrite !N.Div0.div_div in E1, E2. change (64 * 64)%N with 4096%N in E1. change (4096 * 64)%N with 262144%N in E2.
  set (q := (r / 64)%N) in *. set (q2 := (r / 4096)%N) in *. set (q3 := (r / 262144)%N) in *.
  set (k := (r mod 64)%N) in *. set (m := (q mod 64)%N) in *. set (p := (q2 mod 64)%N) in *. clearbody q q2 q3 k m p.
  destruct (r <? 128)%N eqn:B1; [|destruct (r <? 2048)%N eqn:B2; [|destruct (r <? 65536)%N eqn:B3]];
    rewrite ?N.ltb_lt, ?N.ltb_ge in *.
  - by apply whole_rune1.
  - apply whole_rune2; lia.
  - apply whole_rune3; lia.
  - apply whole_rune4; lia.
Qed.

(** ** Unquoted strings *)

Lemma units_whole f k s v : (∀ s out n, f s = Some (out, n) → whole out) → units f k s = Some v → whole v.
Proof.
  intros Hf. revert k v. induction s as [|c s IH]; intros k v H; [simpl in H; simplify_eq; apply whole_nil|].
  destruct k as [|k]; cbn [units] in H; [|by eapply IH].
  destruct (f (String c s)) as [[out n]|] eqn:E; [|done]. simpl in H.
  destruct (units f (pred n) s) as [rest|] eqn:Er; [|done]. simpl in H. simplify_eq.
  apply whole_app; [by eapply Hf|by eapply IH].
Qed.

Lemma valid_unit_whole s out n : valid_unit s = Some (out, n) → whole out.
Proof.
  unfold valid_unit. destruct (rune_len s) as [k|] eqn:E; intros; simplify_eq.
  - destruct (rune_split s n E) as (ch & t & -> & Hne & <- & Hr). rewrite substring_app_l. by apply whole_rune.
  - by apply encode_rune_whole; [|right].
Qed.

Lemma hex_val_bound c n : hex_val c = Some n → (n < 16)%N.
Proof.
  unfold hex_val, between. intros H. repeat case_match; simplify_eq; rewrite ?andb_true_iff, ?N.leb_le in *; lia.
Qed.
Lemma hex4_bound s r : hex4 s = Some r → (r < 65536)%N.
Proof.
  intros H. destruct s as [|a [|b [|c [|d s]]]]; simplify_eq/=.
  destruct (hex_val a) as [va|] eqn:Ea; [|done]. destruct (hex_val b) as [vb|] eqn:Eb; [|done].
  destruct (hex_val c) as [vc|] eqn:Ec; [|done]. destruct (hex_val d) as [vd|] eqn:Ed; [|done]. simplify_eq/=.
  apply hex_val_bound in Ea, Eb, Ec, Ed. lia.
Qed.

Lemma escape_whole e n : find_escape e simple_escapes = Some n → whole (str1 (ascii_of_N n)).
Proof. unfold simple_escapes. simpl. repeat case_bool_decide; intros; simplify_eq; by apply whole_rune1. Qed.

Lemma surrogate_pair_whole r s r2 :
  high_surrogate r = true → low_half s = Some r2 → whole (encode_rune (65536 + (r - 55296) * 1024 + (r2 - 56320))).
Proof.
  unfold high_surrogate. rewrite andb_true_iff, !N.leb_le. intros Hr Hl. destruct s as [|a [|b s]]; simplify_eq/=. case_bool_decide; [|done].
  destruct (hex4 s) as [x|]; [|done]. simpl in Hl. destruct (low_surrogate x) eqn:E; simplify_eq.
  unfold low_surrogate in E. rewrite andb_true_iff, !N.leb_le in E. apply encode_rune_whole; lia.
Qed.

Lemma unquote_unit_whole s out n : unquote_unit s = Some (out, n) → whole out.
Proof.
  destruct s as [|c s]; [done|]. cbn [unquote_unit]. case_bool_decide as Hc.
  - destruct s as [|e s]; [done|]. case_bool_decide as He.
    + destruct (hex4 s) as [r|] eqn:Eh; [|done]. cbn [mbind option_bind].
      destruct (high_surrogate r) eqn:H1; cbn [orb].
      * destruct (low_half _) as [r2|] eqn:El; intros; simplify_eq; [by eapply surrogate_pair_whole|by apply encode_rune_whole; [|right]].
      * destruct (low_surrogate r) eqn:H2; intros; simplify_eq; [by apply encode_rune_whole; [|right]|].
        apply hex4_bound in Eh. unfold high_surrogate, low_surrogate in *. rewrite andb_false_iff, !N.leb_gt in H1, H2.
        apply encode_rune_whole; lia.
    + destruct (find_escape e simple_escapes) as [x|] eqn:Ef; [|done]. cbn [mbind option_bind]. intros; simplify_eq. by eapply escape_whole.
  - destruct (_ || _); [done|]. destruct (code c <? 128)%N eqn:E; [|apply valid_unit_whole].
    intros; simplify_eq. rewrite <- (ascii_N_embedding c). apply whole_rune1. by apply N.ltb_lt.
Qed.

Lemma unquote_valid s v : unquote s = Some v → to_valid v = v.
Proof. intros H. by eapply whole_valid, units_whole, H; apply unquote_unit_whole. Qed.

(** ** Parsed values *)

Definition valid (j : json) : Prop := json_valid j = j.
Definition valid_entry (kv : string * json) : Prop := to_valid kv.1 = kv.1 ∧ valid kv.2.

Lemma valid_arr l : Forall valid l → valid (JArr l).
Proof. intros H. unfold valid. simpl. f_equal. induction H as [|j l Hj _ IH]; [done|]. csimpl. by rewrite Hj, IH. Qed.
Lemma valid_obj l : Forall valid_entry l → valid (JObj l).
Proof.
  intros H. unfold valid. simpl. f_equal. induction H as [|[k j] l [Hk Hj] _ IH]; [done|]. csimpl in *.
  by rewrite Hk, Hj, IH.
Qed.

Lemma fmap_fixed {A} (f : A → A) l : f <$> l = l → Forall (λ a, f a = a) l.
Proof. induction l as [|a l IH]; intros H; csimpl in *; [done|]. simplify_eq. constructor; auto. Qed.
Lemma valid_arr_inv l : valid (JArr l) → Forall valid l.
Proof. unfold valid. simpl. intros [= H]. by apply fmap_fixed. Qed.
Lemma valid_obj_inv l : valid (JObj l) → Forall valid_entry l.
Proof.
  unfold valid. simpl. intros [= H]. eapply Forall_impl; [exact (fmap_fixed _ _ H)|]. intros [k j] [= H1 H2]. by split.
Qed.

Definition valid_frame (f : frame) : Prop :=
  match f with FArr acc => Forall valid acc | FObj acc key => Forall valid_entry acc ∧ to_valid key = key end.
Definition valid_state (s : pstate) : Prop :=
  Forall valid_frame s.1 ∧ match s.2 with MDone v => valid v | _ => True end.

Lemma complete_valid v stack : valid v → Forall valid_frame stack → valid_state (complete v stack).
Proof.
  intros Hv H. destruct H as [|f stack Hf H]; [by split|]. destruct f as [acc|acc k]; (split; [|done]); constructor; try done.
  - apply Forall_app. split; [done|]. by constructor.
  - destruct Hf as [Ha Hk]. split; [|done]. apply Forall_app. split; [done|]. by constructor.
Qed.

Lemma push_valid f m stack s : push f m stack = Some s → valid_frame f → Forall valid_frame stack → match m with MDone _ => False | _ => True end → valid_state s.
Proof. unfold push. case_match; intros; simplify_eq. split; [by constructor|]. by destruct m. Qed.

Lemma pvalue_valid stack t s : Forall valid_frame stack → pvalue stack t = Some s → valid_state s.
Proof.
  intros Hs H. destruct t; simplify_eq/=; try by apply complete_valid.
  - eapply push_valid; [done|split; [constructor|done]|done|done].
  - eapply push_valid; [done|constructor|done|done].
  - destruct (unquote raw) as [v|] eqn:E; [|done]. simplify_eq/=. apply complete_valid; [|done].
    unfold valid. simpl. by rewrite (unquote_valid _ _ E).
Qed.

Lemma pkey_valid acc st raw s : pkey acc st raw = Some s → Forall valid_entry acc → Forall valid_frame st → valid_state s.
Proof.
  unfold pkey. destruct (unquote raw) as [k|] eqn:E; [|done]. intros; simplify_eq/=. split; [|done]. constructor; [|done].
  split; [done|]. by eapply unquote_valid.
Qed.

Lemma pstep_valid s t s' : valid_state s → pstep s t = Some s' → valid_state s'.
Proof.
  destruct s as [stack m]. intros [Hs _] H. simpl in Hs. unfold pstep in H. destruct m; [by eapply pvalue_valid|..].
  - destruct Hs as [|[acc|acc k] st Hf Hs]; [by eapply pvalue_valid| |by (eapply pvalue_valid; [|exact H]; constructor)].
    destruct t; try (by (eapply pvalue_valid; [|exact H]; constructor)). simplify_eq. by apply complete_valid; [apply valid_arr|].
  - destruct Hs as [|[acc|acc k] st Hf Hs]; [done..|]. destruct Hf as [Ha Hk].
    destruct t; simplify_eq; [by apply complete_valid; [apply valid_obj|]|by eapply pkey_valid].
  - destruct Hs as [|[acc|acc k] st Hf Hs]; [done..|]. destruct Hf as [Ha Hk]. destruct t; simplify_eq. by eapply pkey_valid.
  - destruct t; simplify_eq. by split.
  - destruct Hs as [|[acc|acc k] st Hf Hs]; [done|..]; destruct t; simplify_eq; try (split; [by constructor|done]).
    + by apply complete_valid; [apply valid_arr|].
    + destruct Hf as [Ha Hk]. by apply complete_valid; [apply valid_obj|].
  - done.
Qed.

Lemma pfrom_valid ts s s' : valid_state s → pfrom s ts = Some s' → valid_state s'.
Proof.
  revert s. induction ts as [|t ts IH]; intros s Hs H; simpl in H; [by simplify_eq|].
  destruct (pstep s t) as [s1|] eqn:E; [|done]. eapply IH; [|exact H]. by eapply pstep_valid.
Qed.

(** Every string of a parsed value is valid UTF-8. *)
Lemma parse_json_valid text j : parse_json text = Some j → json_valid j = j.
Proof.
  unfold parse_json, parse_tokens. destruct (lex LIdle text) as [ts|]; [|done]. simpl.
  destruct (pfrom ([], MValue) ts) as [[st m]|] eqn:E; [|done]. simpl. destruct m; try done. intros [= <-].
  by apply pfrom_valid in E as [_ Hv]; [|split; [constructor|]].
Qed.
