(* ===== verification/JsonValue.v ===== *)
(** * JSON and dynamic values ([src/utils/json/json.go])

    [Marshal] and [Unmarshal] for [interface{}]: what the components use of
    [encoding/json].  Converting floating-point numbers to and from decimal text is
    package strconv's; values whose Go type the encoder treats by reflection, or refuses,
    are left to a parameter. *)

From Stdlib Require Import Ascii.
From S2P Require Import Prelude Sorting GoStrings Value Config JsonText JsonParse JsonValid Transforms.

(** Numbers are known by their shortest decimal text.  [float_json] is how the encoder
    writes one (not a number or infinite: [None]), [float_parse] the number a literal
    stands for (out of range: [None]).  Documented: the shortest text is read back as
    the same number, and a number that was read is finite. *)
Class FloatText : Type := {
  float_json : string → option string;
  float_parse : string → option string;
  float_json_number : ∀ t lit, float_json t = Some lit → is_number lit = true;
  float_json_parse : ∀ t lit, float_json t = Some lit → float_parse lit = Some t;
  float_parse_finite : ∀ lit t, float_parse lit = Some t → is_Some (float_json t)
}.

Section Values.
Context `{FT : FloatText}.
(** Byte slices, errors, scripts, functions and other Go values. *)
Variable to_json_other : value → result json.
(** The wording of a syntax error. *)
Variable syntax_error : string → string.

Fixpoint seq_results {A} (l : list (result A)) : result (list A) :=
  match l with
  | [] => Ok []
  | x :: l => let? a := x in let? rest := seq_results l in Ok (a :: rest)
  end.
Definition seq_entries {A} (l : list (string * result A)) : result (list (string * A)) :=
  seq_results ((λ kv, let? a := kv.2 in Ok (kv.1, a)) <$> l).

#[local] Arguments seq_entries : simpl never.

(** ** Encoding *)

Definition float_to_json (t : string) : result json :=
  match float_json t with Some lit => Ok (JNum lit) | None => Err ("json: unsupported value: " +:+ t) end.

(** The keys of a map are sorted. *)
Fixpoint to_json (v : value) : result json :=
  match v with
  | VNil => Ok JNull
  | VString s => Ok (JStr s)
  | VBool b => Ok (JBool b)
  | VFloat64 t | VFloat32 t => float_to_json t
  | VInt _ z => Ok (JNum (Itoa z))
  | VSlice l => let? l := seq_results (to_json <$> l) in Ok (JArr l)
  | VMap m => let? m := seq_entries (sort_Slice key_less ((λ kv, (kv.1, to_json kv.2)) <$> m)) in Ok (JObj m)
  | VStrMap m => Ok (JObj (sort_Slice key_less ((λ kv, (kv.1, JStr kv.2)) <$> m)))
  | VIfaceStrMap _ => Err "json: unsupported type: map[interface {}]string"
  | VIfaceMap _ => Err "json: unsupported type: map[interface {}]interface {}"
  | _ => to_json_other v
  end.
Definition Marshal (v : value) : result string := let? j := to_json v in Ok (Marshal2 j).

(** ** Decoding *)

(** A later entry of an object replaces an earlier one with its key. *)
Definition put_entries {A} (l : list (string * A)) : list (string * A) := foldl (λ m kv, assoc_set kv.1 kv.2 m) [] l.

(** Where the decoder is: the struct type whose field it fills and the names of the fields
    from the top, or in no struct. *)
Definition place : Type := option (string * list string).
Definition dot : ascii := "."%char.
Definition type_error (c : place) (what type : string) : string :=
  "json: cannot unmarshal " +:+ what +:+
  match c with
  | None => " into Go value of type " +:+ type
  | Some (struct, path) => " into Go struct field " +:+ struct +:+ "." +:+ Join path dot +:+ " of type " +:+ type
  end.

(** What was decoded, with the values that did not fit: the decoder goes on after one and
    reports the first. *)
Definition decoded (A : Type) : Type := A * list string.

Fixpoint of_json (c : place) (j : json) : decoded value :=
  match j with
  | JNull => (VNil, [])
  | JBool b => (VBool b, [])
  | JStr s => (VString s, [])
  | JNum lit =>
      match float_parse lit with
      | Some t => (VFloat64 t, [])
      | None => (VNil, [type_error c ("number " +:+ lit) "float64"])
      end
  | JArr l => let r := of_json c <$> l in (VSlice (fst <$> r), concat (snd <$> r))
  | JObj l =>
      let r := (λ kv, (kv.1, of_json c kv.2)) <$> l in
      (VMap (put_entries ((λ kr, (kr.1, kr.2.1)) <$> r)), concat ((λ kr, kr.2.2) <$> r))
  end.
Definition report {A} (r : decoded A) : result A := match r.2 with [] => Ok r.1 | e :: _ => Err e end.
Definition Unmarshal (text : string) : result value :=
  match parse_json text with None => Err (syntax_error text) | Some j => report (of_json None j) end.

#[local] Instance go_json : Json := {| json_Marshal := Marshal; json_Unmarshal := Unmarshal |}.

(** ** Values up to the order of their maps *)

Fixpoint canon (v : value) : value :=
  match v with
  | VSlice l => VSlice (canon <$> l)
  | VMap m => VMap (sort_Slice key_less ((λ kv, (kv.1, canon kv.2)) <$> m))
  | VStrMap m => VStrMap (sort_Slice key_less m)
  | v => v
  end.
Definition value_equiv (v w : value) : Prop := canon v = canon w.
#[local] Instance value_equiv_equivalence : Equivalence value_equiv.
Proof. unfold value_equiv. split; repeat intro; congruence. Qed.

Section value_ind.
Variable P : value → Prop.
Hypothesis Hslice : ∀ l, Forall P l → P (VSlice l).
Hypothesis Hmap : ∀ m, Forall (λ kv, P kv.2) m → P (VMap m).
Hypothesis Hother : ∀ v, match v with VSlice _ | VMap _ => False | _ => True end → P v.
Fixpoint value_ind' (v : value) : P v :=
  match v with
  | VSlice l => Hslice l ((fix go l : Forall P l :=
      match l with [] => Forall_nil_2 P | v :: l => Forall_cons_2 P v l (value_ind' v) (go l) end) l)
  | VMap m => Hmap m ((fix go m : Forall (λ kv, P kv.2) m :=
      match m with [] => Forall_nil_2 _ | kv :: m => Forall_cons_2 _ kv m (value_ind' kv.2) (go m) end) m)
  | v => Hother v Logic.I
  end.
End value_ind.

Lemma sort_keys_id {A} (l : list (string * A)) : sort_Slice key_less (sort_Slice key_less l) = sort_Slice key_less l.
Proof. apply (sort_sorted_id _ key_le), sort_Slice_StronglySorted, _. Qed.

Lemma sort_keys_fmap {A B} (f : A → B) (l : list (string * A)) :
  sort_Slice key_less ((λ kv, (kv.1, f kv.2)) <$> l) = (λ kv, (kv.1, f kv.2)) <$> sort_Slice key_less l.
Proof. by apply sort_Slice_fmap. Qed.

(** The encoder does not see the order of a map. *)
Lemma to_json_canon v : to_json (canon v) = to_json v.
Proof.
  induction v as [l IH|m IH|v Hv] using value_ind'.
  - simpl. do 2 f_equal. rewrite <- list_fmap_compose. by apply Forall_fmap_ext.
  - simpl. do 2 f_equal. rewrite !(sort_keys_fmap to_json), sort_keys_id, (sort_keys_fmap canon), <- list_fmap_compose.
    apply Forall_fmap_ext. rewrite sort_Slice_perm. eapply Forall_impl; [exact IH|]. intros [k v] Hv. simpl in *. by rewrite Hv.
  - destruct v; try done. simpl. by rewrite (sort_keys_fmap JStr), sort_keys_id, <- (sort_keys_fmap JStr).
Qed.

#[local] Instance Marshal_proper : Proper (value_equiv ==> (=)) json_Marshal.
Proof. intros v w H. simpl. unfold Marshal. by rewrite <- (to_json_canon v), H, to_json_canon. Qed.

(** ** Reading back *)

(** What [Unmarshal] makes of any text, and [Marshal] accepts: nil, strings, booleans,
    numbers, and slices and maps of such. *)
Fixpoint plain (v : value) : bool :=
  match v with
  | VNil | VBool _ => true
  | VString s => valid_utf8 s
  | VFloat64 t => bool_decide (is_Some (float_json t))
  | VSlice l => forallb plain l
  | VMap m => bool_decide (NoDup m.*1) && forallb (λ kv, valid_utf8 kv.1 && plain kv.2) m
  | _ => false
  end.

Lemma put_entries_id {A} (l : list (string * A)) : NoDup l.*1 → put_entries l = l.
Proof.
  unfold put_entries. intros Hnd. assert (∀ acc, NoDup (acc ++ l).*1 → foldl (λ m kv, assoc_set kv.1 kv.2 m) acc l = acc ++ l) as H;
    [|by apply H].
  clear Hnd. induction l as [|[k v] l IH]; intros acc Hnd; simpl; [by rewrite app_nil_r|].
  rewrite assoc_set_fresh.
  - rewrite IH by (by rewrite <- (assoc_L (++))). by rewrite <- (assoc_L (++)).
  - rewrite fmap_app in Hnd. apply NoDup_app in Hnd as (_ & Hd & _). intros Hin. apply (Hd k Hin). csimpl. constructor.
Qed.

Lemma concat_nils {A B} (f : A → list B) l : (∀ a, f a = []) → concat (f <$> l) = [].
Proof. intros H. induction l as [|a l IH]; [done|]. csimpl. by rewrite H. Qed.

(** A value and its JSON form. *)
Record encodes (v : value) (j : json) : Prop := {
  enc_json : to_json v = Ok j;
  enc_numbers : numbers_ok j = true;
  enc_valid : json_valid j = j;
  enc_back : ∀ c, of_json c j = (canon v, [])
}.

Lemma encodes_slice l js : Forall2 encodes l js → encodes (VSlice l) (JArr js).
Proof.
  intros H. assert (seq_results (to_json <$> l) = Ok js ∧ forallb numbers_ok js = true ∧ json_valid <$> js = js ∧
    ∀ c, of_json c <$> js = (λ v, (canon v, [])) <$> l) as (H1 & H2 & H3 & H4).
  { induction H as [|v j l js [E1 E2 E3 E4] _ (IH1 & IH2 & IH3 & IH4)]; [done|]. csimpl.
    rewrite E1, E2, E3. simpl. rewrite IH1, IH2, IH3. repeat split; try done. intros c. by rewrite E4, IH4. }
  split; simpl; [by rewrite H1|done|by rewrite H3|]. intros c. rewrite H4, <- !list_fmap_compose. f_equal.
  by apply concat_nils.
Qed.

Lemma seq_entries_cons {A} k (a : A) l : seq_entries ((k, Ok a) :: l) = let? rest := seq_entries l in Ok ((k, a) :: rest).
Proof. done. Qed.

Lemma encodes_map m js :
  NoDup m.*1 → Forall2 (λ kv kj, kv.1 = kj.1 ∧ valid_utf8 kv.1 = true ∧ encodes kv.2 kj.2) (sort_Slice key_less m) js →
  encodes (VMap m) (JObj js).
Proof.
  intros Hnd H. set (s := sort_Slice key_less m) in *.
  assert (seq_entries ((λ kv, (kv.1, to_json kv.2)) <$> s) = Ok js ∧ forallb (λ kj, numbers_ok kj.2) js = true ∧
    (λ kj, (to_valid kj.1, json_valid kj.2)) <$> js = js ∧ ∀ c, (λ kj, (kj.1, of_json c kj.2)) <$> js = (λ kv, (kv.1, (canon kv.2, []))) <$> s)
    as (H1 & H2 & H3 & H4).
  { clearbody s. induction H as [|[k v] [k' j] s js (Hk & Hu & [E1 E2 E3 E4]) _ (IH1 & IH2 & IH3 & IH4)]; [done|].
    simpl in Hk, Hu, E1, E2, E3, E4. subst k'. apply bool_decide_eq_true in Hu. rewrite !fmap_cons. simpl fst. simpl snd.
    rewrite E1, E3, Hu, !seq_entries_cons, IH1, IH3. simpl. rewrite E2, IH2. repeat split; try done.
    intros c. simpl. by rewrite E4, IH4. }
  split; simpl; [rewrite (sort_keys_fmap to_json); fold s; by rewrite H1|done|by rewrite H3|].
  intros c. rewrite H4, <- !list_fmap_compose. unfold compose. simpl. rewrite put_entries_id.
  - rewrite (sort_keys_fmap canon). fold s. f_equal. by apply concat_nils.
  - rewrite <- list_fmap_compose. replace (fst ∘ _) with (@fst string value) by done. unfold s. by rewrite (sort_Slice_perm _ m).
Qed.

Lemma plain_encodes v : plain v = true → ∃ j, encodes v j.
Proof.
  induction v as [l IH|m IH|v Hv] using value_ind'; simpl; intros Hp.
  - assert (∃ js, Forall2 encodes l js) as [js H]; [|eexists; by apply encodes_slice].
    induction IH as [|v l Hv _ IH']; [by exists []|]. simpl in Hp. apply andb_true_iff in Hp as [Hp1 Hp2].
    destruct (Hv Hp1) as [j Hj], (IH' Hp2) as [js Hjs]. exists (j :: js). by constructor.
  - apply andb_true_iff in Hp as [Hnd Hp]. apply bool_decide_eq_true in Hnd.
    assert (Forall (λ kv, ∃ kj : string * json, kv.1 = kj.1 ∧ valid_utf8 kv.1 = true ∧ encodes kv.2 kj.2) (sort_Slice key_less m)) as H.
    { rewrite sort_Slice_perm. rewrite forallb_forall in Hp. rewrite Forall_forall in *. intros [k v] Hin.
      pose proof (Hp (k, v) (proj1 (list_elem_of_In _ _) Hin)) as [Hk Hv]%andb_true_iff.
      destruct (IH (k, v) Hin Hv) as [j Hj]. by exists (k, j). }
    assert (∃ js, Forall2 (λ kv (kj : string * json), kv.1 = kj.1 ∧ valid_utf8 kv.1 = true ∧ encodes kv.2 kj.2) (sort_Slice key_less m) js)
      as [js Hjs]; [|eexists; by apply encodes_map].
    induction H as [|kv l [kj Hkj] _ [js Hjs]]; [by exists []|]. exists (kj :: js). by constructor.
  - destruct v as [|s|b|t| | | | | | | | | | | |]; simpl in *; try done.
    + by exists JNull.
    + apply bool_decide_eq_true in Hp. exists (JStr s). split; simpl; by rewrite ?Hp.
    + by exists (JBool b).
    + apply bool_decide_eq_true in Hp as [lit Hl]. exists (JNum lit). unfold float_to_json.
      split; simpl; [unfold float_to_json; by rewrite Hl|by eapply float_json_number|done|].
      intros c. by rewrite (float_json_parse _ _ Hl).
Qed.

(** What is decoded is plain. *)
Lemma assoc_set_keys {A} k (v : A) m : NoDup m.*1 → NoDup (assoc_set k v m).*1 ∧ ∀ kv, kv ∈ assoc_set k v m → kv ∈ m ∨ kv = (k, v).
Proof.
  induction m as [|[k' w] m IH]; intros H; csimpl in *; [split; [by repeat constructor; set_solver|set_solver]|].
  apply NoDup_cons in H as [Hk Hm]. destruct (IH Hm) as [IH1 IH2]. case_bool_decide as Hkk; csimpl.
  - subst k'. split; [by constructor|set_solver].
  - split; [constructor; [|done]|set_solver]. intros Hin. apply Hk. apply list_elem_of_fmap in Hin as ([k1 v1] & -> & Hin).
    apply IH2 in Hin as [Hin|[= -> ->]]; [|done]. apply list_elem_of_fmap. by exists (k1, v1).
Qed.

Lemma put_entries_plain (l : list (string * value)) :
  forallb (λ kv, valid_utf8 kv.1 && plain kv.2) l = true → plain (VMap (put_entries l)) = true.
Proof.
  intros H. unfold put_entries. assert (NoDup ([] : list (string * value)).*1) as Hn by constructor.
  assert (forallb (λ kv, valid_utf8 kv.1 && plain kv.2) [] = true) as Hp by done. revert Hn Hp. generalize (@nil (string * value)) as acc.
  induction l as [|[k v] l IH]; intros acc Hn Hp; simpl; [by rewrite bool_decide_true|].
  simpl in H. apply andb_true_iff in H as [Hkv H]. destruct (assoc_set_keys k v acc Hn) as [H1 H2]. apply IH; [done..|].
  rewrite forallb_forall in *. intros kv Hin%list_elem_of_In. apply H2 in Hin as [Hin| ->]; [|done]. by apply Hp, list_elem_of_In.
Qed.

Lemma of_json_plain c j : valid j → plain (of_json c j).1 = true.
Proof.
  induction j as [| |lit|s|l IH|l IH] using json_ind'; intros Hv; try done.
  - simpl. destruct (float_parse lit) as [t|] eqn:E; [|done]. simpl. apply bool_decide_eq_true. by eapply float_parse_finite.
  - simpl. apply bool_decide_eq_true. by injection Hv.
  - apply valid_arr_inv in Hv. simpl. induction Hv as [|j l Hj _ IHl]; [done|]. apply Forall_cons in IH as [IHj IH]. csimpl.
    rewrite IHj by done. by apply IHl.
  - apply valid_obj_inv in Hv. cbn [of_json]. rewrite <- list_fmap_compose. apply put_entries_plain.
    induction Hv as [|[k j] l [Hk Hj] _ IHl]; [done|]. apply Forall_cons in IH as [IHj IH]. csimpl. simpl in Hk, Hj, IHj.
    rewrite IHj by done. unfold valid_utf8 at 1. rewrite bool_decide_true by done. by apply IHl.
Qed.

Lemma canon_idem v : canon (canon v) = canon v.
Proof.
  induction v as [l IH|m IH|v Hv] using value_ind'; simpl.
  - f_equal. rewrite <- list_fmap_compose. by apply Forall_fmap_ext.
  - f_equal. rewrite !(sort_keys_fmap canon), sort_keys_id, <- list_fmap_compose.
    apply Forall_fmap_ext. rewrite sort_Slice_perm. eapply Forall_impl; [exact IH|]. intros [k v] Hv. simpl in *. by rewrite Hv.
  - destruct v; try done. simpl. by rewrite sort_keys_id.
Qed.

(** Marshalling a value of maps, slices, valid strings, numbers and booleans succeeds, and
    unmarshalling the text gives the value back, up to the order of the entries of its
    maps, when it is not nested more than 10000 deep; equal values up to that order have the
    same text. *)
Theorem value_roundtrip v :
  plain v = true → (∀ j, to_json v = Ok j → fits (depth j)) →
  (∃ text, Marshal v = Ok text ∧ Unmarshal text = Ok (canon v) ∧ value_equiv v (canon v)) ∧
  ∀ w, value_equiv v w → Marshal w = Marshal v.
Proof.
  intros Hp Hd. destruct (plain_encodes v Hp) as [j [E1 E2 E3 E4]]. split.
  - unfold Marshal, Unmarshal. rewrite E1. simpl. eexists. split; [done|]. rewrite Marshal2_print, parse_print, E3, E4 by auto.
    split; [done|]. unfold value_equiv. symmetry. apply canon_idem.
  - intros w Hw. symmetry. by apply Marshal_proper.
Qed.

(** The interface the mapping transform relies on. *)
#[local] Instance go_json_sorts : JsonSortsKeys.
Proof.
  intros m m' Hnd Hp. apply Marshal_proper. unfold value_equiv. simpl. f_equal.
  apply sort_keys_unique; [by rewrite Hp|]. rewrite <- list_fmap_compose. done.
Qed.

End Values.
