(* ===== verification/DslJson.v ===== *)
(** * Rule chain definitions as JSON ([src/dsl.go], [src/parser.go])

    [ParserRuleChain], [ParserRuleNode] and the encoders of [JsonParser]: the decoder and
    the encoder of [encoding/json] for the structs of the DSL, field by field as their tags
    say, on the text layer of [JsonParse] and the dynamic values of [JsonValue]. *)

From Stdlib Require Import Ascii.
From S2P Require Import Prelude Sorting GoStrings Value Msg Config Dsl JsonText JsonParse JsonValid JsonValue.

(** ** Field names *)

(** Upper and lower case are the same, and two runes outside ASCII stand for letters: the
    long s (197 191) and the Kelvin sign (226 132 170). *)
Fixpoint fold_key (s : string) : string :=
  match s with
  | "" => ""
  | String "197" (String "191" s') => String "s" (fold_key s')
  | String "226" (String "132" (String "170" s')) => String "k" (fold_key s')
  | String c s' => String (toLowerByte c) (fold_key s')
  end.

(** A field of a struct: the name its tag gives it, and how a value is decoded into it. *)
Record field (S : Type) : Type := mkField {
  fld_name : string;
  fld_set : place → json → S → decoded S
}.
Arguments mkField {S}. Arguments fld_name {S}. Arguments fld_set {S}.

Fixpoint field_of {S} (fields : list (field S)) (key : string) : option (field S) :=
  match fields with
  | [] => None
  | f :: fields => if String.eqb (fold_key (fld_name f)) (fold_key key) then Some f else field_of fields key
  end.

(** ** Decoding *)

Definition kind (j : json) : string :=
  match j with
  | JNull => "null" | JBool _ => "bool" | JNum _ => "number" | JStr _ => "string" | JArr _ => "array" | JObj _ => "object"
  end.
Definition misfit {A} (c : place) (j : json) (type : string) (a : A) : decoded A := (a, [type_error c (kind j) type]).

(** [null] leaves a string, a boolean, a number or a struct as it is. *)
Definition dec_string (c : place) (j : json) (old : string) : decoded string :=
  match j with JNull => (old, []) | JStr s => (s, []) | _ => misfit c j "string" old end.
Definition dec_bool (c : place) (j : json) (old : bool) : decoded bool :=
  match j with JNull => (old, []) | JBool b => (b, []) | _ => misfit c j "bool" old end.
Definition dec_int (c : place) (j : json) (old : Z) : decoded Z :=
  match j with
  | JNull => (old, [])
  | JNum lit =>
      match parse_int lit with
      | Some z => if bool_decide (- 2^63 ≤ z < 2^63)%Z then (z, []) else (old, [type_error c ("number " +:+ lit) "int"])
      | None => (old, [type_error c ("number " +:+ lit) "int"])
      end
  | _ => misfit c j "int" old
  end.

(** A map that is there already is added to. *)
Definition dec_map {A} (elem : place → json → decoded A) (type : string) (c : place) (j : json) (old : option (gmap string A)) :
    decoded (option (gmap string A)) :=
  match j with
  | JNull => (None, [])
  | JObj l =>
      let r := (λ kv, (kv.1, elem c kv.2)) <$> l in
      (Some (foldl (λ m kr, <[kr.1 := kr.2.1]> m) (default ∅ old) r), concat ((λ kr, kr.2.2) <$> r))
  | _ => misfit c j type old
  end.

Definition inside (c : place) (struct name : string) : place :=
  Some (struct, match c with None => [name] | Some (_, path) => path ++ [name] end).

(** The entries are decoded in their order into the fields they name; others are skipped. *)
Definition dec_entry {S} (struct : string) (fields : list (field S)) (c : place) (s : decoded S) (kv : string * json) : decoded S :=
  match field_of fields kv.1 with
  | None => s
  | Some f => let r := fld_set f (inside c struct (fld_name f)) kv.2 s.1 in (r.1, s.2 ++ r.2)
  end.
Definition dec_struct {S} (struct : string) (fields : list (field S)) (c : place) (j : json) (old : S) : decoded S :=
  match j with
  | JNull => (old, [])
  | JObj l => foldl (dec_entry struct fields c) (old, []) l
  | _ => misfit c j ("rulego." +:+ struct) old
  end.

(** A pointer: [null] is nil; anything else is decoded into what it points to, or into a
    new object. *)
Definition dec_pointer {A} (zero : A) (dec : place → json → A → decoded A) (c : place) (j : json) (old : option A) :
    decoded (option A) :=
  match j with
  | JNull => (None, [])
  | _ => let r := dec c j (default zero old) in (Some r.1, r.2)
  end.

(** A slice: nil, or its elements and what its array still holds behind them.  An array is
    decoded into the elements that are there, one by one. *)
Definition slice (A : Type) : Type := option (list A * list A).
Definition elements {A} (s : slice A) : list A := match s with None => [] | Some (l, _) => l end.
Definition stored {A} (s : slice A) : list A := match s with None => [] | Some (l, spare) => l ++ spare end.
Fixpoint dec_elements {A} (zero : A) (dec : place → json → A → decoded A) (c : place) (l : list json) (old : list A) : list (decoded A) :=
  match l, old with
  | [], _ => []
  | j :: l, [] => dec c j zero :: dec_elements zero dec c l []
  | j :: l, a :: old => dec c j a :: dec_elements zero dec c l old
  end.
Definition dec_slice {A} (zero : A) (dec : place → json → A → decoded A) (type : string) (c : place) (j : json) (old : slice A) :
    decoded (slice A) :=
  match j with
  | JNull => (None, [])
  | JArr [] => (Some ([], []), [])
  | JArr l => let r := dec_elements zero dec c l (stored old) in
              (Some (fst <$> r, drop (length l) (stored old)), concat (snd <$> r))
  | _ => misfit c j type old
  end.

(** ** The structs *)

Section Decode.
Context `{FT : FloatText}.

Definition dec_Configuration : place → json → option Configuration → decoded (option Configuration) :=
  dec_map of_json "types.Configuration".

Definition zero_info : NodeAdditionalInfo := mkAdditionalInfo "" 0 0.
Definition info_fields : list (field NodeAdditionalInfo) :=
  [ mkField "description" (λ c j s, let r := dec_string c j (ai_Description s) in (mkAdditionalInfo r.1 (ai_LayoutX s) (ai_LayoutY s), r.2))
  ; mkField "layoutX" (λ c j s, let r := dec_int c j (ai_LayoutX s) in (mkAdditionalInfo (ai_Description s) r.1 (ai_LayoutY s), r.2))
  ; mkField "layoutY" (λ c j s, let r := dec_int c j (ai_LayoutY s) in (mkAdditionalInfo (ai_Description s) (ai_LayoutX s) r.1, r.2)) ].
Definition dec_info : place → json → NodeAdditionalInfo → decoded NodeAdditionalInfo := dec_struct "NodeAdditionalInfo" info_fields.

Definition zero_node : RuleNode := mkRuleNode "" zero_info "" "" false None.
Definition node_fields : list (field RuleNode) :=
  [ mkField "id" (λ c j n, let r := dec_string c j (n_Id n) in
      (mkRuleNode r.1 (n_AdditionalInfo n) (n_Type n) (n_Name n) (n_DebugMode n) (n_Configuration n), r.2))
  ; mkField "additionalInfo" (λ c j n, let r := dec_info c j (n_AdditionalInfo n) in
      (mkRuleNode (n_Id n) r.1 (n_Type n) (n_Name n) (n_DebugMode n) (n_Configuration n), r.2))
  ; mkField "type" (λ c j n, let r := dec_string c j (n_Type n) in
      (mkRuleNode (n_Id n) (n_AdditionalInfo n) r.1 (n_Name n) (n_DebugMode n) (n_Configuration n), r.2))
  ; mkField "name" (λ c j n, let r := dec_string c j (n_Name n) in
      (mkRuleNode (n_Id n) (n_AdditionalInfo n) (n_Type n) r.1 (n_DebugMode n) (n_Configuration n), r.2))
  ; mkField "debugMode" (λ c j n, let r := dec_bool c j (n_DebugMode n) in
      (mkRuleNode (n_Id n) (n_AdditionalInfo n) (n_Type n) (n_Name n) r.1 (n_Configuration n), r.2))
  ; mkField "configuration" (λ c j n, let r := dec_Configuration c j (n_Configuration n) in
      (mkRuleNode (n_Id n) (n_AdditionalInfo n) (n_Type n) (n_Name n) (n_DebugMode n) r.1, r.2)) ].
Definition dec_node : place → json → RuleNode → decoded RuleNode := dec_struct "RuleNode" node_fields.

Definition zero_connection : NodeConnection := mkConnection "" "" "".
Definition connection_fields : list (field NodeConnection) :=
  [ mkField "fromId" (λ c j s, let r := dec_string c j (nc_FromId s) in (mkConnection r.1 (nc_ToId s) (nc_Type s), r.2))
  ; mkField "toId" (λ c j s, let r := dec_string c j (nc_ToId s) in (mkConnection (nc_FromId s) r.1 (nc_Type s), r.2))
  ; mkField "type" (λ c j s, let r := dec_string c j (nc_Type s) in (mkConnection (nc_FromId s) (nc_ToId s) r.1, r.2)) ].
Definition dec_connection : place → json → NodeConnection → decoded NodeConnection := dec_struct "NodeConnection" connection_fields.

Definition zero_chain_connection : RuleChainConnection := mkChainConnection "" "" "".
Definition chain_connection_fields : list (field RuleChainConnection) :=
  [ mkField "fromId" (λ c j s, let r := dec_string c j (rc_FromId s) in (mkChainConnection r.1 (rc_ToId s) (rc_Type s), r.2))
  ; mkField "toId" (λ c j s, let r := dec_string c j (rc_ToId s) in (mkChainConnection (rc_FromId s) r.1 (rc_Type s), r.2))
  ; mkField "type" (λ c j s, let r := dec_string c j (rc_Type s) in (mkChainConnection (rc_FromId s) (rc_ToId s) r.1, r.2)) ].
Definition dec_chain_connection : place → json → RuleChainConnection → decoded RuleChainConnection :=
  dec_struct "RuleChainConnection" chain_connection_fields.

Definition zero_base : RuleChainBaseInfo := mkBaseInfo "" None "" false false None.
Definition base_fields : list (field RuleChainBaseInfo) :=
  [ mkField "id" (λ c j b, let r := dec_string c j (bi_ID b) in
      (mkBaseInfo r.1 (bi_AdditionalInfo b) (bi_Name b) (bi_DebugMode b) (bi_Root b) (bi_Configuration b), r.2))
  ; mkField "additionalInfo" (λ c j b,
      let r := dec_map (λ c j, dec_string c j "") "map[string]string" c j (bi_AdditionalInfo b) in
      (mkBaseInfo (bi_ID b) r.1 (bi_Name b) (bi_DebugMode b) (bi_Root b) (bi_Configuration b), r.2))
  ; mkField "name" (λ c j b, let r := dec_string c j (bi_Name b) in
      (mkBaseInfo (bi_ID b) (bi_AdditionalInfo b) r.1 (bi_DebugMode b) (bi_Root b) (bi_Configuration b), r.2))
  ; mkField "debugMode" (λ c j b, let r := dec_bool c j (bi_DebugMode b) in
      (mkBaseInfo (bi_ID b) (bi_AdditionalInfo b) (bi_Name b) r.1 (bi_Root b) (bi_Configuration b), r.2))
  ; mkField "root" (λ c j b, let r := dec_bool c j (bi_Root b) in
      (mkBaseInfo (bi_ID b) (bi_AdditionalInfo b) (bi_Name b) (bi_DebugMode b) r.1 (bi_Configuration b), r.2))
  ; mkField "configuration" (λ c j b, let r := dec_Configuration c j (bi_Configuration b) in
      (mkBaseInfo (bi_ID b) (bi_AdditionalInfo b) (bi_Name b) (bi_DebugMode b) (bi_Root b) r.1, r.2)) ].
Definition dec_base : place → json → RuleChainBaseInfo → decoded RuleChainBaseInfo := dec_struct "RuleChainBaseInfo" base_fields.

(** [RuleMetadata] while it is decoded, its slices with their arrays. *)
Record metadata_slices : Type := mkSlices {
  ms_FirstNodeIndex : Z;
  ms_Nodes : slice (option RuleNode);
  ms_Connections : slice NodeConnection;
  ms_RuleChainConnections : slice RuleChainConnection
}.
Definition zero_slices : metadata_slices := mkSlices 0 None None None.
Definition metadata_fields : list (field metadata_slices) :=
  [ mkField "firstNodeIndex" (λ c j m, let r := dec_int c j (ms_FirstNodeIndex m) in
      (mkSlices r.1 (ms_Nodes m) (ms_Connections m) (ms_RuleChainConnections m), r.2))
  ; mkField "nodes" (λ c j m,
      let r := dec_slice None (dec_pointer zero_node dec_node) "[]*rulego.RuleNode" c j (ms_Nodes m) in
      (mkSlices (ms_FirstNodeIndex m) r.1 (ms_Connections m) (ms_RuleChainConnections m), r.2))
  ; mkField "connections" (λ c j m,
      let r := dec_slice zero_connection dec_connection "[]rulego.NodeConnection" c j (ms_Connections m) in
      (mkSlices (ms_FirstNodeIndex m) (ms_Nodes m) r.1 (ms_RuleChainConnections m), r.2))
  ; mkField "ruleChainConnections" (λ c j m,
      let r := dec_slice zero_chain_connection dec_chain_connection "[]rulego.RuleChainConnection" c j (ms_RuleChainConnections m) in
      (mkSlices (ms_FirstNodeIndex m) (ms_Nodes m) (ms_Connections m) r.1, r.2)) ].
Definition dec_metadata : place → json → metadata_slices → decoded metadata_slices := dec_struct "RuleMetadata" metadata_fields.

Definition is_nil {A} (s : slice A) : bool := match s with None => true | Some _ => false end.
Definition metadata_of (m : metadata_slices) : RuleMetadata (option RuleNode) :=
  mkRuleMetadata (ms_FirstNodeIndex m) (elements (ms_Nodes m)) (elements (ms_Connections m)) (elements (ms_RuleChainConnections m))
    (is_nil (ms_Nodes m)) (is_nil (ms_Connections m)).

Definition chain_fields : list (field (RuleChainBaseInfo * metadata_slices)) :=
  [ mkField "ruleChain" (λ c j s, let r := dec_base c j s.1 in ((r.1, s.2), r.2))
  ; mkField "metadata" (λ c j s, let r := dec_metadata c j s.2 in ((s.1, r.1), r.2)) ].
Definition dec_chain (j : json) : decoded ParsedChain :=
  let r := dec_struct "RuleChain" chain_fields None j (zero_base, zero_slices) in
  (mkRuleChain r.1.1 (metadata_of r.1.2), r.2).

(** The wording of a syntax error. *)
Variable syntax_error : string → string.

(** What was decoded is returned with the error. *)
Definition ParserRuleChain (rootRuleChain : string) : ParsedChain * error :=
  match parse_json rootRuleChain with
  | None => (mkRuleChain zero_base (metadata_of zero_slices), Some (syntax_error rootRuleChain))
  | Some j => let r := dec_chain j in (r.1, head r.2)
  end.
Definition ParserRuleNode (text : string) : RuleNode * error :=
  match parse_json text with
  | None => (zero_node, Some (syntax_error text))
  | Some j => let r := dec_node None j zero_node in (r.1, head r.2)
  end.

End Decode.

(** ** Encoding *)

Section Encode.
Context `{FT : FloatText}.
Variable to_json_other : value → result json.
Variable syntax_error : string → string.

Definition map_json {A} (f : A → result json) (m : gmap string A) : result json :=
  let? l := seq_entries (sort_Slice key_less ((λ kv, (kv.1, f kv.2)) <$> map_to_list m)) in Ok (JObj l).
Definition Configuration_json : Configuration → result json := map_json (to_json to_json_other).

Definition info_json (i : NodeAdditionalInfo) : json :=
  JObj [("description", JStr (ai_Description i)); ("layoutX", JNum (Itoa (ai_LayoutX i))); ("layoutY", JNum (Itoa (ai_LayoutY i)))].

(** A struct is never empty: [omitempty] does not leave out a node's additional info. *)
Definition node_json (n : RuleNode) : result json :=
  let? configuration := match n_Configuration n with None => Ok JNull | Some m => Configuration_json m end in
  Ok (JObj [("id", JStr (n_Id n)); ("additionalInfo", info_json (n_AdditionalInfo n)); ("type", JStr (n_Type n));
            ("name", JStr (n_Name n)); ("debugMode", JBool (n_DebugMode n)); ("configuration", configuration)]).

Definition connection_json (c : NodeConnection) : json :=
  JObj [("fromId", JStr (nc_FromId c)); ("toId", JStr (nc_ToId c)); ("type", JStr (nc_Type c))].
Definition chain_connection_json (c : RuleChainConnection) : json :=
  JObj [("fromId", JStr (rc_FromId c)); ("toId", JStr (rc_ToId c)); ("type", JStr (rc_Type c))].

(** A field with [omitempty]: nothing when the map or the slice is empty. *)
Definition omit_empty {A} (name : string) (f : gmap string A → result json) (o : option (gmap string A)) : result (list (string * json)) :=
  match o with
  | None => Ok []
  | Some m => if bool_decide (m = ∅) then Ok [] else let? j := f m in Ok [(name, j)]
  end.

Definition base_json (b : RuleChainBaseInfo) : result json :=
  let? additionalInfo := omit_empty "additionalInfo" (map_json (λ s, Ok (JStr s))) (bi_AdditionalInfo b) in
  let? configuration := omit_empty "configuration" Configuration_json (bi_Configuration b) in
  Ok (JObj (("id", JStr (bi_ID b)) :: additionalInfo ++
            [("name", JStr (bi_Name b)); ("debugMode", JBool (bi_DebugMode b)); ("root", JBool (bi_Root b))] ++ configuration)).

Definition slice_json (nil : bool) (l : list json) : json := if nil then JNull else JArr l.
Definition pointer_json {A} (f : A → result json) (o : option A) : result json := match o with None => Ok JNull | Some a => f a end.

Definition metadata_json (m : RuleMetadata (option RuleNode)) : result json :=
  let? nodes := seq_results (pointer_json node_json <$> md_Nodes m) in
  Ok (JObj ([("firstNodeIndex", JNum (Itoa (md_FirstNodeIndex m)));
             ("nodes", slice_json (md_NodesNil m) nodes);
             ("connections", slice_json (md_ConnectionsNil m) (connection_json <$> md_Connections m))] ++
            match md_RuleChainConnections m with
            | [] => []
            | l => [("ruleChainConnections", JArr (chain_connection_json <$> l))]
            end)).

Definition chain_json (d : ParsedChain) : result json :=
  let? ruleChain := base_json (rc_RuleChain d) in
  let? metadata := metadata_json (rc_Metadata d) in
  Ok (JObj [("ruleChain", ruleChain); ("metadata", metadata)]).

(** Marshalled, then indented. *)
Definition format_json (r : result json) : result string :=
  let? j := r in
  match Format (Marshal2 j) with None => Err (syntax_error (Marshal2 j)) | Some text => Ok text end.
Definition EncodeRuleChain (d : ParsedChain) : result string := format_json (chain_json d).
Definition EncodeRuleNode (n : RuleNode) : result string := format_json (node_json n).

End Encode.

(** ** Reading a definition back *)

Section RoundTrip.
Context `{FT : FloatText}.
Variable to_json_other : value → result json.
Variable syntax_error : string → string.
Abbreviation EncodeRuleChain := (EncodeRuleChain to_json_other syntax_error).
Abbreviation EncodeRuleNode := (EncodeRuleNode to_json_other syntax_error).

(** Something is written as [j] that decodes to [a]. *)
Record codes {A} (dec : place → json → decoded A) (j : json) (a : A) : Prop := {
  cd_numbers : numbers_ok j = true;
  cd_valid : json_valid j = j;
  cd_back : ∀ c, dec c j = (a, [])
}.

(** What can be written and read back: valid strings, numbers of 64 bits, values of JSON's
    kinds, and a slice that is nil has no elements. *)
Definition int_ok (z : Z) : bool := bool_decide (- 2^63 ≤ z < 2^63)%Z.
(** All entries of a map. *)
Definition entries_ok {A} (ok : A → bool) (m : gmap string A) : bool := forallb (λ kv, valid_utf8 kv.1 && ok kv.2) (map_to_list m).
Definition config_ok : Configuration → bool := entries_ok plain.
Definition opt_ok {A} (f : A → bool) (o : option A) : bool := match o with None => true | Some a => f a end.
Definition info_ok (i : NodeAdditionalInfo) : bool := valid_utf8 (ai_Description i) && int_ok (ai_LayoutX i) && int_ok (ai_LayoutY i).
Definition node_ok (n : RuleNode) : bool :=
  valid_utf8 (n_Id n) && info_ok (n_AdditionalInfo n) && valid_utf8 (n_Type n) && valid_utf8 (n_Name n) && opt_ok config_ok (n_Configuration n).
Definition connection_ok (c : NodeConnection) : bool := valid_utf8 (nc_FromId c) && valid_utf8 (nc_ToId c) && valid_utf8 (nc_Type c).
Definition chain_connection_ok (c : RuleChainConnection) : bool :=
  valid_utf8 (rc_FromId c) && valid_utf8 (rc_ToId c) && valid_utf8 (rc_Type c).
Definition base_ok (b : RuleChainBaseInfo) : bool :=
  valid_utf8 (bi_ID b) && valid_utf8 (bi_Name b) && opt_ok config_ok (bi_Configuration b) &&
  opt_ok (entries_ok valid_utf8) (bi_AdditionalInfo b).
Definition slice_ok {A} (f : A → bool) (nil : bool) (l : list A) : bool := if nil then bool_decide (length l = 0) else forallb f l.
Definition metadata_ok (m : RuleMetadata (option RuleNode)) : bool :=
  int_ok (md_FirstNodeIndex m) && slice_ok (opt_ok node_ok) (md_NodesNil m) (md_Nodes m) &&
  slice_ok connection_ok (md_ConnectionsNil m) (md_Connections m) && forallb chain_connection_ok (md_RuleChainConnections m).
Definition chain_ok (d : ParsedChain) : bool := base_ok (rc_RuleChain d) && metadata_ok (rc_Metadata d).

(** What is read: the values of a configuration up to the order of their maps, and for a
    chain's own maps nil instead of an empty one. *)
Definition canon_node (n : RuleNode) : RuleNode := set_n_Configuration ((fmap (M := gmap string) canon) <$> n_Configuration n) n.
Definition canon_pointer (o : option RuleNode) : option RuleNode := canon_node <$> o.
Definition non_empty {A} (o : option (gmap string A)) : option (gmap string A) :=
  match o with None => None | Some m => if bool_decide (m = ∅) then None else Some m end.
Definition canon_base (b : RuleChainBaseInfo) : RuleChainBaseInfo :=
  mkBaseInfo (bi_ID b) (non_empty (bi_AdditionalInfo b)) (bi_Name b) (bi_DebugMode b) (bi_Root b)
    (non_empty ((fmap (M := gmap string) canon) <$> bi_Configuration b)).
Definition canon_chain {N} (f : N → N) (d : RuleChain N) : RuleChain N :=
  RuleChain_map (fmap f) (mkRuleChain (canon_base (rc_RuleChain d)) (rc_Metadata d)).

(** *** Numbers *)

Lemma pretty_num_char d : (0 < d < 10)%N → num_start (pretty_N_char d) = Some N1.
Proof. intros Hd. by destruct d as [|[[[[]|[]|]|[[]|[]|]|]|[[[]|[]|]|[[]|[]|]|]|]]; vm_compute; vm_compute in Hd; destruct Hd. Qed.
Lemma pretty_num_step d : (d < 10)%N → num_step N1 (pretty_N_char d) = Some N1.
Proof. intros Hd. by destruct d as [|[[[[]|[]|]|[[]|[]|]|]|[[[]|[]|]|[[]|[]|]|]|]]; vm_compute. Qed.

Lemma num_state_pretty x s : (0 < x)%N → num_state (pretty_N_go x s) = num_run N1 s.
Proof.
  revert s. induction (N.lt_wf_0 x) as [x _ IH]; intros s Hx. rewrite pretty_N_go_step by lia.
  assert (x mod 10 < 10)%N by (by apply N.mod_lt). pose proof (N.div_mod x 10 ltac:(lia)).
  destruct (decide (x / 10 = 0)%N) as [E|E].
  - rewrite E, pretty_N_go_0. unfold num_state. by rewrite pretty_num_char by lia.
  - rewrite IH by (try apply N.div_lt; lia). cbn [num_run]. by rewrite pretty_num_step.
Qed.

Lemma pretty_pos p : pretty (N.pos p) = pretty_N_go (N.pos p) "".
Proof. unfold pretty, pretty_N. by rewrite decide_False. Qed.

Lemma Itoa_number z : is_number (Itoa z) = true.
Proof.
  destruct z as [|p|p]; [done|change (is_number (pretty (N.pos p)) = true)|change (is_number (String "-" (pretty (N.pos p))) = true)];
    unfold is_number; rewrite pretty_pos; pose proof (num_state_pretty (N.pos p) "" eq_refl) as H; [by rewrite H|].
  destruct (pretty_N_no_sign (N.pos p)) as (c & r & E & Hc & _). rewrite pretty_pos in E. rewrite E in *.
  change (match num_run NNeg (String c r) with Some st => num_ends st | None => false end = true).
  unfold num_state, num_start in H. rewrite bool_decide_false in H by done. cbn [num_run]. unfold num_step.
  destruct (bool_decide (c = "0"%char)), (isDigit c); simpl in *; by rewrite ?H.
Qed.

(** *** Maps and lists *)

#[local] Arguments seq_entries : simpl never.

Lemma foldl_insert {A B} (f : B → A) (l : list (string * B)) (acc : gmap string A) :
  NoDup l.*1 → foldl (λ m kb, <[kb.1 := f kb.2]> m) acc l = list_to_map ((λ kb, (kb.1, f kb.2)) <$> l) ∪ acc.
Proof.
  revert acc. induction l as [|[k b] l IH]; intros acc Hnd; [symmetry; apply (left_id_L ∅ (∪))|].
  csimpl in Hnd. apply NoDup_cons in Hnd as [Hk Hnd]. csimpl. rewrite IH by done. rewrite <- insert_union_l. symmetry. apply insert_union_r.
  apply not_elem_of_list_to_map_1. by rewrite <- list_fmap_compose.
Qed.

Lemma Forall_exists_Forall2 {A B} (P : A → B → Prop) l : Forall (λ a, ∃ b, P a b) l → ∃ k, Forall2 P l k.
Proof. induction 1 as [|a l [b Hb] _ [k Hk]]; [by exists []|]. exists (b :: k). by constructor. Qed.

Lemma map_codes {A} (f : A → result json) (elem : place → json → decoded A) (g : A → A) type (m : gmap string A) :
  Forall (λ kv, valid_utf8 kv.1 = true ∧ ∃ j, f kv.2 = Ok j ∧ codes elem j (g kv.2)) (map_to_list m) →
  ∃ j, map_json f m = Ok j ∧ codes (λ c j, dec_map elem type c j None) j (Some (g <$> m)).
Proof.
  intros H. set (s := sort_Slice key_less (map_to_list m)).
  assert (∃ js : list (string * json), Forall2 (λ kv kj, kj.1 = kv.1 ∧ valid_utf8 kv.1 = true ∧ f kv.2 = Ok kj.2 ∧ codes elem kj.2 (g kv.2)) s js)
    as [js Hjs].
  { apply Forall_exists_Forall2. unfold s. rewrite sort_Slice_perm. eapply Forall_impl; [exact H|].
    intros [k v] [Hk (j & Hf & Hj)]. by exists (k, j). }
  assert (NoDup s.*1) as Hnd by (unfold s; rewrite sort_Slice_perm; apply NoDup_fst_map_to_list).
  assert (seq_entries ((λ kv, (kv.1, f kv.2)) <$> s) = Ok js ∧ forallb (λ kj, numbers_ok kj.2) js = true ∧
    (λ kj, (to_valid kj.1, json_valid kj.2)) <$> js = js ∧ ∀ c, (λ kj, (kj.1, elem c kj.2)) <$> js = (λ kv, (kv.1, (g kv.2, []))) <$> s)
    as (H1 & H2 & H3 & H4).
  { clear Hnd H. clearbody s. induction Hjs as [|[k v] [k' j] s js (Hk & Hu & E1 & [E2 E3 E4]) _ (IH1 & IH2 & IH3 & IH4)]; [done|].
    simpl in Hk, Hu, E1, E2, E3, E4. subst k'. apply bool_decide_eq_true in Hu. rewrite !fmap_cons. simpl fst. simpl snd.
    rewrite E1, seq_entries_cons, IH1, Hu, E3, IH3. simpl. rewrite E2, IH2. repeat split; try done. intros c. by rewrite E4, IH4. }
  exists (JObj js). split.
  - unfold map_json. rewrite (sort_keys_fmap f). fold s. by rewrite H1.
  - split; simpl; [done|by rewrite H3|]. intros c. rewrite H4, (foldl_insert fst), (right_id_L ∅ (∪)).
    + f_equal; [|rewrite <- list_fmap_compose; by apply concat_nils]. f_equal. rewrite <- list_fmap_compose.
      replace (_ ∘ _) with (prod_map (id : string → string) g) by done. rewrite list_to_map_fmap. f_equal.
      etrans; [|apply list_to_map_to_list]. by apply list_to_map_proper; [|apply sort_Slice_perm].
    + by rewrite <- list_fmap_compose.
Qed.

Lemma elements_codes {A} (zero : A) dec l js :
  Forall2 (λ a j, codes (λ c j, dec c j zero) j a) l js →
  forallb numbers_ok js = true ∧ json_valid <$> js = js ∧ ∀ c, dec_elements zero dec c js [] = (λ a, (a, [])) <$> l.
Proof.
  induction 1 as [|a j l js [E1 E2 E3] _ (IH1 & IH2 & IH3)]; [done|]. csimpl. rewrite E1, E2, IH1, IH2.
  repeat split; try done. intros c. by rewrite E3, IH3.
Qed.

Lemma slice_codes {A} (zero : A) dec type l js :
  Forall2 (λ a j, codes (λ c j, dec c j zero) j a) l js →
  codes (λ c j, dec_slice zero dec type c j None) (JArr js) (Some (l, [])).
Proof.
  intros H. destruct (elements_codes zero dec l js H) as (H1 & H2 & H3). split; simpl; [done|by rewrite H2|].
  intros c. destruct H as [|a j l js]; [done|]. rewrite H3, drop_nil, <- !list_fmap_compose. f_equal; [|by apply concat_nils].
  do 2 f_equal. apply list_fmap_id.
Qed.

Definition slice_of {A} (nil : bool) (l : list A) : slice A := if nil then None else Some (l, []).
Lemma opt_slice_codes {A} (zero : A) dec type nil l js :
  (nil = false → Forall2 (λ a j, codes (λ c j, dec c j zero) j a) l js) →
  codes (λ c j, dec_slice zero dec type c j None) (slice_json nil js) (slice_of nil l).
Proof. destruct nil; intros H; [by split|]. by apply slice_codes, H. Qed.

(** *** Structs *)

Lemma dec_step {S} struct (fields : list (field S)) c (s s' : S) k j f l :
  field_of fields k = Some f → fld_set f (inside c struct (fld_name f)) j s = (s', []) →
  foldl (dec_entry struct fields c) (s, []) ((k, j) :: l) = foldl (dec_entry struct fields c) (s', []) l.
Proof. intros Hf Hs. simpl. unfold dec_entry at 2. simpl. by rewrite Hf, Hs. Qed.

#[local] Arguments inside : simpl never.
#[local] Arguments dec_int : simpl never.
#[local] Arguments dec_slice : simpl never.

(** Field by field; what is decoded into one is simplified by [tac]. *)
Ltac dec_fields_by tac :=
  intros; unfold dec_struct; repeat (etrans; [eapply dec_step; [reflexivity|simpl; tac; reflexivity]|]); reflexivity.
Tactic Notation "dec_fields" := dec_fields_by idtac.
Tactic Notation "dec_fields" "with" tactic(tac) := dec_fields_by tac.

Lemma dec_int_Itoa z c old : int_ok z = true → dec_int c (JNum (Itoa z)) old = (z, []).
Proof. intros Hz. unfold dec_int. rewrite parse_int_Itoa. unfold int_ok in Hz. by rewrite Hz. Qed.

Ltac split_ok := repeat match goal with
  | H : (_ && _)%bool = true |- _ => apply andb_true_iff in H as [? ?]
  | H : valid_utf8 _ = true |- _ => apply bool_decide_eq_true in H
  end.

(** The names of fields are valid. *)
Ltac valid_names := simpl; repeat match goal with
  | |- context [to_valid (String ?c ?s)] => change (to_valid (String c s)) with (String c s)
  end.

Lemma info_codes i : info_ok i = true → codes (λ c j, dec_info c j zero_info) (info_json i) i.
Proof.
  intros H. unfold info_ok in H. split_ok. destruct i as [d x y]. unfold info_json. simpl in *.
  split; [simpl; by rewrite !Itoa_number|valid_names; congruence|].
  unfold dec_info. dec_fields with (rewrite ?dec_int_Itoa by done).
Qed.

Lemma Configuration_codes m :
  config_ok m = true → ∃ j, Configuration_json to_json_other m = Ok j ∧ codes (λ c j, dec_Configuration c j None) j (Some (canon <$> m)).
Proof.
  intros H. apply map_codes. unfold config_ok, entries_ok in H. rewrite forallb_forall in H. apply Forall_forall. intros [k v] Hin.
  specialize (H _ (proj1 (list_elem_of_In _ _) Hin)). apply andb_true_iff in H as [Hk Hv]. split; [done|].
  destruct (plain_encodes to_json_other v Hv) as [j [E1 E2 E3 E4]]. exists j. split; [done|]. by split.
Qed.

(** A configuration, or [null]. *)
Lemma opt_Configuration_codes o : opt_ok config_ok o = true →
  ∃ j, match o with None => Ok JNull | Some m => Configuration_json to_json_other m end = Ok j ∧
       codes (λ c j, dec_Configuration c j None) j ((fmap (M := gmap string) canon) <$> o).
Proof. destruct o as [m|]; simpl; intros H; [by apply Configuration_codes|]. by exists JNull. Qed.

Lemma node_codes n : node_ok n = true → ∃ j, node_json to_json_other n = Ok j ∧ codes (λ c j, dec_node c j zero_node) j (canon_node n).
Proof.
  intros H. unfold node_ok in H. split_ok. destruct n as [id i type name debug conf]. simpl in *.
  destruct (opt_Configuration_codes conf) as (cj & E & [C1 C2 C3]); [done|].
  destruct (info_codes i) as [I1 I2 I3]; [done|].
  unfold node_json. simpl n_Configuration. rewrite E. eexists. split; [done|].
  simpl n_AdditionalInfo. set (ij := info_json i) in *. clearbody ij. split.
  - simpl. by rewrite I1, C1.
  - valid_names. congruence.
  - unfold dec_node. dec_fields with (rewrite ?I3, ?C3).
Qed.

Lemma pointer_codes o : opt_ok node_ok o = true →
  ∃ j, pointer_json (node_json to_json_other) o = Ok j ∧ codes (λ c j, dec_pointer zero_node dec_node c j None) j (canon_pointer o).
Proof.
  destruct o as [n|]; simpl; intros H; [|by exists JNull].
  destruct (node_codes n H) as (j & E & [C1 C2 C3]). exists j. split; [done|]. split; try done. intros c. unfold dec_pointer.
  assert (∃ l, j = JObj l) as [l ->] by (unfold node_json in E; destruct (match n_Configuration n with None => _ | _ => _ end); simplify_eq/=; eauto).
  simpl default. by rewrite C3.
Qed.

Lemma connection_codes n : connection_ok n = true → codes (λ c j, dec_connection c j zero_connection) (connection_json n) n.
Proof.
  intros H. unfold connection_ok in H. split_ok. destruct n as [a b t]. unfold connection_json. simpl in *.
  split; [done|valid_names; congruence|]. unfold dec_connection. dec_fields.
Qed.
Lemma chain_connection_codes n :
  chain_connection_ok n = true → codes (λ c j, dec_chain_connection c j zero_chain_connection) (chain_connection_json n) n.
Proof.
  intros H. unfold chain_connection_ok in H. split_ok. destruct n as [a b t]. unfold chain_connection_json. simpl in *.
  split; [done|valid_names; congruence|]. unfold dec_chain_connection. dec_fields.
Qed.

Lemma Forall2_codes {A} (ok : A → bool) (f : A → json) dec l :
  (∀ a, ok a = true → codes dec (f a) a) → forallb ok l = true → Forall2 (λ a j, codes dec j a) l (f <$> l).
Proof.
  intros Hf. induction l as [|a l IH]; simpl; intros H; [constructor|]. apply andb_true_iff in H as [Ha Hl].
  constructor; auto.
Qed.

Lemma omit_codes {A} name (f : gmap string A → result json) dec (g : A → A) o :
  (∀ m, o = Some m → ∃ j, f m = Ok j ∧ codes dec j (Some (g <$> m))) →
  (omit_empty name f o = Ok [] ∧ non_empty ((fmap (M := gmap string) g) <$> o) = None) ∨
  ∃ j, omit_empty name f o = Ok [(name, j)] ∧ codes dec j (non_empty ((fmap (M := gmap string) g) <$> o)).
Proof.
  intros H. destruct o as [m|]; [|by left]. simpl. case_bool_decide as Hm.
  - left. subst. by rewrite fmap_empty, bool_decide_true.
  - right. destruct (H m eq_refl) as (j & E & Hj). rewrite E. exists j. split; [done|].
    rewrite bool_decide_false; [done|]. by rewrite fmap_empty_iff.
Qed.

Lemma info_map_codes m : entries_ok valid_utf8 m = true →
  ∃ j, map_json (λ s, Ok (JStr s)) m = Ok j ∧
    codes (λ c j, dec_map (λ c j, dec_string c j "") "map[string]string" c j None) j (Some (id <$> m)).
Proof.
  intros H. apply map_codes. unfold entries_ok in H. rewrite forallb_forall in H. apply Forall_forall. intros [k v] Hin.
  specialize (H _ (proj1 (list_elem_of_In _ _) Hin)). simpl in H. split_ok. split; [by apply bool_decide_eq_true|].
  exists (JStr v). split; [done|]. split; simpl; [done|congruence|done].
Qed.

Lemma opt_map_fmap_id {A} (o : option (gmap string A)) : fmap (M := gmap string) id <$> o = o.
Proof. destruct o as [m|]; simpl; [|done]. by rewrite map_fmap_id. Qed.

Lemma info_map_omit o : opt_ok (entries_ok valid_utf8) o = true →
  let r := omit_empty "additionalInfo" (map_json (λ s, Ok (JStr s))) o in
  (r = Ok [] ∧ non_empty o = None) ∨
  ∃ j, r = Ok [("additionalInfo", j)] ∧ codes (λ c j, dec_map (λ c j, dec_string c j "") "map[string]string" c j None) j (non_empty o).
Proof.
  intros H r. pose proof (λ dec, omit_codes "additionalInfo" (map_json (λ s, Ok (JStr s))) dec id o) as Ho.
  rewrite opt_map_fmap_id in Ho. apply Ho. intros m ->. by apply info_map_codes.
Qed.

Lemma Configuration_omit o : opt_ok config_ok o = true →
  let r := omit_empty "configuration" (Configuration_json to_json_other) o in
  (r = Ok [] ∧ non_empty ((fmap (M := gmap string) canon) <$> o) = None) ∨
  ∃ j, r = Ok [("configuration", j)] ∧ codes (λ c j, dec_Configuration c j None) j (non_empty ((fmap (M := gmap string) canon) <$> o)).
Proof. intros H. apply omit_codes. intros m ->. by apply Configuration_codes. Qed.

Lemma base_codes b : base_ok b = true → ∃ j, base_json to_json_other b = Ok j ∧ codes (λ c j, dec_base c j zero_base) j (canon_base b).
Proof.
  intros H. unfold base_ok in H. split_ok. destruct b as [id info name debug root conf]. unfold base_json, canon_base. simpl in *.
  destruct (info_map_omit info) as [[-> ->]|(ij & -> & [I1 I2 I3])]; [done| |];
    (destruct (Configuration_omit conf) as [[-> ->]|(cj & -> & [C1 C2 C3])]; [done| |]);
    simpl; (eexists; split; [done|]);
    (split; [simpl; by rewrite ?I1, ?C1|valid_names; congruence|]);
    unfold dec_base; dec_fields with (rewrite ?I3, ?C3).
Qed.

Lemma nodes_codes l : forallb (opt_ok node_ok) l = true →
  ∃ js, seq_results (pointer_json (node_json to_json_other) <$> l) = Ok js ∧
    Forall2 (λ o j, codes (λ c j, dec_pointer zero_node dec_node c j None) j o) (canon_pointer <$> l) js.
Proof.
  induction l as [|o l IH]; intros H; [exists []; split; [done|constructor]|]. simpl in H. apply andb_true_iff in H as [Ho Hl].
  destruct (pointer_codes o Ho) as (j & E & Hj), (IH Hl) as (js & Es & Hjs). rewrite fmap_cons. cbn [seq_results]. rewrite E, Es. simpl.
  exists (j :: js). split; [done|]. by constructor.
Qed.

(** The metadata as it is decoded. *)
Definition slices_of (m : RuleMetadata (option RuleNode)) : metadata_slices :=
  mkSlices (md_FirstNodeIndex m) (slice_of (md_NodesNil m) (canon_pointer <$> md_Nodes m))
    (slice_of (md_ConnectionsNil m) (md_Connections m))
    (match md_RuleChainConnections m with [] => None | l => Some (l, []) end).

Lemma slice_ok_nil {A} (ok : A → bool) nil l : slice_ok ok nil l = true → if nil then l = [] else forallb ok l = true.
Proof. destruct nil; [|done]. simpl. intros H%bool_decide_eq_true. by apply length_zero_iff_nil. Qed.

Lemma nodes_slice_codes nil l : slice_ok (opt_ok node_ok) nil l = true →
  ∃ js, seq_results (pointer_json (node_json to_json_other) <$> l) = Ok js ∧
    ∀ type, codes (λ c j, dec_slice None (dec_pointer zero_node dec_node) type c j None) (slice_json nil js) (slice_of nil (canon_pointer <$> l)).
Proof.
  intros H%slice_ok_nil. destruct nil; [subst; exists []; split; [done|by intros; split]|].
  destruct (nodes_codes l H) as (js & E & Hjs). exists js. split; [done|]. intros. by apply opt_slice_codes.
Qed.

Lemma metadata_codes m : metadata_ok m = true →
  ∃ j, metadata_json to_json_other m = Ok j ∧ codes (λ c j, dec_metadata c j zero_slices) j (slices_of m).
Proof.
  intros H. unfold metadata_ok in H. split_ok. destruct m as [first nodes cs ccs nn cn]. unfold metadata_json, slices_of. simpl in *.
  destruct (nodes_slice_codes nn nodes) as (js & -> & Hn); [done|]. simpl.
  destruct (Hn "[]*rulego.RuleNode") as [N1 N2 N3].
  destruct (opt_slice_codes zero_connection dec_connection "[]rulego.NodeConnection" cn cs (connection_json <$> cs)) as [C1 C2 C3].
  { intros ->. eapply Forall2_codes; [apply connection_codes|done]. }
  destruct (slice_codes zero_chain_connection dec_chain_connection "[]rulego.RuleChainConnection" ccs (chain_connection_json <$> ccs))
    as [D1 D2 D3]; [eapply Forall2_codes; [apply chain_connection_codes|done]|].
  set (nj := slice_json nn js) in *. set (cj := slice_json cn (connection_json <$> cs)) in *. set (dj := JArr (chain_connection_json <$> ccs)) in *.
  clearbody nj cj. eexists. split; [done|]. destruct ccs as [|cc ccs]; [|match goal with |- context [JArr ?l] => change (JArr l) with dj end; clearbody dj];
    (split; [simpl; by rewrite Itoa_number, N1, C1, ?D1|valid_names; congruence|];
     unfold dec_metadata; dec_fields with (rewrite ?dec_int_Itoa, ?N3, ?C3, ?D3 by done)).
Qed.

Lemma metadata_of_slices m : metadata_ok m = true →
  metadata_of (slices_of m) = mkRuleMetadata (md_FirstNodeIndex m) (canon_pointer <$> md_Nodes m) (md_Connections m)
    (md_RuleChainConnections m) (md_NodesNil m) (md_ConnectionsNil m).
Proof.
  intros H. unfold metadata_ok in H. split_ok. destruct m as [first nodes cs ccs nn cn]. unfold metadata_of, slices_of. simpl in *.
  apply slice_ok_nil in H2, H1. destruct nn, cn, ccs; simpl; by subst.
Qed.

Lemma chain_codes d : chain_ok d = true →
  ∃ j, chain_json to_json_other d = Ok j ∧ codes (λ _, dec_chain) j (canon_chain canon_pointer d).
Proof.
  intros H. unfold chain_ok in H. apply andb_true_iff in H as [Hb Hm]. unfold chain_json.
  destruct (base_codes _ Hb) as (bj & -> & [B1 B2 B3]), (metadata_codes _ Hm) as (mj & -> & [M1 M2 M3]).
  simpl. eexists. split; [done|]. split; [simpl; by rewrite B1, M1|valid_names; congruence|]. intros _. unfold dec_chain.
  assert (dec_struct "RuleChain" chain_fields None (JObj [("ruleChain", bj); ("metadata", mj)]) (zero_base, zero_slices) =
    ((canon_base (rc_RuleChain d), slices_of (rc_Metadata d)), [])) as -> by (dec_fields with (rewrite ?B3, ?M3)).
  simpl. unfold canon_chain, RuleChain_map. simpl. by rewrite metadata_of_slices.
Qed.

(** *** The text *)

(** Encoding does not see what reading back changes. *)
Lemma Configuration_json_canon m : Configuration_json to_json_other (canon <$> m) = Configuration_json to_json_other m.
Proof.
  unfold Configuration_json, map_json. rewrite map_to_list_fmap, <- list_fmap_compose. do 3 f_equal.
  apply list_fmap_ext. intros _ [k v] _. simpl. by rewrite to_json_canon.
Qed.

Lemma node_json_canon n : node_json to_json_other (canon_node n) = node_json to_json_other n.
Proof. unfold node_json. destruct n as [id i t nm dbg [m|]]; simpl; [by rewrite Configuration_json_canon|done]. Qed.

Lemma omit_non_empty {A} name (f : gmap string A → result json) o : omit_empty name f (non_empty o) = omit_empty name f o.
Proof. destruct o as [m|]; [|done]. simpl. case_bool_decide as Hm; simpl; [done|]. by rewrite bool_decide_false. Qed.

Lemma base_json_canon b : base_json to_json_other (canon_base b) = base_json to_json_other b.
Proof.
  unfold base_json, canon_base. simpl. rewrite !omit_non_empty. destruct (bi_Configuration b) as [m|]; [|done]. simpl.
  rewrite Configuration_json_canon. case_bool_decide as H1; case_bool_decide as H2; try done.
  - by apply fmap_empty_iff in H1.
  - subst. by rewrite fmap_empty in H1.
Qed.

Lemma chain_json_canon d : chain_json to_json_other (canon_chain canon_pointer d) = chain_json to_json_other d.
Proof.
  assert (∀ l : list (option RuleNode), pointer_json (node_json to_json_other) ∘ canon_pointer <$> l = pointer_json (node_json to_json_other) <$> l) as Hl.
  { intros l. apply list_fmap_ext. intros _ [n|] _; [apply node_json_canon|done]. }
  unfold chain_json, metadata_json. simpl. by rewrite base_json_canon, <- list_fmap_compose, Hl.
Qed.

Lemma format_codes {A} (dec : place → json → decoded A) r j a :
  r = Ok j → codes dec j a → fits (depth j) →
  ∃ text, format_json syntax_error r = Ok text ∧ parse_json text = Some j ∧ dec None j = (a, []).
Proof.
  intros -> [Hn Hv Hb] Hd. pose proof (parse_print j Hn Hd) as Hp. rewrite <- Marshal2_print, Hv in Hp.
  destruct (Format_parse _ _ Hp) as (text & Et & Ep). exists text. unfold format_json. simpl. rewrite Et. by rewrite Hb.
Qed.

Lemma chain_written d :
  chain_ok d = true → (∀ j, chain_json to_json_other d = Ok j → fits (depth j)) →
  ∃ text, EncodeRuleChain d = Ok text ∧ ParserRuleChain syntax_error text = (canon_chain canon_pointer d, None) ∧
          EncodeRuleChain (canon_chain canon_pointer d) = Ok text.
Proof.
  intros Hok Hd. destruct (chain_codes d Hok) as (j & Ej & Hj).
  destruct (format_codes _ _ _ _ Ej Hj (Hd j Ej)) as (text & Et & Ep & Eb). exists text. split; [done|]. split.
  - unfold ParserRuleChain. by rewrite Ep, Eb.
  - unfold DslJson.EncodeRuleChain in *. by rewrite chain_json_canon.
Qed.

(** C7. A chain definition of valid strings, 64-bit numbers and values of JSON's kinds, not
    nested more than 10000 deep, is written and read back: its text parses without an error to
    the same definition (values up to the order of their maps; an empty map of the chain
    itself comes back nil), and encoding what was read gives the same text again. *)
Theorem RuleChain_roundtrip d :
  chain_ok d = true → (∀ j, chain_json to_json_other d = Ok j → fits (depth j)) →
  ∃ text, EncodeRuleChain d = Ok text ∧ ParserRuleChain syntax_error text = (canon_chain canon_pointer d, None) ∧
          EncodeRuleChain (canon_chain canon_pointer d) = Ok text.
Proof. apply chain_written. Qed.

Lemma RuleNode_roundtrip n :
  node_ok n = true → (∀ j, node_json to_json_other n = Ok j → fits (depth j)) →
  ∃ text, EncodeRuleNode n = Ok text ∧ ParserRuleNode syntax_error text = (canon_node n, None) ∧
          EncodeRuleNode (canon_node n) = Ok text.
Proof.
  intros Hok Hd. destruct (node_codes n Hok) as (j & Ej & Hj).
  destruct (format_codes _ _ _ _ Ej Hj (Hd j Ej)) as (text & Et & Ep & Eb). exists text. split; [done|]. split.
  - unfold ParserRuleNode. by rewrite Ep, Eb.
  - unfold DslJson.EncodeRuleNode in *. by rewrite node_json_canon.
Qed.

End RoundTrip.

(** ** What is parsed can be written *)

Section Parsed.
Context `{FT : FloatText}.
Variable syntax_error : string → string.

Lemma dec_struct_inv {S} (P : S → Prop) struct (fields : list (field S)) c j s :
  Forall (λ f, ∀ c j s, valid j → P s → P (fld_set f c j s).1) fields →
  valid j → P s → P (dec_struct struct fields c j s).1.
Proof.
  intros Hf Hv Hs. destruct j as [| | | | |l]; try done. apply valid_obj_inv in Hv. unfold dec_struct.
  assert (P (s, @nil string).1) as H0 by done. revert H0. generalize (s, @nil string) as acc. clear Hs.
  induction Hv as [|[k j] l [_ Hj] _ IH]; intros acc Ha; [done|]. cbn [foldl]. apply IH. unfold dec_entry.
  destruct (field_of fields (k, j).1) as [f|] eqn:E; [|done]. cbn [fst]. rewrite Forall_forall in Hf. apply Hf; try done.
  clear -E. induction fields as [|f' fields IH]; simpl in E; [done|]. case_match; simplify_eq; [constructor|].
  apply elem_of_cons. right. by apply IH.
Qed.

Lemma dec_string_ok c j s : valid j → valid_utf8 s = true → valid_utf8 (dec_string c j s).1 = true.
Proof. intros Hv Hs. destruct j; try done. simpl. apply bool_decide_eq_true. by injection Hv. Qed.
Lemma dec_int_ok c j z : int_ok z = true → int_ok (dec_int c j z).1 = true.
Proof. intros Hz. destruct j; try done. simpl. destruct (parse_int lit) as [z'|]; [|done]. by case_bool_decide as E; [apply bool_decide_eq_true|]. Qed.

Lemma entries_ok_iff {A} (ok : A → bool) m : entries_ok ok m = true ↔ map_Forall (λ k a, valid_utf8 k = true ∧ ok a = true) m.
Proof.
  unfold entries_ok. rewrite forallb_forall. split.
  - intros H k a Hk. specialize (H (k, a)). simpl in H. rewrite andb_true_iff in H. apply H, list_elem_of_In, elem_of_map_to_list, Hk.
  - intros H [k a] Hin%list_elem_of_In%elem_of_map_to_list. apply andb_true_iff, (H k a Hin).
Qed.

Lemma dec_map_ok {A} (ok : A → bool) elem type c j old :
  (∀ c j, valid j → ok (elem c j).1 = true) → valid j → opt_ok (entries_ok ok) old = true →
  opt_ok (entries_ok ok) (dec_map elem type c j old).1 = true.
Proof.
  intros He Hv Ho. destruct j as [| | | | |l]; try done. apply valid_obj_inv in Hv. simpl.
  assert (entries_ok ok (default ∅ old) = true) as Hm by (destruct old; [done|by rewrite entries_ok_iff]).
  clear Ho. revert Hm. generalize (default ∅ old) as m. induction Hv as [|[k j] l [Hk Hj] _ IH]; intros m Hm; [done|].
  csimpl. apply IH. rewrite entries_ok_iff in *. apply map_Forall_insert_2; [|done]. split; [by apply bool_decide_eq_true|by apply He].
Qed.

Lemma dec_Configuration_ok c j old : valid j → opt_ok config_ok old = true → opt_ok config_ok (dec_Configuration c j old).1 = true.
Proof. intros. apply (dec_map_ok plain); [intros; by apply of_json_plain|done..]. Qed.
Lemma dec_info_map_ok c j old : valid j → opt_ok (entries_ok valid_utf8) old = true →
  opt_ok (entries_ok valid_utf8) (dec_map (λ c j, dec_string c j "") "map[string]string" c j old).1 = true.
Proof. intros. apply dec_map_ok; [intros; by apply dec_string_ok|done..]. Qed.

#[local] Create HintDb parsed_db.
(** The predicate holds of each field that is decoded. *)
Ltac field_ok := repeat (apply Forall_cons; split;
  [intros ? ? ? ? H; simpl in *; rewrite !andb_true_iff in *; destruct_and? H; split_and!; try done; eauto with parsed_db|]); constructor.
#[local] Hint Resolve dec_string_ok dec_int_ok dec_Configuration_ok dec_info_map_ok : parsed_db.

Lemma dec_info_ok c j i : valid j → info_ok i = true → info_ok (dec_info c j i).1 = true.
Proof. apply (dec_struct_inv (λ i, info_ok i = true)). unfold info_ok. field_ok. Qed.
#[local] Hint Resolve dec_info_ok : parsed_db.

Lemma dec_node_ok c j n : valid j → node_ok n = true → node_ok (dec_node c j n).1 = true.
Proof. apply (dec_struct_inv (λ n, node_ok n = true)). unfold node_ok. field_ok. Qed.
Lemma dec_base_ok c j b : valid j → base_ok b = true → base_ok (dec_base c j b).1 = true.
Proof. apply (dec_struct_inv (λ b, base_ok b = true)). unfold base_ok. field_ok. Qed.
Lemma dec_connection_ok c j n : valid j → connection_ok n = true → connection_ok (dec_connection c j n).1 = true.
Proof. apply (dec_struct_inv (λ n, connection_ok n = true)). unfold connection_ok. field_ok. Qed.
Lemma dec_chain_connection_ok c j n : valid j → chain_connection_ok n = true → chain_connection_ok (dec_chain_connection c j n).1 = true.
Proof. apply (dec_struct_inv (λ n, chain_connection_ok n = true)). unfold chain_connection_ok. field_ok. Qed.

Lemma dec_pointer_ok c j o : valid j → opt_ok node_ok o = true → opt_ok node_ok (dec_pointer zero_node dec_node c j o).1 = true.
Proof.
  intros Hv Ho. assert (node_ok (default zero_node o) = true) as Hd by (destruct o; done).
  unfold dec_pointer. destruct j; try done; by apply dec_node_ok.
Qed.

Lemma dec_slice_ok {A} (ok : A → bool) zero dec type c j s :
  (∀ c j a, valid j → ok a = true → ok (dec c j a).1 = true) → ok zero = true → valid j →
  forallb ok (stored s) = true → forallb ok (stored (dec_slice zero dec type c j s).1) = true.
Proof.
  intros Hd Hz Hv Hs. destruct j as [| | | |l|]; try done. apply valid_arr_inv in Hv. unfold dec_slice.
  destruct l as [|j0 l0]; [done|]. set (l := j0 :: l0) in *. clearbody l. simpl. rewrite forallb_app. apply andb_true_iff. split.
  - revert Hs. generalize (stored s) as old. induction Hv as [|j l Hj _ IH]; intros old Hs; [done|].
    destruct old as [|a old]; csimpl; rewrite ?andb_true_iff in *; [split; [by apply Hd|by apply IH]|].
    simpl in Hs. apply andb_true_iff in Hs as [Ha Hs]. split; [by apply Hd|by apply IH].
  - rewrite forallb_forall in *. intros a Ha%list_elem_of_In. apply Hs, list_elem_of_In. rewrite <- (take_drop (length l) (stored s)).
    apply elem_of_app. by right.
Qed.

Definition slices_ok (m : metadata_slices) : bool :=
  int_ok (ms_FirstNodeIndex m) && forallb (opt_ok node_ok) (stored (ms_Nodes m)) && forallb connection_ok (stored (ms_Connections m)) &&
  forallb chain_connection_ok (stored (ms_RuleChainConnections m)).
Lemma dec_nodes_ok type c j s : valid j → forallb (opt_ok node_ok) (stored s) = true →
  forallb (opt_ok node_ok) (stored (dec_slice None (dec_pointer zero_node dec_node) type c j s).1) = true.
Proof. apply dec_slice_ok; [apply dec_pointer_ok|done]. Qed.
Lemma dec_connections_ok type c j s : valid j → forallb connection_ok (stored s) = true →
  forallb connection_ok (stored (dec_slice zero_connection dec_connection type c j s).1) = true.
Proof. apply dec_slice_ok; [apply dec_connection_ok|done]. Qed.
Lemma dec_chain_connections_ok type c j s : valid j → forallb chain_connection_ok (stored s) = true →
  forallb chain_connection_ok (stored (dec_slice zero_chain_connection dec_chain_connection type c j s).1) = true.
Proof. apply dec_slice_ok; [apply dec_chain_connection_ok|done]. Qed.
#[local] Hint Resolve dec_nodes_ok dec_connections_ok dec_chain_connections_ok : parsed_db.

Lemma dec_metadata_ok c j m : valid j → slices_ok m = true → slices_ok (dec_metadata c j m).1 = true.
Proof. apply (dec_struct_inv (λ m, slices_ok m = true)). unfold slices_ok. field_ok. Qed.

Lemma stored_slice_ok {A} (ok : A → bool) s : forallb ok (stored s) = true → slice_ok ok (is_nil s) (elements s) = true.
Proof. destruct s as [[l spare]|]; [|done]. simpl. rewrite forallb_app. by intros [? _]%andb_true_iff. Qed.

Lemma metadata_of_ok m : slices_ok m = true → metadata_ok (metadata_of m) = true.
Proof.
  unfold slices_ok, metadata_ok. simpl. rewrite !andb_true_iff. intros [[[H1 H2] H3] H4].
  split_and!; [done|by apply stored_slice_ok..|]. destruct (ms_RuleChainConnections m) as [[l spare]|]; [|done].
  simpl in *. rewrite forallb_app in H4. by apply andb_true_iff in H4 as [? _].
Qed.

Definition chain_state_ok (s : RuleChainBaseInfo * metadata_slices) : bool := base_ok s.1 && slices_ok s.2.
#[local] Hint Resolve dec_base_ok dec_metadata_ok : parsed_db.
Lemma dec_chain_ok c j s : valid j → chain_state_ok s = true → chain_state_ok (dec_struct "RuleChain" chain_fields c j s).1 = true.
Proof. apply (dec_struct_inv (λ s, chain_state_ok s = true)). unfold chain_state_ok. field_ok. Qed.

(** Whatever the text, the definition that is returned can be written. *)
Lemma ParserRuleChain_ok text : chain_ok (ParserRuleChain syntax_error text).1 = true.
Proof.
  unfold ParserRuleChain. destruct (parse_json text) as [j|] eqn:E; [|done]. apply parse_json_valid in E.
  pose proof (dec_chain_ok None j (zero_base, zero_slices) E eq_refl) as [Hb Hm]%andb_true_iff.
  apply andb_true_iff. split; [done|]. by apply metadata_of_ok.
Qed.
Lemma ParserRuleNode_ok text : node_ok (ParserRuleNode syntax_error text).1 = true.
Proof.
  unfold ParserRuleNode. destruct (parse_json text) as [j|] eqn:E; [|done]. apply parse_json_valid in E. by apply dec_node_ok.
Qed.

End Parsed.
