(* ===== verification/JsonEngine.v ===== *)
(** * The JSON parser of the engine ([src/parser.go])

    [JsonParser]: definitions are parsed from JSON and contexts built from them, and
    written as indented JSON.  It implements the interface [Parsers] the engine is
    modelled against; a definition in which a node is [null] is never loaded. *)

From Stdlib Require Import Ascii.
From S2P Require Import Prelude GoStrings Value Msg Config Dsl World Node Chain ChainProps Engine EngineProps JsonText JsonParse JsonValid JsonValue DslJson.

Section JsonEngine.
Context `{C : Components} `{FT : FloatText}.
Variable to_json_other : value → result json.
Variable syntax_error : string → string.
(** Parsers other than the JSON parser. *)
Variable other : Parsers.
Abbreviation EncodeRuleChain := (EncodeRuleChain to_json_other syntax_error).
Abbreviation EncodeRuleNode := (EncodeRuleNode to_json_other syntax_error).
Abbreviation ParserRuleChain := (ParserRuleChain syntax_error).
Abbreviation ParserRuleNode := (ParserRuleNode syntax_error).

(** ** Decoding *)

(** [JsonParser.DecodeRuleChain] *)
Definition JsonParser_DecodeRuleChain (config : Config) (dsl : string) : M nat :=
  match ParserRuleChain dsl with
  | (rootRuleChainDef, None) =>
      do nodes <- mapM alloc_pointer (md_Nodes (rc_Metadata rootRuleChainDef)) ;;
      InitRuleChainCtx config (RuleChain_map (λ _, nodes) rootRuleChainDef)
  | (_, Some err) => fail err
  end.

(** [JsonParser.DecodeRuleNode] *)
Definition JsonParser_DecodeRuleNode (config : Config) (dsl : string) : M nat :=
  match ParserRuleNode dsl with
  | (node, None) => do d <- alloc_def node ;; InitRuleNodeCtx config d
  | (_, Some err) => fail err
  end.

(** The interface the engine is modelled against.  The encoding methods are called with
    their errors ignored: no text. *)
Definition with_error {A} (r : A * error) : result A := match r with (a, None) => Ok a | (_, Some e) => Err e end.
#[local] Instance json_parsers : Parsers := {|
  parse_node p s := match p with JsonParser => with_error (ParserRuleNode s) | _ => @parse_node other p s end;
  parse_chain p s :=
    match p with JsonParser => with_error (ParserRuleChain s) | _ => @parse_chain other p s end;
  encode_node p n :=
    match p with JsonParser => match EncodeRuleNode n with Ok s => s | Err _ => "" end | _ => @encode_node other p n end;
  encode_chain p d :=
    match p with
    | JsonParser => match EncodeRuleChain (some_nodes d) with Ok s => s | Err _ => "" end
    | _ => @encode_chain other p d
    end
|}.

(** The methods of the JSON parser are the loading the engine is modelled with. *)
Lemma JsonParser_DecodeRuleChain_refines config dsl w :
  c_Parser config = Some JsonParser → JsonParser_DecodeRuleChain config dsl w = DecodeRuleChain config dsl w.
Proof.
  intros Hc. unfold JsonParser_DecodeRuleChain, DecodeRuleChain. rewrite Hc. run. simpl.
  destruct (ParserRuleChain dsl) as [d0 [e|]]; [done|]. reflexivity.
Qed.
Lemma JsonParser_DecodeRuleNode_refines config dsl w :
  c_Parser config = Some JsonParser → JsonParser_DecodeRuleNode config dsl w = DecodeRuleNode config dsl w.
Proof.
  intros Hc. unfold JsonParser_DecodeRuleNode, DecodeRuleNode. rewrite Hc. run. simpl.
  destruct (ParserRuleNode dsl) as [d0 [e|]]; [done|]. reflexivity.
Qed.

(** ** A node that is null *)

(** C40. A chain definition in which a node is [null] is never loaded, although it parses
    without an error: no context results from it. *)
Theorem null_node_not_loaded config dsl d w p w' :
  ParserRuleChain dsl = (d, None) → None ∈ md_Nodes (rc_Metadata d) →
  JsonParser_DecodeRuleChain config dsl w ≠ (ROk p, w').
Proof.
  intros Hp [i Hi]%list_elem_of_lookup H. unfold JsonParser_DecodeRuleChain in H. rewrite Hp in H.
  destruct (alloc_pointers_spec (md_Nodes (rc_Metadata d)) w) as (w1 & E1 & N1 & _ & D1).
  rewrite (bind_ok _ _ _ _ _ E1) in H. pose proof (lookup_lt_Some _ _ _ Hi) as Hlt.
  apply InitRuleChainCtx_inv in H as (rc & _ & _ & _ & _ & _ & _ & _ & _ & _ & _ & _ & Hitems).
  - destruct (Hitems i (w_next w + i)) as (dd & Hd & _); [simpl; by apply lookup_seq|].
    assert (w_defs w1 !! (w_next w + i) = None) as Hn; [|by rewrite Hn in Hd].
    exact (Forall2_lookup_lr _ _ _ i _ _ D1 (proj2 (lookup_seq _ _ _ _) (conj eq_refl Hlt)) Hi).
  - simpl. apply NoDup_seq.
  - simpl. apply Forall_forall. intros q Hq%elem_of_seq. lia.
Qed.

(** ** What the engine prints *)

Lemma ascii_whole s : Forall (λ c, (code c < 128)%N) (chars s) → whole s.
Proof.
  induction s as [|c s IH]; intros H; [apply whole_nil|]. inversion_clear H as [|? ? Hc Hs].
  change (String c s) with (str1 c +:+ s). apply whole_app; [|by apply IH]. rewrite <- (ascii_N_embedding c). by apply whole_rune1.
Qed.

Lemma default_node_id_valid i : valid_utf8 (default_node_id i) = true.
Proof.
  apply bool_decide_eq_true, whole_valid. unfold default_node_id. apply whole_app; apply ascii_whole.
  - by repeat constructor.
  - apply Itoa_chars; [|done..]. intros y. unfold pretty_N_char. by repeat case_match.
Qed.

Lemma completed_node_ok i n : node_ok n = true → node_ok (with_configuration (with_id i n)) = true.
Proof.
  unfold node_ok. rewrite !andb_true_iff. intros [[[[H1 H2] H3] H4] H5]. unfold with_configuration, with_id.
  split_and!; case_bool_decide; simpl; try done; try apply default_node_id_valid; by destruct (n_Configuration n).
Qed.

Lemma completed_ok d : chain_ok (some_nodes d) = true → chain_ok (some_nodes (completed_def d)) = true.
Proof.
  unfold chain_ok, metadata_ok. simpl. rewrite !andb_true_iff. intros (Hb & ((H1 & H2) & H3) & H4). split_and!; try done.
  destruct (md_NodesNil _); simpl in *.
  - rewrite bool_decide_eq_true in *. by rewrite length_fmap, length_imap in *.
  - rewrite forallb_forall in *. intros o Hin%list_elem_of_In. apply list_elem_of_fmap in Hin as (n & -> & Hn).
    apply elem_of_lookup_imap in Hn as (i & n0 & -> & Hn0). apply completed_node_ok.
    apply (H2 (Some n0)), list_elem_of_In, list_elem_of_fmap. exists n0. split; [done|]. by eapply list_elem_of_lookup_2.
Qed.

(** The text of a definition that was loaded. *)
Lemma json_load_chain cfg text d : load_chain cfg JsonParser text = ROk d → ParserRuleChain text = (some_nodes d, None).
Proof. intros [H _]%load_chain_ok. simpl in H. destruct (ParserRuleChain text) as [d0 [e|]]; simplify_eq/=. done. Qed.

Lemma loaded_text_reads_back cfg text d :
  load_chain cfg JsonParser text = ROk d → (∀ j, chain_json to_json_other (some_nodes (completed_def d)) = Ok j → fits (depth j)) →
  let text' := encode_chain JsonParser (completed_def d) in
  ParserRuleChain text' = (canon_chain canon_pointer (some_nodes (completed_def d)), None) ∧
  EncodeRuleChain (canon_chain canon_pointer (some_nodes (completed_def d))) = Ok text'.
Proof.
  intros Hl Hd. apply json_load_chain in Hl. pose proof (ParserRuleChain_ok syntax_error text) as Hok. rewrite Hl in Hok. simpl in Hok.
  apply completed_ok in Hok. destruct (chain_written to_json_other syntax_error _ Hok Hd) as (text' & E1 & E2 & E3). simpl. by rewrite E1.
Qed.

(** C14. An engine created from a JSON text prints the text of its definition: it parses
    without an error to the definition that was loaded, completed with the ids of its nodes
    and with configurations (values up to the order of their maps), and encoding that
    definition gives the same text again. *)
Theorem created_engine_text g id text cfgs w engines d :
  let cfg := final_config (NewConfig []) cfgs in
  w_pools w !! g = Some engines → text ≠ "" → c_Parser cfg = Some JsonParser → engines !! id = None →
  load_chain cfg JsonParser text = ROk d → engine_id id d ≠ "" →
  (∀ j, chain_json to_json_other (some_nodes (completed_def d)) = Ok j → fits (depth j)) →
  ParserRuleChain text = (some_nodes d, None) ∧
  ∃ w' text', RuleGo_New g id text (map WithConfig cfgs) w = (ROk (w_next w), w') ∧
    RuleEngine_DSL (w_next w) w' = (ROk text', w') ∧
    ParserRuleChain text' = (canon_chain canon_pointer (some_nodes (completed_def d)), None) ∧
    EncodeRuleChain (canon_chain canon_pointer (some_nodes (completed_def d))) = Ok text'.
Proof.
  intros cfg Hg Ht Hp He Hl Hid Hd. split; [by eapply json_load_chain|].
  destruct (RuleGo_New_created g id text cfgs w engines JsonParser d Hg Ht Hp He Hl Hid) as (w' & E & _ & _ & Hdsl).
  exists w', (encode_chain JsonParser (completed_def d)). split; [done|]. split; [done|]. by eapply loaded_text_reads_back.
Qed.

End JsonEngine.
