(* ===== verification/JsonExamples.v ===== *)
(** * JSON on concrete texts

    The hypotheses of the JSON theorems hold of concrete texts and definitions, with an
    instance of [FloatText] in which a number is its own text. *)

From Stdlib Require Import Ascii.
From S2P Require Import Prelude GoStrings Value Msg Config Dsl World Node Samples Chain ChainProps Engine EngineProps JsonText JsonParse JsonValid JsonValue DslJson JsonEngine.
Import Samples.

Module JsonExamples.

#[export] Program Instance sample_floats : FloatText := {|
  float_json t := if is_number t then Some t else None;
  float_parse lit := if is_number lit then Some lit else None
|}.
Next Obligation. intros t lit H. simpl in H. by destruct (is_number t) eqn:E; simplify_eq. Qed.
Next Obligation. intros t lit H. simpl in *. by destruct (is_number t) eqn:E; simplify_eq; rewrite E. Qed.
Next Obligation. intros lit t H. simpl in *. destruct (is_number lit) eqn:E; simplify_eq. rewrite E. eauto. Qed.

Definition no_json (v : value) : result json := Err "json: unsupported type".
Definition syntax (s : string) : string := "invalid JSON".

(** Texts are written with single quotes. *)
Fixpoint q (s : string) : string :=
  match s with "" => "" | String c s => String (if bool_decide (c = "'"%char) then dq else c) (q s) end.

Lemma fits_small n : (n <=? 100) = true → fits n.
Proof. intros H%Nat.leb_le. unfold fits, maxNestingDepth. lia. Qed.

(** The depth of what [r] gives, when it gives something. *)
Definition shallow (r : result json) : bool := match r with Ok j => depth j <=? 100 | Err _ => true end.
Lemma shallow_fits r j : shallow r = true → r = Ok j → fits (depth j).
Proof. intros H ->. by apply fits_small. Qed.

Definition sample_json : json := JObj [("a", JArr [JNum "1.5"; JNull; JStr (String (ascii_of_N 255) "x")])].
Lemma json_roundtrip_witness :
  parse_json (Marshal2 sample_json) = Some (JObj [("a", JArr [JNum "1.5"; JNull; JStr (RuneError +:+ "x")])]) ∧ Marshal2 (JArr []) = "[]".
Proof.
  split; [|reflexivity]. destruct (json_roundtrip sample_json) as [H _]; [reflexivity|apply fits_small; reflexivity|].
  rewrite H. vm_compute. reflexivity.
Defined.

Definition sample_value : value := VMap [("b", VSlice [VFloat64 "1"; VNil]); ("a", VBool true)].
Lemma value_roundtrip_witness :
  Marshal no_json sample_value = Ok (q "{'a':true,'b':[1,null]}") ∧
  Unmarshal syntax (q "{'a':true,'b':[1,null]}") = Ok (canon sample_value).
Proof.
  destruct (value_roundtrip no_json syntax sample_value) as [(text & E & H & _) _];
    [reflexivity|intros j; apply shallow_fits; reflexivity|].
  assert (Marshal no_json sample_value = Ok (q "{'a':true,'b':[1,null]}")) as E' by (vm_compute; reflexivity).
  rewrite E' in E. injection E as <-. by split.
Defined.

(** A definition with a nil node, an empty map and an empty slice that is not nil. *)
Definition sample_chain : ParsedChain :=
  mkRuleChain (mkBaseInfo "r" (Some ∅) "n" false true None)
    (mkRuleMetadata 0
       [Some (mkRuleNode "s1" (mkAdditionalInfo "" 10 (-2)) "jsFilter" "" false (Some {["m" := VMap [("z", VNil); ("a", VNil)]]})); None]
       [] [] false true).
Lemma RuleChain_roundtrip_witness :
  (ParserRuleChain syntax (match EncodeRuleChain no_json syntax sample_chain with Ok s => s | Err _ => "" end)).2 = None ∧
  bi_AdditionalInfo (rc_RuleChain (canon_chain canon_pointer sample_chain)) = None.
Proof.
  split; [|reflexivity].
  destruct (RuleChain_roundtrip no_json syntax sample_chain) as (text & E & H & _);
    [vm_compute; reflexivity|intros j; apply shallow_fits; vm_compute; reflexivity|].
  rewrite E, H. reflexivity.
Defined.

(** A text with a null node: loading it is a nil dereference. *)
Definition null_text : string := q "{'metadata':{'nodes':[{'id':'a','type':'log'},null]}}".
Theorem null_node_panics :
  (ParserRuleChain syntax null_text).2 = None ∧
  (JsonParser_DecodeRuleChain syntax cfg null_text initialWorld).1 = RPanic "nil pointer dereference".
Proof. split; vm_compute; reflexivity. Qed.
Lemma null_node_not_loaded_witness :
  (JsonParser_DecodeRuleChain syntax cfg null_text initialWorld).1 = RPanic "nil pointer dereference" ∧
  ∀ p w', JsonParser_DecodeRuleChain syntax cfg null_text initialWorld ≠ (ROk p, w').
Proof.
  split; [vm_compute; reflexivity|]. intros p w'.
  apply (null_node_not_loaded syntax cfg null_text (ParserRuleChain syntax null_text).1).
  - vm_compute. reflexivity.
  - vm_compute. right. left.
Defined.

(** A text as a client sends it: field names in any case, unknown fields, no ids. *)
Definition main_text : string :=
  q "{'RuleChain':{'Name':'x','extra':[1]},'metadata':{'nodes':[{'type':'filter','configuration':{'b':1,'a':null}},{'type':'log'}], 'connections':[{'fromId':'node0','toId':'node1','type':'True'}]}}".
#[local] Instance parsers : Parsers := json_parsers no_json syntax sampleParsers.
Definition main_def : RuleChainDef := default (chain "" 0 [] [] []) (present (ParserRuleChain syntax main_text).1).

Lemma created_engine_text_witness :
  (ParserRuleChain syntax main_text).2 = None ∧
  ∃ w' text', RuleGo_New DefaultRuleGo "c" main_text [] initialWorld = (ROk 1, w') ∧ RuleEngine_DSL 1 w' = (ROk text', w') ∧
    map (λ o, n_Id <$> o) (md_Nodes (rc_Metadata (ParserRuleChain syntax text').1)) = [Some "node0"; Some "node1"].
Proof.
  destruct (created_engine_text no_json syntax sampleParsers DefaultRuleGo "c" main_text [] initialWorld ∅ main_def)
    as (H1 & w' & text' & H2 & H3 & H4 & _).
  - reflexivity.
  - discriminate.
  - reflexivity.
  - reflexivity.
  - vm_compute. reflexivity.
  - vm_compute. discriminate.
  - intros j. apply shallow_fits. vm_compute. reflexivity.
  - split; [by rewrite H1|]. exists w', text'. split; [exact H2|]. split; [exact H3|]. rewrite H4. vm_compute. reflexivity.
Defined.

End JsonExamples.
