(* ===== verification/LoadFolder.v ===== *)
(** * Loading a folder of chains ([RuleGo.Load] of [src/rulego.go])

    Every file of the folder becomes an engine under the id in its text; the first file
    that does not load ends the loading, and what was loaded before stays. *)

From S2P Require Import Prelude GoStrings Value Msg Config Dsl World Node Samples Chain ChainProps Reload Engine EngineProps.

Section LoadFolder.
Context `{C : Components} `{P : Parsers} `{FS : FileSystem}.
Variable config : Config.
Variable parser : ParserRef.
Hypothesis config_parser : c_Parser config = Some parser.

Definition chain_id (d : RuleChainDef) : string := bi_ID (rc_RuleChain d).

(** A file with the text of a chain that loads, and has an id. *)
Record chain_file (path : string) (d : RuleChainDef) : Prop := {
  cf_text : ∃ text, fs_LoadFile path = Some text ∧ text ≠ "" ∧ load_chain config parser text = ROk d;
  cf_id : chain_id d ≠ ""
}.

Lemma chain_files_id paths ds d : Forall2 chain_file paths ds → d ∈ ds → chain_id d ≠ "".
Proof. intros H. induction H as [|path d' paths ds [_ Hid] _ IH]; [by intros ?%elem_of_nil|]. by intros [->|Hd]%elem_of_cons; [|apply IH]. Qed.

(** The loop body of [Load]. *)
Definition load_file (g : nat) (path : string) : M unit :=
  match fs_LoadFile path with
  | Some b => do_ RuleGo_New g "" b [WithConfig config] ;; ret tt
  | None => ret tt
  end.

Lemma preserved_refl w : preserved w w.
Proof. by split. Qed.
Lemma preserved_trans w1 w2 w3 : preserved w1 w2 → preserved w2 w3 → preserved w1 w3.
Proof.
  intros [H1 L1] [H2 L2]. split; [|lia]. intros p Hp. destruct (H1 p Hp) as (<- & <- & <- & <-). apply H2. lia.
Qed.

(** The pool holds an engine for each definition, and is as it was at other ids. *)
Record loaded (g : nat) (ds : list RuleChainDef) (engines : gmap string nat) (w : World) : Prop := {
  ld_pool : ∃ engines', w_pools w !! g = Some engines' ∧
    (∀ d, d ∈ ds → ∃ p, engines' !! chain_id d = Some p ∧ serves p parser d w) ∧
    ∀ id, id ∉ chain_id <$> ds → engines' !! id = engines !! id
}.

Lemma load_files_ok g paths ds engines w :
  Forall2 chain_file paths ds → w_pools w !! g = Some engines → NoDup (chain_id <$> ds) →
  (∀ d, d ∈ ds → engines !! chain_id d = None) → engines !! "" = None →
  ∃ w', mapM_ (load_file g) paths w = (ROk tt, w') ∧ preserved w w' ∧ loaded g ds engines w'.
Proof.
  intros H. revert w engines. induction H as [|path d paths ds [(text & Hf & Hne & Hl) Hid] _ IH]; intros w engines Hg Hnd Hnew Hempty.
  { exists w. split; [done|]. split; [apply preserved_refl|]. split. exists engines. split; [done|]. split; [|done]. by intros d ?%elem_of_nil. }
  csimpl in Hnd. apply NoDup_cons in Hnd as [Hd Hnd].
  assert (engine_id "" d = chain_id d) as Heid by done.
  destruct (RuleGo_New_serves g "" text [config] w engines parser d Hg Hne config_parser Hempty Hl) as (w1 & E1 & P1 & Hpo & S1);
    [by rewrite Heid|]. rewrite Heid in Hpo.
  destruct (IH w1 (<[chain_id d := w_next w]> engines)) as (w2 & E2 & P2 & [(engines' & Hg2 & Hs & Ho)]).
  - rewrite Hpo. apply lookup_insert_eq.
  - done.
  - intros d' Hd'. rewrite lookup_insert_ne; [apply Hnew; by right|]. intros Heq. apply Hd. rewrite Heq. by apply list_elem_of_fmap_2.
  - by rewrite lookup_insert_ne.
  - exists w2. split; [|split; [by eapply preserved_trans|]].
    + assert (load_file g path w = (ROk tt, w1)) as E by (unfold load_file; rewrite Hf; by rewrite (bind_ok _ _ _ _ _ E1)).
      cbn [mapM_]. by rewrite (bind_ok _ _ _ _ _ E).
    + split. exists engines'. split; [done|]. split.
      * intros d' [->|Hd']%elem_of_cons; [|by apply Hs]. exists (w_next w). split; [|by eapply serves_preserved].
        rewrite Ho by done. apply lookup_insert_eq.
      * intros id Hn. csimpl in Hn. apply not_elem_of_cons in Hn as [Hn1 Hn2]. rewrite Ho by done. by apply lookup_insert_ne.
Qed.

Lemma mapM_unit_app {A} (f : A → M unit) l1 l2 w :
  mapM_ f (l1 ++ l2) w = bind (mapM_ f l1) (λ _, mapM_ f l2) w.
Proof.
  revert w. induction l1 as [|a l1 IH]; intros w; simpl; [done|]. unfold bind.
  destruct (f a w) as [[[]| |] w1]; [|done..]. apply IH.
Qed.

(** A file whose text is refused with an error. *)
Definition bad_file (path : string) (e : string) : Prop :=
  ∃ text, fs_LoadFile path = Some text ∧ text ≠ "" ∧ load_chain config parser text = RErr e.

Lemma load_file_err g path e w engines :
  bad_file path e → w_pools w !! g = Some engines → engines !! "" = None →
  ∃ w', load_file g path w = (RErr e, w') ∧ preserved w w' ∧ w_pools w' = w_pools w.
Proof.
  intros (text & Hf & Hne & Hl) Hg He.
  destruct (newRuleEngine_err "" text [config] w parser e Hne config_parser Hl) as (w' & E & Hpr & Hpo & _). exists w'.
  split; [|done]. unfold load_file. rewrite Hf. unfold bind at 1. unfold RuleGo_New. run. rewrite He. by rewrite (bind_ok _ _ _ _ _ E).
Qed.

Lemma RuleGo_Load_run g folderPath paths ds bad engines w :
  fs_GetFilePaths (load_pattern folderPath) = Ok (paths ++ (fst <$> bad)) → Forall2 chain_file paths ds →
  match bad with [] => True | (path, e) :: _ => bad_file path e end →
  w_pools w !! g = Some engines → NoDup (chain_id <$> ds) → (∀ d, d ∈ ds → engines !! chain_id d = None) → engines !! "" = None →
  ∃ w' engines', RuleGo_Load g folderPath [WithConfig config] w = (match bad with [] => ROk tt | (_, e) :: _ => RErr e end, w') ∧
    preserved w w' ∧ w_pools w' !! g = Some engines' ∧ (∀ id, id ∉ chain_id <$> ds → engines' !! id = engines !! id) ∧
    ∀ d, d ∈ ds → ∃ p, engines' !! chain_id d = Some p ∧ RuleEngine_DSL p w' = (ROk (encode_chain parser (completed_def d)), w').
Proof.
  intros Hp H Hbad Hg Hnd Hnew He. destruct (load_files_ok g paths ds engines w H Hg Hnd Hnew He) as (w1 & E1 & P1 & [(engines' & Hg1 & Hs & Ho)]).
  unfold RuleGo_Load. rewrite Hp. run. change (λ path : string, _) with (load_file g). rewrite mapM_unit_app, (bind_ok _ _ _ _ _ E1).
  assert (engines' !! "" = None) as He'.
  { rewrite Ho; [done|]. intros (d & Hd1 & Hd2)%list_elem_of_fmap. by destruct (chain_files_id paths ds d H Hd2). }
  destruct bad as [|[path e] bad].
  - exists w1, engines'. split_and!; try done. intros d Hd. destruct (Hs d Hd) as (p & Hp' & Hsv). exists p. split; [done|]. by apply serves_DSL.
  - destruct (load_file_err g path e w1 engines' Hbad Hg1 He') as (w2 & E2 & P2 & Hpo). exists w2, engines'.
    split; [csimpl; unfold bind; by rewrite E2|]. rewrite Hpo. split; [by eapply preserved_trans|]. split_and!; try done.
    intros d Hd. destruct (Hs d Hd) as (p & Hp' & Hsv). exists p. split; [done|]. by eapply serves_DSL, serves_preserved.
Qed.

(** C17. Loading a folder: when its files hold chains with different ids that the pool does not
    have yet, each chain can be found under its id afterwards, prints the completed definition
    of its file, and nothing that existed before is changed.  When a file further on is
    refused with an error, the loading ends with its error and the chains loaded before stay. *)
Theorem RuleGo_Load_spec g folderPath paths ds bad engines w :
  fs_GetFilePaths (load_pattern folderPath) = Ok (paths ++ (fst <$> bad)) → Forall2 chain_file paths ds →
  match bad with [] => True | (path, e) :: _ => bad_file path e end →
  w_pools w !! g = Some engines → NoDup (chain_id <$> ds) → (∀ d, d ∈ ds → engines !! chain_id d = None) → engines !! "" = None →
  ∃ w' engines', RuleGo_Load g folderPath [WithConfig config] w = (match bad with [] => ROk tt | (_, e) :: _ => RErr e end, w') ∧
    preserved w w' ∧ w_pools w' !! g = Some engines' ∧ (∀ id, id ∉ chain_id <$> ds → engines' !! id = engines !! id) ∧
    ∀ d, d ∈ ds → ∃ p, engines' !! chain_id d = Some p ∧ RuleEngine_DSL p w' = (ROk (encode_chain parser (completed_def d)), w').
Proof. apply RuleGo_Load_run. Qed.

End LoadFolder.

Module LoadFolderExample.
Import Samples.

(** A folder with two chains and a file with a node of an unknown type. *)
Definition folder : gmap string string := {["a.json" := "main"; "b.json" := "sub"; "c.json" := "unknown"]}.
#[local] Instance files : FileSystem := {|
  fs_GetFilePaths _ := Ok ["a.json"; "b.json"; "c.json"];
  fs_LoadFile path := folder !! path
|}.
Definition chain_sub : RuleChainDef := chain "sub" 0 [node "a" "log"] [] [].

Lemma RuleGo_Load_spec_witness :
  ∃ w' engines', RuleGo_Load DefaultRuleGo "rules" [WithConfig cfg] initialWorld = (RErr "component not found.componentType=xyz", w') ∧
    w_pools w' !! DefaultRuleGo = Some engines' ∧
    ∃ p, engines' !! "main" = Some p ∧ RuleEngine_DSL p w' = (ROk "main[node0:filter,node1:log,s3:log]", w').
Proof.
  destruct (RuleGo_Load_spec cfg JsonParser eq_refl DefaultRuleGo "rules" ["a.json"; "b.json"] [chain_main; chain_sub]
    [("c.json", "component not found.componentType=xyz")] ∅ initialWorld) as (w' & engines' & H1 & _ & H2 & _ & H3).
  - reflexivity.
  - repeat constructor; try (vm_compute; discriminate);
      [exists "main"|exists "sub"]; (split; [vm_compute; reflexivity|split; [discriminate|vm_compute; reflexivity]]).
  - exists "unknown". split; [vm_compute; reflexivity|]. split; [discriminate|]. vm_compute. reflexivity.
  - reflexivity.
  - by_decide.
  - intros d Hd. reflexivity.
  - reflexivity.
  - exists w', engines'. split; [exact H1|]. split; [exact H2|]. destruct (H3 chain_main) as (p & Hp & Hdsl); [constructor|].
    exists p. split; [exact Hp|]. rewrite Hdsl. vm_compute. reflexivity.
Defined.

End LoadFolderExample.
