(* ===== verification/Server.v ===== *)
(** * The rule server ([src/examples/server/server.go])

    The HTTP server on top of the engine: its routes read and save the definitions of
    chains, pass messages to them, list the components and show the debug events.  A
    processor works on the exchange of a request and on what the server keeps: the
    engines ([World]), the files of the rule folder, the debug store.  [filepath.Dir],
    [filepath.Join], [path.Base] and the encoding of forms and debug pages are parameters. *)

From Stdlib Require Import Ascii.
From S2P Require Import Prelude GoStrings Value Str Msg Config Dsl World Node Chain ChainProps Engine EngineProps Endpoint JsEngine Registry Forms FileWalk DebugData Mime HttpApi Rest Samples JsonText JsonParse JsonValue DslJson JsonEngine JsonExamples LoadFolder.

(** ** Paths *)

Definition apiVersion : string := "v1".
Definition apiBasePath : string := "/api/" +:+ apiVersion +:+ "/".
Definition msgPath : string := apiBasePath +:+ "msg/:chainId/:msgType".
Definition rulePath : string := apiBasePath +:+ "rule/:chainId".
Definition componentsPath : string := apiBasePath +:+ "components".
Definition eventPath : string := apiBasePath +:+ "event/debug".

Section Server.
Context `{C : Components} `{P : Parsers} {I O : Type} `{MI : MessageOps I} `{MO : MessageOps O} `{OS : Os} `{TS : TsSort}.
Local Abbreviation exchange := (Exchange I O).
Variable Dir : string → string.
Variable Join : string → string → string.
Variable Base : string → string.
Variable Marshal_forms : list ComponentForm → result string.
Variable Marshal_page : DebugDataPage → result string.

Definition out_Body (body : string) (ex : exchange) : exchange := mkExchange (ex_In ex) (SetBody body (ex_Out ex)).
Definition out_StatusCode (code : Z) (ex : exchange) : exchange := mkExchange (ex_In ex) (SetStatusCode code (ex_Out ex)).

(** ** Definitions of chains *)

(** [getDsl] *)
Definition getDsl (chainId nodeId : string) (ex : exchange) : M exchange :=
  if bool_decide (chainId = "") then ret ex
  else
    do o <- RuleGo_Get DefaultRuleGo chainId ;;
    match o with
    | Some ruleEngine =>
        if bool_decide (nodeId = "") then
          do def <- RuleEngine_DSL ruleEngine ;; ret (out_Body def ex)
        else
          do def <- RuleEngine_NodeDSL ruleEngine EmptyRuleNodeId (mkNodeId nodeId NODE) ;;
          do def <- (if bool_decide (def = "")
                     then RuleEngine_NodeDSL ruleEngine EmptyRuleNodeId (mkNodeId nodeId CHAIN) else ret def) ;;
          ret (out_Body def ex)
    | None => ret (out_StatusCode 404 ex)
    end.

(** The engine part of [saveDsl]. *)
Definition update_engine (config : Config) (chainId nodeId body : string) : M unit :=
  do o <- RuleGo_Get DefaultRuleGo chainId ;;
  match o with
  | Some ruleEngine =>
      if bool_decide (nodeId = "") then RuleEngine_ReloadSelf ruleEngine body []
      else RuleEngine_ReloadChild ruleEngine nodeId body
  | None => do_ RuleGo_New DefaultRuleGo chainId body [WithConfig config] ;; ret tt
  end.

(** [saveDsl]; [rules] is the rule folder.  The body is read once: a request keeps it, and
    reading it again for the engine gives the same.  The error of the engine is replaced by the
    one of writing the file; a panic of the engine comes before the file is written. *)
Definition saveDsl (rules : string) (config : Config) (chainId nodeId : string) (ex : exchange) (w : World) (files : Files)
    : res exchange * World * Files :=
  let answer (err : error) (ex : exchange) := out_StatusCode (match err with Some _ => 500 | None => 200 end) ex in
  if bool_decide (chainId = "") then (ROk (answer None ex), w, files)
  else
    let '(body, i) := Body (ex_In ex) in
    let ex := mkExchange i (ex_Out ex) in
    match update_engine config chainId nodeId (default "" body) w with
    | (RPanic why, w) => (RPanic why, w, files)
    | (_, w) =>
        let v := default "" (Format (default "" body)) in
        let '(err, files) := SaveFile (Join (Dir rules) (chainId +:+ ".json")) v files in
        (ROk (answer err ex), w, files)
    end.

(** ** Processors *)

(** [exchange.In.GetMsg()]: the message of the exchange; the nil message panics where it
    is read. *)
Definition with_msg (ex : exchange) : option RuleMsg * exchange :=
  let '(m, i) := GetMsg (ex_In ex) in (m, mkExchange i (ex_Out ex)).

Definition process_getDsl (ex : exchange) : M exchange :=
  let '(m, ex) := with_msg ex in
  do msg <- deref_or_panic m ;;
  getDsl (Metadata_GetValue (m_Metadata msg) "chainId") (Metadata_GetValue (m_Metadata msg) "nodeId") ex.

Definition process_saveDsl (rules : string) (config : Config) (ex : exchange) (w : World) (files : Files)
    : res exchange * World * Files :=
  let '(m, ex) := with_msg ex in
  match m with
  | None => (RPanic "invalid memory address or nil pointer dereference", w, files)
  | Some msg => saveDsl rules config (Metadata_GetValue (m_Metadata msg) "chainId") (Metadata_GetValue (m_Metadata msg) "nodeId") ex w files
  end.

(** The message type of a message comes from the path. *)
Definition transform_msgType (ex : exchange) : option exchange :=
  let '(m, ex) := with_msg ex in
  msg ← m; Some (mkExchange (SetMsg (set_Type (Metadata_GetValue (m_Metadata msg) "msgType") msg) (ex_In ex)) (ex_Out ex)).
Definition process_accepted (ex : exchange) : exchange := out_StatusCode 200 ex.

Definition process_components `{MR : MapRange} {Node} `{NodeClass Node} (describe : Node → GoComponent)
    (registry : RuleComponentRegistry) (ex : exchange) : outcome exchange :=
  match GetComponentForms describe registry with
  | Panics why => Panics why
  | Returns forms =>
      match Marshal_forms (Values forms) with
      | Err err => Returns (out_Body err (out_StatusCode 400 ex))
      | Ok list => Returns (out_Body list ex)
      end
  end.

Definition process_debugData (ex : exchange) (d : RuleChainDebugData) : option (exchange * RuleChainDebugData) :=
  let '(m, ex) := with_msg ex in
  msg ← m;
  let '(page, d) := GetToPage (Metadata_GetValue (m_Metadata msg) "chainId") (Metadata_GetValue (m_Metadata msg) "nodeId") d in
  match Marshal_page page with
  | Err err => Some (out_Body err (out_StatusCode 500 ex), d)
  | Ok v => Some (out_Body v ex, d)
  end.

(** ** Start *)

(** The callback [OnDebug] records the event. *)
Definition onDebug (now : Z) (chainId flowType nodeId : string) (msg : RuleMsg) (relationType : string) (err : error)
    (d : RuleChainDebugData) : outcome RuleChainDebugData :=
  RuleChainDebugData_Add chainId nodeId (mkDebugData now nodeId flowType msg relationType (default "" err)) d.

(** [loadJs]: the scripts of a folder become user functions. *)
Definition loadJs `{FS : FileSystem} (folderPath : string) (config : Config) : result Config :=
  let? paths := fs_GetFilePaths (folderPath +:+ "/*.js") in
  Ok (foldl (λ config file, match fs_LoadFile file with
                            | Some b => RegisterUdf (Base file) (VScript Js (VString b)) config
                            | None => config
                            end) config paths).

(** [loadPlugins]: a plugin that does not load is logged. *)
Definition loadPlugins {Node} `{NodeClass Node} (plugin_Open : string → result (string → result (option (list Node))))
    `{FS : FileSystem} (folderPath : string) (r : RuleComponentRegistry) : result RuleComponentRegistry :=
  let? paths := fs_GetFilePaths (folderPath +:+ "/*.so") in
  Ok (foldl (λ r file, (RegisterPlugin plugin_Open (Base file) file r).2) r paths).

(** [loadRules] *)
Definition loadRules `{FS : FileSystem} (folderPath : string) (config : Config) : M unit :=
  RuleGo_Load DefaultRuleGo folderPath [WithConfig config].

(** [initRuleGo]: the configuration, with the third-party property key, the logger and the debug
    callback, then the three folders.  What does not load is fatal. *)
Definition server_config (LoadLuaLibs : string) (logger onDebug : nat) : Config :=
  let c := NewConfig [WithDefaultPool] in
  WithOnDebug onDebug (WithLogger (CustomLogger logger)
    (mkConfig (c_OnDebug c) (c_OnEnd c) (c_ScriptMaxExecutionTime c) (c_Pool c) (c_ComponentsRegistry c) (c_Parser c) (c_Logger c)
       ((λ md, Metadata_PutValue md LoadLuaLibs "true") <$> c_Properties c) (c_Udf c) (c_Aspects c))).

Inductive startup (Node : Type) : Type :=
| Started (config : Config) (registry : @RuleComponentRegistry Node)
| Fatal (why : string)
| StartPanic (why : string).
#[global] Arguments Started {Node}. #[global] Arguments Fatal {Node}. #[global] Arguments StartPanic {Node}.

Definition initRuleGo {Node} `{NodeClass Node} (plugin_Open : string → result (string → result (option (list Node))))
    `{FS : FileSystem} (js plugins rules : string) (config : Config) (registry : RuleComponentRegistry) (w : World) : startup Node * World :=
  match loadJs js config with
  | Err err => (Fatal err, w)
  | Ok config =>
      match loadPlugins plugin_Open plugins registry with
      | Err err => (Fatal err, w)
      | Ok registry =>
          match loadRules rules config w with
          | (ROk _, w) => (Started config registry, w)
          | (RErr err, w) => (Fatal err, w)
          | (RPanic why, w) => (StartPanic why, w)
          end
      end
  end.

Lemma loadJs_Parser `{FS : FileSystem} js config config' : loadJs js config = Ok config' → c_Parser config' = c_Parser config.
Proof.
  unfold loadJs. destruct (fs_GetFilePaths _) as [paths|]; [|done]. simpl. intros [= <-].
  revert config. induction paths as [|path paths IH]; intros config; simpl; [done|]. rewrite IH. by destruct (fs_LoadFile path).
Qed.

(** ** Saving and reading back *)

Definition file_of (rules chainId : string) : string := Join (Dir rules) (chainId +:+ ".json").

(** The answer to a save follows the file, whatever the engine said. *)
Lemma saveDsl_run rules config chainId nodeId ex w files body i r w' :
  chainId ≠ "" → Body (ex_In ex) = (body, i) →
  update_engine config chainId nodeId (default "" body) w = (r, w') → (∀ why, r ≠ RPanic why) →
  saveDsl rules config chainId nodeId ex w files =
    let '(err, files') := SaveFile (file_of rules chainId) (default "" (Format (default "" body))) files in
    (ROk (out_StatusCode (match err with Some _ => 500 | None => 200 end) (mkExchange i (ex_Out ex))), w', files').
Proof.
  intros Hc Hb Hu Hr. unfold saveDsl. rewrite bool_decide_false by done. rewrite Hb, Hu.
  destruct r as [u|e|why]; [done|done|by destruct (Hr why)].
Qed.

Lemma RuleGo_Get_run g id w engines : w_pools w !! g = Some engines → RuleGo_Get g id w = (ROk (engines !! id), w).
Proof. intros Hg. unfold RuleGo_Get. by run. Qed.

Lemma save_get rules config chainId nodeId ex w files engines parser text i :
  w_pools w !! DefaultRuleGo = Some engines → chainId ≠ "" → engines !! chainId = None →
  Body (ex_In ex) = (Some text, i) → text ≠ "" → c_Parser config = Some parser →
  (∀ why, load_chain config parser text ≠ RPanic why) →
  let '(err, files') := SaveFile (file_of rules chainId) (default "" (Format text)) files in
  ∃ w', saveDsl rules config chainId nodeId ex w files =
      (ROk (out_StatusCode (match err with Some _ => 500 | None => 200 end) (mkExchange i (ex_Out ex))), w', files') ∧
    preserved w w' ∧ (∀ id, id ≠ chainId → RuleGo_Get DefaultRuleGo id w' = (ROk (engines !! id), w')) ∧
    ∀ ex', getDsl chainId "" ex' w' =
      (ROk (match load_chain config parser text with
            | ROk d => out_Body (encode_chain parser (completed_def d)) ex'
            | _ => out_StatusCode 404 ex'
            end), w').
Proof.
  intros Hg Hc He Hb Ht Hp Hidx.
  assert (∃ r w', update_engine config chainId nodeId text w = (r, w') ∧ (∀ why, r ≠ RPanic why) ∧ preserved w w' ∧
    ∃ engines', w_pools w' !! DefaultRuleGo = Some engines' ∧ (∀ id, id ≠ chainId → engines' !! id = engines !! id) ∧
    match load_chain config parser text with
    | ROk d => ∃ p, engines' !! chainId = Some p ∧ RuleEngine_DSL p w' = (ROk (encode_chain parser (completed_def d)), w')
    | _ => engines' !! chainId = None
    end) as (r & w' & Hu & Hr & Hpres & engines' & Hg' & Hoth & Hnew).
  { unfold update_engine. rewrite (bind_ok _ _ _ _ _ (RuleGo_Get_run _ _ _ _ Hg)), He.
    destruct (load_chain config parser text) as [d|e|why] eqn:Hl; [| |by destruct (Hidx why)].
    - assert (engine_id chainId d = chainId) as Hid by (unfold engine_id; by rewrite bool_decide_false).
      destruct (RuleGo_New_created DefaultRuleGo chainId text [config] w engines parser d Hg Ht Hp He Hl
        ltac:(by rewrite Hid)) as (w' & E & Hpres & Hpo & Hdsl).
      rewrite (bind_ok _ _ _ _ _ E). eexists _, w'. split; [reflexivity|]. split; [done|]. split; [done|].
      rewrite Hpo, lookup_insert_eq, Hid. eexists. split; [done|]. split; [by intros; rewrite lookup_insert_ne|].
      eexists. by rewrite lookup_insert_eq.
    - destruct (newRuleEngine_err chainId text [config] w parser e Ht Hp Hl) as (w' & E & Hpres & Hpo & _).
      assert (RuleGo_New DefaultRuleGo chainId text [WithConfig config] w = (RErr e, w')) as En.
      { unfold RuleGo_New. run. rewrite He. by rewrite (bind_ok _ _ _ _ _ E). }
      unfold bind. rewrite En. eexists _, w'. split; [reflexivity|]. split; [done|]. split; [done|].
      rewrite Hpo. by exists engines. }
  rewrite (saveDsl_run _ _ _ _ _ _ _ _ _ _ _ Hc Hb Hu Hr). simpl.
  destruct (SaveFile _ _ files) as [err files']. exists w'. split; [done|]. split; [done|]. split.
  { intros id Hid. rewrite (RuleGo_Get_run _ _ _ _ Hg'). by rewrite Hoth. }
  intros ex'. unfold getDsl. rewrite bool_decide_false by done. rewrite (bind_ok _ _ _ _ _ (RuleGo_Get_run _ _ _ _ Hg')).
  destruct (load_chain config parser text) as [d|e|why]; [| |by destruct (Hidx why)].
  - destruct Hnew as (p & -> & Hdsl). rewrite bool_decide_true by done. by rewrite (bind_ok _ _ _ _ _ Hdsl).
  - by rewrite Hnew.
Qed.

(** Saving the text of a chain the server does not have yet, and reading it back.  A
    text that loads is answered by the engine from then on: reading the chain gives the
    definition of the text, completed with the ids of its nodes.  A text that is refused
    with an error leaves the server without the chain, and reading it is answered by 404.  In both
    cases the other chains stay as they were, the text goes to the chain's file, and
    the answer is 200 when the file could be written and 500 when not. *)
Theorem save_get_roundtrip rules config chainId nodeId ex w files engines parser text i :
  w_pools w !! DefaultRuleGo = Some engines → chainId ≠ "" → engines !! chainId = None →
  Body (ex_In ex) = (Some text, i) → text ≠ "" → c_Parser config = Some parser →
  (∀ why, load_chain config parser text ≠ RPanic why) →
  let '(err, files') := SaveFile (file_of rules chainId) (default "" (Format text)) files in
  ∃ w', saveDsl rules config chainId nodeId ex w files =
      (ROk (out_StatusCode (match err with Some _ => 500 | None => 200 end) (mkExchange i (ex_Out ex))), w', files') ∧
    preserved w w' ∧ (∀ id, id ≠ chainId → RuleGo_Get DefaultRuleGo id w' = (ROk (engines !! id), w')) ∧
    ∀ ex', getDsl chainId "" ex' w' =
      (ROk (match load_chain config parser text with
            | ROk d => out_Body (encode_chain parser (completed_def d)) ex'
            | _ => out_StatusCode 404 ex'
            end), w').
Proof. apply save_get. Qed.

(** C38. Starting the server: when the folders can be read and the rule folder holds chains with
    different ids that load, the server starts, and reading any of the chains is answered with the
    completed definition of its file.  A file of the rule folder that is refused with an
    error is fatal, with its error. *)
Theorem initRuleGo_spec {Node} `{NodeClass Node} plugin_Open `{FS : FileSystem} js plugins rules LoadLuaLibs logger onDebug
    registry registry' config paths ds bad w :
  loadJs js (server_config LoadLuaLibs logger onDebug) = Ok config → loadPlugins plugin_Open plugins registry = Ok registry' →
  fs_GetFilePaths (load_pattern rules) = Ok (paths ++ (fst <$> bad)) → Forall2 (chain_file config JsonParser) paths ds →
  match bad with [] => True | (path, e) :: _ => bad_file config JsonParser path e end →
  w_pools w !! DefaultRuleGo = Some ∅ → NoDup (chain_id <$> ds) →
  let r := initRuleGo plugin_Open js plugins rules (server_config LoadLuaLibs logger onDebug) registry w in
  r.1 = (match bad with [] => Started config registry' | (_, e) :: _ => Fatal e end) ∧
  ∀ d ex, d ∈ ds → getDsl (chain_id d) "" ex r.2 = (ROk (out_Body (encode_chain JsonParser (completed_def d)) ex), r.2).
Proof.
  intros Hjs Hpl Hp Hf Hbad Hg Hnd. unfold initRuleGo. rewrite Hjs, Hpl. unfold loadRules.
  destruct (RuleGo_Load_run config JsonParser (loadJs_Parser _ _ _ Hjs) DefaultRuleGo rules paths ds bad ∅ w Hp Hf Hbad Hg Hnd)
    as (w' & engines' & E & _ & Hg' & _ & Hs); [intros; apply lookup_empty|apply lookup_empty|].
  assert (∀ d ex, d ∈ ds → getDsl (chain_id d) "" ex w' = (ROk (out_Body (encode_chain JsonParser (completed_def d)) ex), w')) as Hget.
  { intros d ex Hd. destruct (Hs d Hd) as (p & Hp' & Hdsl). unfold getDsl.
    rewrite bool_decide_false by (by eapply chain_files_id).
    rewrite (bind_ok _ _ _ _ _ (RuleGo_Get_run _ _ _ _ Hg')), Hp', bool_decide_true by done. by rewrite (bind_ok _ _ _ _ _ Hdsl). }
  rewrite E. by destruct bad as [|[path e] bad].
Qed.

End Server.

(** ** With the JSON parser *)

Section JsonServer.
Context `{C : Components} `{FT : FloatText} {I O : Type} `{MI : MessageOps I} `{MO : MessageOps O} `{OS : Os}.
Variable to_json_other : value → result json.
Variable syntax_error : string → string.
Variable other : Parsers.
#[local] Instance server_parsers : Parsers := json_parsers to_json_other syntax_error other.
Variable Dir : string → string.
Variable Join : string → string → string.

(** Formatting keeps what the parser of definitions makes of a text that it accepts. *)
Lemma Format_ParserRuleChain text d :
  ParserRuleChain syntax_error text = (d, None) → ∃ text', Format text = Some text' ∧ ParserRuleChain syntax_error text' = (d, None).
Proof.
  unfold ParserRuleChain at 1. destruct (parse_json text) as [j|] eqn:E; [|done]. intros H.
  destruct (Format_parse _ _ E) as (text' & Ef & Ep). exists text'. split; [done|]. unfold ParserRuleChain. by rewrite Ep.
Qed.

Lemma json_saved rules config chainId nodeId (ex : Exchange I O) w files files' engines text i d :
  w_pools w !! DefaultRuleGo = Some engines → chainId ≠ "" → engines !! chainId = None →
  Body (ex_In ex) = (Some text, i) → text ≠ "" → c_Parser config = Some JsonParser →
  load_chain config JsonParser text = ROk d →
  (∀ j, chain_json to_json_other (some_nodes (completed_def d)) = Ok j → fits (depth j)) →
  SaveFile (file_of Dir Join rules chainId) (default "" (Format text)) files = (None, files') →
  ∃ w' saved body,
    saveDsl Dir Join rules config chainId nodeId ex w files = (ROk (out_StatusCode 200 (mkExchange i (ex_Out ex))), w', files') ∧
    files' !! file_of Dir Join rules chainId = Some saved ∧ load_chain config JsonParser saved = ROk d ∧
    (∀ ex' : Exchange I O, getDsl chainId "" ex' w' = (ROk (out_Body body ex'), w')) ∧
    ParserRuleChain syntax_error body = (canon_chain canon_pointer (some_nodes (completed_def d)), None).
Proof.
  intros Hg Hc He Hb Ht Hp Hl Hd Hs.
  pose proof (save_get Dir Join rules config chainId nodeId ex w files engines JsonParser text i Hg Hc He Hb Ht Hp) as H.
  rewrite Hs in H. destruct H as (w' & H1 & _ & _ & H2); [intros why Hw; by rewrite Hl in Hw|].
  destruct (Format_ParserRuleChain text (some_nodes d)) as (saved & Ef & Ep); [by apply (json_load_chain to_json_other syntax_error other config)|].
  exists w', saved, (encode_chain JsonParser (completed_def d)). split; [done|]. split_and!.
  - pose proof (SaveFile_spec (file_of Dir Join rules chainId) (default "" (Format text)) files) as Hf. rewrite Hs in Hf.
    destruct Hf as [Hf _]. rewrite (Hf eq_refl), Ef. apply lookup_insert_eq.
  - apply load_chain_ok in Hl as (_ & Hcomp). apply load_chain_ok. split; [simpl; by rewrite Ep|done].
  - intros ex'. rewrite H2. by rewrite Hl.
  - by apply (loaded_text_reads_back to_json_other syntax_error other config text d Hl).
Qed.

(** A client saves the JSON text of a new chain: the file of the chain holds a text with the
    same definition, so that a restart loads the chain again, and reading the chain is
    answered with a text that parses to the definition, completed with the ids of its nodes
    and their configurations, values up to the order of their maps. *)
Theorem json_save_get rules config chainId nodeId (ex : Exchange I O) w files files' engines text i d :
  w_pools w !! DefaultRuleGo = Some engines → chainId ≠ "" → engines !! chainId = None →
  Body (ex_In ex) = (Some text, i) → text ≠ "" → c_Parser config = Some JsonParser →
  load_chain config JsonParser text = ROk d →
  (∀ j, chain_json to_json_other (some_nodes (completed_def d)) = Ok j → fits (depth j)) →
  SaveFile (file_of Dir Join rules chainId) (default "" (Format text)) files = (None, files') →
  ∃ w' saved body,
    saveDsl Dir Join rules config chainId nodeId ex w files = (ROk (out_StatusCode 200 (mkExchange i (ex_Out ex))), w', files') ∧
    files' !! file_of Dir Join rules chainId = Some saved ∧ load_chain config JsonParser saved = ROk d ∧
    (∀ ex' : Exchange I O, getDsl chainId "" ex' w' = (ROk (out_Body body ex'), w')) ∧
    ParserRuleChain syntax_error body = (canon_chain canon_pointer (some_nodes (completed_def d)), None).
Proof. apply json_saved. Qed.

End JsonServer.

Module ServerExample.
Import Samples HttpSamples JsonExamples.

#[local] Program Instance disk : Os := {| os_OpenFile path := None; os_Write path data := (String.length data, None) |}.
Next Obligation. intros path data n [= <-]. done. Qed.
#[local] Instance in_ops : MessageOps (@RequestMessage request) := RequestMessage_ops 5 "u".
#[local] Instance out_ops : MessageOps (@ResponseMessage request writer) := ResponseMessage_ops.
#[local] Instance parsers : Parsers := json_parsers no_json syntax sampleParsers.

Definition dir (s : string) : string := s.
Definition join (a b : string) : string := a +:+ "/" +:+ b.
Definition post (body : string) : Exchange (@RequestMessage request) (@ResponseMessage request writer) :=
  mkExchange (mkRequest (Some (mkReq "/api/v1/rule/c" ∅ ∅ body)) None [] None None) (mkResponse None (Some new_writer) None None None).
Definition save (chainId nodeId body : string) (w : World) (files : Files) :=
  saveDsl dir join "rules" cfg chainId nodeId (post body) w files.
Definition get_ (chainId nodeId : string) (w : World) : res (option Z * string) :=
  match (getDsl chainId nodeId (post "") w).1 with
  | ROk ex => match rs_response (ex_Out ex) with Some o => ROk (sw_status o, sw_body o) | None => RErr "" end
  | RErr e => RErr e
  | RPanic why => RPanic why
  end.
Definition status (r : res (Exchange (@RequestMessage request) (@ResponseMessage request writer))) : option Z :=
  match r with ROk ex => rs_response (ex_Out ex) ≫= sw_status | _ => None end.

(** The ids and types of the nodes of a text. *)
Definition nodes_of (text : string) : list (option (string * string)) :=
  map (λ o, (λ n, (n_Id n, n_Type n)) <$> o) (md_Nodes (rc_Metadata (ParserRuleChain syntax text).1)).
Definition two_nodes : string := q "{'metadata':{'nodes':[{'type':'filter'},{'id':'s3','type':'log'}]}}".
Definition two_def : RuleChainDef := default (chain "" 0 [] [] []) (present (ParserRuleChain syntax two_nodes).1).
Lemma two_loads : load_chain cfg JsonParser two_nodes = ROk two_def.
Proof. vm_compute. reflexivity. Defined.

Lemma save_get_roundtrip_witness :
  ∃ w', getDsl "c" "" (post "") w' = (ROk (out_Body (encode_chain JsonParser (completed_def two_def)) (post "")), w') ∧
    nodes_of (encode_chain JsonParser (completed_def two_def)) = [Some ("node0", "filter"); Some ("s3", "log")].
Proof.
  pose proof (save_get_roundtrip dir join "rules" cfg "c" "" (post two_nodes) initialWorld ∅ ∅ JsonParser two_nodes
    (RequestMessage_Body (ex_In (post two_nodes))).2 eq_refl ltac:(done) eq_refl eq_refl ltac:(done) eq_refl) as H.
  destruct (SaveFile _ _ _) as [err files']. destruct H as (w' & _ & _ & _ & H).
  { intros why Hw. by rewrite two_loads in Hw. }
  exists w'. split; [|vm_compute; reflexivity]. rewrite H, two_loads. reflexivity.
Defined.

Lemma json_save_get_witness :
  ∃ w' saved body,
    saveDsl dir join "rules" cfg "c" "" (post two_nodes) initialWorld ∅ =
      (ROk (out_StatusCode 200 (mkExchange (RequestMessage_Body (ex_In (post two_nodes))).2 (ex_Out (post two_nodes)))), w', <["rules/c.json" := default "" (Format two_nodes)]> ∅) ∧
    load_chain cfg JsonParser saved = ROk two_def ∧ getDsl "c" "" (post "") w' = (ROk (out_Body body (post "")), w') ∧
    nodes_of body = [Some ("node0", "filter"); Some ("s3", "log")].
Proof.
  destruct (json_save_get no_json syntax sampleParsers dir join "rules" cfg "c" "" (post two_nodes) initialWorld ∅
    (<["rules/c.json" := default "" (Format two_nodes)]> ∅) ∅ two_nodes
    (RequestMessage_Body (ex_In (post two_nodes))).2 two_def) as (w' & saved & body & H1 & _ & H3 & H4 & H5).
  - reflexivity.
  - discriminate.
  - reflexivity.
  - vm_compute. reflexivity.
  - discriminate.
  - reflexivity.
  - exact two_loads.
  - intros j. apply shallow_fits. vm_compute. reflexivity.
  - vm_compute. reflexivity.
  - exists w', saved, body. split; [exact H1|]. split; [exact H3|]. split; [apply H4|]. unfold nodes_of. rewrite H5. vm_compute. reflexivity.
Defined.

(** A text that is not JSON is accepted with 200; the chain's file is emptied by it, and
    the server does not start from that folder again. *)
Definition folder (files : Files) : FileSystem :=
  {| fs_GetFilePaths _ := Ok (map_to_list files).*1; fs_LoadFile path := files !! path |}.
Theorem bad_text_breaks_restart :
  let x := save "c" "" "{" initialWorld {["rules/c.json" := two_nodes]} in
  status x.1.1 = Some 200%Z ∧ x.2 !! "rules/c.json" = Some "" ∧
  (loadRules (FS := folder x.2) "rules" cfg initialWorld).1 = RErr "def can not nil".
Proof. split; [|split]; vm_compute; reflexivity. Qed.

(** Saving one node of a chain replaces the file of the chain by the text of the node: what
    was a chain with two nodes has none when it is loaded from the file. *)
Theorem node_save_overwrites_chain :
  let x := save "c" "" two_nodes initialWorld ∅ in
  let y := save "c" "s3" (q "{'type':'switch'}") x.1.2 x.2 in
  status y.1.1 = Some 200%Z ∧
  nodes_of (default "" (x.2 !! "rules/c.json")) = [Some ("", "filter"); Some ("s3", "log")] ∧
  nodes_of (default "" (y.2 !! "rules/c.json")) = [] ∧
  match get_ "c" "" y.1.2 with ROk (_, body) => nodes_of body = [Some ("node0", "filter"); Some ("s3", "switch")] | _ => False end.
Proof. split; [|split; [|split]]; vm_compute; reflexivity. Qed.

(** A rule folder with one chain; the other folders are empty. *)
Definition chain_a : string := q "{'ruleChain':{'id':'a'},'metadata':{'nodes':[{'type':'log'}]}}".
Definition def_a : RuleChainDef := default (chain "" 0 [] [] []) (present (ParserRuleChain syntax chain_a).1).
#[local] Instance rule_folder : FileSystem := {|
  fs_GetFilePaths pattern := Ok (if bool_decide (pattern = load_pattern "rules") then ["rules/a.json"] else []);
  fs_LoadFile path := if bool_decide (path = "rules/a.json") then Some chain_a else None
|}.
#[local] Instance no_nodes : NodeClass string := {| node_Type := id; node_New := id |}.
Definition no_plugin (file : string) : result (string → result (option (list string))) := Err "no plugin".
Definition base_name (s : string) : string := s.

Lemma initRuleGo_spec_witness :
  ∃ config w', initRuleGo base_name no_plugin "js" "plugins" "rules" (server_config "lua" 1 2) (mkRegistry ∅ ∅) initialWorld =
      (Started config (mkRegistry ∅ ∅), w') ∧
    getDsl "a" "" (post "") w' = (ROk (out_Body (encode_chain JsonParser (completed_def def_a)) (post "")), w').
Proof.
  destruct (initRuleGo_spec (I := @RequestMessage request) (MO := out_ops) base_name no_plugin "js" "plugins" "rules" "lua" 1 2 (mkRegistry ∅ ∅) (mkRegistry ∅ ∅)
    (server_config "lua" 1 2) ["rules/a.json"] [def_a] [] initialWorld) as [H1 H2].
  - reflexivity.
  - reflexivity.
  - reflexivity.
  - constructor; [|constructor]. split; [|vm_compute; discriminate].
    exists chain_a. split; [reflexivity|]. split; [discriminate|]. vm_compute. reflexivity.
  - exact Logic.I.
  - reflexivity.
  - by_decide.
  - destruct (initRuleGo _ _ _ _ _ _ _ _) as [r w']. simpl in H1, H2. subst r. exists (server_config "lua" 1 2), w'. split; [reflexivity|].
    specialize (H2 def_a (post "") ltac:(constructor)). exact H2.
Defined.

End ServerExample.
