(* ===== verification/ServerHttp.v ===== *)
(** * The routes of the rule server ([src/examples/server/server.go])

    [restServe] gives the routers of the server to an HTTP endpoint.  The processors work
    on what the server keeps, so here the state rides with the request of an exchange:
    the routing of [Endpoint] runs on requests paired with the state. *)

From Stdlib Require Import Ascii.
From S2P Require Import Prelude GoStrings Value Str Msg Config Dsl World Node Chain ChainProps Engine EngineProps RuleCtx NodeApi Endpoint JsEngine Registry Forms FileWalk DebugData Mime HttpApi Rest Samples JsonText JsonParse JsonValue DslJson JsonEngine JsonExamples Server.

(** What the server keeps: the engines, the files of the rule folder, the debug store. *)
Record ServerState `{C : Components} : Type := mkServer {
  sv_world : World;
  sv_files : Files;
  sv_debug : RuleChainDebugData
}.
Arguments mkServer {C}. Arguments sv_world {C}. Arguments sv_files {C}. Arguments sv_debug {C}.

(** A message with the state. *)
#[local] Instance riding_ops {A S} `{MA : MessageOps A} : MessageOps (A * S) := {|
  Body x := let '(b, a) := Body x.1 in (b, (a, x.2));
  Headers x := let '(h, a) := Headers x.1 in (h, (a, x.2));
  From_ x := From_ x.1;
  SetMsg m x := (SetMsg m x.1, x.2);
  GetMsg x := let '(m, a) := GetMsg x.1 in (m, (a, x.2));
  SetStatusCode c x := (SetStatusCode c x.1, x.2);
  SetBody b x := (SetBody b x.1, x.2);
  SetError e x := (SetError e x.1, x.2);
  GetError x := GetError x.1
|}.

Section ServerHttp.
Context `{C : Components} `{P : Parsers} `{J : Json} `{MR : MapRange} {Rq W : Type} `{HttpRequest Rq} `{ResponseWriter W} `{HR : HttpRouter}.
Context `{OS : Os} `{TS : TsSort}.
Context {Node : Type} `{NC : NodeClass Node} (describe : Node → GoComponent) (registry : @RuleComponentRegistry Node).
Variable now : Z.
Variable uuid : string.
Variable Dir : string → string.
Variable Join : string → string → string.
Variable Marshal_forms : list ComponentForm → result string.
Variable Marshal_page : DebugDataPage → result string.
(** The rule folder, the configuration and the address of the server. *)
Variable rules : string.
Variable config : Config.

Local Abbreviation Request := (@RequestMessage Rq).
Local Abbreviation Response := (@ResponseMessage Rq W).
#[local] Instance request_ops : MessageOps Request := RequestMessage_ops now uuid.
#[local] Instance response_ops : MessageOps Response := ResponseMessage_ops.
Local Abbreviation exchange := (Exchange (Request * ServerState) Response).

(** ** Processors *)

(** [exchange.Out.Headers().Set(key, value)]: through the header map of the writer. *)
Definition set_header (key value : string) (o : Response) : Response :=
  mkResponse (rs_request o) ((λ w, rw_PutHeader (Header_Set key value (rw_Header w)) w) <$> rs_response o) (rs_body o) (rs_msg o) (rs_err o).

Definition global_headers (ex : exchange) : exchange :=
  mkExchange (ex_In ex) (set_header "Access-Control-Allow-Origin" "*" (set_header "Content-Type" "application/json" (ex_Out ex))).

Definition state_of (ex : exchange) : ServerState := (ex_In ex).2.
Definition with_state (s : ServerState) (ex : exchange) : exchange := mkExchange ((ex_In ex).1, s) (ex_Out ex).
Definition with_world (w : World) (ex : exchange) : exchange :=
  with_state (mkServer w (sv_files (state_of ex)) (sv_debug (state_of ex))) ex.

(** The result of an operation on the engines: neither [getDsl] nor [saveDsl] returns an error. *)
Definition run_world (m : M exchange) (ex : exchange) : verdict * exchange :=
  match m (sv_world (state_of ex)) with
  | (ROk ex', w) => (GoOn, with_world w ex')
  | (RErr why, w) | (RPanic why, w) => (PPanic why, with_world w ex)
  end.

Definition INTERCEPT : nat := 0.
Definition MSG_TYPE : nat := 1.
Definition ACCEPT : nat := 2.
Definition GET_DSL : nat := 3.
Definition SAVE_DSL : nat := 4.
Definition COMPONENTS : nat := 5.
Definition DEBUG_DATA : nat := 6.
Definition nil_deref : string := "invalid memory address or nil pointer dereference".

Definition server_process (p : nat) (ex : exchange) : verdict * exchange :=
  match p with
  | 0 => (GoOn, global_headers ex)
  | 1 => match transform_msgType ex with Some ex => (GoOn, ex) | None => (PPanic nil_deref, ex) end
  | 2 => (GoOn, process_accepted ex)
  | 3 => run_world (process_getDsl ex) ex
  | 4 =>
      match process_saveDsl Dir Join rules config ex (sv_world (state_of ex)) (sv_files (state_of ex)) with
      | (ROk ex', w, files) => (GoOn, with_state (mkServer w files (sv_debug (state_of ex))) ex')
      | (RErr why, w, files) | (RPanic why, w, files) => (PPanic why, with_state (mkServer w files (sv_debug (state_of ex))) ex)
      end
  | 5 =>
      match process_components Marshal_forms describe registry ex with
      | Returns ex => (GoOn, ex)
      | Panics why => (PPanic why, ex)
      end
  | 6 =>
      match process_debugData Marshal_page ex (sv_debug (state_of ex)) with
      | Some (ex', d) => (GoOn, with_state (mkServer (sv_world (state_of ex)) (sv_files (state_of ex)) d) ex')
      | None => (PPanic nil_deref, ex)
      end
  | _ => (GoOn, ex)
  end.

(** ** Routers *)

Variable custom_IsPathSupportVar : nat → bool.
Variable custom_Init : nat → Config → Configuration → error.

(** [NewRouter().From(path).Process(p).End()] *)
Definition process_router (path : string) (p : nat) : Router :=
  let r := Router_From path [] (NewRouter []) in
  mkRouter (From_Process p <$> rt_from r) (rt_RuleGo r) (rt_Config r) (rt_disable r).
Definition createGetDslRouter : Router := process_router rulePath GET_DSL.
Definition createSaveDslRouter : Router := process_router rulePath SAVE_DSL.
Definition createComponentsRouter : Router := process_router componentsPath COMPONENTS.
Definition createGetDebugDataRouter : Router := process_router eventPath DEBUG_DATA.
Definition createPostMsgRouter : outcome Router :=
  let r := Router_From msgPath [] (NewRouter []) in
  match From_Process ACCEPT <$> (From_Process MSG_TYPE <$> rt_from r) with
  | None => Panics nil_deref
  | Some f =>
      match From_To custom_IsPathSupportVar custom_Init DefaultExecutorFactory (rt_Config r) "chain:${chainId}" [] f with
      | Returns f => Returns (mkRouter (Some f) (rt_RuleGo r) (rt_Config r) (rt_disable r))
      | Panics why => Panics why
      end
  end.

(** The handler for [OPTIONS] requests. *)
Definition handle_options (header : MIMEHeader) (w : W) : W :=
  let h := rw_Header w in
  let w :=
    if bool_decide (Header_Get "Access-Control-Request-Method" header ≠ "") then
      rw_PutHeader (Header_Set "Access-Control-Allow-Origin" "*" (Header_Set "Access-Control-Allow-Headers" "*"
        (Header_Set "Access-Control-Allow-Methods" (Header_Get "Allow" header) h))) w
    else w in
  rw_WriteHeader 204 w.

(** [restEndpoint.GET(router)], [restEndpoint.POST(router)], one after the other. *)
Definition register (l : list (string * nat)) (st : routers * Rest) : outcome (routers * Rest) :=
  foldl (λ st '(m, a), match st with
                       | Panics why => Panics why
                       | Returns st => match Rest_method m [a] st with (Returns _, st) => Returns st | (Panics why, _) => Panics why end
                       end) (Returns st) l.

(** The routers, by address, and their registration. *)
Definition server_routers (postMsg : Router) : routers :=
  list_to_map (zip (seq 0 5) [createComponentsRouter; createGetDslRouter; createSaveDslRouter; postMsg; createGetDebugDataRouter]).
Definition server_calls : list (string * nat) := [("GET", 0); ("GET", 1); ("POST", 2); ("POST", 3); ("GET", 4)].
Definition restServe (addr : string) : outcome (routers * Rest) :=
  match createPostMsgRouter with
  | Panics why => Panics why
  | Returns postMsg =>
      let x := Rest_New in
      let x := mkRest (BaseEndpoint_AddInterceptors [INTERCEPT] (re_base x)) (mkRestConfig addr "" "") (re_RuleConfig x)
                 (Some []) (re_server x) in
      match register server_calls (server_routers postMsg, x) with
      | Panics why => Panics why
      | Returns (rs, x) => Returns (rs, (Rest_Start x).2)
      end
  end.

(** ** Requests *)

(** What the chains report, and when: see [Endpoint.Env]. *)
Variable chain_ends : nat → string → option (RuleMsg → chain_run).
Variable component_OnMsg : Comp → RuleMsg → list call.
Variable early : nat.

Definition server_env : Env (Request * ServerState) Response :=
  mkEnv server_process chain_ends component_OnMsg (λ _ _ ex, (Finished, ex)) early now uuid.

(** The handler of [Rest.Rest_handler], with the state. *)
Definition handle (r : Router) (interceptors : list nat) (w : W) (q : Rq) (params : list (string * string)) (s : ServerState)
    : option W * ServerState :=
  if Router_IsDisable r then (Some (NotFound w), s)
  else
    let ex := request_exchange now uuid q params w in
    let '(_, ex, _) := do_process server_env interceptors r (mkExchange (ex_In ex, s) (ex_Out ex)) in
    (rs_response (ex_Out ex), (ex_In ex).2).

Definition serve (st : routers * Rest) (w : W) (method url : string) (q : Rq) (s : ServerState) : option (option W * ServerState) :=
  '(m, p, params) ← hr_match (routes_of st.2).*1 method url;
  a ← handler_of st.2 m p;
  r ← st.1 !! a;
  Some (handle r (be_interceptors (re_base st.2)) w q params s).

(** ** Registration *)

Lemma Rest_method_one method a r rs x :
  rs !! a = Some r → be_RouterStorage (re_base x) !! routerKey (ToUpper method) (FromToString r) = None →
  hr_conflict (routes_of x).*1 (ToUpper method) (FromToString r) = false →
  Rest_method method [a] (rs, x) =
    (Returns tt, (rs, mkRest (set_RouterStorage (<[routerKey (ToUpper method) (FromToString r) := a]> (be_RouterStorage (re_base x))) (re_base x))
       (re_Config x) (re_RuleConfig x) (Some (routes_of x ++ [(ToUpper method, FromToString r, a)])) (re_server x))).
Proof.
  intros Hr Hk Hc. unfold Rest_method, addRouter, add_one. simpl. rewrite Hr, Hk. unfold routes_of in *. simpl. by rewrite Hc.
Qed.

(** Method and path a call registers. *)
Definition route_of (rs : routers) (ma : string * nat) : string * string := (ToUpper ma.1, default "" (FromToString <$> rs !! ma.2)).

(** Calls that the path router accepts register their routers in order. *)
Lemma register_ok rs l x :
  Forall (λ ma, is_Some (rs !! ma.2)) l →
  NoDup ((λ mp, routerKey mp.1 mp.2) <$> (route_of rs <$> l)) →
  (∀ mp, mp ∈ route_of rs <$> l → be_RouterStorage (re_base x) !! routerKey mp.1 mp.2 = None) →
  (∀ i mp, (route_of rs <$> l) !! i = Some mp → hr_conflict ((routes_of x).*1 ++ take i (route_of rs <$> l)) mp.1 mp.2 = false) →
  ∃ x', register l (rs, x) = Returns (rs, x') ∧ routes_of x' = routes_of x ++ zip (route_of rs <$> l) l.*2 ∧
    be_interceptors (re_base x') = be_interceptors (re_base x).
Proof.
  intros Hl. revert x. induction Hl as [|[m a] l [r Hr] _ IH]; intros x Hnd Hs Hc.
  { exists x. split; [done|]. simpl. by rewrite app_nil_r. }
  simpl in Hr. assert (route_of rs (m, a) = (ToUpper m, FromToString r)) as Er by (unfold route_of; simpl; by rewrite Hr).
  rewrite fmap_cons in *. rewrite Er in *. csimpl in Hnd. apply NoDup_cons in Hnd as [Hn Hnd].
  unfold register. cbn [foldl]. rewrite (Rest_method_one m a r rs x Hr).
  2:{ by apply (Hs (ToUpper m, FromToString r)), elem_of_cons; left. }
  2:{ specialize (Hc 0 _ eq_refl). simpl in Hc. by rewrite app_nil_r in Hc. }
  match goal with |- context [mkRest ?b ?c ?d ?e ?f] => set (x1 := mkRest b c d e f) end.
  destruct (IH x1) as (x' & E & Hr' & Hi); [done| | |].
  - intros mp Hin. simpl. rewrite lookup_insert_ne; [by apply Hs, elem_of_cons; right|].
    intros Heq. apply Hn. rewrite Heq. apply list_elem_of_fmap. by exists mp.
  - intros i mp Hi. specialize (Hc (S i) mp Hi). unfold routes_of at 1. simpl. rewrite fmap_app, <- app_assoc. exact Hc.
  - exists x'. unfold register in E. split; [exact E|]. split; [|done]. rewrite Hr'. unfold routes_of at 1. simpl. by rewrite <- app_assoc.
Qed.

Lemma createPostMsgRouter_returns :
  ∃ t, createPostMsgRouter = Returns (mkRouter (Some (mkFrom ∅ msgPath [MSG_TYPE; ACCEPT] (Some t))) DefaultRuleGo (NewConfig []) 0) ∧
    to_executor t = Some ChainExecutor ∧ to_ToPath t = "${chainId}" ∧ to_HasVars t = true ∧ to_processList t = [] ∧ to_wait t = false.
Proof. eexists. split; [reflexivity|]. done. Qed.

(** Method and path of the routes, in the order of their registration. *)
Definition server_table : list (string * string) :=
  [("GET", componentsPath); ("GET", rulePath); ("POST", rulePath); ("POST", msgPath); ("GET", eventPath)].
(** The path router accepts them. *)
Definition no_conflict : Prop :=
  ∀ i mp, server_table !! i = Some mp → hr_conflict (take i server_table) mp.1 mp.2 = false.

(** The endpoint after the registration: each route leads to its router. *)
Lemma restServe_returns addr :
  no_conflict → ∃ postMsg x, createPostMsgRouter = Returns postMsg ∧ restServe addr = Returns (server_routers postMsg, x) ∧
    routes_of x = zip server_table (seq 0 5) ∧ be_interceptors (re_base x) = [INTERCEPT] ∧ re_server x = true.
Proof.
  intros Hc. destruct createPostMsgRouter_returns as (t & Et & _). unfold restServe. rewrite Et.
  match type of Et with _ = Returns ?r => set (postMsg := r) in * end.
  assert (route_of (server_routers postMsg) <$> server_calls = server_table) as Etab by reflexivity.
  match goal with |- context [register _ (_, ?x)] => destruct (register_ok (server_routers postMsg) server_calls x) as (x' & E & Hr & Hi) end.
  - by repeat constructor; eexists.
  - rewrite Etab. by_decide.
  - intros. apply lookup_empty.
  - rewrite Etab. exact Hc.
  - rewrite E. eexists _, _. split; [done|]. split; [done|]. rewrite Etab in Hr. split; [exact Hr|]. by split.
Qed.

(** ** One request *)

(** The writer with the headers of the interceptor. *)
Definition cors (w : W) : W :=
  let w := rw_PutHeader (Header_Set "Content-Type" "application/json" (rw_Header w)) w in
  rw_PutHeader (Header_Set "Access-Control-Allow-Origin" "*" (rw_Header w)) w.

(** The exchange a processor of the server gets: the message has the body of the request,
    and path parameters and query in its metadata. *)
Definition server_exchange (q : Rq) (params : list (string * string)) (w : W) (s : ServerState) : exchange :=
  let ex := request_exchange now uuid q params w in
  mkExchange (ex_In ex, s) (mkResponse (Some q) (Some (cors w)) None None None).

Lemma request_exchange_run q params (w : W) body q' :
  rq_ReadBody q = (body, q') →
  ∃ msg, request_exchange now uuid q params w =
    mkExchange (mkRequest (Some q') (Some body) params (Some msg) None) (mkResponse (Some q) (Some w) None None None) ∧
    m_Metadata msg = put_query (rq_Query q) (put_params params ∅).
Proof.
  intros Hq. unfold request_exchange, RequestMessage_GetMsg, RequestMessage_Body. simpl. rewrite Hq. simpl. eexists. by split.
Qed.

(** A router with one processor and no target. *)
Lemma handle_process path p w q params s body q' :
  rq_ReadBody q = (body, q') →
  handle (process_router path p) [INTERCEPT] w q params s =
    (let ex := (server_process p (server_exchange q params w s)).2 in (rs_response (ex_Out ex), (ex_In ex).2)).
Proof.
  intros Hq. destruct (request_exchange_run q params w body q' Hq) as (msg & E & _).
  unfold handle, do_process, DoProcess, server_exchange. rewrite E. change (Router_IsDisable (process_router path p)) with false.
  cbn [run_processes env_process server_env].
  change (server_process INTERCEPT ?ex) with (GoOn, global_headers ex). unfold global_headers, set_header. simpl.
  unfold cors, ExecuteProcess. cbn [from_processList From_Process app run_processes]. by destruct (server_process p _) as [[] ex'].
Qed.

(** The routes of the chains. *)
Lemma serve_rule addr st m a r w url q params s :
  restServe addr = Returns st → no_conflict → server_table !! a = Some (m, rulePath) → (∀ p, server_routers p !! a = Some r) →
  hr_match server_table m url = Some (m, rulePath, params) →
  serve st w m url q s = Some (handle r [INTERCEPT] w q params s).
Proof.
  intros Hst Hc Ha Hr Hm. destruct (restServe_returns addr Hc) as (postMsg & x & _ & E & Ht & Hi & _). rewrite E in Hst. simplify_eq.
  unfold serve. cbn [snd fst]. rewrite Ht. change ((zip server_table (seq 0 5)).*1) with server_table. rewrite Hm. simpl.
  unfold handler_of. rewrite Ht, Hi. assert ((list_to_map (zip server_table (seq 0 5)) : gmap _ _) !! (m, rulePath) = Some a) as ->.
  { apply elem_of_list_to_map; [by_decide|]. apply list_elem_of_lookup. exists a. pose proof (lookup_lt_Some _ _ _ Ha) as Hlt.
    rewrite lookup_zip_with, Ha. cbn [mbind option_bind]. by rewrite lookup_seq_lt. }
  simpl. by rewrite Hr.
Qed.

(** The parameters of a request in its metadata. *)
Lemma path_metadata (q : Rq) k v md :
  rq_Query q = ∅ → md = put_query (rq_Query q) (put_params [(k, v)] ∅) → k ≠ "" →
  Metadata_GetValue md k = v ∧ ∀ k', k' ≠ k → k' ≠ "" → Metadata_GetValue md k' = "".
Proof.
  intros Hq -> Hk. unfold Metadata_GetValue. split; [|intros k' Hne Hk'];
    rewrite put_query_lookup, put_params_lookup, Hq, lookup_empty by done; simpl.
  - by rewrite bool_decide_true.
  - by rewrite bool_decide_false.
Qed.

(** A request on the path of a chain, up to its processor. *)
Lemma rule_exchange q id w s body q' :
  rq_ReadBody q = (body, q') → rq_Query q = ∅ →
  ∃ msg, server_exchange q [("chainId", id)] w s =
      mkExchange (mkRequest (Some q') (Some body) [("chainId", id)] (Some msg) None, s) (mkResponse (Some q) (Some (cors w)) None None None) ∧
    Metadata_GetValue (m_Metadata msg) "chainId" = id ∧ Metadata_GetValue (m_Metadata msg) "nodeId" = "".
Proof.
  intros Hq Hqq. destruct (request_exchange_run q [("chainId", id)] w body q' Hq) as (msg & E & Hmd).
  destruct (path_metadata q "chainId" id _ Hqq Hmd) as [M1 M2]; [done|]. exists msg. unfold server_exchange. rewrite E. simpl.
  split; [done|]. split; [done|]. by apply M2.
Qed.

Lemma post_rule addr st w url q s id text q' :
  restServe addr = Returns st → no_conflict → hr_match server_table "POST" url = Some ("POST", rulePath, [("chainId", id)]) →
  rq_ReadBody q = (text, q') → rq_Query q = ∅ →
  ∃ ex : exchange, Body (ex_In ex) = (Some text, ex_In ex) ∧
    ∀ w' files', saveDsl Dir Join rules config id "" ex (sv_world s) (sv_files s) = (ROk (out_StatusCode 200 ex), w', files') →
      serve st w "POST" url q s = Some (Some (rw_WriteHeader 200 (cors w)), mkServer w' files' (sv_debug s)).
Proof.
  intros Hst Hc Hm Hq Hqq. destruct (rule_exchange q id w s text q' Hq Hqq) as (msg & E & M1 & M2). eexists. split; [|intros w' files' Hs].
  2:{ rewrite (serve_rule addr st "POST" 2 createSaveDslRouter w url q [("chainId", id)] s) by done. unfold createSaveDslRouter.
      rewrite (handle_process _ _ _ _ _ _ _ _ Hq), E. simpl. unfold process_saveDsl, with_msg. simpl. rewrite M1, M2, Hs. done. }
  done.
Qed.

Lemma get_rule addr st w url q s id body q' :
  restServe addr = Returns st → no_conflict → hr_match server_table "GET" url = Some ("GET", rulePath, [("chainId", id)]) →
  rq_ReadBody q = (body, q') → rq_Query q = ∅ →
  ∃ ex : exchange, ∀ answer, getDsl id "" ex (sv_world s) = (ROk (out_Body answer ex), sv_world s) →
      serve st w "GET" url q s = Some (Some (rw_Write answer (cors w)), s).
Proof.
  intros Hst Hc Hm Hq Hqq. destruct (rule_exchange q id w s body q' Hq Hqq) as (msg & E & M1 & M2). eexists. intros answer Hs.
  rewrite (serve_rule addr st "GET" 1 createGetDslRouter w url q [("chainId", id)] s) by done. unfold createGetDslRouter.
  rewrite (handle_process _ _ _ _ _ _ _ _ Hq), E. simpl. unfold run_world, process_getDsl, with_msg. simpl. unfold bind. simpl.
  rewrite M1, M2, Hs. by destruct s.
Qed.

End ServerHttp.

(** ** Saving and reading a chain over HTTP *)

Section JsonHttp.
Context `{C : Components} `{FT : FloatText} `{J : Json} `{MR : MapRange} {Rq W : Type} `{HttpRequest Rq} `{ResponseWriter W} `{HR : HttpRouter}.
Context `{OS : Os} `{TS : TsSort}.
Context {Node : Type} `{NC : NodeClass Node} (describe : Node → GoComponent) (registry : @RuleComponentRegistry Node).
Variable to_json_other : value → result json.
Variable syntax_error : string → string.
Variable other : Parsers.
#[local] Instance http_parsers : Parsers := json_parsers to_json_other syntax_error other.
Variable now : Z.
Variable uuid : string.
Variable Dir : string → string.
Variable Join : string → string → string.
Variable Marshal_forms : list ComponentForm → result string.
Variable Marshal_page : DebugDataPage → result string.
Variable rules : string.
Variable config : Config.
Variable custom_IsPathSupportVar : nat → bool.
Variable custom_Init : nat → Config → Configuration → error.
Variable chain_ends : nat → string → option (RuleMsg → chain_run).
Variable component_OnMsg : Comp → RuleMsg → list call.
Variable early : nat.
Abbreviation serve := (serve describe registry now uuid Dir Join Marshal_forms Marshal_page rules config chain_ends component_OnMsg early).
Abbreviation server_process := (server_process describe registry now uuid Dir Join Marshal_forms Marshal_page rules config).
Abbreviation restServe := (restServe custom_IsPathSupportVar custom_Init).

(** C37. A client posts the JSON text of a new chain and gets it back: the server answers
    200, keeps a text with the same definition in the file of the chain, and
    answers a read of the chain with a text that parses to the definition, completed with
    the ids of its nodes and their configurations.  Both answers have the headers of the
    global interceptor. *)
Theorem server_http_roundtrip addr st url id text (q g q1 g1 : Rq) gb (w w2 : W) (s : ServerState) engines d files' :
  restServe addr = Returns st → no_conflict →
  hr_match server_table "POST" url = Some ("POST", rulePath, [("chainId", id)]) →
  hr_match server_table "GET" url = Some ("GET", rulePath, [("chainId", id)]) →
  rq_ReadBody q = (text, q1) → rq_Query q = ∅ → rq_ReadBody g = (gb, g1) → rq_Query g = ∅ →
  w_pools (sv_world s) !! DefaultRuleGo = Some engines → id ≠ "" → engines !! id = None → text ≠ "" →
  c_Parser config = Some JsonParser → load_chain config JsonParser text = ROk d →
  (∀ j, chain_json to_json_other (some_nodes (completed_def d)) = Ok j → fits (depth j)) →
  SaveFile (file_of Dir Join rules id) (default "" (Format text)) (sv_files s) = (None, files') →
  ∃ s' saved body,
    serve st w "POST" url q s = Some (Some (rw_WriteHeader 200 (cors w)), s') ∧
    sv_files s' !! file_of Dir Join rules id = Some saved ∧ load_chain config JsonParser saved = ROk d ∧
    serve st w2 "GET" url g s' = Some (Some (rw_Write body (cors w2)), s') ∧
    ParserRuleChain syntax_error body = (canon_chain canon_pointer (some_nodes (completed_def d)), None).
Proof.
  intros Hst Hc Hpost Hget Hq Hqq Hg Hgq Hpool Hid Hnew Ht Hp Hl Hd Hs.
  destruct (post_rule describe registry now uuid Dir Join Marshal_forms Marshal_page rules config custom_IsPathSupportVar custom_Init
    chain_ends component_OnMsg early addr st w url q s id text q1 Hst Hc Hpost Hq Hqq) as (ex & Hb & Hserve).
  destruct (json_saved to_json_other syntax_error other Dir Join rules config id "" ex (sv_world s) (sv_files s) files' engines text (ex_In ex) d
    Hpool Hid Hnew Hb Ht Hp Hl Hd Hs) as (w' & saved & body & H1 & H2 & H3 & H4 & H5).
  assert (mkExchange (ex_In ex) (ex_Out ex) = ex) as Eex by (by destruct ex). rewrite Eex in H1.
  exists (mkServer w' files' (sv_debug s)), saved, body. split; [by apply Hserve|]. split; [done|]. split; [done|]. split; [|done].
  destruct (get_rule describe registry now uuid Dir Join Marshal_forms Marshal_page rules config custom_IsPathSupportVar custom_Init
    chain_ends component_OnMsg early addr st w2 url g (mkServer w' files' (sv_debug s)) id gb g1 Hst Hc Hget Hg Hgq) as (ex' & Hserve').
  apply Hserve', H4.
Qed.

End JsonHttp.

(** ** The server on concrete requests *)

Module ServerHttpExample.
Import Samples NodeSamples HttpSamples JsonExamples ServerExample.

#[local] Program Instance disk : Os := {| os_OpenFile path := None; os_Write path data := (String.length data, None) |}.
Next Obligation. intros path data n [= <-]. done. Qed.
#[local] Instance parsers : Parsers := json_parsers no_json syntax sampleParsers.

(** A path router that knows one URL, the one of the chain [c]. *)
Definition chain_url : string := "/api/v1/rule/c".
#[local] Program Instance one_chain : HttpRouter := {|
  hr_conflict routes m p := bool_decide ((m, p) ∈ routes);
  hr_match routes m url :=
    if bool_decide (url = chain_url ∧ (m, rulePath) ∈ routes) then Some (m, rulePath, [("chainId", "c")]) else None
|}.
Next Obligation. intros routes m url m' p params Hm. simpl in Hm. case_bool_decide as Hb; simplify_eq. by destruct Hb. Qed.

#[local] Instance no_nodes : NodeClass string := {| node_Type := id; node_New := id |}.
Definition describe (n : string) : GoComponent := FormsExample.jsFilter.
Definition registry : @RuleComponentRegistry string := mkRegistry ∅ ∅.
Definition start : outcome (routers * Rest) := restServe (λ _, false) (λ _ _ _, None) ":9090".
Definition st : routers * Rest := match start with Returns st => st | Panics _ => (∅, Rest_New) end.
Definition state0 : ServerState := mkServer initialWorld ∅ (NewRuleChainDebugData 40).
Definition request_of (body : string) : request := mkReq chain_url ∅ ∅ body.
Definition go (method body : string) (s : ServerState) : option (option writer * ServerState) :=
  serve describe registry 5 "u" dir join (λ _, Ok "") (λ _, Ok "") "rules" cfg (λ _ _, None) (λ _ _, []) 0
    st new_writer method chain_url (request_of body) s.

Lemma table_accepted : no_conflict.
Proof.
  intros i mp Hi. destruct i as [|[|[|[|[|i]]]]]; simpl in Hi; try discriminate; injection Hi as <-; vm_compute; reflexivity.
Defined.

Lemma started : restServe (λ _, false) (λ _ _ _, None) ":9090" = Returns st.
Proof.
  change (start = Returns st). unfold st. destruct start as [x|why] eqn:E; [done|].
  destruct (restServe_returns (λ _, false) (λ _ _ _, None) ":9090" table_accepted) as (? & ? & _ & E' & _).
  assert (Returns (A := routers * Rest) _ = Panics why) as Hf by (etrans; [symmetry; exact E'|exact E]). discriminate Hf.
Qed.

Lemma server_http_roundtrip_witness :
  ∃ s' body, go "POST" two_nodes state0 = Some (Some (rw_WriteHeader 200 (cors new_writer)), s') ∧
    go "GET" "" s' = Some (Some (rw_Write body (cors new_writer)), s') ∧ nodes_of body = [Some ("node0", "filter"); Some ("s3", "log")].
Proof.
  destruct (server_http_roundtrip describe registry no_json syntax sampleParsers 5 "u" dir join (λ _, Ok "") (λ _, Ok "") "rules" cfg
    (λ _, false) (λ _ _ _, None) (λ _ _, None) (λ _ _, []) 0 ":9090" st chain_url "c" two_nodes (request_of two_nodes) (request_of "")
    (request_of "") (request_of "") "" new_writer new_writer state0 ∅ two_def (<["rules/c.json" := default "" (Format two_nodes)]> ∅))
    as (s' & saved & body & H1 & _ & _ & H2 & H3).
  - exact started.
  - exact table_accepted.
  - vm_compute. reflexivity.
  - vm_compute. reflexivity.
  - reflexivity.
  - vm_compute. reflexivity.
  - reflexivity.
  - vm_compute. reflexivity.
  - reflexivity.
  - discriminate.
  - reflexivity.
  - discriminate.
  - reflexivity.
  - exact two_loads.
  - intros j. apply shallow_fits. vm_compute. reflexivity.
  - vm_compute. reflexivity.
  - exists s', body. split; [exact H1|]. split; [exact H2|]. unfold nodes_of. rewrite H3. vm_compute. reflexivity.
Defined.

(** A chain is saved under the id of the path, but loaded under the id in its text: posted
    without an id in its text, it is there until the server is started again. *)
Theorem restart_loses_chain :
  match go "POST" two_nodes state0 with
  | Some (_, s) =>
      (RuleGo_Get DefaultRuleGo "c" (sv_world s)).1 = ROk (Some 1) ∧
      let '(r, w) := loadRules (FS := folder (sv_files s)) "rules" cfg initialWorld in
      r = ROk tt ∧ (RuleGo_Get DefaultRuleGo "c" w).1 = ROk None
  | None => False
  end.
Proof. vm_compute. by split. Qed.

End ServerHttpExample.
