(* ===== verification/ServerMqtt.v ===== *)
(** * The MQTT input of the rule server ([mqttServe] of [src/examples/server/server.go])

    A router per subscribed topic, all with the configured chain as their target. *)

From Stdlib Require Import Ascii.
From S2P Require Import Prelude GoStrings Value Str Msg Config Dsl World RuleCtx JsEngine NodeApi Samples Mime Endpoint FileWalk MqttClient MqttEndpoint HttpApi.

Section ServerMqtt.
Context `{C : Components} `{J : Json} `{MR : MapRange}.
Variable custom_IsPathSupportVar : nat → bool.
Variable custom_Init : nat → Config → Configuration → error.
Variable mqtt2ChainId : string.

(** [endpoint.NewRouter().From(topic).To(mqtt2ChainId).End()] *)
Definition topic_router (topic : string) : outcome Router :=
  let r := Router_From topic [] (NewRouter []) in
  match rt_from r with
  | None => Panics "invalid memory address or nil pointer dereference"
  | Some f =>
      match From_To custom_IsPathSupportVar custom_Init DefaultExecutorFactory (rt_Config r) mqtt2ChainId [] f with
      | Returns f => Returns (mkRouter (Some f) (rt_RuleGo r) (rt_Config r) (rt_disable r))
      | Panics why => Panics why
      end
  end.

(** The loop over the topics; [next] is the address of the next router.  The endpoint has no
    client yet, so that adding a router returns. *)
Fixpoint add_topics (topics : list string) (next : nat) (st : routers * Mqtt) : outcome (routers * Mqtt) :=
  match topics with
  | [] => Returns st
  | topic :: rest =>
      match topic_router topic with
      | Panics why => Panics why
      | Returns r =>
          let rs := <[next := r]> st.1 in
          match Mqtt_AddRouter [] (Some next) rs st.2 with
          | Some (Returns _, x) => add_topics rest (S next) (rs, x)
          | Some (Panics why, _) => Panics why
          | None => Panics "not reached"
          end
      end
  end.

Inductive mqtt_start : Type := MqttServing (rs : routers) (x : Mqtt) | MqttFatal (why : string) | MqttPanic (why : string) | MqttWaits.
(** [mqttServe]: [x] is what [endpoint.New] makes, [client] what [NewClient] returns, [answers]
    what the broker says to subscriptions. *)
Definition mqttServe (subscribeTopics : string) (endpoint_New : result Mqtt) (client : result Client) (answers : string → list sub_answer)
    : mqtt_start :=
  match endpoint_New with
  | Err err => MqttFatal err
  | Ok x =>
      match add_topics (Split subscribeTopics ","%char) 0 (∅, x) with
      | Panics why => MqttPanic why
      | Returns (rs, x) =>
          match Mqtt_Start client answers rs x with
          | None => MqttWaits
          | Some (Some err, _) => MqttFatal err
          | Some (None, x) => MqttServing rs x
          end
      end
  end.

(** ** The routers of the topics *)

(** A router from [topic] to the chain. *)
Record topic_route (target : To) (topic : string) (rs : routers) (x : Mqtt) : Prop := {
  tr_route : ∃ a r f, storage x !! topic = Some a ∧ rs !! a = Some r ∧ rt_from r = Some f ∧
    from_From f = topic ∧ from_processList f = [] ∧ from_to f = Some target
}.

Lemma topic_router_from topic r target :
  (∀ f, From_To custom_IsPathSupportVar custom_Init DefaultExecutorFactory (NewConfig []) mqtt2ChainId [] f =
     Returns (mkFrom (from_Config f) (from_From f) (from_processList f) (Some target))) →
  topic_router topic = Returns r → FromToString r = topic ∧
    rt_from r = Some (mkFrom ∅ topic [] (Some target)).
Proof. intros Ht. unfold topic_router. simpl. rewrite Ht. intros [= <-]. done. Qed.

Lemma add_topics_ok target topics next rs x :
  (∀ f, From_To custom_IsPathSupportVar custom_Init DefaultExecutorFactory (NewConfig []) mqtt2ChainId [] f =
     Returns (mkFrom (from_Config f) (from_From f) (from_processList f) (Some target))) →
  me_client x = None → (∀ topic a, storage x !! topic = Some a → a < next) →
  (∀ topic a, storage x !! topic = Some a → topic_route target topic rs x) →
  ∃ rs' x', add_topics topics next (rs, x) = Returns (rs', x') ∧ me_client x' = None ∧ me_Config x' = me_Config x ∧
    ∀ topic, match storage x' !! topic with
             | Some _ => (topic ∈ topics ∨ is_Some (storage x !! topic)) ∧ topic_route target topic rs' x'
             | None => topic ∉ topics ∧ storage x !! topic = None
             end.
Proof.
  intros Ht. revert next rs x. induction topics as [|topic topics IH]; intros next rs x Hc Hb Hr.
  { exists rs, x. split_and!; try done. intros topic. destruct (storage x !! topic) eqn:E; [|split; [set_solver|done]].
    split; [right; by eexists|by eapply Hr]. }
  simpl. destruct (topic_router topic) as [r|why] eqn:Er.
  2:{ exfalso. unfold topic_router in Er. simpl in Er. by rewrite Ht in Er. }
  destruct (topic_router_from topic r target Ht Er) as [Hfs Hf].
  rewrite lookup_insert_eq, Hf. simpl. rewrite Hc. unfold saveRouter. rewrite Hfs.
  set (x1 := set_storage (<[topic := next]> (storage x)) x). assert (me_client x1 = None ∧ me_Config x1 = me_Config x) as [Hc1 Hcf1] by done.
  assert (storage x1 = <[topic := next]> (storage x)) as Ex1 by done. clearbody x1.
  destruct (IH (S next) (<[next := r]> rs) x1) as (rs' & x' & E & Hc' & Hcf & Hall).
  - done.
  - intros t a. rewrite Ex1. intros [[<- <-]|[_ Ha]]%lookup_insert_Some; [lia|]. specialize (Hb t a Ha). lia.
  - intros t a Ha. destruct (decide (topic = t)) as [<-|Hne].
    + split. exists next, r, (mkFrom ∅ topic [] (Some target)). by rewrite Ex1, !lookup_insert_eq.
    + rewrite Ex1, lookup_insert_ne in Ha by done.
      destruct (Hr t a Ha) as [(a' & r' & f' & H1 & H2 & H3)]. split. exists a', r', f'.
      rewrite Ex1, lookup_insert_ne by done. split; [done|]. rewrite lookup_insert_ne; [done|]. specialize (Hb t a' H1). lia.
  - exists rs', x'. split; [exact E|]. split; [done|]. split; [congruence|]. intros t. specialize (Hall t). rewrite Ex1 in Hall.
    destruct (storage x' !! t) as [b|].
    + destruct Hall as [Hin Htr]. split; [|done]. destruct Hin as [Hin|[a Ha]]; [left; by right|].
      apply lookup_insert_Some in Ha as [[<- _]|[_ Ha]]; [left; left|right; by eexists].
    + destruct Hall as [Hn Hs]. apply lookup_insert_None in Hs as [Hs Hne]. split; [set_solver|done].
Qed.

(** The target "chain:id" is the chain with that id. *)
Lemma chain_target id f :
  mqtt2ChainId = "chain:" +:+ id →
  ∃ target, From_To custom_IsPathSupportVar custom_Init DefaultExecutorFactory (NewConfig []) mqtt2ChainId [] f =
      Returns (mkFrom (from_Config f) (from_From f) (from_processList f) (Some target)) ∧
    to_executor target = Some ChainExecutor ∧ to_ToPath target = TrimSpace id ∧ to_processList target = [] ∧
    target = mkTo (Contains "${" ("chain:" +:+ id) && Contains "}" ("chain:" +:+ id)) (<[pathKey := VString (TrimSpace id)]> ∅) ("chain:" +:+ id) (TrimSpace id) [] (Some ChainExecutor) false.
Proof.
  intros ->. unfold From_To. assert (head (Split ("chain:" +:+ id) ":"%char) = Some "chain") as -> by reflexivity.
  simpl default. change (ExecutorFactory_New "chain" DefaultExecutorFactory) with (Some (@ChainExecutor C)). cbn [IsPathSupportVar negb].
  rewrite andb_false_r. assert (String.length ("chain:" +:+ id) = 6 + String.length id) as -> by reflexivity.
  assert (6 + String.length id <? S (String.length "chain") = false) as -> by (apply Nat.ltb_ge; simpl; lia).
  assert (String.substring (S (String.length "chain")) (6 + String.length id - S (String.length "chain")) ("chain:" +:+ id) = id) as ->.
  { simpl. rewrite Nat.sub_0_r. apply substring_all. }
  eexists. done.
Qed.

(** Before the MQTT input starts, exactly the topics of the flag have a router, and each
    leads to the chain of the flag. *)
Theorem mqtt_topics_routed id topics x :
  mqtt2ChainId = "chain:" +:+ id → me_client x = None → storage x = ∅ →
  ∃ rs x' target, add_topics (Split topics ","%char) 0 (∅, x) = Returns (rs, x') ∧
    to_executor target = Some ChainExecutor ∧ to_ToPath target = TrimSpace id ∧
    ∀ topic, is_Some (storage x' !! topic) ↔ topic ∈ Split topics ","%char ∧ topic_route target topic rs x'.
Proof.
  intros Hid Hc Hs. destruct (chain_target id (mkFrom ∅ "" [] None) Hid) as (target & _ & H1 & H2 & _ & Et).
  destruct (add_topics_ok target (Split topics ","%char) 0 ∅ x) as (rs & x' & E & _ & _ & Hall).
  - intros f. destruct (chain_target id f Hid) as (t' & Ef & _ & _ & _ & Et'). rewrite Ef. congruence.
  - done.
  - intros t a. rewrite Hs. by rewrite lookup_empty.
  - intros t a. rewrite Hs. by rewrite lookup_empty.
  - exists rs, x', target. split_and!; try done. intros topic. specialize (Hall topic). rewrite Hs, lookup_empty in Hall.
    destruct (storage x' !! topic) as [b|].
    + destruct Hall as [[Hin|[? ?]] Htr]; [|done]. split; [done|by eexists].
    + destruct Hall as [Hn _]. split; [by intros [? ?]|by intros [? _]].
Qed.

End ServerMqtt.
