(* ===== verification/SubChain.v ===== *)
(** * Sub-chains

    How one chain runs another: [TellFlow] of [src/engine.go] looks the chain up in the
    pool of the context and hands it the message, the [flow] component collects what the
    run reports, and a chain reached by a connection ([RuleChainCtx.OnMsg] of
    [src/chain.go]) is handed the message without callbacks.  Here the components of
    [Flow] and the machine of [RuleCtx] meet: the events a [flow] node gets are those of
    a run of its sub-chain. *)

From Stdlib Require Import Ascii.
From S2P Require Import Prelude GoStrings Value Str Msg Config Dsl World Node Chain ChainProps Engine EngineProps Samples ChainRuntime RuleCtx CtxProps CtxDelivery EngineMsg NodeApi GroupAction Flow.

Section Control.
Context `{C : Components} `{P : Parsers}.

(** [ctx.GetRuleChainPool()] *)
Definition DefaultRuleContext_GetRuleChainPool (ruleChainPool : option nat) : nat := default DefaultRuleGo ruleChainPool.

(** [TellFlow] starts a run with the root context of the chain's engine ([None]: the
    engine has no chain and only logs), or tells [Failure]. *)
Inductive flow_start : Type :=
| FlowStarted (run : option (RootRuleContext * option nat))
| FlowNotFound (answer : call).

Definition TellFlow (ruleChainPool : option nat) (msg : RuleMsg) (chainId : string) : M flow_start :=
  do o <- RuleGo_Get (DefaultRuleContext_GetRuleChainPool ruleChainPool) chainId ;;
  match o with
  | Some e => do run <- onMsg_root e ;; ret (FlowStarted run)
  | None => ret (FlowNotFound (TellFailure msg (Some ("ruleChain id=" +:+ chainId +:+ " not found"))))
  end.

(** [RuleChainCtx.OnMsg]: both callbacks are nil. *)
Definition RuleChainCtx_OnMsg (p : nat) (ruleChainPool : option nat) (msg : RuleMsg) : M flow_start :=
  do rc <- get_chain p ;; TellFlow ruleChainPool msg (rn_Id (cx_Id rc)).

(** What the context of the chain node is told. *)
Definition flow_calls (s : flow_start) : list call :=
  match s with FlowStarted _ => [] | FlowNotFound answer => [answer] end.

(** [RuleGo.OnMsg]: every engine of the pool is handed the message. *)
Definition RuleGo_OnMsg (g : nat) : M (list (option (RootRuleContext * option nat))) :=
  do engines <- get_pool g ;; mapM (λ kv, onMsg_root kv.2) (map_to_list engines).

End Control.

(** ** The events of a run *)

Section Reports.
Context `{R : Runtime}.
Variables (startAspects : list StartAop) (endAspects : list EndAop).
(** The id of the node the k-th branch ended in, which the trace does not have. *)
Variable ids : nat → string.

Fixpoint reports (k : nat) (trace : list event) : list flow_event :=
  match trace with
  | [] => []
  | EvOnEnd msg err relationType :: rest => FEnd (onEnd endAspects msg err relationType) err (ids k) :: reports (S k) rest
  | EvCompleted 0 :: rest => FCompleted :: reports k rest
  | _ :: rest => reports k rest
  end.

(** Completion was reported once, after the last branch. *)
Definition report_kinds (trace : list event) : list bool :=
  omap (λ e, match e with EvOnEnd _ _ _ => Some false | EvCompleted 0 => Some true | _ => None end) trace.
Definition timely (trace : list event) : bool :=
  bool_decide (report_kinds trace = replicate (length (user_ends endAspects trace)) false ++ [true]).

Lemma reports_completed k trace : EvCompleted 0 ∈ trace → FCompleted ∈ reports k trace.
Proof.
  revert k. induction trace as [|e trace IH]; intros k Hin; [by apply elem_of_nil in Hin|].
  apply elem_of_cons in Hin as [<-|Hin]; [simpl; constructor|].
  destruct e as [n m|m err rel|m err|[|c]]; simpl; try (by apply IH); constructor; by apply IH.
Qed.

Lemma reports_none k trace : report_kinds trace = [] → reports k trace = [].
Proof.
  revert k. induction trace as [|e trace IH]; intros k H; [done|].
  destruct e as [n m|m err rel|m err|[|c]]; simpl in *; try done; by apply IH.
Qed.

Definition end_of (e : RuleMsg * error * string) : RuleMsg * error := e.1.

Lemma reports_timely k trace :
  report_kinds trace = replicate (length (user_ends endAspects trace)) false ++ [true] →
  ∃ ends, reports k trace = (fend <$> ends) ++ [FCompleted] ∧ end_of <$> ends = end_of <$> user_ends endAspects trace.
Proof.
  revert k. induction trace as [|e trace IH]; intros k H; [done|].
  destruct e as [n m|m err rel|m err|[|c]]; simpl in *.
  - by apply IH.
  - injection H as H. destruct (IH (S k) H) as (ends & -> & He).
    exists ((onEnd endAspects m err rel, err, ids k) :: ends). split; [done|]. rewrite !fmap_cons. by rewrite He.
  - by apply IH.
  - destruct (length (user_ends endAspects trace)) as [|n] eqn:El; [|done]. injection H as H.
    apply nil_length_inv in El. exists []. rewrite (reports_none k) by done. unfold user_ends in *. by rewrite El.
  - by apply IH.
Qed.

(** Every completion makes the [flow] node tell [Success], and nothing else does. *)
Lemma flow_steps wrappers_text events calls s :
  ∃ calls' s', foldl (flow_step wrappers_text) (calls, s) events = (calls ++ calls', s') ∧
    Forall (λ c, ∃ w, c = TellSuccess w) calls' ∧ (FCompleted ∈ events → calls' ≠ []).
Proof.
  revert calls s. induction events as [|e events IH]; intros calls s.
  - exists [], s. rewrite app_nil_r. split; [done|]. split; [done|]. intros H. by apply elem_of_nil in H.
  - destruct e as [m err id|]; simpl.
    + destruct (IH calls (flow_onEnd s m err id)) as (calls' & s' & -> & H1 & H2). exists calls', s'. split; [done|].
      split; [done|]. intros [H|H]%elem_of_cons; [done|by apply H2].
    + destruct (flow_onCompleted wrappers_text s) as [c s0] eqn:Ec. unfold flow_onCompleted in Ec. injection Ec as <- <-.
      destruct (IH (calls ++ [TellSuccess (set_Data (wrappers_text (fl_msgs s)) (set_DataType JSON (fl_wrapperMsg s)))])
        (mkFlow (set_Data (wrappers_text (fl_msgs s)) (set_DataType JSON (fl_wrapperMsg s))) (fl_msgs s)))
        as (calls' & s' & -> & H1 & _).
      eexists (_ :: calls'), s'. rewrite <- (assoc_L (++)). split; [done|]. split; [constructor; [by eexists|done]|done].
Qed.

(** C27. A [flow] node over a run of its sub-chain.  When every node of the sub-chain answers
    and the pool takes all tasks, then for every interleaving, once nothing is left to
    do in the sub-chain, the [flow] node has told [Success] at least once and nothing
    else: the run it is part of is not left waiting.  When completion was reported once
    and after the last branch, it has told [Success] exactly once, with the results of
    exactly the branch ends of the sequential reference run of the sub-chain. *)
Theorem flow_node_answers wrappers_text now uuid pool x e fuel self msg T schedule :
  Responsive → pool !! fl_TargetId (fl_Config x) = Some e →
  reference fuel self (onStart startAspects msg) = Some T → Forall (λ x, x.2 = true) schedule →
  let s := run_schedule (onMsgAndWait startAspects self msg) schedule in
  quiescent s = true → s_crashed s = None →
  let calls := ChainNode_OnMsg wrappers_text now uuid pool x msg (reports 0 (s_trace s)) in
  calls ≠ [] ∧ Forall (λ c, ∃ w, c = TellSuccess w) calls ∧
  (timely (s_trace s) = true →
     ∃ w ends, calls = [TellSuccess w] ∧ m_Data w = wrappers_text (wrap_end <$> ends) ∧
       end_of <$> ends ≡ₚ end_of <$> user_ends endAspects T).
Proof.
  intros Hresp Hpool HT Hok s Hq Hc calls.
  pose proof (completion_called self (onStart startAspects msg) schedule Hresp Hok Hq Hc) as Hdone.
  destruct (delivery_complete fuel self (onStart startAspects msg) T schedule HT Hok Hc) as [Hd _].
  specialize (Hd Hq). unfold calls, ChainNode_OnMsg. rewrite Hpool. split_and!.
  - destruct (flow_steps wrappers_text (reports 0 (s_trace s)) [] (mkFlow (RuleMsg_Copy now uuid msg) []))
      as (calls' & s' & -> & _ & Hne). simpl. by apply Hne, reports_completed.
  - destruct (flow_steps wrappers_text (reports 0 (s_trace s)) [] (mkFlow (RuleMsg_Copy now uuid msg) []))
      as (calls' & s' & -> & Hall & _). done.
  - intros Ht. apply bool_decide_eq_true in Ht. destruct (reports_timely 0 _ Ht) as (ends & -> & He).
    rewrite foldl_app. destruct (flow_ends wrappers_text ends [] (mkFlow (RuleMsg_Copy now uuid msg) [])) as (w & -> & _ & _).
    eexists _, ends. split; [done|]. split; [done|]. rewrite He. apply fmap_Permutation.
    rewrite <- (user_ends_visible endAspects (s_trace s)). by apply user_ends_perm.
Qed.

End Reports.

Module SubChainExample.
Import ChainRuntimeExample Samples EngineMsgExample.

Definition text (l : list WrapperMsg) : string := Join (m_Data ∘ w_Msg <$> l) ","%char.
Definition flow_node : ChainNode := mkChainNode (mkChainNodeConf "sub").

Lemma flow_node_answers_witness :
  let s := run_schedule (R := lineRuntime) (onMsgAndWait [start_aop] (Some (NCnode 0)) (m "in")) schedule in
  timely [end_aop] (s_trace s) = true ∧
  ∃ w, ChainNode_OnMsg text 5 "u" {["sub" := 7]} flow_node (m "in") (reports [end_aop] (λ _, "n") 0 (s_trace s)) = [TellSuccess w] ∧
    m_Data w = "ended".
Proof.
  intros s. split; [vm_compute; reflexivity|].
  destruct (flow_node_answers (R := lineRuntime) [start_aop] [end_aop] (λ _, "n") text 5 "u" {["sub" := 7]} flow_node 7 40
    (Some (NCnode 0)) (m "in")
    [EvOnMsg (NCnode 0) (m "started"); EvOnMsg (NCnode 1) (m "started"); EvOnEnd (m "started") None Success] schedule
    lineResponsive) as (_ & _ & H); [reflexivity|vm_compute; reflexivity|by_decide|vm_compute; reflexivity|vm_compute; reflexivity|].
  destruct H as (w & ends & H1 & H2 & H3); [vm_compute; reflexivity|].
  exists w. split; [exact H1|]. rewrite H2.
  assert (user_ends [end_aop] [EvOnMsg (NCnode 0) (m "started"); EvOnMsg (NCnode 1) (m "started"); EvOnEnd (m "started") None Success]
    = [(m "ended", None, Success)]) as E by (vm_compute; reflexivity).
  rewrite E in H3. symmetry in H3. apply Permutation_singleton_l in H3.
  destruct ends as [|[[m0 err0] id0] [|]]; try discriminate H3. injection H3; intros; subst; reflexivity.
Defined.

(** A chain connection: the sub-chain is handed the message, and nobody tells the context
    of the connection when it has ended.  A run through one comes to rest without having
    reported completion, and [OnMsgAndWait] does not return. *)
Definition two_chains : World :=
  (RuleGo_New DefaultRuleGo "sub" "sub" [WithConfig cfg] (RuleGo_New DefaultRuleGo "e1" "main" [WithConfig cfg] initialWorld).2).2.
Definition rounds : list (nat * bool) := concat (replicate 60 ((λ i, (i, true)) <$> seq 0 12)).

Theorem chain_connection_never_completes :
  let p := 5 in
  let R := ChainRuntime two_chains (mkRootCtx cfg p (NCnode 6) None) (λ _ msg, [TellSuccess msg]) 5 "u" in
  let s := run_schedule (R := R) (onMsg (Some (NCnode 6)) (m "in")) rounds in
  (∃ q msg, EvOnMsg (NCchain q) msg ∈ s_trace s ∧
     (∃ run, (RuleChainCtx_OnMsg q None msg two_chains).1 = ROk (FlowStarted run))) ∧
  quiescent s = true ∧ s_crashed s = None ∧ existsb (λ e, match e with EvCompleted 0 => true | _ => false end) (s_trace s) = false.
Proof.
  split; [|split; [|split]]; try (vm_compute; reflexivity).
  exists 11, (m "in"). split; [apply list_elem_of_lookup; exists 3; vm_compute; reflexivity|]. eexists. vm_compute. reflexivity.
Qed.

End SubChainExample.
