(* ===== verification/RuntimeSim.v ===== *)
(** * Two runtimes with corresponding nodes

    The reference run of [CtxDelivery] depends on a chain only through the [Runtime]
    class.  When the nodes of two runtimes correspond (successors correspond in order,
    corresponding nodes do the same with a message, and no aspect interferes), so do the
    reference runs: the same
    deliveries to corresponding nodes and the same branch ends, with the same fuel. *)

From S2P Require Import Prelude Value Msg Config Dsl World RuleCtx CtxProps CtxDelivery.

(** What a component does by itself: it never calls the handler of a node, which only
    the engine does. *)
Fixpoint plain_call (c : call) : bool :=
  match c with
  | COnMsg _ _ => false
  | CGo body => forallb plain_call body
  | _ => true
  end.

(** Two runtimes that give the same answers make the same steps. *)
Lemma step_ext (R1 R2 : Runtime) s t ok :
  (∀ n r, rt_next (Runtime := R1) n r = rt_next (Runtime := R2) n r) →
  (∀ n msg, rt_OnMsg (Runtime := R1) n msg = rt_OnMsg (Runtime := R2) n msg) →
  rt_before (Runtime := R1) = rt_before (Runtime := R2) → rt_around (Runtime := R1) = rt_around (Runtime := R2) →
  rt_after (Runtime := R1) = rt_after (Runtime := R2) → rt_now (Runtime := R1) = rt_now (Runtime := R2) →
  rt_uuid (Runtime := R1) = rt_uuid (Runtime := R2) → rt_hasOnEnd (Runtime := R1) = rt_hasOnEnd (Runtime := R2) →
  step (R := R1) s t ok = step (R := R2) s t ok.
Proof.
  intros Hn Ho Hb Hr Ha Hw Hu He. unfold step. destruct (s_crashed s); [done|].
  destruct (s_threads s !! t) as [[|i k]|]; [done| |done].
  assert (exec (R := R1) (s_ctxs s) i ok = exec (R := R2) (s_ctxs s) i ok) as ->; [|done].
  destruct i as [c msg err rels|c msg err|c msg err [|r rels]|c msg r [|item rest]|task|c msg n r|c [|x rest] rec|c msg err r|c msg err r|c msg err r
    |msg err|c|c|c|c]; simpl; try done.
  - unfold copy. by rewrite Hw, Hu.
  - destruct (s_ctxs s !! c) as [ctx|]; [|done]. unfold executeAfterAop, getNextNodes. rewrite Ha.
    destruct (x_self ctx); [|done]. by rewrite Hn.
  - unfold copy. by rewrite Hw, Hu.
  - unfold executeAroundAop, run_before. by rewrite Hb, Hr.
  - destruct (s_ctxs s !! c) as [ctx|]; [|done]. destruct x; try done. simpl. by rewrite Ho.
  - by rewrite He.
Qed.

Section RuntimeSim.
Variables (R1 R2 : Runtime) (rel : NodeRef → NodeRef → Prop).

Record runtime_sim : Prop := {
  rs_next : ∀ n1 n2 r, rel n1 n2 → Forall2 rel (rt_next (Runtime := R1) n1 r) (rt_next (Runtime := R2) n2 r);
  rs_OnMsg : ∀ n1 n2 msg, rel n1 n2 → rt_OnMsg (Runtime := R1) n1 msg = rt_OnMsg (Runtime := R2) n2 msg;
  rs_plain : ∀ n msg, forallb plain_call (rt_OnMsg (Runtime := R1) n msg) = true;
  rs_around : rt_around (Runtime := R1) = [] ∧ rt_around (Runtime := R2) = [];
  rs_after : ∀ n1 n2 msg err r, executeAfterAop (R := R1) n1 msg err r = executeAfterAop (R := R2) n2 msg err r;
  rs_now : rt_now (Runtime := R1) = rt_now (Runtime := R2);
  rs_uuid : rt_uuid (Runtime := R1) = rt_uuid (Runtime := R2);
  rs_hasOnEnd : rt_hasOnEnd (Runtime := R1) = rt_hasOnEnd (Runtime := R2)
}.

Record info_rel (o1 o2 : Info) : Prop := {
  ir_self : option_Forall2 rel (o_self o1) (o_self o2);
  ir_isFirst : o_isFirst o1 = o_isFirst o2;
  ir_hasOnEnd : o_hasOnEnd o1 = o_hasOnEnd o2;
  ir_skip : o_skip o1 = o_skip o2
}.

Inductive call_rel : call → call → Prop :=
| rel_plain c : plain_call c = true → call_rel c c
| rel_COnMsg n1 n2 msg : rel n1 n2 → call_rel (COnMsg n1 msg) (COnMsg n2 msg).

Inductive event_rel : event → event → Prop :=
| rel_EvOnMsg n1 n2 msg : rel n1 n2 → event_rel (EvOnMsg n1 msg) (EvOnMsg n2 msg)
| rel_EvOnEnd msg err r : event_rel (EvOnEnd msg err r) (EvOnEnd msg err r)
| rel_EvConfigOnEnd msg err : event_rel (EvConfigOnEnd msg err) (EvConfigOnEnd msg err)
| rel_EvCompleted c : event_rel (EvCompleted c) (EvCompleted c).

Inductive work_rel : work → work → Prop :=
| rel_WTell o1 o2 msg err rels : info_rel o1 o2 → work_rel (WTell o1 msg err rels) (WTell o2 msg err rels)
| rel_WTellFirst o1 o2 msg err : info_rel o1 o2 → work_rel (WTellFirst o1 msg err) (WTellFirst o2 msg err)
| rel_WRels o1 o2 msg err rels : info_rel o1 o2 → work_rel (WRels o1 msg err rels) (WRels o2 msg err rels)
| rel_WKids o1 o2 msg r l1 l2 : info_rel o1 o2 → Forall2 rel l1 l2 → work_rel (WKids o1 msg r l1) (WKids o2 msg r l2)
| rel_WTellNext o1 o2 msg n1 n2 r : info_rel o1 o2 → rel n1 n2 → work_rel (WTellNext o1 msg n1 r) (WTellNext o2 msg n2 r)
| rel_WCalls o1 o2 l1 l2 b : info_rel o1 o2 → Forall2 call_rel l1 l2 → work_rel (WCalls o1 l1 b) (WCalls o2 l2 b)
| rel_WDoOnEnd o1 o2 msg err r : info_rel o1 o2 → work_rel (WDoOnEnd o1 msg err r) (WDoOnEnd o2 msg err r)
| rel_WEndCallback o1 o2 msg err r : info_rel o1 o2 → work_rel (WEndCallback o1 msg err r) (WEndCallback o2 msg err r)
| rel_WOnEnd msg err r : work_rel (WOnEnd msg err r) (WOnEnd msg err r)
| rel_WConfigOnEnd msg err : work_rel (WConfigOnEnd msg err) (WConfigOnEnd msg err).

#[local] Hint Constructors call_rel event_rel work_rel Forall2 option_Forall2 : sim.

Lemma plain_calls_rel l : forallb plain_call l = true → Forall2 call_rel l l.
Proof. induction l as [|c l IH]; simpl; [constructor|]. intros [? ?]%andb_true_iff. auto with sim. Qed.

Hypothesis S : runtime_sim.

Lemma copy_sim msg : copy (R := R1) msg = copy (R := R2) msg.
Proof. unfold copy. by rewrite (rs_now S), (rs_uuid S). Qed.

Lemma around_sim n1 n2 msg r :
  executeAroundAop (R := R1) n1 msg r = (true, []) ∧ executeAroundAop (R := R2) n2 msg r = (true, []).
Proof.
  destruct (rs_around S) as (A1 & A2). unfold executeAroundAop. by rewrite A1, A2.
Qed.

(** ** Work corresponds *)

Lemma do_call_rel o1 o2 c1 c2 l1 l2 b :
  info_rel o1 o2 → call_rel c1 c2 → Forall2 call_rel l1 l2 →
  Forall2 event_rel (do_call (R := R1) o1 c1 l1 b).1 (do_call (R := R2) o2 c2 l2 b).1 ∧
  Forall2 work_rel (do_call (R := R1) o1 c1 l1 b).2 (do_call (R := R2) o2 c2 l2 b).2.
Proof.
  intros Ho Hc Hl. destruct Hc as [c Hc|n1 n2 msg Hn].
  - destruct c as [msg err rels|msg|body|why|n msg]; simpl in *; try discriminate Hc; (split; [auto with sim|]).
    + auto 8 with sim.
    + destruct (ir_self _ _ Ho); auto 8 with sim.
    + apply plain_calls_rel in Hc. auto 8 with sim.
    + auto with sim.
  - simpl. rewrite <- (rs_OnMsg S n1 n2) by done. pose proof (plain_calls_rel _ (rs_plain S n1 msg)).
    split; [auto with sim|]. constructor; [|constructor]. constructor; [done|]. by apply Forall2_app.
Qed.

Lemma do_work_rel w1 w2 :
  work_rel w1 w2 →
  Forall2 event_rel (do_work (R := R1) w1).1 (do_work (R := R2) w2).1 ∧
  Forall2 work_rel (do_work (R := R1) w1).2 (do_work (R := R2) w2).2.
Proof.
  destruct 1 as [o1 o2 msg err rels Ho|o1 o2 msg err Ho|o1 o2 msg err rels Ho|o1 o2 msg r l1 l2 Ho Hl|o1 o2 msg n1 n2 r Ho Hn
    |o1 o2 l1 l2 b Ho Hl|o1 o2 msg err r Ho|o1 o2 msg err r Ho| |]; simpl.
  - rewrite (ir_isFirst _ _ Ho), copy_sim. repeat case_match; simpl; auto 8 with sim.
  - destruct (ir_self _ _ Ho); simpl; auto 8 with sim.
  - destruct rels as [|r rest]; simpl; [auto with sim|]. rewrite (ir_skip _ _ Ho), (rs_after S (o_self o1) (o_self o2)).
    assert (Forall2 rel
      (if o_skip o2 then [] else match o_self o1 with None => [] | Some self => rt_next (Runtime := R1) self r end)
      (if o_skip o2 then [] else match o_self o2 with None => [] | Some self => rt_next (Runtime := R2) self r end)) as Hk.
    { destruct (o_skip o2); [constructor|]. destruct (ir_self _ _ Ho); [by apply (rs_next S)|constructor]. }
    destruct Hk; simpl; auto 8 with sim.
  - destruct Hl; simpl; [auto with sim|]. rewrite copy_sim. auto 8 with sim.
  - destruct (around_sim (Some n1) (Some n2) msg r) as [-> ->]. simpl. split; [constructor|].
    constructor; [|constructor]. constructor; [|auto with sim]. destruct Ho as [_ ? ? ?]. split; simpl; auto with sim.
  - destruct Hl; [simpl; auto with sim|]. by apply do_call_rel.
  - rewrite (rs_hasOnEnd S). destruct rt_hasOnEnd; simpl; auto 8 with sim.
  - rewrite (ir_hasOnEnd _ _ Ho). destruct (o_hasOnEnd o2); simpl; auto 8 with sim.
  - auto with sim.
  - auto with sim.
Qed.

Lemma deliver_rel fuel w1 w2 T1 :
  work_rel w1 w2 → deliver (R := R1) fuel w1 = Some T1 →
  ∃ T2, deliver (R := R2) fuel w2 = Some T2 ∧ Forall2 event_rel T1 T2.
Proof.
  revert w1 w2 T1. induction fuel as [|fuel IH]; intros w1 w2 T1 Hw H; simpl in *; [done|].
  destruct (do_work_rel _ _ Hw) as [Hev Hwk].
  destruct (do_work (R := R1) w1) as [e1 ws1], (do_work (R := R2) w2) as [e2 ws2]. simpl in *.
  apply bind_Some in H as (evss & Hm & [= <-]).
  assert (∃ evss2, list.mapM (deliver (R := R2) fuel) ws2 = Some evss2 ∧ Forall2 (Forall2 event_rel) evss evss2)
    as (evss2 & -> & Hall).
  { apply mapM_Some in Hm. revert evss Hm. induction Hwk as [|v1 v2 vs1 vs2 Hv _ IHw]; intros evss Hm.
    - apply Forall2_nil_inv_l in Hm as ->. eexists. split; [done|constructor].
    - apply Forall2_cons_inv_l in Hm as (T & evss' & HT & Hm & ->). destruct (IH _ _ _ Hv HT) as (T2 & E & HT2).
      destruct (IHw _ Hm) as (evss2 & E2 & H2). exists (T2 :: evss2). split; [cbn [list.mapM]; rewrite E; cbn; by rewrite E2|by constructor]. }
  eexists. split; [reflexivity|]. apply Forall2_app; [done|].
  clear Hev Hm Hwk. induction Hall; simpl; [constructor|by apply Forall2_app].
Qed.

(** The reference runs of a message from corresponding nodes correspond. *)
Lemma reference_rel fuel self1 self2 msg T1 :
  option_Forall2 rel self1 self2 → reference (R := R1) fuel self1 msg = Some T1 →
  ∃ T2, reference (R := R2) fuel self2 msg = Some T2 ∧ Forall2 event_rel T1 T2.
Proof. intros Hs. unfold reference. apply deliver_rel. constructor. by split. Qed.

End RuntimeSim.
