(* ===== verification/ChainProgram.v ===== *)
(** * Engines as programs

    A chain definition without sub-chain connections is a [program]: components
    with ids, connections and a first node.  This file relates engines to programs.
    An engine created from a text runs the program of the text; reloading it or one
    of its nodes changes the program as one would expect and a text that does not
    load changes nothing; and a message handed to an engine does, on every
    interleaving of the goroutines, what it does in a sequential run of the
    program.  The text, the objects the loader builds, the caches, contexts and
    goroutines are all on one side of these theorems only. *)

From S2P Require Import Prelude GoStrings Value Msg Config Dsl World Node Chain ChainProps Samples Reload ChainExamples Engine EngineProps RuleCtx ChainRuntime CtxProps CtxDelivery CtxTermination EngineMsg RuntimeSim.

Section Program.
Context `{C : Components} `{NA : NodeAspects}.

(** ** Running a program *)

Definition program_next (pg : program) (self : NodeRef) (relationType : string) : list NodeRef :=
  match self with
  | NCnode i =>
      match pg_ids pg !! i with
      | Some id =>
          omap (λ c, if bool_decide (nc_FromId c = id ∧ nc_Type c = relationType)
                     then NCnode <$> node_index (nc_ToId c) (pg_ids pg) else None) (pg_conns pg)
      | None => []
      end
  | NCchain _ => []
  end.

Definition program_first (pg : program) : option NodeRef :=
  id ← pg_ids pg !! pg_first pg; NCnode <$> node_index id (pg_ids pg).

(** The runtime of a program: node [i] is [NCnode i]. *)
Definition ProgramRuntime (pg : program) (OnMsg : Comp → RuleMsg → list call) (now : Z) (uuid : string) : Runtime := {|
  rt_next := program_next pg;
  rt_OnMsg := λ node msg,
    match node with
    | NCnode i => match pg_comps pg !! i with Some c => OnMsg c msg | None => [] end
    | NCchain _ => []
    end;
  rt_before := []; rt_around := []; rt_after := [];
  rt_now := now; rt_uuid := uuid; rt_hasOnEnd := false
|}.

(** What is seen of a run: deliveries by the id of the node, and branch ends. *)
Inductive run_event : Type :=
| Delivered (id : string) (msg : RuleMsg)
| Ended (msg : RuleMsg) (err : error) (relationType : string).

Definition run_event_of (name : NodeRef → string) (e : event) : option run_event :=
  match e with
  | EvOnMsg n msg => Some (Delivered (name n) msg)
  | EvOnEnd msg err relationType => Some (Ended msg err relationType)
  | _ => None
  end.

Definition program_name (pg : program) (n : NodeRef) : string :=
  match n with NCnode i => default "" (pg_ids pg !! i) | NCchain _ => "" end.

(** The run of a message through a program, one branch after the other; [None]
    when the fuel does not reach its end. *)
Definition program_run (OnMsg : Comp → RuleMsg → list call) (now : Z) (uuid : string) (fuel : nat) (pg : program) (msg : RuleMsg) :
    option (list run_event) :=
  omap (M := list) (run_event_of (program_name pg)) <$>
    reference (R := ProgramRuntime pg OnMsg now uuid) fuel (program_first pg) msg.

(** ** A chain that holds a program routes like it *)

(** The routing tables of the program's connections, and a cache with current answers. *)
Definition held_next (pg : program) (rc : RuleChainCtx) (id : RuleNodeId) (rel : string) : list NodeRef :=
  omap (λ r, NCnode <$> cx_nodes rc !! rr_OutId r)
    (filter (λ r, rr_RelationType r = rel) (relations_of id (node_relation <$> pg_conns pg))).
Definition routes_like (pg : program) (rc : RuleChainCtx) : Prop :=
  (∀ id, default [] (cx_nodeRoutes rc !! id) = relations_of id (node_relation <$> pg_conns pg)) ∧
  (∀ id rel l, cx_relationCache rc !! (id, rel) = Some l → l = held_next pg rc id rel).

Lemma routes_like_nodes pg rc id :
  routes_like pg rc → Forall (λ r, rn_Type (rr_OutId r) = NODE) (default [] (cx_nodeRoutes rc !! id)).
Proof.
  intros [Hr _]. rewrite Hr. apply Forall_forall. intros x (_ & (c & -> & _)%list_elem_of_fmap)%list_elem_of_filter. done.
Qed.

Lemma routes_like_next pg rc w id rel : routes_like pg rc → next_nodes w rc id rel = held_next pg rc id rel.
Proof.
  intros Hr. pose proof (routes_like_nodes pg rc id Hr) as Hn. unfold next_nodes, held_next. rewrite (proj1 Hr) in *.
  apply list_omap_ext, Forall_Forall2_diag. apply Forall_forall. intros r [_ Hin]%list_elem_of_filter.
  rewrite Forall_forall in Hn. unfold resolve. by rewrite (Hn r Hin).
Qed.

Lemma routes_like_cache pg rc w : routes_like pg rc → cache_ok w rc.
Proof. intros Hr id rel l Hl. rewrite (routes_like_next pg) by done. by apply (proj2 Hr). Qed.

Lemma resolve_relations_nodes w p rc rel l :
  w_chains w !! p = Some rc → Forall (λ r, rn_Type (rr_OutId r) = NODE) l →
  resolve_relations p rel l w =
    (ROk (omap (λ r, resolve w rc (rr_OutId r)) (filter (λ r, rr_RelationType r = rel) l)), w).
Proof.
  intros Hp. induction 1 as [|r l Hr _ IH]; [done|]. simpl. rewrite filter_cons.
  case_decide as E; [rewrite bool_decide_true by done|by rewrite bool_decide_false].
  assert (GetNodeById p (rr_OutId r) w = (ROk (resolve w rc (rr_OutId r)), w)) as Hg.
  { unfold GetNodeById, resolve. run. by rewrite Hr. }
  rewrite (bind_ok _ _ _ _ _ Hg), (bind_ok _ _ _ _ _ IH). simpl. by destruct (resolve w rc (rr_OutId r)).
Qed.

Lemma GetNextNodes_nodes pg w p rc id rel :
  w_chains w !! p = Some rc → routes_like pg rc →
  ∃ b cache, GetNextNodes p id rel w = (ROk (next_nodes w rc id rel, b), with_cache w p rc cache) ∧
    routes_like pg (set_relationCache rc cache).
Proof.
  intros Hp Hr. pose proof (routes_like_cache pg rc w Hr) as Hc. pose proof (routes_like_nodes pg rc id Hr) as Hn.
  unfold GetNextNodes, GetNodeRoutes. run.
  destruct (cx_relationCache rc !! (id, rel)) as [l|] eqn:El.
  { rewrite (Hc _ _ _ El). eexists _, (cx_relationCache rc). rewrite with_cache_id, set_relationCache_id by done. split; [reflexivity|done]. }
  run. assert ((match cx_nodeRoutes rc !! id with
               | Some relations => resolve_relations p rel relations | None => ret [] end) w
               = (ROk (next_nodes w rc id rel), w)) as E.
  { unfold next_nodes. destruct (cx_nodeRoutes rc !! id); simpl in *; [by apply resolve_relations_nodes|done]. }
  rewrite (bind_ok _ _ _ _ _ E). run. eexists _, _. split; [reflexivity|]. split; [apply Hr|].
  intros id' rel' l Hl. simpl in Hl. change (held_next pg (set_relationCache rc _)) with (held_next pg rc).
  destruct (decide ((id, rel) = (id', rel'))) as [?|Hne]; [simplify_eq|].
  - rewrite lookup_insert_eq in Hl. simplify_eq. by apply routes_like_next.
  - rewrite lookup_insert_ne in Hl by done. by apply Hr.
Qed.

(** The node of a program and its node context. *)
Definition node_rel (addrs : list nat) (n1 n2 : NodeRef) : Prop :=
  ∃ i a, n1 = NCnode i ∧ n2 = NCnode a ∧ addrs !! i = Some a.

Lemma self_id_held config pg addrs rc w i a :
  chain_holds config pg addrs rc w → addrs !! i = Some a →
  ∃ id, pg_ids pg !! i = Some id ∧ self_id w (NCnode a) = mkNodeId id NODE.
Proof.
  intros Hh Ha. destruct (ch_nodes _ _ _ _ _ Hh i a Ha) as (c & item & nd & _ & Hn & Hd & Hid & _).
  exists (n_Id nd). split; [done|]. unfold self_id. simpl. unfold RuleNodeCtx_GetNodeId. by run.
Qed.

Lemma resolve_held config pg addrs rc w id :
  chain_holds config pg addrs rc w →
  option_Forall2 (node_rel addrs) (NCnode <$> node_index id (pg_ids pg)) (resolve w rc (mkNodeId id NODE)).
Proof.
  intros Hh. unfold resolve. simpl. rewrite (ch_map _ _ _ _ _ Hh). destruct (node_index id (pg_ids pg)) as [i|] eqn:Ei; simpl; [|constructor].
  apply node_index_lookup, lookup_lt_Some in Ei. rewrite <- (ch_length _ _ _ _ _ Hh) in Ei.
  destruct (lookup_lt_is_Some_2 addrs i Ei) as [a Ha]. rewrite Ha. constructor. by exists i, a.
Qed.

Lemma next_held config pg addrs rc w id rel :
  chain_holds config pg addrs rc w → routes_like pg rc →
  Forall2 (node_rel addrs)
    (omap (λ c, if bool_decide (nc_FromId c = id ∧ nc_Type c = rel) then NCnode <$> node_index (nc_ToId c) (pg_ids pg) else None)
       (pg_conns pg))
    (next_nodes w rc (mkNodeId id NODE) rel).
Proof.
  intros Hh [Hr _]. unfold next_nodes. rewrite Hr. unfold relations_of. clear Hr.
  induction (pg_conns pg) as [|c l IH]; [constructor|].
  destruct (decide (nc_FromId c = id)) as [Hf|Hf].
  - rewrite fmap_cons, filter_cons_True by (simpl; by rewrite Hf).
    destruct (decide (nc_Type c = rel)) as [Ht|Ht].
    + rewrite filter_cons_True by done. cbn [omap list_omap]. rewrite bool_decide_true by done.
      cbn [node_relation rr_OutId]. destruct (resolve_held config pg addrs rc w (nc_ToId c) Hh) as [x y Hxy|]; [constructor; [exact Hxy|exact IH]|exact IH].
    + rewrite filter_cons_False by done. cbn [omap list_omap]. rewrite bool_decide_false by tauto. exact IH.
  - rewrite fmap_cons, filter_cons_False by (simpl; congruence). cbn [omap list_omap]. rewrite bool_decide_false by tauto. exact IH.
Qed.

Lemma chain_runtime_sim config pg addrs rc w rx OnMsg now uuid :
  w_chains w !! rx_ruleChainCtx rx = Some rc → chain_holds config pg addrs rc w → routes_like pg rc →
  routes_plainly (rx_config rx) = true → (∀ c msg, forallb plain_call (OnMsg c msg) = true) →
  runtime_sim (ProgramRuntime pg OnMsg now uuid) (ChainRuntime w rx OnMsg now uuid) (node_rel addrs).
Proof.
  intros Hq Hh Hr Hrp Hpl. destruct (plain_runtime w rx OnMsg now uuid Hrp) as (Har & Hon & Haf). split; try done.
  - intros n1 n2 r (i & a & -> & -> & Ha). simpl. destruct (self_id_held _ _ _ _ _ _ _ Hh Ha) as (id & Hid & Es).
    rewrite Hid. unfold chain_next. rewrite Es.
    destruct (GetNextNodes_nodes pg w _ rc (mkNodeId id NODE) r Hq Hr) as (b & cache & -> & _). by eapply next_held.
  - intros n1 n2 msg (i & a & -> & -> & Ha). simpl. destruct (ch_nodes _ _ _ _ _ Hh i a Ha) as (c & item & nd & -> & -> & _). done.
  - intros [i|?] msg; simpl; [|done]. destruct (pg_comps pg !! i); [apply Hpl|done].
Qed.

(** ** Engines that run a program *)

(** The root context [onMsgAndWait] starts from. *)
Definition engine_context (e : nat) (w : World) : option RootRuleContext :=
  en ← w_engines w !! e;
  root ← e_rootRuleChainCtx en;
  rc ← w_chains w !! root;
  cx_rootRuleContext rc.

Record engine_runs (cfg : Config) (pg : program) (e : nat) (w : World) : Prop := {
  er_objects : ∃ en root rc q rcq addrs self,
    w_engines w !! e = Some en ∧ e_Config en = cfg ∧ e_rootRuleChainCtx en = Some root ∧ root < w_next w ∧ q < w_next w ∧
    w_chains w !! root = Some rc ∧ chain_wf w rc ∧ chain_holds cfg pg addrs rc w ∧
    cx_rootRuleContext rc = (λ self, mkRootCtx cfg q self (c_Pool cfg)) <$> self ∧
    option_Forall2 (node_rel addrs) (program_first pg) self ∧
    w_chains w !! q = Some rcq ∧ chain_holds cfg pg addrs rcq w ∧ routes_like pg rcq
}.

Lemma first_held config pg addrs rc w :
  chain_holds config pg addrs rc w → Z.to_nat (md_FirstNodeIndex (rc_Metadata (cx_SelfDefinition rc))) = pg_first pg →
  option_Forall2 (node_rel addrs) (program_first pg) (first_node rc).
Proof.
  intros Hh Hf. unfold program_first, first_node. rewrite Hf, (ch_ids _ _ _ _ _ Hh), list_lookup_fmap.
  destruct (pg_ids pg !! pg_first pg) as [id|]; simpl; [|constructor].
  pose proof (resolve_held _ _ _ _ _ id Hh) as Hr. unfold resolve in Hr. simpl in Hr. exact Hr.
Qed.

Lemma first_index_loaded p w rc (d : RuleChainDef) :
  w_chains w !! p = Some rc → current_definition p w = (ROk (completed_def d), w) →
  md_FirstNodeIndex (rc_Metadata (cx_SelfDefinition rc)) = md_FirstNodeIndex (rc_Metadata d).
Proof.
  intros Hp. unfold current_definition. run. unfold bind.
  destruct (mapM get_def _ w) as [[ds| |] w1]; unfold ret; intros H; by simplify_eq.
Qed.

Lemma routes_like_loaded (d : RuleChainDef) cs rc :
  cx_nodeRoutes rc = load_routes (cx_SelfDefinition rc) → all_relations (cx_SelfDefinition rc) = all_relations d →
  md_RuleChainConnections (rc_Metadata d) = [] → cx_relationCache rc = ∅ → routes_like (program_of cs d) rc.
Proof.
  intros Hr Ha Hn Hc. split.
  - intros id. rewrite Hr, load_routes_default, Ha. unfold all_relations. rewrite Hn, app_nil_r. done.
  - intros id rel l. by rewrite Hc, lookup_empty.
Qed.

(** ** Messages *)

Definition chain_name (w : World) (n : NodeRef) : string := rn_Id (self_id w n).

Lemma event_names config pg addrs rc w T1 T2 :
  chain_holds config pg addrs rc w → Forall2 (event_rel (node_rel addrs)) T1 T2 →
  omap (run_event_of (program_name pg)) T1 = omap (run_event_of (chain_name w)) T2.
Proof.
  intros Hh. induction 1 as [|e1 e2 T1 T2 He _ IH]; [done|].
  destruct He as [n1 n2 msg (i & a & -> & -> & Ha)| | |]; csimpl; try (by rewrite IH).
  destruct (self_id_held _ _ _ _ _ _ _ Hh Ha) as (id & Hid & Es). rewrite IH. unfold program_name, chain_name. by rewrite Hid, Es.
Qed.

Lemma run_events_visible name T : omap (run_event_of name) (visible_events T) = omap (run_event_of name) T.
Proof.
  unfold visible_events. induction T as [|e T IH]; [done|]. rewrite filter_cons. case_decide as Hv.
  - csimpl. by rewrite IH.
  - destruct e; [by destruct Hv..|]. exact IH.
Qed.

Lemma run_events_perm name T T' : T ≡ₚ T' → omap (run_event_of name) T ≡ₚ omap (run_event_of name) T'.
Proof. intros H. by rewrite H. Qed.

Section Messages.
Variables (OnMsg : Comp → RuleMsg → list call) (now : Z) (uuid : string).
Hypothesis plain : ∀ c msg, forallb plain_call (OnMsg c msg) = true.

(** The run an engine starts for a message. *)
Lemma engine_runs_context cfg pg e w :
  engine_runs cfg pg e w → is_Some (program_first pg) →
  ∃ rx rcq addrs n, engine_context e w = Some rx ∧ rx_config rx = cfg ∧ w_chains w !! rx_ruleChainCtx rx = Some rcq ∧
    chain_holds cfg pg addrs rcq w ∧ routes_like pg rcq ∧ program_first pg = Some n ∧ node_rel addrs n (rx_self rx).
Proof.
  intros [(en & root & rc & q & rcq & addrs & self & Hen & _ & Hroot & _ & _ & Hrc & _ & _ & Hctx & Hfirst & Hq & Hh & Hr)] [n Hn].
  rewrite Hn in Hfirst. inversion Hfirst as [x s Hs E1 E2|]; subst. exists (mkRootCtx cfg q s (c_Pool cfg)), rcq, addrs, n.
  split_and!; try done. unfold engine_context. rewrite Hen. simpl. rewrite Hroot. simpl. rewrite Hrc. simpl. by rewrite Hctx.
Qed.

(** A message handed to an engine comes to rest, and on every interleaving it has then done
    what it does in a run of the engine's program. *)
Lemma engine_runs_messages cfg pg e w :
  engine_runs cfg pg e w → is_Some (program_first pg) → routes_plainly cfg = true →
  ∃ rx, engine_context e w = Some rx ∧
  ∀ fuel msg T, program_run OnMsg now uuid fuel pg msg = Some T →
    settles (R := ChainRuntime w rx OnMsg now uuid) (onMsg (Some (rx_self rx)) msg)
      (λ s, omap (run_event_of (chain_name w)) (s_trace s) ≡ₚ T).
Proof.
  intros Hruns Hf Hp. destruct (engine_runs_context cfg pg e w Hruns Hf) as (rx & rcq & addrs & n & Hc & <- & Hq & Hh & Hr & Hn & Hs).
  exists rx. split; [done|]. intros fuel msg T HT. unfold program_run in HT. apply fmap_Some in HT as (T1 & HT1 & ->). rewrite Hn in HT1.
  destruct (reference_rel _ _ _ (chain_runtime_sim _ pg addrs rcq w rx OnMsg now uuid Hq Hh Hr Hp plain) fuel (Some n) (Some (rx_self rx)) msg T1)
    as (T2 & HT2 & Hev); [by constructor|done|].
  eapply settles_impl; [|exact (message_settles (R := ChainRuntime w rx OnMsg now uuid) fuel _ msg T2 HT2)].
  intros st Hd. simpl in Hd. rewrite <- run_events_visible. rewrite (event_names _ _ _ _ _ _ _ Hh Hev). by apply run_events_perm.
Qed.

(** Runs on the objects: the routing cache of the chain is filled with current answers, so a
    run makes the steps it makes without the cache, and the engine runs what it ran. *)
Lemma self_id_cache w q rcq cache n : w_chains w !! q = Some rcq → self_id (with_cache w q rcq cache) n = self_id w n.
Proof.
  intros Hq. unfold self_id. destruct n as [a|a]; simpl.
  - unfold RuleNodeCtx_GetNodeId, bind, get_node, get_def. simpl. destruct (w_nodes w !! a); [|done]. simpl. by destruct (w_defs w !! _).
  - unfold RuleChainCtx_GetNodeId, bind, get_chain. simpl. destruct (decide (a = q)) as [->|]; [by rewrite lookup_insert_eq, Hq|].
    rewrite lookup_insert_ne by done. by destruct (w_chains w !! a).
Qed.

Lemma chain_next_like pg w rx rcq n r :
  w_chains w !! rx_ruleChainCtx rx = Some rcq → routes_like pg rcq →
  chain_next w (rx_ruleChainCtx rx) n r = held_next pg rcq (self_id w n) r.
Proof.
  intros Hq Hr. unfold chain_next. destruct (GetNextNodes_nodes pg w _ rcq (self_id w n) r Hq Hr) as (b & cache & -> & _).
  by apply routes_like_next.
Qed.

Lemma with_cache_twice w q rcq c1 c2 : with_cache (with_cache w q rcq c1) q (set_relationCache rcq c1) c2 = with_cache w q rcq c2.
Proof. unfold with_cache. simpl. by rewrite insert_insert_eq. Qed.

Lemma lookup_of_cache pg w rx rcq cache s t :
  w_chains w !! rx_ruleChainCtx rx = Some rcq → routes_like pg (set_relationCache rcq cache) →
  ∃ cache', (lookup_of rx s t (with_cache w (rx_ruleChainCtx rx) rcq cache)).2 = with_cache w (rx_ruleChainCtx rx) rcq cache' ∧
    routes_like pg (set_relationCache rcq cache').
Proof.
  intros Hq Hr. unfold lookup_of.
  assert (∃ cache', (ret tt (with_cache w (rx_ruleChainCtx rx) rcq cache)).2 = with_cache w (rx_ruleChainCtx rx) rcq cache' ∧
    routes_like pg (set_relationCache rcq cache')) as Hnone by (by exists cache).
  destruct (s_crashed s); [done|]. destruct (s_threads s !! t) as [[|[] k]|]; try done.
  destruct relationTypes as [|r rest]; [done|]. destruct (s_ctxs s !! c) as [ctx|]; [|done]. destruct (x_self ctx) as [self|]; [|done].
  set (w1 := with_cache _ _ _ _) in *. unfold bind.
  assert ((NodeCtx_GetNodeId self w1).2 = w1) as Hid.
  { destruct self; simpl; unfold RuleNodeCtx_GetNodeId, RuleChainCtx_GetNodeId, bind, get_node, get_def, get_chain, deref_or_panic;
      repeat case_match; unfold ret, panic in *; by simplify_eq. }
  destruct (NodeCtx_GetNodeId self w1) as [[id| |] w2]; simpl in Hid; subst; [|by exists cache..].
  destruct (GetNextNodes_nodes pg w1 (rx_ruleChainCtx rx) (set_relationCache rcq cache) id r) as (b & c2 & -> & Hc2);
    [apply lookup_insert_eq|done|].
  exists c2. split; [apply with_cache_twice|done].
Qed.

Lemma run_message_cache pg w rx rcq cache s schedule :
  w_chains w !! rx_ruleChainCtx rx = Some rcq → routes_like pg rcq → routes_like pg (set_relationCache rcq cache) →
  ∃ cache', run_message rx OnMsg now uuid (with_cache w (rx_ruleChainCtx rx) rcq cache) s schedule =
      (with_cache w (rx_ruleChainCtx rx) rcq cache', run_schedule (R := ChainRuntime w rx OnMsg now uuid) s schedule) ∧
    routes_like pg (set_relationCache rcq cache').
Proof.
  intros Hq Hr. revert s cache. induction schedule as [|[t ok] rest IH]; intros s cache Hc; [by exists cache|].
  cbn [run_message run_schedule].
  assert (step (R := ChainRuntime (with_cache w (rx_ruleChainCtx rx) rcq cache) rx OnMsg now uuid) s t ok =
          step (R := ChainRuntime w rx OnMsg now uuid) s t ok) as ->.
  { apply step_ext; try done. intros n r. simpl. rewrite (chain_next_like pg _ _ (set_relationCache rcq cache)) by (done || apply lookup_insert_eq).
    rewrite (chain_next_like pg w rx rcq) by done. by rewrite self_id_cache. }
  destruct (lookup_of_cache pg w rx rcq cache s t Hq Hc) as (c1 & -> & Hc1). by apply IH.
Qed.

Lemma engine_runs_cache cfg pg e w rx rcq cache :
  engine_runs cfg pg e w → is_Some (program_first pg) → engine_context e w = Some rx → w_chains w !! rx_ruleChainCtx rx = Some rcq →
  routes_like pg (set_relationCache rcq cache) → engine_runs cfg pg e (with_cache w (rx_ruleChainCtx rx) rcq cache).
Proof.
  intros [(en & root & rc & q & rcq' & addrs & self & Hen & Hcfg & Hroot & Hlt & Hltq & Hrc & Hwf & Hh & Hctx & Hfirst & Hq & Hhq & Hr)] [n Hn] Hc Hq' Hlike.
  rewrite Hn in Hfirst. inversion Hfirst as [x s Hs E1 E2|]; subst.
  assert (rx = mkRootCtx (e_Config en) q s (c_Pool (e_Config en))) as ->.
  { unfold engine_context in Hc. rewrite Hen in Hc. simpl in Hc. rewrite Hroot in Hc. simpl in Hc. rewrite Hrc in Hc. simpl in Hc.
    rewrite Hctx in Hc. simpl in Hc. by simplify_eq. }
  simpl in *. assert (rcq' = rcq) as -> by congruence. split.
  exists en, root, (if decide (root = q) then set_relationCache rcq cache else rc), q, (set_relationCache rcq cache), addrs, (Some s). simpl.
  split_and!; try done.
  - case_decide as Hd; [subst; by rewrite lookup_insert_eq|by rewrite lookup_insert_ne].
  - case_decide; [subst; assert (rc = rcq) as -> by congruence|]; (eapply chain_wf_same; [..|exact Hwf]; done).
  - case_decide; [eapply chain_holds_same; [..|exact Hhq]; done|eapply chain_holds_same; [..|exact Hh]; done].
  - case_decide; [|done]. subst. assert (rc = rcq) as -> by congruence. done.
  - rewrite Hn. by constructor.
  - apply lookup_insert_eq.
  - eapply chain_holds_same; [..|exact Hhq]; done.
Qed.

End Messages.

(** ** Creating and reloading *)

Context `{P : Parsers}.
Variables (cfg : Config) (parser : ParserRef).
Hypothesis cfg_parser : c_Parser cfg = Some parser.

(** Definitions that can be run: no sub-chain connections, and a first node. *)
Definition runnable (d : RuleChainDef) : bool :=
  bool_decide (md_RuleChainConnections (rc_Metadata d) = []) &&
  bool_decide (0 ≤ md_FirstNodeIndex (rc_Metadata d) < Z.of_nat (length (md_Nodes (rc_Metadata d))))%Z.

(** The program of a text, or what stops its loading. *)
Definition load_program (text : string) : res program :=
  let! d := load_chain cfg parser text in
  let! cs := components cfg 0 (md_Nodes (rc_Metadata d)) in
  ROk (program_of cs d).
(** A text whose loading does not panic and that, if it loads, can be run. *)
Definition runnable_text (text : string) : bool :=
  match load_chain cfg parser text with ROk d => runnable d | RErr _ => true | RPanic _ => false end.

Lemma load_program_chain text :
  match load_program text with
  | ROk pg => ∃ d cs, load_chain cfg parser text = ROk d ∧ components cfg 0 (md_Nodes (rc_Metadata d)) = ROk cs ∧ pg = program_of cs d
  | RErr e => load_chain cfg parser text = RErr e
  | RPanic why => load_chain cfg parser text = RPanic why
  end.
Proof.
  unfold load_program. destruct (load_chain cfg parser text) as [d| |] eqn:El; simpl; [|done..].
  apply load_chain_ok in El as (_ & Hcs & _). destruct (components cfg 0 _) as [cs| |] eqn:E; simpl; [|done..]. by exists d, cs.
Qed.

Lemma runnable_first cs d : runnable d = true → is_Some (program_first (program_of cs d)).
Proof.
  unfold runnable. intros [_ H%bool_decide_eq_true]%andb_true_iff. unfold program_first. simpl.
  destruct (lookup_lt_is_Some_2 (node_ids 0 (md_Nodes (rc_Metadata d))) (Z.to_nat (md_FirstNodeIndex (rc_Metadata d)))) as [id Hid].
  { rewrite node_ids_length. lia. }
  rewrite Hid. simpl. generalize (Z.to_nat (md_FirstNodeIndex (rc_Metadata d))), Hid. clear.
  induction (node_ids 0 _) as [|x ids IH]; intros i Hi; [done|]. simpl.
  destruct (node_index id ids) as [j|] eqn:Ej; [eauto|]. destruct i as [|i]; simplify_eq/=; [rewrite bool_decide_true by done; eauto|].
  destruct (IH i Hi) as [? ?]. done.
Qed.

(** An engine created from a text runs the program of the text. *)
Lemma RuleGo_New_runs g id text w engines d cs :
  w_pools w !! g = Some engines → text ≠ "" → engines !! id = None →
  load_chain cfg parser text = ROk d → components cfg 0 (md_Nodes (rc_Metadata d)) = ROk cs → runnable d = true →
  engine_id id d ≠ "" →
  ∃ w', RuleGo_New g id text [WithConfig cfg] w = (ROk (w_next w), w') ∧ engine_runs cfg (program_of cs d) (w_next w) w' ∧
    w_pools w' = <[g := <[engine_id id d := w_next w]> engines]> (w_pools w) ∧ preserved w w'.
Proof.
  intros Hg Hne He Hl Hcs [Hcc Hidx]%andb_true_iff Hi. apply bool_decide_eq_true in Hcc, Hidx.
  unfold RuleGo_New. run. rewrite He.
  destruct (newRuleEngine_ok id text [cfg] w parser d Hne cfg_parser Hl) as (w' & E & [H1 Hpo Hpr]).
  rewrite (bind_ok _ _ _ _ _ E). simpl.
  destruct H1 as (root & Hroot & Hen & (rc & Hrc & Hwf & _ & _ & Hca & Hctx & Hrel & Hcf & cs' & addrs & Hcs' & Hh) & Hdef & _).
  simpl in *. assert (cs' = cs) as -> by congruence.
  erewrite bind_get_engine; [|rewrite Hen; apply lookup_insert_eq]. simpl. rewrite (bool_decide_false (engine_id id d = "")) by done.
  rewrite <- Hpo in Hg. destruct Hpr as [Hpr Hle]. run.
  erewrite bind_modify_engine; [|simpl; rewrite Hen; apply lookup_insert_eq]. simpl.
  eexists. split; [reflexivity|]. split; [|split; [simpl; by rewrite Hpo|]].
  2:{ split; [|done]. intros q Hq. simpl. rewrite Hen, !lookup_insert_ne by lia. by destruct (Hpr q Hq) as (? & ? & ? & ?). }
  split. eexists _, root, rc, root, rc, addrs, (first_node rc). simpl. rewrite lookup_insert_eq.
  split_and!; try done; try lia.
  - eapply chain_wf_frame; [..|exact Hwf]; done.
  - eapply chain_holds_same; [..|exact Hh]; done.
  - eapply first_held; [exact Hh|]. simpl. by rewrite (first_index_loaded root w' rc d).
  - eapply chain_holds_same; [..|exact Hh]; done.
  - apply routes_like_loaded; try done. apply Hwf.
Qed.

(** Reloading an engine with a text that loads. *)
Lemma ReloadSelf_runs pg e text w d cs :
  engine_runs cfg pg e w → load_chain cfg parser text = ROk d →
  components cfg 0 (md_Nodes (rc_Metadata d)) = ROk cs → runnable d = true →
  ∃ w', RuleEngine_ReloadSelf e text [] w = (ROk tt, w') ∧ engine_runs cfg (program_of cs d) e w'.
Proof.
  intros [(en & root & rc & q & rcq & addrs & self & Hen & Hcfg & Hroot & Hlt & Hltq & Hrc & Hwf & _)] Hl Hcs [Hcc Hidx]%andb_true_iff.
  apply bool_decide_eq_true in Hcc, Hidx. subst cfg.
  pose proof (reload_run e text [] w en root rc Hen Hroot Hrc) as E. simpl in E. rewrite E. clear E.
  set (w1 := mkWorld _ _ _ _ _ _ _). set (cfg := e_Config en) in *.
  assert (w_chains w1 !! root = Some (set_cx_Config cfg rc)) as Hrc1 by (apply lookup_insert_eq).
  assert (chain_wf w1 (set_cx_Config cfg rc)) as Hwf1 by (eapply chain_wf_same; [..|exact Hwf]; done).
  destruct (DecodeRuleChain_load cfg parser text w1 cfg_parser) as [Hu Hs]. rewrite Hl in Hs.
  destruct (DecodeRuleChain cfg text w1) as [y w2] eqn:E. simpl in Hs, Hu. destruct Hs as (ctx & -> & Hge & Hcl).
  pose proof (ReloadSelf_decode_ok root text d w1 (set_cx_Config cfg rc) ctx w2 Hrc1 Hlt Hwf1 E Hu Hcl Hge)
    as (newp & rc' & Hy & Hn & [(rc2 & Hrc2 & Hwf2 & Hc2 & Hca & Hpool & Hid & Hctx & _ & _ & Hrel) Hdef (rc3 & cs' & addrs' & Hrc3 & Hcs' & Hh)]
        & Hc' & Hc'' & _ & _ & Heng & _).
  unfold try. destruct (RuleChainCtx_ReloadSelf root text w1) as [y w3]. simpl in *. subst y.
  rewrite Hcs in Hcs'. rewrite Hc' in Hrc2, Hrc3. simplify_eq.
  erewrite bind_SetRuleChainPool by heap_lookup. simpl. eexists. split; [reflexivity|]. split.
  eexists _, root, (set_pool (e_RuleChainPool en) rc2), newp, rc2, addrs', (first_node rc2). simpl.
  rewrite Heng. simpl. rewrite !lookup_insert_eq, lookup_insert_ne by lia. split_and!; try done; try lia.
  - eapply chain_wf_same; [..|exact Hwf2]; done.
  - eapply chain_holds_same; [..|exact Hh]; done.
  - eapply first_held; [exact Hh|]. simpl. by rewrite (first_index_loaded newp w3 rc2 d).
  - eapply chain_holds_same; [..|exact Hh]; done.
  - apply routes_like_loaded; try done. apply Hwf2.
Qed.

(** A world in which nothing of an engine has changed but the pool and the
    configuration of its chain context. *)
Lemma engine_runs_below pg e w w' root rc rc' :
  engine_runs cfg pg e w → (∀ en, w_engines w !! e = Some en → e_rootRuleChainCtx en = Some root ∧
    ∃ en', w_engines w' !! e = Some en' ∧ e_Config en' = e_Config en ∧ e_rootRuleChainCtx en' = Some root) →
  w_chains w !! root = Some rc → w_chains w' !! root = Some rc' →
  cx_SelfDefinition rc' = cx_SelfDefinition rc → cx_nodeIds rc' = cx_nodeIds rc → cx_nodes rc' = cx_nodes rc →
  cx_nodeRoutes rc' = cx_nodeRoutes rc → cx_relationCache rc' = cx_relationCache rc →
  cx_rootRuleContext rc' = cx_rootRuleContext rc → chain_wf w' rc' →
  (∀ q, q < w_next w → q ≠ root → w_chains w' !! q = w_chains w !! q) →
  (∀ q, q < w_next w → w_defs w' !! q = w_defs w !! q ∧ w_nodes w' !! q = w_nodes w !! q) → w_next w ≤ w_next w' →
  engine_runs cfg pg e w'.
Proof.
  intros [(en & root' & rc0 & q & rcq & addrs & self & Hen & Hcfg & Hroot & Hlt & Hltq & Hrc & _ & Hh & Hctx & Hfirst & Hq & Hhq & Hr)]
    He Hrc0 Hrc' E0 E1 E2 E3 E4 E5 Hwf' Hch Hu Hle.
  destruct (He en Hen) as (Hroot' & en' & Hen' & Hcfg' & Hroot'').
  assert (root' = root) as -> by congruence. assert (rc0 = rc) as -> by congruence.
  assert (∀ a x, chain_holds cfg pg a x w → chain_holds cfg pg a x w') as Hhold
    by (intros a x; by apply chain_holds_below).
  split. exists en', root, rc', q, (if decide (q = root) then rc' else rcq), addrs, self.
  assert (chain_holds cfg pg addrs rc' w') as Hh'.
  { eapply chain_holds_same; [exact E0|exact E1|exact E2|done|done|done|]. by apply Hhold. }
  split_and!; try done; try lia; try congruence.
  - case_decide as Hd; [by subst|]. rewrite Hch; done.
  - case_decide; [done|]. by apply Hhold.
  - case_decide; [|done]. assert (rcq = rc) as -> by congruence. unfold routes_like, held_next. rewrite E2, E3, E4. exact Hr.
Qed.

(** A text that does not load leaves the engine running what it ran. *)
Lemma ReloadSelf_keeps pg e text w err :
  engine_runs cfg pg e w → load_chain cfg parser text = RErr err →
  ∃ w', RuleEngine_ReloadSelf e text [] w = (RErr err, w') ∧ engine_runs cfg pg e w'.
Proof.
  intros Hruns Hl. pose proof Hruns as [(en & root & rc & q & rcq & addrs & self & Hen & Hcfg & Hroot & Hlt & Hltq & Hrc & Hwf & _)].
  pose proof (reload_run e text [] w en root rc Hen Hroot Hrc) as E. simpl in E. rewrite Hcfg in E. rewrite E. clear E.
  set (w1 := mkWorld _ _ _ _ _ _ _).
  assert (w_chains w1 !! root = Some (set_cx_Config cfg rc)) as Hrc1 by (apply lookup_insert_eq).
  destruct (load_chain_err cfg parser text err w1 cfg_parser Hl) as (w2 & E & Hu).
  pose proof (ReloadSelf_decode_err root text w1 (set_cx_Config cfg rc) err w2 Hrc1 Hlt E Hu) as (Hy & Hf & He & Hpo & Hnx & Hlog).
  unfold try. destruct (RuleChainCtx_ReloadSelf root text w1) as [y w3]. simpl in *. subst y.
  destruct (Hf root Hlt) as (_ & _ & Hrc3). rewrite Hrc1 in Hrc3.
  erewrite bind_SetRuleChainPool by heap_lookup. simpl. eexists. split; [reflexivity|].
  eapply (engine_runs_below pg e w _ root rc); [exact Hruns| |exact Hrc|simpl; apply lookup_insert_eq|done..| | | |simpl; lia].
  - intros en' Hen'. simplify_eq. split; [done|]. simpl. rewrite He. simpl. rewrite lookup_insert_eq. eauto.
  - eapply chain_wf_same; [done..|simpl; lia|]. eapply (chain_wf_below w1); [eapply chain_wf_same; [..|exact Hwf]; done| |simpl; lia].
    intros x Hx. by destruct (Hf x Hx) as (? & ? & _).
  - intros x Hx Hne. simpl. rewrite lookup_insert_ne by done. destruct (Hf x Hx) as (_ & _ & ->). simpl. by rewrite lookup_insert_ne.
  - intros x Hx. simpl. by destruct (Hf x Hx) as (? & ? & _).
Qed.

(** The program with another component at an index. *)
Definition replace_node (i : nat) (c : Comp) (pg : program) : program :=
  mkProgram (pg_ids pg) (<[i := c]> (pg_comps pg)) (pg_conns pg) (pg_first pg).

Lemma chain_holds_replaced pg addrs rc i a c c' item w w' :
  chain_holds cfg pg addrs rc w → addrs !! i = Some a → w_nodes w !! a = Some (mkNodeCtx c item cfg) →
  w_nodes w' !! a = Some (mkNodeCtx c' item cfg) → (∀ q, q < w_next w → q ≠ a → w_nodes w' !! q = w_nodes w !! q) →
  (∀ j b x it nd, addrs !! j = Some b → w_nodes w !! b = Some (mkNodeCtx x it cfg) → w_defs w !! it = Some nd →
     ∃ nd', w_defs w' !! it = Some nd' ∧ n_Id nd' = n_Id nd) →
  w_next w ≤ w_next w' → chain_holds cfg (replace_node i c' pg) addrs rc w'.
Proof.
  intros [? Hnd ? Hn ?] Ha Hw Hw' Hother Hdefs Hle. split; simpl; try done. intros j b Hb.
  destruct (Hn j b Hb) as (x & it & nd & Hx & Hnode & Hd & Hid & Hlt1 & Hlt2 & Hin).
  destruct (Hdefs j b x it nd Hb Hnode Hd) as (nd' & Hd' & E).
  destruct (decide (j = i)) as [->|Hne].
  - simplify_eq. exists c', item, nd'. rewrite E.
    split_and!; try done; try lia. apply list_lookup_insert_eq. by eapply lookup_lt_Some.
  - assert (b ≠ a) as Hba by (intros ->; apply Hne; by eapply NoDup_lookup).
    exists x, it, nd'. rewrite E, Hother by done. split_and!; try done; try lia. by rewrite list_lookup_insert_ne.
Qed.

Lemma ReloadChild_runs pg e id text w :
  engine_runs cfg pg e w → text ≠ "" → id ≠ "" →
  ∃ w', match node_index id (pg_ids pg) with
        | None => RuleEngine_ReloadChild e id text w = (ROk tt, w') ∧ engine_runs cfg pg e w'
        | Some i =>
            match load_node cfg parser text with
            | ROk (_, c) => RuleEngine_ReloadChild e id text w = (ROk tt, w') ∧ engine_runs cfg (replace_node i c pg) e w'
            | RErr err => RuleEngine_ReloadChild e id text w = (RErr err, w') ∧ engine_runs cfg pg e w'
            | RPanic why => True
            end
        end.
Proof.
  intros Hruns Ht Hid.
  pose proof Hruns as [(en & root & rc & q & rcq & addrs & self & Hen & Hcfg & Hroot & Hlt & Hltq & Hrc & Hwf & Hh & Hctx & Hfirst & Hq & Hhq & Hr)].
  assert (RuleEngine_ReloadChild e id text w = RuleChainCtx_ReloadChild root (mkNodeId id NODE) text w) as ->.
  { unfold RuleEngine_ReloadChild. run. by rewrite (bool_decide_false (text = "")), Hroot, (bool_decide_false (id = "")). }
  assert (has_parsers w rc) as Hpa.
  { intros x b rn Hx Hn. destruct (wf_nodes _ _ Hwf x b Hx) as (_ & d & _ & _ & _ & -> & _).
    rewrite (ch_map _ _ _ _ _ Hh) in Hx. apply bind_Some in Hx as (j & _ & Hb).
    destruct (ch_nodes _ _ _ _ _ Hh j b Hb) as (c & item & ? & _ & Hn' & _).
    assert (rn = mkNodeCtx c item cfg) as -> by congruence. simpl. rewrite cfg_parser. eauto. }
  pose proof (RuleChainCtx_ReloadChild_spec root (mkNodeId id NODE) text w rc Hrc Hlt Hwf Hpa eq_refl) as Hspec.
  rewrite (ch_map _ _ _ _ _ Hh) in Hspec. destruct (node_index id (pg_ids pg)) as [i|] eqn:Ei; simpl in Hspec; [|by exists w].
  apply node_index_lookup, lookup_lt_Some in Ei. rewrite <- (ch_length _ _ _ _ _ Hh) in Ei.
  destruct (lookup_lt_is_Some_2 addrs i Ei) as [a Ha]. rewrite Ha in Hspec.
  destruct (ch_nodes _ _ _ _ _ Hh i a Ha) as (c & item & nd & Hc & Hn & Hd & Hnid & Hb1 & Hb2 & Hin).
  destruct Hspec as (rn & parser' & Hrn & Hpar & Hch & He & _ & Hle & Hwf' & Hother & Hres).
  assert (rn = mkNodeCtx c item cfg) as -> by congruence. simpl in *. assert (parser' = parser) as -> by congruence.
  destruct (RuleChainCtx_ReloadChild root (mkNodeId id NODE) text w) as [r w']. simpl in *. exists w'.
  destruct (load_node _ _ _) as [[n c']|err|why]; [| |done].
  - destruct Hres as (-> & Hnew & Hdefs & _). split; [done|].
    assert (∀ j b x it nd, addrs !! j = Some b → w_nodes w !! b = Some (mkNodeCtx x it cfg) → w_defs w !! it = Some nd →
       ∃ nd', w_defs w' !! it = Some nd' ∧ n_Id nd' = n_Id nd) as Hdefs'.
    { intros j b x it nd' Hb Hnb Hdb. destruct (ch_nodes _ _ _ _ _ Hh j b Hb) as (x' & it' & nd'' & _ & Hnb' & _ & _ & _ & _ & Hin').
      assert (it' = it) as -> by congruence. rewrite (Hdefs _ _ Hin' Hdb). case_decide; eauto. }
    split. exists en, root, rc, q, rcq, addrs, self. rewrite He, !Hch by done. split_and!; try done; try lia.
    + by eapply (chain_holds_replaced pg addrs rc i a c c' item w w').
    + by eapply (chain_holds_replaced pg addrs rcq i a c c' item w w').
  - destruct Hres as (-> & Hsame & Hdefs & _). split; [done|].
    eapply (engine_runs_below pg e w w' root rc rc); try done.
    + intros en' Hen'. assert (en' = en) as -> by congruence. split; [done|]. rewrite He. eauto.
    + by rewrite Hch.
    + intros x Hx _. by apply Hch.
    + intros x Hx. split; [by apply Hdefs|]. destruct (decide (x = a)) as [->|]; [by rewrite Hsame, Hn|by apply Hother].
Qed.

(** ** Refinement

    The state of an engine, seen from outside, is a program.  The operations on an engine: *)
Inductive engine_op : Type :=
| OpReload (text : string)           (* [e.ReloadSelf(text)] *)
| OpReloadWith (text : string)       (* [e.ReloadSelf(text, WithConfig(config))], the configuration it has *)
| OpReloadNode (id text : string)    (* [e.ReloadChild(id, text)] *)
| OpMsg (msg : RuleMsg).             (* [e.OnMsg(msg)], until it has come to rest *)

(** What is seen of an operation: what a reload returns, what a message did. *)
Inductive op_result : Type :=
| Returned (r : res unit)
| Events (events : list run_event).

(** An operation that reads a text reads one whose loading does not panic, and that, when it
    is a chain that loads, has no sub-chain connections and has a first node. *)
Definition runnable_op (op : engine_op) : bool :=
  match op with
  | OpReload text | OpReloadWith text => runnable_text text
  | OpReloadNode id text =>
      if bool_decide (id = "") then runnable_text text
      else match load_node cfg parser text with RPanic _ => false | _ => true end
  | OpMsg _ => true
  end.

(** *** What the operations do to a program *)

Definition returned (err : error) : res unit := match err with None => ROk tt | Some e => RErr e end.
Definition spec_reload (text : string) (pg : program) : error * program :=
  match load_program text with ROk pg' => (None, pg') | RErr err | RPanic err => (Some err, pg) end.
Definition spec_reload_node (id text : string) (pg : program) : error * program :=
  if bool_decide (text = "") then (Some "dsl can not empty", pg)
  else if bool_decide (id = "") then spec_reload text pg
  else match node_index id (pg_ids pg) with
       | None => (None, pg)
       | Some i => match load_node cfg parser text with
                   | ROk (_, c) => (None, replace_node i c pg)
                   | RErr err | RPanic err => (Some err, pg)
                   end
       end.

Section Operations.
Variables (OnMsg : Comp → RuleMsg → list call) (now : Z) (uuid : string).

(** A reload changes the program or returns an error; a message is run through it, with
    [fuel], and changes nothing. *)
Definition spec_op (fuel : nat) (op : engine_op) (pg : program) : option (op_result * program) :=
  match op with
  | OpReload text | OpReloadWith text => let '(err, pg) := spec_reload text pg in Some (Returned (returned err), pg)
  | OpReloadNode id text => let '(err, pg) := spec_reload_node id text pg in Some (Returned (returned err), pg)
  | OpMsg msg => T ← program_run OnMsg now uuid fuel pg msg; Some (Events T, pg)
  end.
Fixpoint spec_ops (fuel : nat) (ops : list engine_op) (pg : program) : option (list op_result * program) :=
  match ops with
  | [] => Some ([], pg)
  | op :: rest => '(r, pg) ← spec_op fuel op pg; '(rs, pg) ← spec_ops fuel rest pg; Some (r :: rs, pg)
  end.

(** *** What they do to an engine *)

Definition reload_op (e : nat) (op : engine_op) : option (M unit) :=
  match op with
  | OpReload text => Some (RuleEngine_ReloadSelf e text [])
  | OpReloadWith text => Some (RuleEngine_ReloadSelf e text [WithConfig cfg])
  | OpReloadNode id text => Some (RuleEngine_ReloadChild e id text)
  | OpMsg _ => None
  end.

(** The engine at [e] makes an operation.  A message is run on the objects of the program, in
    any interleaving of the goroutines in which every task is accepted, until nothing is
    left to do. *)
Inductive op_runs (e : nat) : engine_op → World → op_result → World → Prop :=
| runs_reload op m w r w' : reload_op e op = Some m → m w = (r, w') → op_runs e op w (Returned r) w'
| runs_msg msg w rx schedule w' s :
    engine_context e w = Some rx → Forall (λ x, x.2 = true) schedule →
    run_message rx OnMsg now uuid w (onMsg (Some (rx_self rx)) msg) schedule = (w', s) →
    quiescent s = true → s_crashed s = None →
    op_runs e (OpMsg msg) w (Events (omap (run_event_of (chain_name w)) (s_trace s))) w'.
Inductive ops_run (e : nat) : list engine_op → World → list op_result → World → Prop :=
| ops_none w : ops_run e [] w [] w
| ops_some op ops w r w1 rs w2 : op_runs e op w r w1 → ops_run e ops w1 rs w2 → ops_run e (op :: ops) w (r :: rs) w2.

(** The same result, up to the order of the events. *)
Inductive result_equiv : op_result → op_result → Prop :=
| same_return r : result_equiv (Returned r) (Returned r)
| same_events T T' : T ≡ₚ T' → result_equiv (Events T) (Events T').

Lemma spec_reload_refined pg e text w :
  engine_runs cfg pg e w → is_Some (program_first pg) → runnable_text text = true →
  ∃ w', RuleEngine_ReloadSelf e text [] w = (returned (spec_reload text pg).1, w') ∧
    engine_runs cfg (spec_reload text pg).2 e w' ∧ is_Some (program_first (spec_reload text pg).2).
Proof.
  intros Hruns Hf Ht. unfold spec_reload. pose proof (load_program_chain text) as Hl. unfold runnable_text in Ht.
  destruct (load_program text) as [pg'|err|why].
  - destruct Hl as (d & cs & Hl & Hcs & ->). rewrite Hl in Ht.
    destruct (ReloadSelf_runs pg e text w d cs Hruns Hl Hcs Ht) as (w' & E & Hr). exists w'. split_and!; [done..|].
    by apply runnable_first.
  - destruct (ReloadSelf_keeps pg e text w err Hruns Hl) as (w' & E & Hr). by exists w'.
  - by rewrite Hl in Ht.
Qed.

(** Giving an engine the configuration it has changes nothing. *)
Lemma reload_same_config e text w en :
  w_engines w !! e = Some en → e_Config en = cfg → RuleEngine_ReloadSelf e text [WithConfig cfg] w = RuleEngine_ReloadSelf e text [] w.
Proof.
  intros He Hc. unfold RuleEngine_ReloadSelf. rewrite !(bind_modify_engine _ _ _ _ _ He). simpl.
  assert (WithConfig cfg en = en) as -> by (unfold WithConfig, set_e_Config; rewrite <- Hc; by destruct en). done.
Qed.

Lemma reload_node_refined pg e id text w :
  engine_runs cfg pg e w → is_Some (program_first pg) → runnable_op (OpReloadNode id text) = true →
  ∃ w', RuleEngine_ReloadChild e id text w = (returned (spec_reload_node id text pg).1, w') ∧
    engine_runs cfg (spec_reload_node id text pg).2 e w' ∧ is_Some (program_first (spec_reload_node id text pg).2).
Proof.
  intros Hruns Hf Ht. pose proof Hruns as [(en & root & _ & _ & _ & _ & _ & Hen & Hcfg & Hroot & _)]. unfold spec_reload_node.
  destruct (decide (text = "")) as [Htext|Htext].
  { rewrite bool_decide_true by done. exists w. split; [|done]. unfold RuleEngine_ReloadChild. run. by rewrite bool_decide_true. }
  rewrite (bool_decide_false (text = "")) by done. cbn [runnable_op] in Ht. destruct (decide (id = "")) as [Hid|Hid].
  { rewrite (bool_decide_true (id = "")) in * by done.
    assert (RuleEngine_ReloadChild e id text w = RuleEngine_ReloadSelf e text [] w) as ->;
      [|by apply spec_reload_refined].
    unfold RuleEngine_ReloadChild. run. by rewrite bool_decide_false, Hroot, bool_decide_true. }
  rewrite (bool_decide_false (id = "")) in * by done. destruct (ReloadChild_runs pg e id text w Hruns Htext Hid) as (w' & Hw). exists w'.
  destruct (node_index id (pg_ids pg)) as [i|]; [|by destruct Hw].
  destruct (load_node cfg parser text) as [[n c]|err|why]; [by destruct Hw..|done].
Qed.

Hypothesis plain : ∀ c msg, forallb plain_call (OnMsg c msg) = true.
Hypothesis plainly : routes_plainly cfg = true.

Lemma spec_op_refined fuel pg e op w r pg' r' w' :
  engine_runs cfg pg e w → is_Some (program_first pg) → runnable_op op = true →
  spec_op fuel op pg = Some (r, pg') → op_runs e op w r' w' →
  result_equiv r' r ∧ engine_runs cfg pg' e w' ∧ is_Some (program_first pg').
Proof.
  intros Hruns Hf Ht Hs Ho. pose proof Hruns as [(en & root & _ & _ & _ & _ & _ & Hen & Hcfg & Hroot & _)].
  destruct Ho as [op m w r' w' Hm E|msg w rx schedule w' s Hc Hok E Hq Hcr].
  - assert (∃ err w1, m w = (returned err, w1) ∧ r = Returned (returned err) ∧ engine_runs cfg pg' e w1 ∧ is_Some (program_first pg'))
      as (err & w1 & E' & -> & ? & ?).
    { destruct op as [text|text|id text|msg]; cbn [reload_op spec_op runnable_op] in *; simplify_eq.
      - destruct (spec_reload_refined pg e text w Hruns Hf Ht) as (w1 & E1 & Hr1 & Hf1).
        destruct (spec_reload text pg) as [err pg1]. simplify_eq/=. by exists err, w1.
      - rewrite (reload_same_config _ _ _ en) by done. destruct (spec_reload_refined pg e text w Hruns Hf Ht) as (w1 & E1 & Hr1 & Hf1).
        destruct (spec_reload text pg) as [err pg1]. simplify_eq/=. by exists err, w1.
      - destruct (reload_node_refined pg e id text w Hruns Hf Ht) as (w1 & E1 & Hr1 & Hf1).
        destruct (spec_reload_node id text pg) as [err pg1]. simplify_eq/=. by exists err, w1. }
    rewrite E in E'. simplify_eq. split; [constructor|done].
  - cbn [spec_op] in Hs. apply bind_Some in Hs as (T & HT & [= <- <-]).
    destruct (engine_runs_messages OnMsg now uuid plain cfg pg e w Hruns Hf plainly) as (rx' & Hc' & Hm). rewrite Hc in Hc'. simplify_eq.
    destruct (engine_runs_context cfg pg e w Hruns Hf) as (rx & rcq & addrs & n & Hc2 & _ & Hrcq & _ & Hr & _). rewrite Hc in Hc2. simplify_eq.
    destruct (run_message_cache OnMsg now uuid pg w rx rcq (cx_relationCache rcq) (onMsg (Some (rx_self rx)) msg) schedule Hrcq Hr)
      as (cache & E2 & Hl); [by rewrite set_relationCache_id|].
    rewrite with_cache_id in E2 by done. rewrite E in E2. simplify_eq.
    split; [|split; [by apply engine_runs_cache|done]]. constructor.
    destruct (Hm fuel msg T HT) as (_ & _ & H3). by apply H3.
Qed.

Lemma spec_ops_refined fuel ops pg e w rs pg' rs' w' :
  engine_runs cfg pg e w → is_Some (program_first pg) → Forall (λ op, runnable_op op = true) ops →
  spec_ops fuel ops pg = Some (rs, pg') → ops_run e ops w rs' w' →
  Forall2 result_equiv rs' rs ∧ engine_runs cfg pg' e w' ∧ is_Some (program_first pg').
Proof.
  intros Hruns Hf Hops Hs Ho. revert pg rs Hruns Hf Hops Hs. induction Ho as [w|op ops w r' w1 rs' w2 Hop _ IH]; intros pg rs Hruns Hf Hops Hs.
  { simpl in Hs. simplify_eq. split; [constructor|done]. }
  cbn [spec_ops] in Hs. apply bind_Some in Hs as ([r pg1] & Hs1 & Hs). apply bind_Some in Hs as ([rs1 pg2] & Hs2 & [= <- <-]).
  inversion_clear Hops as [|? ? Ht Hts].
  destruct (spec_op_refined fuel pg e op w r pg1 r' w1 Hruns Hf Ht Hs1 Hop) as (H1 & H2 & H3).
  destruct (IH pg1 rs1 H2 H3 Hts Hs2) as (H4 & H5). split; [by constructor|done].
Qed.

(** A computation that returns an engine, operations on the engine, and what is seen: the
    operations have the results [rs], and a message [msg] handed to the engine then comes to
    rest and does [T], whatever the interleaving of the goroutines. *)
Definition engine_handles (start : M nat) (ops : list engine_op) (w : World)
    (rs : list op_result) (msg : RuleMsg) (T : list run_event) : Prop :=
  ∃ e w0, start w = (ROk e, w0) ∧
  ∀ rs' w', ops_run e ops w0 rs' w' →
    Forall2 result_equiv rs' rs ∧
    ∃ rx, engine_context e w' = Some rx ∧
      settles (R := ChainRuntime w' rx OnMsg now uuid) (onMsg (Some (rx_self rx)) msg)
        (λ s, omap (run_event_of (chain_name w')) (s_trace s) ≡ₚ T).

(** An engine created in a pool. *)
Definition create (g : nat) (id text : string) : M nat := RuleGo_New g id text [WithConfig cfg].

Lemma engine_handles_program g id text w engines pg ops fuel rs pg' msg T :
  w_pools w !! g = Some engines → text ≠ "" → id ≠ "" → engines !! id = None →
  load_program text = ROk pg → runnable_text text = true → Forall (λ op, runnable_op op = true) ops →
  spec_ops fuel ops pg = Some (rs, pg') → program_run OnMsg now uuid fuel pg' msg = Some T →
  engine_handles (create g id text) ops w rs msg T.
Proof.
  intros Hg Ht Hid He Hl Hrt Hops Hs HT. pose proof (load_program_chain text) as Hlc. rewrite Hl in Hlc.
  destruct Hlc as (d & cs & Hlc & Hcs & ->). unfold runnable_text in Hrt. rewrite Hlc in Hrt.
  destruct (RuleGo_New_runs g id text w engines d cs Hg Ht He Hlc Hcs Hrt) as (w1 & E1 & Hr1 & _).
  { unfold engine_id. by rewrite bool_decide_false. }
  exists (w_next w), w1. split; [exact E1|]. intros rs' w' Ho.
  destruct (spec_ops_refined fuel ops _ _ w1 rs pg' rs' w' Hr1 (runnable_first cs d Hrt) Hops Hs Ho) as (Hrs & Hr2 & Hf2).
  split; [done|]. destruct (engine_runs_messages OnMsg now uuid plain cfg _ _ w' Hr2 Hf2 plainly) as (rx & Ec & Hm).
  exists rx. split; [done|]. by apply (Hm fuel).
Qed.


End Operations.
End Program.

(** ** An engine that is reloaded *)

Module ProgramExample.
Import Samples ChainRuntimeExample.

Definition flow : RuleChainDef :=
  chain "flow" 0 [node "" "filter"; node "" "log"; node "s3" "log"]
    [conn "node0" "node1" "Success"; conn "node0" "s3" "Success"; conn "node0" "s3" "Failure"] [].

(** The texts of [Samples] and a chain of three nodes without sub-chains. *)
#[local] Instance flowParsers : Parsers := {|
  parse_node := parse_node (Parsers := sampleParsers);
  parse_chain := λ p s, if bool_decide (s = "flow") then Ok (some_nodes flow) else parse_chain (Parsers := sampleParsers) p s;
  encode_node := encode_node (Parsers := sampleParsers);
  encode_chain := encode_chain (Parsers := sampleParsers)
|}.

(** Filters answer [Failure] for the empty type; every other component succeeds. *)
Definition OnMsg (c : @Comp sampleComponents) (msg : RuleMsg) : list call :=
  if bool_decide (c.1 = "filter") && bool_decide (m_Type msg = "") then [TellFailure msg (Some "empty type")] else [TellSuccess msg].

Definition message (type : string) : RuleMsg := mkMsg 0 "id" JSON type "" ∅.

(** A message, a text that is no JSON, a node that does not initialise, and a node that does. *)
Definition ops : list engine_op :=
  [OpMsg (message "a"); OpReload "{"; OpReloadNode "s3" "bad"; OpReloadNode "s3" "filter"].

Definition flow_results : list op_result :=
  [Events [Delivered "node0" (message "a"); Delivered "node1" (message "a"); Ended (message "a") None "Success";
     Delivered "s3" (message "a"); Ended (message "a") None "Success"];
   Returned (RErr "unexpected end of JSON input"); Returned (RErr "init failed"); Returned (ROk tt)].

Definition started : World := (RuleGo_New DefaultRuleGo "e1" "flow" [WithConfig cfg] initialWorld).2.

Lemma started_run : RuleGo_New DefaultRuleGo "e1" "flow" [WithConfig cfg] initialWorld = (ROk 1, started).
Proof.
  unfold started. assert ((RuleGo_New DefaultRuleGo "e1" "flow" [WithConfig cfg] initialWorld).1 = ROk 1) as H by (vm_compute; reflexivity).
  revert H. generalize (RuleGo_New DefaultRuleGo "e1" "flow" [WithConfig cfg] initialWorld). intros [r w] H. simpl in H. by rewrite H.
Qed.

Lemma OnMsg_plain c msg : forallb plain_call (OnMsg c msg) = true.
Proof. unfold OnMsg. by destruct (_ && _). Qed.

(** The goroutines take turns. *)
Definition round_robin : list (nat * bool) := concat (replicate 40 ((λ t, (t, true)) <$> seq 0 16)).

Definition started_ctx : RootRuleContext := mkRootCtx cfg 5 (NCnode 6) None.
Definition after_message : World * state :=
  run_message started_ctx OnMsg 0 "uuid" started (onMsg (Some (rx_self started_ctx)) (message "a")) round_robin.

Lemma reloads_can_run e op m rest w :
  reload_op cfg e op = Some m → (∀ w, ∃ rs' w', ops_run cfg OnMsg 0 "uuid" e rest w rs' w') →
  ∃ rs' w', ops_run cfg OnMsg 0 "uuid" e (op :: rest) w rs' w'.
Proof.
  intros Hm Hrest. destruct (m w) as [r w1] eqn:E. destruct (Hrest w1) as (rs & w2 & H).
  exists (Returned r :: rs), w2. eapply ops_some; [|exact H]. by eapply runs_reload.
Qed.

Lemma ops_can_run : ∃ rs' w', ops_run cfg OnMsg 0 "uuid" 1 ops started rs' w'.
Proof.
  assert (∃ rs' w', ops_run cfg OnMsg 0 "uuid" 1 (tail ops) after_message.1 rs' w') as (rs & w' & H).
  { eapply reloads_can_run; [reflexivity|intros w1]. eapply reloads_can_run; [reflexivity|intros w2].
    eapply reloads_can_run; [reflexivity|intros w3]. do 2 eexists. apply ops_none. }
  do 2 eexists. eapply ops_some; [|exact H].
  apply (runs_msg cfg OnMsg 0 "uuid" 1 (message "a") started started_ctx round_robin after_message.1 after_message.2).
  - vm_compute. reflexivity.
  - apply (bool_decide_unpack _). vm_compute. exact I.
  - unfold after_message. destruct (run_message _ _ _ _ _ _ _). reflexivity.
  - vm_compute. reflexivity.
  - vm_compute. reflexivity.
Qed.

Lemma same_result {A} (m : M A) w a b w1 w2 : m w = (ROk a, w1) → m w = (ROk b, w2) → a = b ∧ w1 = w2.
Proof. intros -> [= <- <-]. done. Qed.

End ProgramExample.
