(* ===== verification/ChainRun.v ===== *)
(** * Running a program by hand

    A direct interpreter of programs: a node is handed a message, its component answers
    with tells, every relation type it tells is followed to the next nodes or ends the
    branch there.  It agrees with the sequential run of [ChainProgram], and so with what
    engines do, for components that answer by telling. *)

From S2P Require Import Prelude GoStrings Value Msg Config Dsl World Node Chain ChainProps Engine RuleCtx ChainRuntime CtxDelivery RuntimeSim ChainProgram.

(** ** Work that is done with enough fuel *)

Section Work.
Context `{R : Runtime} (name : NodeRef → string).

Definition works (w : work) (T : list run_event) : Prop :=
  ∃ evs k, (∀ fuel, k ≤ fuel → deliver fuel w = Some evs) ∧ omap (M := list) (run_event_of name) evs = T.

Lemma works_step w evs ws Ts :
  do_work w = (evs, ws) → Forall2 works ws Ts → works w (omap (M := list) (run_event_of name) evs ++ concat Ts).
Proof.
  intros Hw HT.
  assert (∃ evss k, (∀ fuel, k ≤ fuel → list.mapM (deliver fuel) ws = Some evss) ∧ omap (M := list) (run_event_of name) (concat evss) = concat Ts)
    as (evss & k & Hk & Hc).
  { clear Hw. induction HT as [|w0 T0 ws Ts (evs0 & k0 & Hk0 & <-) _ (evss & k & Hk & Hc)]; [by exists [], 0|].
    exists (evs0 :: evss), (k0 `max` k). split.
    - intros fuel Hf. cbn [list.mapM]. rewrite Hk0, Hk by lia. done.
    - cbn [concat]. rewrite omap_app, Hc. done. }
  exists (evs ++ concat evss), (S k). split; [|by rewrite omap_app, Hc].
  intros [|fuel] Hf; [lia|]. cbn [deliver]. rewrite Hw, Hk by lia. done.
Qed.

Lemma works_one w w' T : do_work w = ([], [w']) → works w' T → works w T.
Proof. intros Hw HT. rewrite <- (app_nil_r T). apply (works_step w [] [w'] [T]); [done|by repeat constructor]. Qed.
Lemma works_two w w1 w2 T1 T2 : do_work w = ([], [w1; w2]) → works w1 T1 → works w2 T2 → works w (T1 ++ T2).
Proof.
  intros Hw H1 H2. rewrite <- (app_nil_r T2). apply (works_step w [] [w1; w2] [T1; T2]); [done|by repeat constructor].
Qed.
Lemma works_none w : do_work w = ([], []) → works w [].
Proof. intros Hw. by apply (works_step w [] [] []). Qed.

End Work.

Section Interp.
Context `{C : Components} (OnMsg : Comp → RuleMsg → list call) (now : Z) (uuid : string) (pg : program).

(** The answers of a component: what is told before a panic.  [go] and [TellSelf] are
    not followed. *)
Section Answers.
Variable node : NodeRef → RuleMsg → option (list run_event).

Definition rel_run (self : NodeRef) (msg : RuleMsg) (err : error) (r : string) : option (list run_event) :=
  match program_next pg self r with
  | [] => Some [Ended msg err r]
  | nodes => Ts ← list.mapM (λ n, node n (RuleMsg_Copy now uuid msg)) nodes; Some (concat Ts)
  end.
Fixpoint calls_run (self : NodeRef) (calls : list call) : option (list run_event) :=
  match calls with
  | [] => Some []
  | CTell msg err None :: rest => (λ T, Ended msg err "" :: T) <$> calls_run self rest
  | CTell msg err (Some rels) :: rest =>
      Ts ← list.mapM (rel_run self msg err) rels;
      T ← calls_run self rest;
      Some (concat Ts ++ T)
  | CPanic _ :: _ => Some []
  | _ => None
  end.
End Answers.

(** Hand a message to a node; [depth] bounds the length of the paths. *)
Fixpoint node_run (depth : nat) (n : NodeRef) (msg : RuleMsg) : option (list run_event) :=
  match depth with
  | 0 => None
  | S depth =>
      T ← calls_run (node_run depth) n (rt_OnMsg (Runtime := ProgramRuntime pg OnMsg now uuid) n msg);
      Some (Delivered (program_name pg n) msg :: T)
  end.

#[local] Instance R : Runtime := ProgramRuntime pg OnMsg now uuid.
Abbreviation works := (works (program_name pg)).
Abbreviation at_ n := (mkInfo (Some n) false true false).

Lemma works_end n msg err r : works (WDoOnEnd (at_ n) msg err r) [Ended msg err r].
Proof.
  eapply works_one; [done|]. eapply works_one; [done|]. by apply (works_step _ (WOnEnd msg err r) [EvOnEnd msg err r] [] []).
Qed.

Section Node.
Variable node : NodeRef → RuleMsg → option (list run_event).
Hypothesis node_works : ∀ o n msg r T, o_hasOnEnd o = true → o_skip o = false → node n msg = Some T → works (WTellNext o msg n r) T.

Lemma kids_work n msg r nodes Ts :
  list.mapM (λ n, node n (RuleMsg_Copy now uuid msg)) nodes = Some Ts → works (WKids (at_ n) msg r nodes) (concat Ts).
Proof.
  intros HT%mapM_Some. induction HT as [|m T nodes Ts Hm _ IH]; [by apply works_none|].
  eapply works_two; [done|by apply node_works|exact IH].
Qed.

Lemma rel_work n msg err r rest T T' :
  rel_run node n msg err r = Some T → works (WRels (at_ n) msg err rest) T' → works (WRels (at_ n) msg err (r :: rest)) (T ++ T').
Proof.
  unfold rel_run. intros HT HT'. destruct (program_next pg n r) as [|m ms] eqn:En.
  - simplify_eq. eapply works_two; [simpl; by rewrite En|apply works_end|exact HT'].
  - apply bind_Some in HT as (Ts & HT & ?). simplify_eq. eapply works_two; [simpl; by rewrite En|by apply kids_work|exact HT'].
Qed.

Lemma rels_work n msg err rels Ts :
  list.mapM (rel_run node n msg err) rels = Some Ts → works (WRels (at_ n) msg err rels) (concat Ts).
Proof.
  intros HT%mapM_Some. induction HT as [|r T rels Ts Hr _ IH]; [by apply works_none|]. by apply rel_work.
Qed.

Lemma calls_work n calls T : calls_run node n calls = Some T → works (WCalls (at_ n) calls true) T.
Proof.
  revert T. induction calls as [|[msg err [rels|]|m|body|why|n' m] rest IH]; intros T; simpl; intros HT; simplify_eq.
  - by apply works_none.
  - apply bind_Some in HT as (T1 & HT1 & (T2 & HT2 & HT)%bind_Some). simplify_eq.
    eapply works_two; [done| |by apply IH]. eapply works_one; [done|]. by apply rels_work.
  - apply fmap_Some in HT as (T2 & HT2 & ->). eapply (works_two _ _ _ _ [Ended msg err ""]); [done| |by apply IH].
    eapply works_one; [done|]. apply works_end.
  - by apply works_none.
Qed.
End Node.

Lemma node_work depth o n msg r T :
  o_hasOnEnd o = true → o_skip o = false → node_run depth n msg = Some T → works (WTellNext o msg n r) T.
Proof.
  revert o n msg r T. induction depth as [|depth IH]; intros o n msg r T Ho Hs HT; [done|]. cbn [node_run] in HT.
  apply bind_Some in HT as (T1 & HT1 & HT). simplify_eq.
  eapply works_one; [reflexivity|]. unfold child_info. rewrite Ho, Hs. rewrite <- (app_nil_r T1).
  eapply (works_step _ _ [EvOnMsg n msg] _ [T1]); [reflexivity|]. constructor; [|done]. rewrite app_nil_r.
  eapply calls_work; [|exact HT1]. intros. by eapply IH.
Qed.

(** The interpreter and the sequential run. *)
Lemma node_run_program depth n msg T :
  program_first pg = Some n → node_run depth n (RuleMsg_Copy now uuid msg) = Some T →
  ∃ k, ∀ fuel, k ≤ fuel → program_run OnMsg now uuid fuel pg msg = Some T.
Proof.
  intros Hn HT. unfold program_run, reference. rewrite Hn.
  assert (works (WTell (mkInfo (Some n) true true false) msg None None) T) as (evs & k & Hk & <-).
  { eapply works_one; [done|]. eapply works_one; [done|]. by eapply node_work. }
  exists k. intros fuel Hf. fold R. by rewrite Hk.
Qed.

(** A node without connections: every relation type it tells ends there. *)
Fixpoint leaf_events (calls : list call) : option (list run_event) :=
  match calls with
  | [] => Some []
  | CTell msg err None :: rest => (λ T, Ended msg err "" :: T) <$> leaf_events rest
  | CTell msg err (Some rels) :: rest => (λ T, (Ended msg err <$> rels) ++ T) <$> leaf_events rest
  | CPanic _ :: _ => Some []
  | _ => None
  end.

Lemma node_run_leaf depth n msg T :
  (∀ r, program_next pg n r = []) → leaf_events (rt_OnMsg n msg) = Some T →
  node_run (S depth) n msg = Some (Delivered (program_name pg n) msg :: T).
Proof.
  intros Hn HT. cbn [node_run]. change (rt_OnMsg n msg) with (rt_OnMsg (Runtime := ProgramRuntime pg OnMsg now uuid) n msg) in HT.
  assert (∀ node calls T, leaf_events calls = Some T → calls_run node n calls = Some T) as H; [|by rewrite (H _ _ _ HT)].
  clear T HT. intros node. induction calls as [|[m err [rels|]|m|body|why|n' m] rest IH]; intros T HT; cbn [leaf_events calls_run] in *; try done.
  - apply fmap_Some in HT as (T2 & HT & ->). rewrite (IH _ HT).
    assert (list.mapM (rel_run node n m err) rels = Some ((λ r, [Ended m err r]) <$> rels)) as ->.
    { apply mapM_Some, Forall2_fmap_r, Forall_Forall2_diag, Forall_true. intros r. unfold rel_run. by rewrite Hn. }
    cbn. f_equal. f_equal. clear. induction rels; [done|]. csimpl. by f_equal.
  - apply fmap_Some in HT as (T2 & HT & ->). by rewrite (IH _ HT).
Qed.

(** Components that answer with one tell: the branch ends there, or goes to the next nodes. *)
Lemma node_run_end depth n msg m err r :
  rt_OnMsg n msg = [CTell m err (Some [r])] → program_next pg n r = [] →
  node_run (S depth) n msg = Some [Delivered (program_name pg n) msg; Ended m err r].
Proof. intros Ho Hn. cbn [node_run]. unfold R in Ho. rewrite Ho. cbn. unfold rel_run. by rewrite Hn. Qed.

Lemma node_run_next depth n msg m err r nodes Ts :
  rt_OnMsg n msg = [CTell m err (Some [r])] → identified m → program_next pg n r = nodes → nodes ≠ [] →
  Forall2 (λ n T, node_run depth n m = Some T) nodes Ts →
  node_run (S depth) n msg = Some (Delivered (program_name pg n) msg :: concat Ts).
Proof.
  intros Ho Hm Hn Hne HT. cbn [node_run]. unfold R in Ho. rewrite Ho. cbn. unfold rel_run.
  rewrite Hn, RuleMsg_Copy_identified by done. destruct nodes as [|n0 nodes]; [done|].
  apply mapM_Some in HT. rewrite HT. cbn. by rewrite !app_nil_r.
Qed.

Lemma node_run_one depth n msg m err r n' T :
  rt_OnMsg n msg = [CTell m err (Some [r])] → identified m → program_next pg n r = [n'] → node_run depth n' m = Some T →
  node_run (S depth) n msg = Some (Delivered (program_name pg n) msg :: T).
Proof. intros Ho Hm Hn HT. rewrite <- (app_nil_r T). by apply (node_run_next depth n msg m err r [n'] [T]); [..|repeat constructor]. Qed.

Lemma node_run_two depth n msg m err r n1 n2 T1 T2 :
  rt_OnMsg n msg = [CTell m err (Some [r])] → identified m → program_next pg n r = [n1; n2] →
  node_run depth n1 m = Some T1 → node_run depth n2 m = Some T2 →
  node_run (S depth) n msg = Some (Delivered (program_name pg n) msg :: T1 ++ T2).
Proof.
  intros Ho Hm Hn H1 H2. rewrite <- (app_nil_r T2). by apply (node_run_next depth n msg m err r [n1; n2] [T1; T2]); [..|repeat constructor].
Qed.

End Interp.

(** ** Engines *)

Section Engines.
Context `{C : Components} `{NA : NodeAspects} `{P : Parsers} (cfg : Config) (parser : ParserRef).
Variables (OnMsg : Comp → RuleMsg → list call) (now : Z) (uuid : string).

(** A message through the interpreter, from the first node. *)
Definition first_run (depth : nat) (pg : program) (msg : RuleMsg) : option (list run_event) :=
  n ← program_first pg; node_run OnMsg now uuid pg depth n (RuleMsg_Copy now uuid msg).
Definition interp_op (depth : nat) (op : engine_op) (pg : program) : option (op_result * program) :=
  match op with
  | OpMsg msg => T ← first_run depth pg msg; Some (Events T, pg)
  | _ => spec_op cfg parser OnMsg now uuid 0 op pg
  end.
Fixpoint interp_ops (depth : nat) (ops : list engine_op) (pg : program) : option (list op_result * program) :=
  match ops with
  | [] => Some ([], pg)
  | op :: rest => '(r, pg) ← interp_op depth op pg; '(rs, pg) ← interp_ops depth rest pg; Some (r :: rs, pg)
  end.

Lemma first_run_program depth pg msg T :
  first_run depth pg msg = Some T → ∃ k, ∀ fuel, k ≤ fuel → program_run OnMsg now uuid fuel pg msg = Some T.
Proof. intros (n & Hn & HT)%bind_Some. by eapply node_run_program. Qed.

Lemma interp_ops_program depth ops pg rs pg' :
  interp_ops depth ops pg = Some (rs, pg') → ∃ k, ∀ fuel, k ≤ fuel → spec_ops cfg parser OnMsg now uuid fuel ops pg = Some (rs, pg').
Proof.
  revert pg rs. induction ops as [|op ops IH]; intros pg rs H; [by exists 0|]. cbn [interp_ops] in H.
  apply bind_Some in H as ([r pg1] & H1 & ([rs1 pg2] & H2 & [= <- <-])%bind_Some).
  destruct (IH pg1 rs1 H2) as [k2 Hk2].
  assert (∃ k, ∀ fuel, k ≤ fuel → spec_op cfg parser OnMsg now uuid fuel op pg = Some (r, pg1)) as [k1 Hk1].
  { destruct op; [by exists 0..|]. cbn [interp_op] in H1. apply bind_Some in H1 as (T & HT & [= <- <-]).
    destruct (first_run_program _ _ _ _ HT) as [k Hk]. exists k. intros fuel Hf. cbn [spec_op]. by rewrite Hk. }
  exists (k1 `max` k2). intros fuel Hf. cbn [spec_ops]. rewrite Hk1 by lia. cbn. rewrite Hk2 by lia. done.
Qed.

(** The operations before a message. *)
Lemma interp_ops_before depth ops k pg rs pg' msg :
  interp_ops depth ops pg = Some (rs, pg') → ops !! k = Some (OpMsg msg) →
  ∃ T pg1, rs !! k = Some (Events T) ∧ interp_ops depth (take k ops) pg = Some (take k rs, pg1) ∧ first_run depth pg1 msg = Some T.
Proof.
  revert k pg rs. induction ops as [|op ops IH]; intros k pg rs H Hk; [done|]. cbn [interp_ops] in H.
  apply bind_Some in H as ([r pg1] & H1 & ([rs1 pg2] & H2 & [= <- <-])%bind_Some). destruct k as [|k]; simplify_eq/=.
  - apply bind_Some in H1 as (T & HT & [= <- <-]). by eexists T, _.
  - destruct (IH k pg1 rs1 H2 Hk) as (T & pg0 & HT & Hi & Hf). exists T, pg0. split; [done|]. split; [|done]. rewrite H1. cbn [mbind option_bind]. by rewrite Hi.
Qed.

Hypothesis cfg_parser : c_Parser cfg = Some parser.
Hypothesis plain : ∀ c msg, forallb plain_call (OnMsg c msg) = true.
Hypothesis plainly : routes_plainly cfg = true.

Lemma engine_handles_interp g id text w engines pg ops depth rs pg' msg T :
  w_pools w !! g = Some engines → text ≠ "" → id ≠ "" → engines !! id = None →
  load_program cfg parser text = ROk pg → runnable_text cfg parser text = true →
  Forall (λ op, runnable_op cfg parser op = true) ops →
  interp_ops depth ops pg = Some (rs, pg') → first_run depth pg' msg = Some T →
  engine_handles cfg OnMsg now uuid (create cfg g id text) ops w rs msg T.
Proof.
  intros Hg Ht Hid He Hl Hr Hops [k1 Hk1]%interp_ops_program [k2 Hk2]%first_run_program.
  eapply (engine_handles_program cfg parser cfg_parser OnMsg now uuid plain plainly g id text w engines pg ops (k1 `max` k2));
    try done; [apply Hk1|apply Hk2]; lia.
Qed.

Lemma engine_handles_first g id text w engines pg depth n msg T :
  w_pools w !! g = Some engines → text ≠ "" → id ≠ "" → engines !! id = None →
  load_program cfg parser text = ROk pg → runnable_text cfg parser text = true → program_first pg = Some n →
  node_run OnMsg now uuid pg depth n (RuleMsg_Copy now uuid msg) = Some T →
  engine_handles cfg OnMsg now uuid (create cfg g id text) [] w [] msg T.
Proof.
  intros Hg Ht Hid He Hl Hr Hn HT. eapply (engine_handles_interp g id text w engines pg [] depth [] pg); try done.
  unfold first_run. by rewrite Hn.
Qed.
End Engines.
