(* ===== verification/Programs.v ===== *)
(** * Programs

    Programs of [src/examples], end to end: the text of a chain in the source is parsed,
    its components are created from the registry and initialised, and the messages
    [main] hands to the engine go, on every interleaving, where the chain sends them.
    The texts are the raw strings of the Go files, with a backquote for every double
    quote: a Go raw string contains no backquote. *)

From S2P Require Import Prelude GoStrings Value Str Msg Config Registry Dsl World Node Chain ChainProps Reload Engine EngineProps RuleCtx ChainRuntime CtxProps CtxDelivery RuntimeSim JsEngine NodeApi.
From S2P Require Import Filters Actions Transforms GroupProtocol Groups GroupAction Flow Builtin JsonText JsonParse JsonValue DslJson JsonEngine ChainProgram ChainRun Samples RestApiCall JsonExamples.
From Stdlib Require Import Ascii String.

Fixpoint go_text (s : string) : string :=
  match s with
  | EmptyString => EmptyString
  | String c s => String (if bool_decide (c = "`"%char) then ascii_of_nat 34 else c) (go_text s)
  end.

Section Programs.
Context `{J : Json} {E : Type} `{JE : JsEngine E} `{EX : ExprLang} `{MR : MapRange}.
Context `{Decode JsFilterNodeConfiguration} `{Decode ExprFilterNodeConfiguration} `{Decode FieldFilterNodeConfiguration}
  `{Decode JsSwitchNodeConfiguration} `{Decode GroupFilterNodeConfiguration} `{DL : Decode LogNodeConfiguration}
  `{DF : Decode FunctionsNodeConfiguration} `{Decode IteratorNodeConfiguration} `{Decode DelayNodeConfiguration}
  `{Decode GroupActionNodeConfiguration} `{DT : Decode JsTransformNodeConfiguration}
  `{Decode ExprTransformNodeConfiguration} `{Decode ChainNodeConfiguration}.
Context `{FT : FloatText} (to_json_other : value → result json) (syntax_error : string → string) (other : Parsers).

(** The components of package external, and those a program registers itself. *)
Context {X : Type} `{XC : NodeClass X} `{NA : NodeAspects}.
Variables (other_Init : Config → Configuration → X → res X) (other_OnMsg : X → RuleMsg → list call).
Hypothesis other_plain : ∀ x msg, forallb plain_call (other_OnMsg x msg) = true.

Abbreviation AppNode := (AppNode (E := E) (X := X)).

(** The default registry as [init] of [src/registry.go] leaves it, package external
    included, and then the program's own components. *)
Definition app_registry (external custom : list X) : RuleComponentRegistry (Node := AppNode) :=
  register_defaults (AOther <$> custom) (default_registry external).

Variables (external custom : list X).
#[local] Instance app_Components : Components := {|
  Comp := AppNode;
  comp_NewNode := λ _ t, NewNode t (app_registry external custom);
  comp_Init := λ config configuration n,
    match n with
    | ABuiltin n => let! n := to_res (builtin_Init config configuration n) in ROk (ABuiltin n)
    | AOther x => let! x := other_Init config configuration x in ROk (AOther x)
    end
|}.
#[local] Instance app_Parsers : Parsers := json_parsers to_json_other syntax_error other.

(** A component's [OnMsg], for the instance as [Init] left it. *)
Definition app_OnMsg (env : node_env) (n : AppNode) (msg : RuleMsg) : list call :=
  match n with ABuiltin n => (builtin_OnMsg env n msg).1 | AOther x => other_OnMsg x msg end.

(** ** Components *)

Lemma app_NewNode n :
  n ∈ take 13 builtin_prototypes → NewNode (builtin_Type n) (app_registry external custom) = Ok (ABuiltin n).
Proof.
  intros Hn. unfold NewNode, app_registry, default_registry, default_components. rewrite !register_defaults_lookup. cbn [r_components emptyRegistry].
  rewrite lookup_empty. repeat (apply elem_of_cons in Hn as [->|Hn]; [reflexivity|]). by apply elem_of_nil in Hn.
Qed.

Definition plain_functions (env : node_env) : Prop :=
  ∀ name f msg, ne_Functions env !! name = Some f → forallb plain_call (f msg) = true.

Lemma iterate_plain engine msg (items : list (value * value)) : forallb plain_call (iterate (JE := JE) engine msg items).1 = true.
Proof.
  revert engine msg. induction items as [|[index item] items IH]; intros engine msg; simpl; [done|].
  destruct (executeItem engine msg item index) as [[[calls failed] msg'] engine'] eqn:Ex.
  assert (forallb plain_call calls = true) as Hc by (revert Ex; unfold executeItem; repeat case_match; intros; by simplify_eq).
  destruct failed; simpl; [done|].
  specialize (IH engine' msg'). destruct (iterate engine' msg' items) as [calls' e']. simpl in *. by rewrite forallb_app, Hc, IH.
Qed.

Lemma flow_plain text events calls s :
  forallb plain_call calls = true → forallb plain_call (foldl (flow_step text) (calls, s) events).1 = true.
Proof.
  revert calls s. induction events as [|[m err id|] events IH]; intros calls s Hc; simpl; [done|by apply IH|].
  apply IH. by rewrite forallb_app, Hc.
Qed.

Lemma switch_plain msg (l : list value) : forallb plain_call ((λ r, TellNext msg [ToString r]) <$> l) = true.
Proof. induction l as [|v l IH]; [done|exact IH]. Qed.

(** Components reach other nodes through the context only. *)
Lemma app_plain env n msg : plain_functions env → forallb plain_call (app_OnMsg env n msg) = true.
Proof.
  intros Hf. destruct n as [n|x]; [|apply other_plain]. unfold app_OnMsg.
  destruct n as [x|x|x|x| |x|x|x|x|x|x|x|x|x]; simpl.
  - unfold JsFilterNode_OnMsg. repeat case_match; by simplify_eq.
  - unfold ExprFilterNode_OnMsg. by repeat case_match.
  - unfold FieldFilterNode_OnMsg. by repeat case_match.
  - unfold JsSwitchNode_OnMsg. repeat case_match; simplify_eq; try done.
    apply switch_plain.
  - done.
  - unfold GroupFilterNode_OnMsg. by repeat case_match.
  - unfold LogNode_OnMsg. repeat case_match; by simplify_eq.
  - unfold FunctionsNode_OnMsg, FunctionsRegistry_Get. case_match eqn:Ef; [by eapply Hf|done].
  - unfold IteratorNode_OnMsg. case_bool_decide; [destruct (Get _ _)|destruct (payload msg)]; try done;
      match goal with |- context [iterate ?e ?m ?l] => pose proof (iterate_plain e m l) as Ha; by destruct (iterate e m l) end.
  - unfold DelayNode_OnMsg, delay_ack, delay_store. repeat case_match; simplify_eq; done.
  - unfold GroupActionNode_OnMsg. by repeat case_match.
  - unfold JsTransformNode_OnMsg. repeat case_match; by simplify_eq.
  - unfold ExprTransformNode_OnMsg. by repeat case_match.
  - unfold ChainNode_OnMsg. case_match; [by apply flow_plain|done].
Qed.

(** ** Definitions *)

(** mapstructure on a configuration of one string field. *)
Definition decodes_string {A} `{DA : Decode A} (key : string) (mk : string → A) : Prop :=
  ∀ s d, Map2Struct {[key := VString s]} d = (None, mk s).

(** A node of a text, with one string in its configuration. *)
Definition string_node (id type name key s : string) : RuleNode :=
  mkRuleNode id zero_info type name true (Some {[key := VString s]}).
Definition chain_def (id name : string) (root : bool) (first : Z) (nodes : list RuleNode) (connections : list NodeConnection) : RuleChainDef :=
  mkRuleChain (mkBaseInfo id None name false root None) (mkRuleMetadata first nodes connections [] false false).

Lemma parse_chain_text text j d :
  parse_json text = Some j → dec_chain j = (some_nodes d, []) → parse_chain JsonParser text = Ok (some_nodes d).
Proof. intros Hj Hd. cbn [app_Parsers json_parsers parse_chain]. unfold ParserRuleChain. by rewrite Hj, Hd. Qed.

Lemma parse_node_text text j n : parse_json text = Some j → dec_node None j zero_node = (n, []) → parse_node JsonParser text = Ok n.
Proof. intros Hj Hd. cbn [app_Parsers json_parsers parse_node]. unfold ParserRuleNode. by rewrite Hj, Hd. Qed.

Lemma load_program_text cfg text d cs :
  parse_chain JsonParser text = Ok (some_nodes d) → components cfg 0 (md_Nodes (rc_Metadata d)) = ROk cs → runnable d = true →
  load_program cfg JsonParser text = ROk (program_of cs d) ∧ runnable_text cfg JsonParser text = true.
Proof.
  intros Hd Hc Hr. assert (load_chain cfg JsonParser text = ROk d) as Hl.
  { apply load_chain_ok. rewrite Hc. split; [done|]. split; [done|]. apply andb_true_iff in Hr as [_ ?%bool_decide_eq_true]. lia. }
  unfold load_program, runnable_text. rewrite Hl. simpl. by rewrite Hc.
Qed.

Lemma app_new_component cfg index id name b key s :
  c_Properties cfg = Some NewMetadata → b ∈ take 13 builtin_prototypes → id ≠ "" →
  new_component cfg (with_id index (string_node id (builtin_Type b) name key s)) =
    let! n := to_res (builtin_Init cfg {[key := VString s]} b) in ROk (ABuiltin n).
Proof.
  intros Hp Hb Hid. unfold new_component, with_id. simpl. rewrite bool_decide_false by done. simpl. rewrite app_NewNode by done. simpl.
  unfold processGlobalPlaceholders. rewrite Hp. by rewrite map_fmap_singleton.
Qed.

(** ** [functions_node]

    A chain of functions; the name of the last one comes from the metadata. *)

Definition functions_node_chainJsonFile : string := go_text "
{
  `ruleChain`: {
	`id`:`rule01`,
    `name`: `测试规则链`,
    `root`: true
  },
  `metadata`: {
    `nodes`: [
       {
        `id`: `s1`,
        `type`: `functions`,
        `name`: `调用函数1`,
		`debugMode`: true,
        `configuration`: {
          `functionName`: `add`
        }
      },
     {
        `id`: `s2`,
        `type`: `functions`,
        `name`: `调用函数2`,
		`debugMode`: true,
        `configuration`: {
          `functionName`: `filterMsg`
        }
      },
      {
        `id`: `s3`,
        `type`: `functions`,
        `name`: `调用函数3`,
		`debugMode`: true,
        `configuration`: {
			`functionName`: `handleMsg`
        }
      },     
      {
        `id`: `s4`,
        `type`: `functions`,
        `name`: `动态获取函数名`,
		`debugMode`: true,
        `configuration`: {
          `functionName`: `${functionName}`
        }
      }
    ],
    `connections`: [
      {
        `fromId`: `s1`,
        `toId`: `s2`,
        `type`: `Success`
      },
      {
        `fromId`: `s2`,
        `toId`: `s3`,
        `type`: `True`
      },
	 {
        `fromId`: `s2`,
        `toId`: `s4`,
        `type`: `True`
      }
    ]
  }
}
".
(** The functions [init] registers. *)
Definition functions_node_Functions : gmap string (RuleMsg → list call) :=
  FunctionsRegistry_Register "handleMsg"
    (λ msg, [TellSuccess (set_Data (go_text "{`handleMsgAdd`:`handleMsgAddValue`}") msg)])
    (FunctionsRegistry_Register "filterMsg"
       (λ msg, if bool_decide (m_Type msg = "TEST_MSG_TYPE1") then [TellNext msg [True_]] else [TellNext msg [False_]])
       (FunctionsRegistry_Register "add" (λ msg, [TellSuccess msg]) ∅)).

Definition functions_node_config (onDebug : nat) : Config := WithOnDebug onDebug (NewConfig []).

(** The engine of [init] and the message of [main]. *)
Definition functions_node_init (onDebug : nat) : M nat :=
  create (functions_node_config onDebug) DefaultRuleGo "rule01" functions_node_chainJsonFile.
Definition functions_node_msg (now : Z) (uuid uuid' : string) : RuleMsg :=
  let metaData := Metadata_PutValue NewMetadata "postUrl" "http://127.0.0.1:8080/api/msg" in
  let metaData := Metadata_PutValue metaData "functionName" "add" in
  NewMsg now uuid uuid' 0 "TEST_MSG_TYPE1" JSON metaData (go_text "{`temperature`:41}").

Definition functions_node_def : RuleChainDef :=
  let f id name functionName := string_node id "functions" name "functionName" functionName in
  chain_def "rule01" "测试规则链" true 0
    [f "s1" "调用函数1" "add"; f "s2" "调用函数2" "filterMsg"; f "s3" "调用函数3" "handleMsg"; f "s4" "动态获取函数名" "${functionName}"]
    [mkConnection "s1" "s2" "Success"; mkConnection "s2" "s3" "True"; mkConnection "s2" "s4" "True"].
Definition functions_comp (name : string) : AppNode :=
  ABuiltin (BFunctions (mkFunctions (mkFunctionsConf name) (Contains "${" name || false))).
Definition functions_node_program : program :=
  program_of (functions_comp <$> ["add"; "filterMsg"; "handleMsg"; "${functionName}"]) functions_node_def.

Lemma functions_node_loads cfg :
  c_Properties cfg = Some NewMetadata → decodes_string "functionName" mkFunctionsConf →
  load_program cfg JsonParser functions_node_chainJsonFile = ROk functions_node_program ∧
  runnable_text cfg JsonParser functions_node_chainJsonFile = true.
Proof.
  intros Hp Hd. eapply (load_program_text _ _ functions_node_def).
  - eapply parse_chain_text; [vm_compute; reflexivity|vm_compute; reflexivity].
  - simpl. rewrite !(app_new_component _ _ _ _ (BFunctions FunctionsNode_New)) by (done || (simpl; set_solver)).
    simpl. unfold FunctionsNode_Init. rewrite !Hd. reflexivity.
  - reflexivity.
Qed.

Definition functions_node_env (now : Z) (uuid : string) : node_env :=
  mkEnv now uuid functions_node_Functions (Received true) (mkMsg 0 "" JSON "" "" ∅) ∅ [] (λ _, "").

Lemma functions_node_plain now uuid : plain_functions (functions_node_env now uuid).
Proof.
  intros name f x. unfold functions_node_env, functions_node_Functions, FunctionsRegistry_Register. simpl.
  rewrite !lookup_insert_Some, lookup_empty. by intros [[_ <-]|[_ [[_ <-]|[_ [[_ <-]|[_ ?]]]]]]; [|case_bool_decide|..].
Qed.

Lemma functions_node_run now uuid uuid' ts c id :
  let msg := functions_node_msg (Z.pos ts) (String c id) uuid' in
  node_run (app_OnMsg (functions_node_env now uuid)) now uuid functions_node_program 4 (NCnode 0) (RuleMsg_Copy now uuid msg) =
  Some [Delivered "s1" msg; Delivered "s2" msg;
        Delivered "s3" msg; Ended (set_Data (go_text "{`handleMsgAdd`:`handleMsgAddValue`}") msg) None Success;
        Delivered "s4" msg; Ended msg None Success].
Proof. vm_compute. reflexivity. Qed.

(** C16. The program [functions_node], end to end.  The text of the chain loads; the message [main]
    hands to the engine is seen by the four functions, by name and by the name its metadata
    holds, and ends twice, once as [handleMsg] rewrote it and once as it was: on every
    interleaving of the goroutines, and whatever else the pool of engines contains. *)
Theorem functions_node_main onDebug now uuid uuid' now' uuid'' w engines :
  decodes_string "functionName" mkFunctionsConf → w_pools w !! DefaultRuleGo = Some engines → engines !! "rule01" = None →
  (0 < now)%Z → uuid ≠ "" →
  let msg := functions_node_msg now uuid uuid' in
  engine_handles (functions_node_config onDebug) (app_OnMsg (functions_node_env now' uuid'')) now' uuid'' (functions_node_init onDebug) [] w [] msg
    [Delivered "s1" msg; Delivered "s2" msg;
     Delivered "s3" msg; Ended (set_Data (go_text "{`handleMsgAdd`:`handleMsgAddValue`}") msg) None Success;
     Delivered "s4" msg; Ended msg None Success].
Proof.
  intros Hd Hg He Hn Hu msg.
  assert (∀ c m, forallb plain_call (app_OnMsg (functions_node_env now' uuid'') c m) = true) as Hp by (intros; apply app_plain, functions_node_plain). destruct (functions_node_loads (functions_node_config onDebug) eq_refl Hd) as [Hl Hr].
  eapply (engine_handles_first (C := app_Components) (functions_node_config onDebug) JsonParser (app_OnMsg (functions_node_env now' uuid'')) _ _ eq_refl Hp eq_refl DefaultRuleGo "rule01" functions_node_chainJsonFile w engines _ 4 (NCnode 0) msg);
    [exact Hg|discriminate|discriminate|exact He|exact Hl|exact Hr|reflexivity|].
  subst msg. destruct now as [|ts|ts]; [exfalso; lia| |exfalso; lia]. destruct uuid as [|c id]; [destruct (Hu eq_refl)|]. apply functions_node_run.
Qed.

(** ** [temperature_alarm]

    A filter script, a call of the alarm service and two log nodes. *)

Definition temperature_alarm_chainJsonFile : string := go_text "
{
  `ruleChain`: {
	`id`: `rule01`,
    `name`: `rule01`,
    `root`: true
  },
  `metadata`: {
    `nodes`: [
      {
        `id`: `s1`,
        `type`: `jsFilter`,
        `name`: `过滤`,
        `debugMode`: true,
        `configuration`: {
          `jsScript`: `return msg.temperature>50;`
        }
      },
      {
        `id`: `s2`,
        `type`: `restApiCall`,
        `name`: `推送告警`,
        `debugMode`: true,
        `configuration`: {
          `restEndpointUrlPattern`: `http://192.168.136.26:9099/api/msg/err`,
          `requestMethod`: `POST`,
          `maxParallelRequestsCount`: 200
        }
      },
      {
        `id`: `s3`,
        `type`: `log`,
        `name`: `温度正常，记录日志`,
        `debugMode`: true,
        `configuration`: {
          `jsScript`: `return '温度正常。\\n Incoming message:\\n' + JSON.stringify(msg) + '\\nIncoming metadata:\\n' + JSON.stringify(metadata);`
        }
      },
      {
        `id`: `s4`,
        `type`: `log`,
        `name`: `温度异常，记录推送告警结果`,
        `debugMode`: true,
        `configuration`: {
          `jsScript`: `return '温度异常，记录推送异常日志。\\n Incoming message:\\n' + JSON.stringify(msg) + '\\nIncoming metadata:\\n' + JSON.stringify(metadata);`
        }
      }
    ],
    `connections`: [
      {
        `fromId`: `s1`,
        `toId`: `s2`,
        `type`: `True`
      },
      {
        `fromId`: `s1`,
        `toId`: `s3`,
        `type`: `False`
      },
      {
        `fromId`: `s2`,
        `toId`: `s4`,
        `type`: `Failure`
      }
    ]
  }
}
".
(** The configuration of a [restApiCall] node; [t] is the number 200. *)
Definition rest_configuration (url t : string) : Configuration :=
  {["restEndpointUrlPattern" := VString url; "requestMethod" := VString "POST"; "maxParallelRequestsCount" := VFloat64 t]}.
Definition rest_node (id name url t : string) : RuleNode :=
  mkRuleNode id zero_info "restApiCall" name true (Some (rest_configuration url t)).

Definition log_script (what : string) : string :=
  "return '" +:+ what +:+ "\n Incoming message:\n' + JSON.stringify(msg) + '\nIncoming metadata:\n' + JSON.stringify(metadata);".
Definition temperature_alarm_def (t : string) : RuleChainDef :=
  chain_def "rule01" "rule01" true 0
    [string_node "s1" "jsFilter" "过滤" "jsScript" "return msg.temperature>50;";
     rest_node "s2" "推送告警" "http://192.168.136.26:9099/api/msg/err" t;
     string_node "s3" "log" "温度正常，记录日志" "jsScript" (log_script "温度正常。");
     string_node "s4" "log" "温度异常，记录推送告警结果" "jsScript" (log_script "温度异常，记录推送异常日志。")]
    [mkConnection "s1" "s2" "True"; mkConnection "s1" "s3" "False"; mkConnection "s2" "s4" "Failure"].

Lemma temperature_alarm_text t :
  float_parse "200" = Some t → parse_chain JsonParser temperature_alarm_chainJsonFile = Ok (some_nodes (temperature_alarm_def t)).
Proof.
  intros Ht. eapply parse_chain_text; [vm_compute; reflexivity|]. vm_compute in Ht |- *. rewrite Ht. reflexivity.
Qed.

(** How a log node answers: the message as its script left it, and whether the script
    returned a text. *)
Definition log_outcome (e : E) (msg : RuleMsg) : RuleMsg * error * string :=
  let '(out, msg, _) := call_script "ToString" (payload msg) msg e in
  match out with
  | Ok (VString _) => (msg, None, Success)
  | Ok _ => (msg, Some JsLogReturnFormatErr, Failure)
  | Err err => (msg, Some err, Failure)
  end.
Definition ended (o : RuleMsg * error * string) : run_event := Ended o.1.1 o.1.2 o.2.
Definition log_comp (script : string) (e : E) : AppNode := ABuiltin (BLog (mkLog (mkLogConf script) (Some e) [])).

Lemma log_answers env script e msg :
  app_OnMsg env (log_comp script e) msg =
    [CTell (log_outcome e msg).1.1 (log_outcome e msg).1.2 (Some [(log_outcome e msg).2])].
Proof.
  unfold log_comp, app_OnMsg, log_outcome. cbn [builtin_OnMsg]. unfold LogNode_OnMsg. cbn [ln_jsEngine].
  destruct (call_script "ToString" (payload msg) msg e) as [[[[]|] ?] ?]; done.
Qed.

Definition log_source (script : string) : string := "function ToString(msg, metadata, msgType) { " +:+ script +:+ " }".
Lemma log_loads cfg index id name script e :
  c_Properties cfg = Some NewMetadata → decodes_string "jsScript" mkLogConf → id ≠ "" → js_New cfg (log_source script) = Ok e →
  new_component cfg (with_id index (string_node id "log" name "jsScript" script)) = ROk (log_comp script e).
Proof.
  intros Hp Hd Hid He. rewrite (app_new_component _ _ _ _ (BLog LogNode_New)) by (done || (simpl; set_solver)). simpl.
  unfold LogNode_Init. rewrite Hd. unfold log_source in He. simpl in *. by rewrite He.
Qed.

Lemma set_Metadata_identified (md : Metadata) (msg : RuleMsg) : identified msg → identified (set_Metadata md msg).
Proof. done. Qed.

Definition filter_comp (script : string) (e : E) : AppNode := ABuiltin (BJsFilter (mkJsFilter (mkJsFilterConf script) (Some e))).
Definition filter_source (script : string) : string := "function Filter(msg, metadata, msgType) { " +:+ script +:+ " }".
Lemma filter_loads cfg index id name script e :
  c_Properties cfg = Some NewMetadata → decodes_string "jsScript" mkJsFilterConf → id ≠ "" → js_New cfg (filter_source script) = Ok e →
  new_component cfg (with_id index (string_node id "jsFilter" name "jsScript" script)) = ROk (filter_comp script e).
Proof.
  intros Hp Hd Hid He. rewrite (app_new_component _ _ _ _ (BJsFilter JsFilterNode_New)) by (done || (simpl; set_solver)). simpl.
  unfold JsFilterNode_Init. rewrite Hd. unfold filter_source in He. simpl in *. by rewrite He.
Qed.
Lemma filter_answers env script e msg b m1 e' :
  call_script "Filter" (payload msg) msg e = (Ok (VBool b), m1, e') →
  app_OnMsg env (filter_comp script e) msg = [TellNext m1 [if b then True_ else False_]].
Proof. intros Hc. unfold filter_comp, app_OnMsg. cbn [builtin_OnMsg]. unfold JsFilterNode_OnMsg. cbn [jf_jsEngine]. by rewrite Hc. Qed.

(** The [restApiCall] component of package external, whatever it does with a message. *)
Lemma rest_loads cfg index id name url t x0 x :
  c_Properties cfg = Some NewMetadata → id ≠ "" → NewNode "restApiCall" (app_registry external custom) = Ok (AOther x0) →
  other_Init cfg (rest_configuration url t) x0 = ROk x →
  new_component cfg (with_id index (rest_node id name url t)) = ROk (AOther x).
Proof.
  intros Hp Hid Hx0 Hx. unfold new_component, with_id. simpl. rewrite bool_decide_false by done. simpl. rewrite Hx0. simpl.
  unfold processGlobalPlaceholders. rewrite Hp. unfold rest_configuration. rewrite !fmap_insert, map_fmap_singleton.
  change (res_bind (other_Init cfg (rest_configuration url t) x0) (λ x, ROk (AOther (E := E) x)) = ROk (AOther x)). by rewrite Hx.
Qed.

Definition temperature_alarm_main : M nat :=
  create (NewConfig []) DefaultRuleGo "rule01" temperature_alarm_chainJsonFile.
Definition temperature_alarm_msg (now : Z) (uuid uuid' : string) (data : string) : RuleMsg :=
  NewMsg now uuid uuid' 0 "TEST_MSG_TYPE" JSON (Metadata_PutValue NewMetadata "productType" "productType01") (go_text data).

Lemma temperature_alarm_run (OnMsg : AppNode → RuleMsg → list call) (msg m1 : RuleMsg) (b : bool) now uuid c1 c2 c3 c4 t
    m2 err2 (failed : bool) m3 err3 r3 m4 err4 r4 :
  identified msg → identified m1 → identified m2 →
  OnMsg c1 msg = [TellNext m1 [if b then True_ else False_]] →
  OnMsg c2 m1 = [CTell m2 err2 (Some [if failed then Failure else Success])] →
  OnMsg c3 m1 = [CTell m3 err3 (Some [r3])] →
  OnMsg c4 m2 = [CTell m4 err4 (Some [r4])] →
  node_run OnMsg now uuid (program_of [c1; c2; c3; c4] (temperature_alarm_def t)) 3 (NCnode 0) (RuleMsg_Copy now uuid msg) =
  Some (Delivered "s1" msg ::
        if b then Delivered "s2" m1 :: if failed then [Delivered "s4" m2; Ended m4 err4 r4] else [Ended m2 err2 Success]
        else [Delivered "s3" m1; Ended m3 err3 r3]).
Proof.
  intros Hm Hm1 Hm2 A1 A2 A3 A4. rewrite RuleMsg_Copy_identified by done. destruct b.
  - eapply node_run_one; [exact A1|done|reflexivity|]. destruct failed.
    + eapply node_run_one; [exact A2|done|reflexivity|]. eapply node_run_end; [exact A4|reflexivity].
    + eapply node_run_end; [exact A2|reflexivity].
  - eapply node_run_one; [exact A1|done|reflexivity|]. eapply node_run_end; [exact A3|reflexivity].
Qed.

(** The program [temperature_alarm], end to end.  For a message its script accepts, and no
    other, the alarm service is called; when the call fails the failure is logged, and
    a message the script rejects is logged as normal: whatever the service and the
    log scripts answer, on every interleaving. *)
Theorem temperature_alarm_sends t x0 rest e1 e3 e4 e1' env now uuid w engines msg b m1 m2 err2 failed :
  float_parse "200" = Some t → decodes_string "jsScript" mkJsFilterConf → decodes_string "jsScript" mkLogConf →
  js_New (NewConfig []) (filter_source "return msg.temperature>50;") = Ok e1 →
  js_New (NewConfig []) (log_source (log_script "温度正常。")) = Ok e3 →
  js_New (NewConfig []) (log_source (log_script "温度异常，记录推送异常日志。")) = Ok e4 →
  NewNode "restApiCall" (app_registry external custom) = Ok (AOther x0) →
  other_Init (NewConfig []) (rest_configuration "http://192.168.136.26:9099/api/msg/err" t) x0 = ROk rest →
  w_pools w !! DefaultRuleGo = Some engines → engines !! "rule01" = None → plain_functions env → identified msg →
  call_script "Filter" (payload msg) msg e1 = (Ok (VBool b), m1, e1') →
  other_OnMsg rest m1 = [CTell m2 err2 (Some [if (failed : bool) then Failure else Success])] → identified m2 →
  engine_handles (NewConfig []) (app_OnMsg env) now uuid temperature_alarm_main [] w [] msg
    (Delivered "s1" msg ::
     if b then Delivered "s2" m1 :: if failed then [Delivered "s4" m2; ended (log_outcome e4 m2)] else [Ended m2 err2 Success]
     else [Delivered "s3" m1; ended (log_outcome e3 m1)]).
Proof.
  intros Ht Df Dl He1 He3 He4 Hx0 Hx Hg He Hf Hm Hc Hr Hm2.
  assert (∀ c m, forallb plain_call (app_OnMsg env c m) = true) as Hp by (intros; by apply app_plain).
  assert (identified m1) as Hm1 by (pose proof (call_script_same "Filter" (payload msg) msg e1) as [md E']; rewrite Hc in E'; simpl in E'; subst; done).
  assert (components (NewConfig []) 0 (md_Nodes (rc_Metadata (temperature_alarm_def t))) =
    ROk [filter_comp "return msg.temperature>50;" e1; AOther rest; log_comp (log_script "温度正常。") e3;
        log_comp (log_script "温度异常，记录推送异常日志。") e4]) as Hcs.
  { cbn [components temperature_alarm_def chain_def rc_Metadata md_Nodes].
    by rewrite (filter_loads _ _ _ _ _ e1), (rest_loads _ _ _ _ _ _ x0 rest), (log_loads _ _ _ _ _ e3), (log_loads _ _ _ _ _ e4). }
  destruct (load_program_text (NewConfig []) _ _ _ (temperature_alarm_text t Ht) Hcs eq_refl) as [Hl Hrun].
  eapply (engine_handles_first (C := app_Components) (NewConfig []) JsonParser (app_OnMsg env) _ _ eq_refl Hp eq_refl DefaultRuleGo "rule01" temperature_alarm_chainJsonFile w engines _ 3 (NCnode 0) msg);
    [exact Hg|discriminate|discriminate|exact He|exact Hl|exact Hrun|reflexivity|].
  eapply temperature_alarm_run; [exact Hm|exact Hm1|exact Hm2|by eapply filter_answers|exact Hr|apply log_answers|apply log_answers].
Qed.

(** ** [hot_loading]

    An engine whose node is reloaded, and then its chain, between messages. *)

Definition hot_loading_s1Node : string := go_text "
	{
        `id`: `s1`,
        `type`: `jsTransform`,
        `name`: `转换`,
        `debugMode`: true,
        `configuration`: {
          `jsScript`: `metadata['name']='updateTest01';\n metadata['index']=33;\n msg['addField']='updateAddValue1'; return {'msg':msg,'metadata':metadata,'msgType':msgType};`
        }
      }
".
Definition hot_loading_chainJsonFile1 : string := go_text "
{
  `ruleChain`: {
    `name`: `测试规则链`,
    `root`: false,
    `debugMode`: false
  },
  `metadata`: {
    `nodes`: [
       {
        `id`: `s1`,
        `type`: `jsTransform`,
        `name`: `转换`,
        `debugMode`: true,
        `configuration`: {
          `jsScript`: `metadata['name']='test01';\n metadata['index']=11;\n msg['addField']='addValue1'; return {'msg':msg,'metadata':metadata,'msgType':msgType};`
        }
      }
    ],
    `connections`: [
    ]
  }
}
".
Definition hot_loading_chainJsonFile2 : string := go_text "
{
  `ruleChain`: {
    `name`: `测试规则链`,
    `root`: false,
    `debugMode`: false
  },
  `metadata`: {
    `nodes`: [
       {
        `id`: `s1`,
        `type`: `jsTransform`,
        `name`: `转换`,
        `debugMode`: true,
        `configuration`: {
          `jsScript`: `metadata['name']='test02';\n metadata['index']=22;\n msg['addField']='addValue2'; return {'msg':msg,'metadata':metadata,'msgType':msgType};`
        }
      },
      {
        `id`: `s2`,
        `type`: `restApiCall`,
        `name`: `推送数据`,
        `debugMode`: true,
        `configuration`: {
          `restEndpointUrlPattern`: `http://192.168.136.26:9099/api/msg`,
          `requestMethod`: `POST`,
          `maxParallelRequestsCount`: 200
        }
      }
    ],
    `connections`: [
      {
        `fromId`: `s1`,
        `toId`: `s2`,
        `type`: `Success`
      }
    ]
  }
}
".
(** The engine of [main], and what it does with it: messages, and a reload before each but
    the first. *)
Definition hot_loading_engine : M nat := create (NewConfig []) DefaultRuleGo "rule01" hot_loading_chainJsonFile1.
Definition hot_loading_main (msg : RuleMsg) : list engine_op :=
  [OpMsg msg; OpReloadNode "s1" hot_loading_s1Node; OpMsg msg; OpReloadWith hot_loading_chainJsonFile2; OpMsg msg].
Definition hot_loading_msg (now : Z) (uuid uuid' : string) : RuleMsg :=
  NewMsg now uuid uuid' 0 "TEST_MSG_TYPE1" JSON (Metadata_PutValue NewMetadata "productType" "test01") (go_text "{`temperature`:41}").

Definition hot_script (name index add : string) : string :=
  "metadata['name']='" +:+ name +:+ "';" +:+ String (ascii_of_nat 10) (" metadata['index']=" +:+ index +:+ ";") +:+
  String (ascii_of_nat 10) (" msg['addField']='" +:+ add +:+ "'; return {'msg':msg,'metadata':metadata,'msgType':msgType};").
Definition hot_script1 : string := hot_script "test01" "11" "addValue1".
Definition hot_script_s1 : string := hot_script "updateTest01" "33" "updateAddValue1".
Definition hot_script2 : string := hot_script "test02" "22" "addValue2".

Definition hot_loading_def1 : RuleChainDef :=
  chain_def "" "测试规则链" false 0 [string_node "s1" "jsTransform" "转换" "jsScript" hot_script1] [].
Definition hot_loading_def2 (t : string) : RuleChainDef :=
  chain_def "" "测试规则链" false 0
    [string_node "s1" "jsTransform" "转换" "jsScript" hot_script2; rest_node "s2" "推送数据" "http://192.168.136.26:9099/api/msg" t]
    [mkConnection "s1" "s2" "Success"].

Lemma hot_loading_text1 : parse_chain JsonParser hot_loading_chainJsonFile1 = Ok (some_nodes hot_loading_def1).
Proof. eapply parse_chain_text; [vm_compute; reflexivity|vm_compute; reflexivity]. Qed.
Lemma hot_loading_text_s1 :
  parse_node JsonParser hot_loading_s1Node = Ok (string_node "s1" "jsTransform" "转换" "jsScript" hot_script_s1).
Proof. eapply parse_node_text; [vm_compute; reflexivity|vm_compute; reflexivity]. Qed.
Lemma hot_loading_text2 t : float_parse "200" = Some t → parse_chain JsonParser hot_loading_chainJsonFile2 = Ok (some_nodes (hot_loading_def2 t)).
Proof. intros Ht. eapply parse_chain_text; [vm_compute; reflexivity|]. vm_compute in Ht |- *. rewrite Ht. reflexivity. Qed.

(** How a transform node answers. *)
Definition transform_outcome (e : E) (msg : RuleMsg) : RuleMsg * error * string :=
  let '(out, msg, _) := call_script "Transform" (transform_payload msg) msg e in
  match out with
  | Err err => (msg, Some err, Failure)
  | Ok (VMap formatData) =>
      let msg := apply_metadata formatData (apply_type formatData msg) in
      match assoc MsgKey formatData with
      | None => (msg, None, Success)
      | Some data => match ToStringMaybeErr data with
                     | Ok newValue => (set_Data newValue msg, None, Success)
                     | Err err => (msg, Some err, Failure)
                     end
      end
  | Ok _ => (msg, Some JsTransformReturnFormatErr, Failure)
  end.
Definition transform_comp (script : string) (e : E) : AppNode :=
  ABuiltin (BJsTransform (mkJsTransform (mkJsTransformConf script) (Some e))).

Lemma transform_answers env script e msg :
  app_OnMsg env (transform_comp script e) msg =
    [CTell (transform_outcome e msg).1.1 (transform_outcome e msg).1.2 (Some [(transform_outcome e msg).2])].
Proof.
  unfold transform_comp, app_OnMsg, transform_outcome. cbn [builtin_OnMsg]. unfold JsTransformNode_OnMsg. cbn [jt_jsEngine].
  destruct (call_script "Transform" (transform_payload msg) msg e) as [[out ?] ?]. cbn [fst].
  destruct out as [[]|]; try done. destruct (assoc MsgKey _) as [d|]; [|done]. by destruct (ToStringMaybeErr d).
Qed.

Lemma transform_identified e msg : identified msg → identified (transform_outcome e msg).1.1.
Proof.
  intros Hm. unfold transform_outcome. pose proof (call_script_same "Transform" (transform_payload msg) msg e) as [md Hs].
  destruct (call_script "Transform" (transform_payload msg) msg e) as [[out m] e']. simpl in Hs. subst m.
  assert (∀ l, identified (apply_metadata l (apply_type l (set_Metadata md msg)))) as Ha
    by (intros l; unfold apply_metadata, apply_type; by repeat case_match).
  destruct out as [[]|]; try exact Hm. destruct (assoc MsgKey _) as [d|]; [|apply Ha].
  destruct (ToStringMaybeErr d); apply (Ha _).
Qed.

Definition transform_source (script : string) : string := "function Transform(msg, metadata, msgType) { " +:+ script +:+ " }".
Lemma transform_loads cfg index id name script e :
  c_Properties cfg = Some NewMetadata → decodes_string "jsScript" mkJsTransformConf → id ≠ "" → js_New cfg (transform_source script) = Ok e →
  new_component cfg (with_id index (string_node id "jsTransform" name "jsScript" script)) = ROk (transform_comp script e).
Proof.
  intros Hp Hd Hid He. rewrite (app_new_component _ _ _ _ (BJsTransform JsTransformNode_New)) by (done || (simpl; set_solver)). simpl.
  unfold JsTransformNode_Init. rewrite Hd. unfold transform_source in He. simpl in *. by rewrite He.
Qed.

(** A transform node and the node its successes go to, which may tell any number of times. *)
Lemma transform_then_service env now uuid script e rest d msg T2 :
  node_ids 0 (md_Nodes (rc_Metadata d)) = ["s1"; "s2"] → md_Connections (rc_Metadata d) = [mkConnection "s1" "s2" "Success"] →
  identified msg → leaf_events (other_OnMsg rest (transform_outcome e msg).1.1) = Some T2 →
  node_run (app_OnMsg env) now uuid (program_of [transform_comp script e; AOther rest] d) 2 (NCnode 0) msg =
  Some (Delivered "s1" msg ::
    if bool_decide ((transform_outcome e msg).2 = Success) then Delivered "s2" (transform_outcome e msg).1.1 :: T2
    else [ended (transform_outcome e msg)]).
Proof.
  intros Hi Hc Hm Hr. unfold program_of. rewrite Hi, Hc. case_bool_decide as Es.
  - eapply node_run_one; [apply transform_answers|by apply transform_identified|by rewrite Es|]. by apply node_run_leaf.
  - eapply node_run_end; [apply transform_answers|]. cbn. rewrite bool_decide_false by (intros [_ Hx]; by apply Es). reflexivity.
Qed.

Section HotLoading.
Variables (t : string) (x0 rest : X) (e1 es e2 : E).
Hypothesis number : float_parse "200" = Some t.
Hypothesis decodes : decodes_string "jsScript" mkJsTransformConf.
Hypothesis compiles1 : js_New (NewConfig []) (transform_source hot_script1) = Ok e1.
Hypothesis compiles_s : js_New (NewConfig []) (transform_source hot_script_s1) = Ok es.
Hypothesis compiles2 : js_New (NewConfig []) (transform_source hot_script2) = Ok e2.
Hypothesis registered : NewNode "restApiCall" (app_registry external custom) = Ok (AOther x0).
Hypothesis initialises : other_Init (NewConfig []) (rest_configuration "http://192.168.136.26:9099/api/msg" t) x0 = ROk rest.

Definition hot_program1 : program := program_of [transform_comp hot_script1 e1] hot_loading_def1.
Definition hot_program_s : program := program_of [transform_comp hot_script_s1 es] hot_loading_def1.
Definition hot_program2 : program := program_of [transform_comp hot_script2 e2; AOther rest] (hot_loading_def2 t).

Lemma hot_loads1 : load_program (NewConfig []) JsonParser hot_loading_chainJsonFile1 = ROk hot_program1 ∧
  runnable_text (NewConfig []) JsonParser hot_loading_chainJsonFile1 = true.
Proof.
  apply (load_program_text _ _ _ _ hot_loading_text1); [|reflexivity]. cbn [components hot_loading_def1 chain_def rc_Metadata md_Nodes].
  by rewrite (transform_loads _ _ _ _ _ e1).
Qed.
Lemma hot_loads_s :
  load_node (NewConfig []) JsonParser hot_loading_s1Node =
    ROk (string_node "s1" "jsTransform" "转换" "jsScript" hot_script_s1, transform_comp hot_script_s1 es).
Proof.
  unfold load_node. rewrite hot_loading_text_s1. simpl.
  pose proof (transform_loads (NewConfig []) 0 "s1" "转换" hot_script_s1 es eq_refl decodes ltac:(discriminate) compiles_s) as Hn.
  cbn [with_id string_node n_Id] in Hn. unfold with_id in Hn. rewrite bool_decide_false in Hn by done. by rewrite Hn.
Qed.
Lemma hot_loads2 : load_program (NewConfig []) JsonParser hot_loading_chainJsonFile2 = ROk hot_program2 ∧
  runnable_text (NewConfig []) JsonParser hot_loading_chainJsonFile2 = true.
Proof.
  apply (load_program_text _ _ _ _ (hot_loading_text2 t number)); [|reflexivity]. cbn [components hot_loading_def2 chain_def rc_Metadata md_Nodes].
  by rewrite (transform_loads _ _ _ _ _ e2), (rest_loads _ _ _ _ _ _ x0 rest).
Qed.

Lemma hot_reload_node OnMsg now uuid fuel pg :
  pg_ids pg = ["s1"] →
  spec_op (NewConfig []) JsonParser OnMsg now uuid fuel (OpReloadNode "s1" hot_loading_s1Node) pg =
    Some (Returned (ROk tt), replace_node 0 (transform_comp hot_script_s1 es) pg).
Proof.
  intros Hi. unfold spec_op, spec_reload_node.
  rewrite (bool_decide_false (hot_loading_s1Node = "")), (bool_decide_false ("s1" = "")), Hi by done. by rewrite hot_loads_s.
Qed.
Lemma hot_reload OnMsg now uuid fuel pg :
  spec_op (NewConfig []) JsonParser OnMsg now uuid fuel (OpReloadWith hot_loading_chainJsonFile2) pg = Some (Returned (ROk tt), hot_program2).
Proof. unfold spec_op, spec_reload. by rewrite (proj1 hot_loads2). Qed.

(** What the messages of [main] do; [T2] is what the service does with the last one. *)
Definition hot_loading_results (msg : RuleMsg) (T2 : list run_event) : list op_result :=
  [Events [Delivered "s1" msg; ended (transform_outcome e1 msg)]; Returned (ROk tt);
   Events [Delivered "s1" msg; ended (transform_outcome es msg)]; Returned (ROk tt);
   Events (Delivered "s1" msg ::
     if bool_decide ((transform_outcome e2 msg).2 = Success) then Delivered "s2" (transform_outcome e2 msg).1.1 :: T2
     else [ended (transform_outcome e2 msg)])].

Lemma hot_loading_interp env now uuid msg T2 :
  identified msg → leaf_events (other_OnMsg rest (transform_outcome e2 msg).1.1) = Some T2 →
  interp_ops (NewConfig []) JsonParser (app_OnMsg env) now uuid 2 (hot_loading_main msg) hot_program1 =
    Some (hot_loading_results msg T2, hot_program2).
Proof.
  intros Hm Hr.
  assert (∀ script e, first_run (app_OnMsg env) now uuid 2 (program_of [transform_comp script e] hot_loading_def1) msg =
    Some [Delivered "s1" msg; ended (transform_outcome e msg)]) as Hone.
  { intros script e. unfold first_run. cbn [program_first mbind option_bind]. rewrite RuleMsg_Copy_identified by done.
    eapply node_run_end; [apply transform_answers|reflexivity]. }
  unfold hot_loading_main, hot_program1. cbn [interp_ops interp_op]. rewrite Hone. cbn [mbind option_bind].
  rewrite hot_reload_node by done. cbn [mbind option_bind]. change (replace_node 0 _ _) with hot_program_s. unfold hot_program_s.
  rewrite Hone. cbn [mbind option_bind]. rewrite hot_reload. cbn [mbind option_bind].
  assert (first_run (app_OnMsg env) now uuid 2 hot_program2 msg = Some (Delivered "s1" msg ::
     if bool_decide ((transform_outcome e2 msg).2 = Success) then Delivered "s2" (transform_outcome e2 msg).1.1 :: T2
     else [ended (transform_outcome e2 msg)])) as ->; [|reflexivity].
  unfold first_run, hot_program2. cbn [program_first mbind option_bind]. rewrite RuleMsg_Copy_identified by done.
  by apply transform_then_service.
Qed.

(** C15. The program [hot_loading], end to end: reloading takes effect for the next message, without
    a restart.  [main] creates its engine, and the first message is transformed by the script
    of the text of the engine; the second, after the reload of node [s1], by the script of
    the new node text; the third, after the reload of the chain, by the script of the new
    chain, and is then passed to the service when the script succeeds, and only then,
    whatever the service tells.  Both reloads return no error.  This holds of every
    interleaving of the goroutines in which the messages come to rest within the second
    [main] waits before it reloads; and at each of the three places the message that
    is handed over does come to rest. *)
Theorem hot_loading_takes_effect env now uuid w engines msg T2 :
  w_pools w !! DefaultRuleGo = Some engines → engines !! "rule01" = None → plain_functions env → identified msg →
  leaf_events (other_OnMsg rest (transform_outcome e2 msg).1.1) = Some T2 →
  Forall (λ k, ∃ T, hot_loading_results msg T2 !! k = Some (Events T) ∧
      engine_handles (NewConfig []) (app_OnMsg env) now uuid hot_loading_engine
        (take k (hot_loading_main msg)) w (take k (hot_loading_results msg T2)) msg T)
    [0; 2; 4].
Proof.
  intros Hg He Hf Hm Hr. destruct hot_loads1 as [Hl Hrun]. pose proof (hot_loading_interp env now uuid msg T2 Hm Hr) as Hi.
  apply Forall_forall. intros k Hk.
  assert (hot_loading_main msg !! k = Some (OpMsg msg)) as Hmsg.
  { repeat (apply elem_of_cons in Hk as [->|Hk]; [reflexivity|]). by apply elem_of_nil in Hk. }
  destruct (interp_ops_before _ _ _ _ _ _ _ k _ _ _ _ Hi Hmsg) as (T & pg & HT & Hpre & Hrun1). exists T. split; [exact HT|].
  eapply (engine_handles_interp (C := app_Components) (NewConfig []) JsonParser (app_OnMsg env) now uuid eq_refl (λ c m, app_plain env c m Hf) eq_refl
    DefaultRuleGo "rule01" hot_loading_chainJsonFile1 w engines hot_program1 (take k (hot_loading_main msg)) 2);
    [exact Hg|discriminate|discriminate|exact He|exact Hl|exact Hrun| |exact Hpre|exact Hrun1].
  apply Forall_take. unfold hot_loading_main. rewrite !Forall_cons, Forall_nil.
  split_and!; [reflexivity| |reflexivity|apply hot_loads2|reflexivity|exact I].
  unfold runnable_op. rewrite bool_decide_false by done. by rewrite hot_loads_s.
Qed.

End HotLoading.

(** ** [msg_type_switch] *)

Definition msg_type_switch_chainJsonFile : string := go_text "
{
  `ruleChain`: {
	`id`:`rule01`,
    `name`: `测试规则链-msgTypeSwitch`,
    `root`: true
  },
  `metadata`: {
    `nodes`: [
      {
        `id`: `s1`,
        `type`: `msgTypeSwitch`,
        `name`: `过滤`,
        `debugMode`: true
      },
      {
        `id`: `s2`,
        `type`: `log`,
        `name`: `记录日志1`,
        `debugMode`: true,
        `configuration`: {
          `jsScript`: `return 'handle msgType='+ msgType+':s2';`
        }
      },
      {
        `id`: `s3`,
        `type`: `log`,
        `name`: `记录日志2`,
        `debugMode`: true,
        `configuration`: {
          `jsScript`: `return 'handle msgType='+ msgType+':s3';`
        }
      },
      {
        `id`: `s4`,
        `type`: `log`,
        `name`: `记录日志3`,
        `debugMode`: true,
        `configuration`: {
          `jsScript`: `return 'handle msgType='+ msgType+':s4';`
        }
      }
    ],
    `connections`: [
      {
        `fromId`: `s1`,
        `toId`: `s2`,
        `type`: `TEST_MSG_TYPE1`
      },
      {
        `fromId`: `s1`,
        `toId`: `s3`,
        `type`: `TEST_MSG_TYPE1`
      },
      {
        `fromId`: `s1`,
        `toId`: `s4`,
        `type`: `TEST_MSG_TYPE2`
      }
    ]
  }
}
".
Definition msg_type_switch_main : M nat :=
  create (NewConfig []) DefaultRuleGo "rule01" msg_type_switch_chainJsonFile.
Definition msg_type_switch_msg (now : Z) (uuid uuid' : string) (type : string) : RuleMsg :=
  NewMsg now uuid uuid' 0 type JSON (Metadata_PutValue NewMetadata "productType" "test01") (go_text "{`temperature`:41}").

Definition switch_script (s : string) : string := "return 'handle msgType='+ msgType+':" +:+ s +:+ "';".
Definition msg_type_switch_def : RuleChainDef :=
  chain_def "rule01" "测试规则链-msgTypeSwitch" true 0
    [mkRuleNode "s1" zero_info "msgTypeSwitch" "过滤" true None;
     string_node "s2" "log" "记录日志1" "jsScript" (switch_script "s2");
     string_node "s3" "log" "记录日志2" "jsScript" (switch_script "s3");
     string_node "s4" "log" "记录日志3" "jsScript" (switch_script "s4")]
    [mkConnection "s1" "s2" "TEST_MSG_TYPE1"; mkConnection "s1" "s3" "TEST_MSG_TYPE1"; mkConnection "s1" "s4" "TEST_MSG_TYPE2"].

Lemma msg_type_switch_text : parse_chain JsonParser msg_type_switch_chainJsonFile = Ok (some_nodes msg_type_switch_def).
Proof. eapply parse_chain_text; [vm_compute; reflexivity|vm_compute; reflexivity]. Qed.

(** The program [msg_type_switch], end to end: as its comments say, the first type finds
    two nodes, the second one, and any other type ends at the switch. *)
Theorem msg_type_switch_routes e2 e3 e4 env now uuid w engines msg :
  decodes_string "jsScript" mkLogConf →
  js_New (NewConfig []) (log_source (switch_script "s2")) = Ok e2 → js_New (NewConfig []) (log_source (switch_script "s3")) = Ok e3 →
  js_New (NewConfig []) (log_source (switch_script "s4")) = Ok e4 →
  w_pools w !! DefaultRuleGo = Some engines → engines !! "rule01" = None → plain_functions env → identified msg →
  engine_handles (NewConfig []) (app_OnMsg env) now uuid msg_type_switch_main [] w [] msg
    (Delivered "s1" msg ::
     if bool_decide (m_Type msg = "TEST_MSG_TYPE1") then
       [Delivered "s2" msg; ended (log_outcome e2 msg); Delivered "s3" msg; ended (log_outcome e3 msg)]
     else if bool_decide (m_Type msg = "TEST_MSG_TYPE2") then [Delivered "s4" msg; ended (log_outcome e4 msg)]
     else [Ended msg None (m_Type msg)]).
Proof.
  intros Dl He2 He3 He4 Hg He Hf Hm.
  assert (∀ c m, forallb plain_call (app_OnMsg env c m) = true) as Hp by (intros; by apply app_plain).
  assert (components (NewConfig []) 0 (md_Nodes (rc_Metadata msg_type_switch_def)) =
    ROk [ABuiltin BMsgTypeSwitch; log_comp (switch_script "s2") e2; log_comp (switch_script "s3") e3; log_comp (switch_script "s4") e4]) as Hcs.
  { cbn [components msg_type_switch_def chain_def rc_Metadata md_Nodes].
    assert (new_component (NewConfig []) (with_id 0 (mkRuleNode "s1" zero_info "msgTypeSwitch" "过滤" true None)) = ROk (ABuiltin BMsgTypeSwitch)) as ->.
    { unfold new_component. change (n_Type (with_id 0 _)) with (builtin_Type (E := E) BMsgTypeSwitch). cbn [comp_NewNode app_Components].
      by rewrite app_NewNode by (simpl; set_solver). }
    by rewrite (log_loads _ _ _ _ _ e2), (log_loads _ _ _ _ _ e3), (log_loads _ _ _ _ _ e4). }
  destruct (load_program_text (NewConfig []) _ _ _ msg_type_switch_text Hcs eq_refl) as [Hl Hrun].
  eapply (engine_handles_first (C := app_Components) (NewConfig []) JsonParser (app_OnMsg env) _ _ eq_refl Hp eq_refl DefaultRuleGo "rule01" msg_type_switch_chainJsonFile w engines _ 2 (NCnode 0) msg);
    [exact Hg|discriminate|discriminate|exact He|exact Hl|exact Hrun|reflexivity|].
  rewrite RuleMsg_Copy_identified by done.
  case_bool_decide as Ht1; [|case_bool_decide as Ht2].
  - etransitivity.
    + eapply node_run_two with (n1 := NCnode 1) (n2 := NCnode 2); [reflexivity|done|by cbn; rewrite Ht1|..];
        (eapply node_run_end; [apply log_answers|reflexivity]).
    + reflexivity.
  - eapply node_run_one; [reflexivity|done|by cbn; rewrite Ht2|]. eapply node_run_end; [apply log_answers|reflexivity].
  - eapply node_run_end; [reflexivity|]. cbn. rewrite !bool_decide_false by (intros [_ ?]; congruence). reflexivity.
Qed.

(** ** [js_transform]

    Two engines: a transform on its own, and one that calls the service. *)

Definition js_transform_chainJsonFile1 : string := go_text "
{
  `ruleChain`: {
	`id`:`rule01`,
    `name`: `测试规则链`,
    `root`: true
  },
  `metadata`: {
    `nodes`: [
       {
        `id`: `s1`,
        `type`: `jsTransform`,
        `name`: `转换`,
        `debugMode`: true,
        `configuration`: {
          `jsScript`: `metadata['name']='test01';\n metadata['index']=11;\n msg['addField']='addValue1'; return {'msg':msg,'metadata':metadata,'msgType':msgType};`
        }
      }
    ],
    `connections`: [
    ]
  }
}
".
Definition js_transform_chainJsonFile2 : string := go_text "
{
  `ruleChain`: {
    `id`:`rule02`,
    `name`: `测试规则链`,
    `root`: true
  },
  `metadata`: {
    `nodes`: [
       {
        `id`: `s1`,
        `type`: `jsTransform`,
        `name`: `转换`,
        `debugMode`: true,
        `configuration`: {
          `jsScript`: `metadata['name']='test02';\n metadata['index']=22;\n msg['addField']='addValue2'; return {'msg':msg,'metadata':metadata,'msgType':msgType};`
        }
      },
      {
        `id`: `s2`,
        `type`: `restApiCall`,
        `name`: `推送数据`,
        `debugMode`: true,
        `configuration`: {
          `restEndpointUrlPattern`: `http://192.168.136.26:9099/api/msg`,
          `requestMethod`: `POST`,
          `maxParallelRequestsCount`: 200
        }
      }
    ],
    `connections`: [
      {
        `fromId`: `s1`,
        `toId`: `s2`,
        `type`: `Success`
      }
    ]
  }
}
".
Definition js_transform_engine1 : M nat :=
  create (NewConfig []) DefaultRuleGo "rule01" js_transform_chainJsonFile1.
Definition js_transform_engine2 : M nat :=
  create (NewConfig []) DefaultRuleGo "rule02" js_transform_chainJsonFile2.

Definition js_transform_def1 : RuleChainDef :=
  chain_def "rule01" "测试规则链" true 0 [string_node "s1" "jsTransform" "转换" "jsScript" hot_script1] [].
Definition js_transform_def2 (t : string) : RuleChainDef :=
  chain_def "rule02" "测试规则链" true 0
    [string_node "s1" "jsTransform" "转换" "jsScript" hot_script2; rest_node "s2" "推送数据" "http://192.168.136.26:9099/api/msg" t]
    [mkConnection "s1" "s2" "Success"].
Lemma js_transform_text1 : parse_chain JsonParser js_transform_chainJsonFile1 = Ok (some_nodes js_transform_def1).
Proof. eapply parse_chain_text; [vm_compute; reflexivity|vm_compute; reflexivity]. Qed.
Lemma js_transform_text2 t : float_parse "200" = Some t → parse_chain JsonParser js_transform_chainJsonFile2 = Ok (some_nodes (js_transform_def2 t)).
Proof. intros Ht. eapply parse_chain_text; [vm_compute; reflexivity|]. vm_compute in Ht |- *. rewrite Ht. reflexivity. Qed.

(** The program [js_transform], end to end. *)
Theorem js_transform_runs t x0 rest e1 e2 env now uuid w engines msg T2 :
  float_parse "200" = Some t → decodes_string "jsScript" mkJsTransformConf →
  js_New (NewConfig []) (transform_source hot_script1) = Ok e1 → js_New (NewConfig []) (transform_source hot_script2) = Ok e2 →
  NewNode "restApiCall" (app_registry external custom) = Ok (AOther x0) →
  other_Init (NewConfig []) (rest_configuration "http://192.168.136.26:9099/api/msg" t) x0 = ROk rest →
  w_pools w !! DefaultRuleGo = Some engines → engines !! "rule01" = None → engines !! "rule02" = None → plain_functions env → identified msg →
  leaf_events (other_OnMsg rest (transform_outcome e2 msg).1.1) = Some T2 →
  engine_handles (NewConfig []) (app_OnMsg env) now uuid js_transform_engine1 [] w [] msg [Delivered "s1" msg; ended (transform_outcome e1 msg)] ∧
  engine_handles (NewConfig []) (app_OnMsg env) now uuid js_transform_engine2 [] w [] msg
    (Delivered "s1" msg ::
     if bool_decide ((transform_outcome e2 msg).2 = Success) then Delivered "s2" (transform_outcome e2 msg).1.1 :: T2
     else [ended (transform_outcome e2 msg)]).
Proof.
  intros Ht Hd He1 He2 Hx0 Hx Hg Hr1 Hr2 Hf Hm Ho.
  assert (∀ c m, forallb plain_call (app_OnMsg env c m) = true) as Hp by (intros; by apply app_plain). split.
  - destruct (load_program_text (NewConfig []) _ _ [transform_comp hot_script1 e1] js_transform_text1) as [Hl Hrun].
    { cbn [components js_transform_def1 chain_def rc_Metadata md_Nodes]. by rewrite (transform_loads _ _ _ _ _ e1). }
    { reflexivity. }
    eapply (engine_handles_first (C := app_Components) (NewConfig []) JsonParser (app_OnMsg env) _ _ eq_refl Hp eq_refl DefaultRuleGo "rule01" js_transform_chainJsonFile1 w engines _ 1 (NCnode 0) msg);
      [exact Hg|discriminate|discriminate|exact Hr1|exact Hl|exact Hrun|reflexivity|].
    rewrite RuleMsg_Copy_identified by done. eapply node_run_end; [apply transform_answers|reflexivity].
  - destruct (load_program_text (NewConfig []) _ _ [transform_comp hot_script2 e2; AOther rest] (js_transform_text2 t Ht)) as [Hl Hrun].
    { cbn [components js_transform_def2 chain_def rc_Metadata md_Nodes]. by rewrite (transform_loads _ _ _ _ _ e2), (rest_loads _ _ _ _ _ _ x0 rest). }
    { reflexivity. }
    eapply (engine_handles_first (C := app_Components) (NewConfig []) JsonParser (app_OnMsg env) _ _ eq_refl Hp eq_refl DefaultRuleGo "rule02" js_transform_chainJsonFile2 w engines _ 2 (NCnode 0) msg);
      [exact Hg|discriminate|discriminate|exact Hr2|exact Hl|exact Hrun|reflexivity|].
    rewrite RuleMsg_Copy_identified by done. by apply transform_then_service.
Qed.
End Programs.

(** ** The programs at work *)

Module ProgramsExample.
Import Samples ChainRuntimeExample NodeSamples JsonExamples RestApiExample.

(** A script is its source and writes it into the message type; a struct with a string
    field is filled from the configuration; the service answers every call twice. *)
#[local] Instance scripts : JsEngine string := {|
  js_New := λ _ src, Ok src;
  js_Execute := λ f args e, (Ok (VMap [(MsgTypeKey, VString e)]), args, e)
|}.
#[local] Instance no_expr : ExprLang := {| ExprProgram := unit; expr_Compile := λ _ _, Ok tt; expr_Run := λ _ _, Ok VNil |}.
Definition fill {A} (key : string) (mk : string → A) : Decode A :=
  λ configuration d, match configuration !! key with Some (VString s) => (None, mk s) | _ => (None, d) end.
#[local] Instance fill_functions : Decode FunctionsNodeConfiguration := fill "functionName" mkFunctionsConf.
#[local] Instance fill_transform : Decode JsTransformNodeConfiguration := fill "jsScript" mkJsTransformConf.
#[local] Instance keep {A} : Decode A | 100 := λ _ d, (None, d).
#[local] Instance rest_class : NodeClass unit := {| node_Type := λ _, "restApiCall"; node_New := λ _, tt |}.
Definition service_Init (config : Config) (configuration : Configuration) (x : unit) : res unit := ROk tt.
Definition service_OnMsg (x : unit) (msg : RuleMsg) : list call := [TellSuccess msg; TellFailure msg (Some "late")].

Lemma fills {A} key (mk : string → A) : decodes_string (DA := fill key mk) key mk.
Proof. intros s d. unfold Map2Struct, fill. by rewrite lookup_singleton_eq. Qed.

Lemma functions_node_main_witness :
  let msg := functions_node_msg 1 "m1" "" in
  engine_handles (C := app_Components service_Init [tt] []) (P := app_Parsers no_json syntax sampleParsers) (functions_node_config 0) (app_OnMsg service_OnMsg (functions_node_env 2 "u")) 2 "u"
    (functions_node_init (E := string) no_json syntax sampleParsers service_Init [tt] [] 0) [] initialWorld [] msg
    [Delivered "s1" msg; Delivered "s2" msg;
     Delivered "s3" msg; Ended (set_Data (go_text "{`handleMsgAdd`:`handleMsgAddValue`}") msg) None Success;
     Delivered "s4" msg; Ended msg None Success].
Proof.
  apply (functions_node_main no_json syntax sampleParsers service_Init service_OnMsg) with (engines := ∅).
  - reflexivity.
  - apply fills.
  - reflexivity.
  - reflexivity.
  - reflexivity.
  - discriminate.
Defined.

(** The message of [hot_loading]: what each version of the program makes of it. *)
Definition hot_msg : RuleMsg := hot_loading_msg 1 "m1" "".
Definition hot_out (script : string) : RuleMsg := set_Type (transform_source script) hot_msg.
Definition hot_first : list run_event := [Delivered "s1" hot_msg; Ended (hot_out hot_script1) None Success].
Definition hot_second : list run_event := [Delivered "s1" hot_msg; Ended (hot_out hot_script_s1) None Success].
Definition hot_third : list run_event :=
  [Delivered "s1" hot_msg; Delivered "s2" (hot_out hot_script2); Ended (hot_out hot_script2) None Success;
   Ended (hot_out hot_script2) (Some "late") Failure].
Definition hot_phase (k : nat) (rs : list op_result) (T : list run_event) : Prop :=
  engine_handles (C := app_Components service_Init [tt] []) (P := app_Parsers no_json syntax sampleParsers) (NewConfig []) (app_OnMsg service_OnMsg (functions_node_env 2 "u")) 2 "u"
    (hot_loading_engine (E := string) no_json syntax sampleParsers service_Init [tt] []) (take k (hot_loading_main hot_msg))
    initialWorld rs hot_msg T.

Lemma hot_loading_takes_effect_witness :
  hot_phase 0 [] hot_first ∧
  hot_phase 2 [Events hot_first; Returned (ROk tt)] hot_second ∧
  hot_phase 4 [Events hot_first; Returned (ROk tt); Events hot_second; Returned (ROk tt)] hot_third.
Proof.
  pose proof (hot_loading_takes_effect no_json syntax sampleParsers service_Init service_OnMsg ltac:(reflexivity) [tt] [] "200" tt tt
    (transform_source hot_script1) (transform_source hot_script_s1) (transform_source hot_script2)
    eq_refl (fills _ _) eq_refl eq_refl eq_refl ltac:(vm_compute; reflexivity) eq_refl
    (functions_node_env 2 "u") 2 "u" initialWorld ∅ hot_msg
    [Ended (hot_out hot_script2) None Success; Ended (hot_out hot_script2) (Some "late") Failure]) as H.
  assert (Forall (λ k, ∃ T, hot_loading_results (transform_source hot_script1) (transform_source hot_script_s1) (transform_source hot_script2)
      hot_msg [Ended (hot_out hot_script2) None Success; Ended (hot_out hot_script2) (Some "late") Failure] !! k = Some (Events T) ∧
      hot_phase k (take k (hot_loading_results (transform_source hot_script1) (transform_source hot_script_s1) (transform_source hot_script2)
        hot_msg [Ended (hot_out hot_script2) None Success; Ended (hot_out hot_script2) (Some "late") Failure])) T) [0; 2; 4]) as HF.
  { apply H.
    - reflexivity.
    - reflexivity.
    - apply functions_node_plain.
    - split; [reflexivity|discriminate].
    - reflexivity. }
  rewrite !Forall_cons in HF. destruct HF as ((T0 & E0 & P0) & (T1 & E1 & P1) & (T2 & E2 & P2) & _).
  injection E0 as <-. injection E1 as <-. injection E2 as <-. split; [exact P0|]. split; [exact P1|exact P2].
Defined.
End ProgramsExample.
