(* ===== verification/Plugin.v ===== *)
(** * A plugin, end to end

    The plugin of [src/examples/plugin]: its components, and the program that registers it
    and runs a chain of them. *)

From S2P Require Import Prelude GoStrings Value Str Msg Config Registry Dsl World Node Chain ChainProps Engine RuleCtx ChainRuntime CtxProps CtxDelivery RuntimeSim JsEngine NodeApi.
From S2P Require Import Filters Actions Transforms GroupProtocol Groups GroupAction Flow Builtin JsonText JsonParse JsonValue DslJson JsonEngine ChainProgram ChainRun Programs.
From Stdlib Require Import Ascii String.

(** ** The components ([my_plugin.go]) *)

Inductive PluginNode : Type := UpperNode | TimeNode | FilterNode (blacklist : option (gmap string bool)).

Definition plugin_Type (n : PluginNode) : string :=
  match n with UpperNode => "test/upper" | TimeNode => "test/time" | FilterNode _ => "test/filter" end.
Definition plugin_New (n : PluginNode) : PluginNode :=
  match n with UpperNode => UpperNode | TimeNode => TimeNode | FilterNode _ => FilterNode None end.
#[export] Instance plugin_NodeClass : NodeClass PluginNode := {| node_Type := plugin_Type; node_New := plugin_New |}.
Definition plugin_Init (ruleConfig : Config) (configuration : Configuration) (n : PluginNode) : res PluginNode := ROk n.

Definition UpperNode_OnMsg (msg : RuleMsg) : list call := [TellSuccess (set_Data (ToUpper (m_Data msg)) msg)].
(** [stamp]: the time, as the node formats it. *)
Definition TimeNode_OnMsg (stamp : string) (msg : RuleMsg) : list call :=
  [TellSuccess (set_Metadata (Metadata_PutValue (m_Metadata msg) "timestamp" stamp) msg)].
(** A nil map has no entries. *)
Definition FilterNode_OnMsg (blacklist : option (gmap string bool)) (msg : RuleMsg) : list call :=
  let listed key := default false (default ∅ blacklist !! key) in
  if listed (m_Type msg) || listed (m_DataType msg) then [] else [TellNext msg []].

Definition plugin_OnMsg (stamp : string) (n : PluginNode) (msg : RuleMsg) : list call :=
  match n with
  | UpperNode => UpperNode_OnMsg msg
  | TimeNode => TimeNode_OnMsg stamp msg
  | FilterNode blacklist => FilterNode_OnMsg blacklist msg
  end.
Definition MyPlugins_Components : list PluginNode := [UpperNode; TimeNode; FilterNode None].

Lemma plugin_plain stamp n msg : forallb plain_call (plugin_OnMsg stamp n msg) = true.
Proof. destruct n; try done. simpl. unfold FilterNode_OnMsg. by case_match. Qed.

(** ** The filter *)

(** The filter passes nothing on: it tells without a relation type, which ends the
    branch whatever the chain connects to it, and a message on its list is left without an answer. *)
Theorem FilterNode_never_forwards `{C : Components} (OnMsg : Comp → RuleMsg → list call) now uuid pg depth i c blacklist msg T :
  pg_comps pg !! i = Some c → OnMsg c msg = FilterNode_OnMsg blacklist msg →
  node_run OnMsg now uuid pg depth (NCnode i) msg = Some T →
  T = [Delivered (program_name pg (NCnode i)) msg; Ended msg None ""] ∨
  T = [Delivered (program_name pg (NCnode i)) msg] ∧ answers (OnMsg c msg) = false.
Proof.
  intros Hc Ho HT. destruct depth as [|depth]; [done|]. cbn [node_run ProgramRuntime rt_OnMsg] in HT. rewrite Hc in HT.
  rewrite Ho in *. unfold FilterNode_OnMsg in *. destruct (_ || _); simpl in HT; simplify_eq; auto.
Qed.

(** ** The program ([test_plugin.go]) *)

Definition plugin_chainJsonFile : string := go_text "
	{
	  `ruleChain`: {
		`name`: `测试规则链`,
		`root`: true
	  },
	  `metadata`: {
		`nodes`: [
		  {
			`id`:`s1`,
			`type`: `test/upper`,
			`name`: `转大写`,
			`debugMode`: true
		  },
		  {
			`id`:`s2`,
			`type`: `test/time`,
			`name`: `增加时间`,
			`debugMode`: true
		  }
		],
		`connections`: [
		  {
			`fromId`: `s1`,
			`toId`: `s2`,
			`type`: `Success`
		  }
		]
	  }
	}
".
Section Plugin.
Context `{J : Json} {E : Type} `{JE : JsEngine E} `{EX : ExprLang} `{MR : MapRange}.
Context `{Decode JsFilterNodeConfiguration} `{Decode ExprFilterNodeConfiguration} `{Decode FieldFilterNodeConfiguration}
  `{Decode JsSwitchNodeConfiguration} `{Decode GroupFilterNodeConfiguration} `{Decode LogNodeConfiguration}
  `{Decode FunctionsNodeConfiguration} `{Decode IteratorNodeConfiguration} `{Decode DelayNodeConfiguration}
  `{Decode GroupActionNodeConfiguration} `{Decode JsTransformNodeConfiguration}
  `{Decode ExprTransformNodeConfiguration} `{Decode ChainNodeConfiguration} `{NA : NodeAspects}.
Context `{FT : FloatText} (to_json_other : value → result json) (syntax_error : string → string) (other : Parsers).
Abbreviation Node := (AppNode (E := E) (X := PluginNode)).
(** [plugin.Open] and [Lookup] *)
Variable plugin_Open : string → result (string → result (option (list Node))).

(** The registry as [main] leaves it. *)
Definition plugin_registry : error * RuleComponentRegistry (Node := Node) :=
  RegisterPlugin plugin_Open "test" "./plugin.so" (Unregister "test" (app_registry [] [])).2.

#[local] Instance plugin_Components : Components := {|
  Comp := Node;
  comp_NewNode := λ _ t, NewNode t plugin_registry.2;
  comp_Init := λ config configuration n,
    match n with
    | ABuiltin n => let! n := to_res (builtin_Init config configuration n) in ROk (ABuiltin n)
    | AOther x => let! x := plugin_Init config configuration x in ROk (AOther x)
    end
|}.
#[local] Instance plugin_Parsers : Parsers := json_parsers to_json_other syntax_error other.

Definition plugin_main (id : string) : M nat := create (NewConfig []) DefaultRuleGo id plugin_chainJsonFile.
Definition plugin_msg (now : Z) (uuid uuid' : string) : RuleMsg :=
  NewMsg now uuid uuid' 0 "TEST_MSG_TYPE" JSON (Metadata_PutValue (BuildMetadata ∅) "productType" "test01") "aa".

Definition plugin_def : RuleChainDef :=
  chain_def "" "测试规则链" true 0
    [mkRuleNode "s1" zero_info "test/upper" "转大写" true None; mkRuleNode "s2" zero_info "test/time" "增加时间" true None]
    [mkConnection "s1" "s2" "Success"].

Lemma plugin_text : parse_chain JsonParser plugin_chainJsonFile = Ok (some_nodes plugin_def).
Proof. eapply parse_chain_text; [vm_compute; reflexivity|vm_compute; reflexivity]. Qed.
Section Loaded.
Variable symbols : string → result (option (list Node)).
Hypothesis opens : plugin_Open "./plugin.so" = Ok symbols.
Hypothesis exported : symbols PluginsSymbol = Ok (Some (AOther <$> MyPlugins_Components)).

(** The plugin is registered, next to the components that were there. *)
Lemma plugin_registered :
  plugin_registry.1 = None ∧
  (∀ n, n ∈ MyPlugins_Components → NewNode (plugin_Type n) plugin_registry.2 = Ok (AOther n)) ∧
  (∀ n, n ∈ builtin_prototypes → NewNode (builtin_Type n) plugin_registry.2 = Ok (ABuiltin n)).
Proof.
  assert (PluginComponentRegistry_Init plugin_Open (mkBuilder "test" "./plugin.so" None) =
    (None, mkBuilder "test" "./plugin.so" (Some (AOther <$> MyPlugins_Components)))) as Hinit.
  { unfold PluginComponentRegistry_Init, loadPlugin. cbn. rewrite opens. cbn. by rewrite exported. }
  unfold plugin_registry, RegisterPlugin. rewrite Hinit.
  split_and!; [vm_compute; reflexivity|..]; intros n Hn; repeat (apply elem_of_cons in Hn as [->|Hn]; [vm_compute; reflexivity|]);
    by apply elem_of_nil in Hn.
Qed.

Lemma plugin_loads index id name n :
  id ≠ "" → n ∈ MyPlugins_Components →
  new_component (NewConfig []) (with_id index (mkRuleNode id zero_info (plugin_Type n) name true None)) = ROk (AOther n).
Proof.
  intros Hid Hn. unfold new_component, with_id. cbn [n_Id]. rewrite bool_decide_false by done. cbn [n_Type comp_NewNode plugin_Components].
  by rewrite (proj1 (proj2 plugin_registered)).
Qed.

(** The program [plugin], end to end: the plugin registers, its components are found by the
    chain, and the message comes out in upper case with the time in its metadata. *)
Theorem plugin_runs stamp env id now uuid w engines msg :
  w_pools w !! DefaultRuleGo = Some engines → id ≠ "" → engines !! id = None → plain_functions env → identified msg →
  let upper := set_Data (ToUpper (m_Data msg)) msg in
  plugin_registry.1 = None ∧
  engine_handles (NewConfig []) (app_OnMsg (plugin_OnMsg stamp) env) now uuid (plugin_main id) [] w [] msg
    [Delivered "s1" msg; Delivered "s2" upper;
     Ended (set_Metadata (Metadata_PutValue (m_Metadata msg) "timestamp" stamp) upper) None Success].
Proof.
  intros Hg Hid He Hf Hm upper. split; [apply plugin_registered|].
  assert (components (NewConfig []) 0 (md_Nodes (rc_Metadata plugin_def)) = ROk [AOther UpperNode; AOther TimeNode]) as Hcs.
  { cbn [components plugin_def chain_def rc_Metadata md_Nodes].
    by rewrite (plugin_loads 0 "s1" _ UpperNode), (plugin_loads 1 "s2" _ TimeNode) by (done || set_solver). }
  assert (load_chain (NewConfig []) JsonParser plugin_chainJsonFile = ROk plugin_def) as Hc.
  { apply load_chain_ok. rewrite Hcs. split; [exact plugin_text|]. split; [done|simpl; lia]. }
  eapply (engine_handles_first (C := plugin_Components) (NewConfig []) JsonParser (app_OnMsg (plugin_OnMsg stamp) env) _ _ eq_refl
    (λ c m, app_plain _ (plugin_plain stamp) env c m Hf) eq_refl DefaultRuleGo id plugin_chainJsonFile w engines
    (program_of (C := plugin_Components) [AOther UpperNode; AOther TimeNode] plugin_def) 2 (NCnode 0) msg);
    [exact Hg|discriminate|exact Hid|exact He| | |reflexivity|].
  - unfold load_program. rewrite Hc. cbn [res_bind]. by rewrite Hcs.
  - unfold runnable_text. by rewrite Hc.
  - rewrite RuleMsg_Copy_identified by done. eapply node_run_one; [reflexivity|done|reflexivity|].
    eapply node_run_end; reflexivity.
Qed.

End Loaded.
End Plugin.
