(* ===== verification/HttpRoutes.v ===== *)
(** * The routes of an HTTP program ([src/examples/http_endpoint/http_endpoint.go])

    A program that gives seven routers to an HTTP endpoint: a greeting, and six that hand
    the request to a rule chain or to a component.  Its processors are the ones
    [Endpoint] runs, on the messages of [Rest]. *)

From Stdlib Require Import Ascii.
From S2P Require Import Prelude GoStrings Value Str Msg Config Dsl World Node Engine RuleCtx JsEngine NodeApi Registry Mime Endpoint HttpApi Rest Samples.

Section HttpRoutes.
Context `{C : Components} `{J : Json} `{MR : MapRange} {Rq W : Type} `{HttpRequest Rq} `{ResponseWriter W} `{HR : HttpRouter}.
(** [r.Method] of a request *)
Variable rq_Method : Rq → string.
Variable now : Z.
Variable uuid : string.

Local Abbreviation Request := (@RequestMessage Rq).
Local Abbreviation Response := (@ResponseMessage Rq W).
#[local] Instance http_request_ops : MessageOps Request := RequestMessage_ops now uuid.
#[local] Instance http_response_ops : MessageOps Response := ResponseMessage_ops.
Local Abbreviation exchange := (Exchange Request Response).

(** ** Processors *)

Definition nil_pointer : string := "invalid memory address or nil pointer dereference".
Definition lf : string := String (ascii_of_nat 10) "".

Definition put_out (f : Response → Response) (ex : exchange) : exchange := mkExchange (ex_In ex) (f (ex_Out ex)).
(** [exchange.Out.Headers().Set("Content-Type", "application/json")] *)
Definition json_type (o : Response) : Response :=
  mkResponse (rs_request o) ((λ w, rw_PutHeader (Header_Set "Content-Type" "application/json" (rw_Header w)) w) <$> rs_response o)
    (rs_body o) (rs_msg o) (rs_err o).
(** [exchange.In.Headers().Get(key)] *)
Definition in_header (key : string) (ex : exchange) : string := Header_Get key (default ∅ (Headers (ex_In ex)).1).

(** The interceptor *)
Definition check_user (ex : exchange) : verdict * exchange :=
  (if bool_decide (in_header "userId" ex = "blacklist") then StopHere else GoOn, ex).

(** The greeting; over HTTP the input is a request message. *)
Definition hello_s1 (ex : exchange) : verdict * exchange :=
  match rm_request (ex_In ex) with
  | None => (PPanic nil_pointer, ex)
  | Some q =>
      if bool_decide (rq_Method q ≠ "GET") then (StopHere, put_out (SetStatusCode 405) ex)
      else
        let ex := put_out json_type ex in
        let ex := put_out (SetBody (From_ (ex_In ex) +:+ lf)) ex in
        let ex := put_out (SetBody ("s1 process" +:+ lf)) ex in
        let '(m, ex) := in_GetMsg ex in
        match m with
        | None => (PPanic nil_pointer, ex)
        | Some msg => (if bool_decide (Metadata_GetValue (m_Metadata msg) "name" = "break") then StopHere else GoOn, ex)
        end
  end.
Definition hello_s2 (ex : exchange) : verdict * exchange := (GoOn, put_out (SetBody ("s2 process" +:+ lf)) ex).

(** [msg.Type = msg.Metadata.GetValue("msgType")], on the message of the request *)
Definition take_type (ex : exchange) : verdict * exchange :=
  let '(m, ex) := in_GetMsg ex in
  match m with
  | None => (PPanic nil_pointer, ex)
  | Some msg => (GoOn, mkExchange (SetMsg (set_Type (Metadata_GetValue (m_Metadata msg) "msgType") msg) (ex_In ex)) (ex_Out ex))
  end.
Definition take_user (ex : exchange) : verdict * exchange :=
  match take_type ex with
  | (GoOn, ex) =>
      let userId := in_header "userId" ex in
      let userId := if bool_decide (userId = "") then "default" else userId in
      let '(m, ex) := in_GetMsg ex in
      match m with
      | None => (PPanic nil_pointer, ex)
      | Some msg => (GoOn, mkExchange (SetMsg (set_Metadata (Metadata_PutValue (m_Metadata msg) "userId" userId) msg) (ex_In ex)) (ex_Out ex))
      end
  | stop => stop
  end.
Definition answer_ok (ex : exchange) : verdict * exchange := (GoOn, put_out (SetBody "ok") (put_out json_type ex)).
Definition do_nothing (ex : exchange) : verdict * exchange := (GoOn, ex).

(** The data of the outgoing message, which may be nil. *)
Definition answer_data (ex : exchange) : verdict * exchange :=
  match rs_msg (ex_Out ex) with
  | None => (PPanic nil_pointer, put_out json_type ex)
  | Some outMsg => (GoOn, put_out (SetBody (m_Data outMsg)) (put_out json_type ex))
  end.
Definition answer_result (ex : exchange) : verdict * exchange :=
  match GetError (ex_Out ex) with
  | Some err => (GoOn, put_out (SetBody err) (put_out (SetStatusCode 400) ex))
  | None => answer_data ex
  end.

Definition http_process (p : nat) (ex : exchange) : verdict * exchange :=
  match p with
  | 0 => check_user ex
  | 1 => hello_s1 ex
  | 2 => hello_s2 ex
  | 3 => take_user ex
  | 4 => answer_ok ex
  | 5 => answer_result ex
  | 6 => take_type ex
  | 7 => do_nothing ex
  | _ => answer_data ex
  end.

(** ** Routers *)

Variable custom_IsPathSupportVar : nat → bool.
Variable custom_Init : nat → Config → Configuration → error.

(** [NewRouter().From(path)] and processors, and then the target *)
Definition from_router (path : string) (ps : list nat) (to : From → outcome From) : outcome Router :=
  let r := Router_From path [] (NewRouter []) in
  match rt_from r with
  | None => Panics nil_pointer
  | Some f => match to (foldl (λ f p, From_Process p f) f ps) with
              | Returns f => Returns (mkRouter (Some f) (rt_RuleGo r) (rt_Config r) (rt_disable r))
              | Panics why => Panics why
              end
  end.
Definition to_target (to : string) (configs : list Configuration) (f : From) : outcome From :=
  From_To custom_IsPathSupportVar custom_Init DefaultExecutorFactory (NewConfig []) to configs f.
(** [.Wait().Process(p)] *)
Definition wait_process (p : nat) (f : From) : From :=
  mkFrom (from_Config f) (from_From f) (from_processList f) ((λ t, To_Process p (To_Wait t)) <$> from_to f).
Definition and_then (k : From → From) (o : outcome From) : outcome From :=
  match o with Returns f => Returns (k f) | Panics why => Panics why end.

Definition http_router1 : outcome Router := from_router "/api/v1/hello/:name" [1; 2] Returns.
Definition http_router2 : outcome Router := from_router "/api/v1/msg2Chain1/:msgType" [] (to_target "chain:default" []).
Definition http_router3 : outcome Router := from_router "/api/v1/msg2Chain2/:msgType" [3] (to_target "chain:${userId}" []).
Definition http_router4 : outcome Router := from_router "/api/v1/msg2Chain3/:msgType" [3; 4] (to_target "chain:${userId}" []).
Definition http_router5 : outcome Router :=
  from_router "/api/v1/msg2Chain4/:chainId" [] (λ f, and_then (wait_process 5) (to_target "chain:${chainId}" [] f)).
(** [logNode]: a log component, however its [Init] ended. *)
Definition http_router6 (logNode : Comp) : outcome Router :=
  from_router "/api/v1/msgToComponent1/:msgType" [6; 4] (λ f, Returns (From_ToComponent (NewConfig []) logNode "log" f)).
Definition http_router7 (jsScript : string) : outcome Router :=
  from_router "/api/v1/msgToComponent2/:msgType" [6; 7]
    (λ f, and_then (wait_process 8) (to_target "component:log" [{["jsScript" := VString jsScript]}] f)).

(** ** Requests *)

(** What the chains of a pool report, and what components answer; see [Endpoint.Env]. *)
Variable chain_ends : nat → string → option (RuleMsg → chain_run).
Variable component_OnMsg : Comp → RuleMsg → list call.
Definition http_env (early : nat) : Env Request Response :=
  mkEnv http_process chain_ends component_OnMsg (λ _ _ ex, (Finished, ex)) early now uuid.

(** The message of a request and its exchange. *)
Definition http_metadata (q : Rq) (params : list (string * string)) : Metadata := put_query (rq_Query q) (put_params params NewMetadata).
Definition http_msg (q q' : Rq) (params : list (string * string)) (body : string) : RuleMsg :=
  NewMsg now uuid uuid 0 (rq_URL_String q')
    (if bool_decide (Header_Get ContentTypeKey (rq_Header q) = JsonContextType) then JSON else TEXT)
    (http_metadata q params) body.
Definition http_exchange (q q' : Rq) (params : list (string * string)) (w : W) (body : string) (msg : RuleMsg) : exchange :=
  mkExchange (mkRequest (Some q') (Some body) params (Some msg) None) (mkResponse (Some q) (Some w) None None None).

Lemma request_exchange_http q params (w : W) body q' :
  rq_ReadBody q = (body, q') → request_exchange now uuid q params w = http_exchange q q' params w body (http_msg q q' params body).
Proof. intros Hq. unfold request_exchange, RequestMessage_GetMsg, RequestMessage_Body. simpl. by rewrite Hq. Qed.

(** The value of the one variable of a target. *)
Lemma one_variable (md : Metadata) k v :
  md !! k = Some v → dict_ok "" (Metadata_Values md) → segment_ok (Var k) →
  SprintfDict (varPatternLeft +:+ k +:+ varPatternRight) (Metadata_Values md) = v.
Proof.
  intros Hk Hd Hs. unfold SprintfDict. pose proof (SprintfVar_render "" (Metadata_Values md) [Var k] Hd) as Hr.
  cbn [render render_segment] in Hr. rewrite string_app_nil_r in Hr. rewrite Hr by (constructor; [done|constructor]). simpl.
  assert (dict_lookup "" (Metadata_Values md) k = Some v) as ->; [|by rewrite string_app_nil_r].
  unfold dict_lookup. rewrite (list_fmap_ext _ id), list_fmap_id by (by intros ? [? ?] ?).
  apply assoc_NoDup; [apply NoDup_fst_map_to_list|]. by apply elem_of_map_to_list.
Qed.

(** A request of a user on the list is not processed by any router, whatever its route;
    it is not answered either. *)
Theorem blacklisted_not_processed early r w q params body q' :
  rq_ReadBody q = (body, q') → Header_Get "userId" (rq_Header q') = "blacklist" → Router_IsDisable r = false →
  Rest_handler now uuid (http_env early) r [0] w q params =
    Processed (Finished, http_exchange q q' params w body (http_msg q q' params body), []).
Proof.
  intros Hq Hh Hd. unfold Rest_handler, do_process, DoProcess. rewrite Hd, (request_exchange_http _ _ _ _ _ Hq).
  cbn. unfold check_user, in_header. simpl. by rewrite bool_decide_true.
Qed.

(** The message a chain is given: with the type of the path and the user of the header. *)
Definition user_of (q : Rq) : string :=
  let u := Header_Get "userId" (rq_Header q) in if bool_decide (u = "") then "default" else u.
Definition user_msg (q q' : Rq) (params : list (string * string)) (body : string) : RuleMsg :=
  set_Metadata (Metadata_PutValue (http_metadata q params) "userId" (user_of q'))
    (set_Type (Metadata_GetValue (http_metadata q params) "msgType") (http_msg q q' params body)).

Definition user_router (path : string) (ps : list nat) : Router :=
  mkRouter (Some (mkFrom ∅ path (3 :: ps) (Some (mkTo true {[pathKey := VString "${userId}"]} "chain:${userId}" "${userId}" [] (Some ChainExecutor) false))))
    DefaultRuleGo (NewConfig []) 0.
Lemma http_router3_eq : http_router3 = Returns (user_router "/api/v1/msg2Chain2/:msgType" []).
Proof. reflexivity. Qed.
Lemma http_router4_eq : http_router4 = Returns (user_router "/api/v1/msg2Chain3/:msgType" [4]).
Proof. reflexivity. Qed.

Lemma run_one p (ex : exchange) : run_processes http_process [p] ex = match http_process p ex with (GoOn, ex) => (GoOn, ex) | stop => stop end.
Proof. done. Qed.
Lemma check_user_passes q q' params w body msg :
  Header_Get "userId" (rq_Header q') ≠ "blacklist" →
  http_process 0 (http_exchange q q' params w body msg) = (GoOn, http_exchange q q' params w body msg).
Proof. intros Hu. cbn. unfold check_user, in_header. simpl. by rewrite bool_decide_false. Qed.
Lemma take_user_sets q q' params w body :
  take_user (http_exchange q q' params w body (http_msg q q' params body)) =
    (GoOn, http_exchange q q' params w body (user_msg q q' params body)).
Proof. reflexivity. Qed.

Lemma user_chain path ps reply w q params body q' run :
  (∀ ex : exchange, run_processes http_process ps ex = (GoOn, put_out reply ex)) →
  rq_ReadBody q = (body, q') → Header_Get "userId" (rq_Header q') ≠ "blacklist" →
  dict_ok "" (Metadata_Values (m_Metadata (user_msg q q' params body))) →
  chain_ends DefaultRuleGo (user_of q') = Some run →
  Rest_handler now uuid (http_env 0) (user_router path ps) [0] w q params =
    Processed (Finished, put_out reply (http_exchange q q' params w body (user_msg q q' params body)), cr_ends (run (user_msg q q' params body))).
Proof.
  intros Hps Hq Hu Hd He. unfold Rest_handler, do_process. rewrite (request_exchange_http _ _ _ _ _ Hq).
  change (Router_IsDisable (user_router path ps)) with false. unfold DoProcess.
  rewrite run_one, check_user_passes by done. cbn [user_router rt_from ExecuteProcess from_processList from_to].
  change (3 :: ps) with ([3] ++ ps). unfold ExecuteProcess. cbn [from_processList env_process http_env].
  rewrite run_processes_app. cbn [run_processes]. change (http_process 3) with take_user. rewrite take_user_sets.
  rewrite Hps. unfold To_Execute. cbn [to_executor]. unfold ChainExecutor_Execute. cbn.
  unfold ToStringByDict. cbn [to_HasVars to_ToPath].
  change "${userId}" with (varPatternLeft +:+ "userId" +:+ varPatternRight).
  rewrite (one_variable _ "userId" (user_of q')); [| |exact Hd|split; by_decide].
  2:{ rewrite Metadata_PutValue_lookup. by rewrite bool_decide_true. }
  change (env_chain_ends (http_env 0)) with chain_ends. rewrite He. done.
Qed.

(** Requests on the two routes to the chain of a user are handed to the chain that has the
    name of the user in the header, or to [default]: with the type of the path.  The first route
    does not answer, the second has answered before; the ends of the chain are still to come. *)
Theorem user_chain_routes w q params body q' run :
  rq_ReadBody q = (body, q') → Header_Get "userId" (rq_Header q') ≠ "blacklist" →
  dict_ok "" (Metadata_Values (m_Metadata (user_msg q q' params body))) →
  chain_ends DefaultRuleGo (user_of q') = Some run →
  ∃ r3 r4 ex3 ex4, http_router3 = Returns r3 ∧ http_router4 = Returns r4 ∧
    Rest_handler now uuid (http_env 0) r3 [0] w q params = Processed (Finished, ex3, cr_ends (run (user_msg q q' params body))) ∧
    Rest_handler now uuid (http_env 0) r4 [0] w q params = Processed (Finished, ex4, cr_ends (run (user_msg q q' params body))) ∧
    rs_response (ex_Out ex3) = Some w ∧
    rs_response (ex_Out ex4) = Some (rw_Write "ok" (rw_PutHeader (Header_Set "Content-Type" "application/json" (rw_Header w)) w)).
Proof.
  intros Hq Hu Hd He. eexists _, _, _, _. split; [exact http_router3_eq|]. split; [exact http_router4_eq|].
  split; [eapply (user_chain _ [] id); [by intros []|done..]|].
  split; [eapply (user_chain _ [4] (λ o, SetBody "ok" (json_type o))); [by intros []|done..]|]. done.
Qed.

(** ** The route that answers with the result *)

(** What is written for the ends of a chain, one after the other: an error, once there
    was one, or the data of the message. *)
Fixpoint result_reply (ends : list (RuleMsg * error)) (err : error) (w : W) : W :=
  match ends with
  | [] => w
  | (m, e) :: rest =>
      let err := match e with Some _ => e | None => err end in
      result_reply rest err
        match err with
        | Some text => rw_Write text (rw_WriteHeader 400 w)
        | None => rw_Write (m_Data m) (rw_PutHeader (Header_Set "Content-Type" "application/json" (rw_Header w)) w)
        end
  end.

Definition result_to : To :=
  mkTo true {[pathKey := VString "${chainId}"]} "chain:${chainId}" "${chainId}" [5] (Some ChainExecutor) true.
Definition result_router : Router :=
  mkRouter (Some (mkFrom ∅ "/api/v1/msg2Chain4/:chainId" [] (Some result_to))) DefaultRuleGo (NewConfig []) 0.
Lemma http_router5_eq : http_router5 = Returns result_router.
Proof. reflexivity. Qed.

Lemma result_ends ends i q w b m err :
  ∃ b' m' err', run_ends http_process result_to ends (mkExchange i (mkResponse q (Some w) b m err)) =
    (None, mkExchange i (mkResponse q (Some (result_reply ends err w)) b' m' err')).
Proof.
  revert w b m err. induction ends as [|[x [e|]] ends IH]; intros w b m err; [by eexists _, _, _|apply IH|].
  cbn [run_ends]. unfold on_end. cbn. unfold answer_result. cbn. destruct err as [e|]; apply IH.
Qed.


(** ** The routes to a component *)

Definition typed_msg (q q' : Rq) (params : list (string * string)) (body : string) : RuleMsg :=
  set_Type (Metadata_GetValue (http_metadata q params) "msgType") (http_msg q q' params body).

Definition component_router (c : Comp) (jsScript : string) : Router :=
  mkRouter (Some (mkFrom ∅ "/api/v1/msgToComponent2/:msgType" [6; 7]
    (Some (mkTo false {[pathKey := VString "log"; "jsScript" := VString jsScript]} "component:log" "log" [8]
             (Some (ComponentExecutor (Some c) (NewConfig []))) true)))) DefaultRuleGo (NewConfig []) 0.
Lemma http_router7_eq jsScript node c :
  comp_NewNode (Some DefaultRegistry) "log" = Ok node →
  comp_Init (NewConfig []) {[pathKey := VString "log"; "jsScript" := VString jsScript]} node = ROk c →
  http_router7 jsScript = Returns (component_router c jsScript).
Proof.
  intros Hn Hi.
  assert (Executor_Init custom_Init (NewConfig []) {[pathKey := VString "log"; "jsScript" := VString jsScript]} (ComponentExecutor None zeroConfig) =
    ROk (ComponentExecutor (Some c) (NewConfig []))) as Hx.
  { unfold Executor_Init. rewrite lookup_insert_eq. change (c_ComponentsRegistry (NewConfig [])) with (Some DefaultRegistry).
    change (ToString (VString "log")) with "log". rewrite Hn. cbn [to_res res_bind]. by rewrite Hi. }
  unfold http_router7, from_router, and_then, to_target, From_To. cbv zeta. cbn [rt_from Router_From NewRouter foldl]. cbv iota beta.
  change (ExecutorFactory_New (default "" (head (Split "component:log" ":"%char))) DefaultExecutorFactory)
    with (Some (ComponentExecutor (C := C) None zeroConfig)). cbv iota beta.
  match goal with |- context [Executor_Init custom_Init (NewConfig []) ?conf (ComponentExecutor None zeroConfig)] =>
    change (Executor_Init custom_Init (NewConfig []) conf (ComponentExecutor None zeroConfig)) with
      (Executor_Init custom_Init (NewConfig []) {[pathKey := VString "log"; "jsScript" := VString jsScript]} (ComponentExecutor None zeroConfig)) end.
  rewrite Hx. reflexivity.
Qed.

(** The last route answers with the message of the component without looking at the error:
    when the component fails there is no message, and the processor panics on a
    goroutine, which ends the program. *)
Theorem component_failure_crashes early jsScript node c w q params body q' m err :
  comp_NewNode (Some DefaultRegistry) "log" = Ok node →
  comp_Init (NewConfig []) {[pathKey := VString "log"; "jsScript" := VString jsScript]} node = ROk c →
  rq_ReadBody q = (body, q') → Header_Get "userId" (rq_Header q') ≠ "blacklist" →
  component_OnMsg c (typed_msg q q' params body) = [TellFailure m (Some err)] →
  ∃ r ex, http_router7 jsScript = Returns r ∧ Rest_handler now uuid (http_env early) r [0] w q params = Processed (Crashed nil_pointer, ex, []).
Proof.
  intros Hn Hi Hq Hu Hc. exists (component_router c jsScript). rewrite (http_router7_eq _ _ _ Hn Hi).
  unfold Rest_handler, do_process. rewrite (request_exchange_http _ _ _ _ _ Hq).
  change (Router_IsDisable (component_router c jsScript)) with false. unfold DoProcess. rewrite run_one, check_user_passes by done.
  cbn [component_router rt_from]. unfold ExecuteProcess. cbn [from_processList from_to].
  assert (∀ ex, run_processes http_process [6; 7] ex = take_type ex) as Hrun by (intros ex; cbn; by destruct (take_type ex) as [[] ?]).
  change (env_process (http_env early)) with http_process. rewrite Hrun.
  change (take_type _) with (GoOn, http_exchange q q' params w body (typed_msg q q' params body)). cbv iota beta.
  unfold To_Execute. cbn [to_executor]. unfold ComponentExecutor_Execute. cbn [rt_from component_router from_to].
  change (in_GetMsg (http_exchange q q' params w body (typed_msg q q' params body)))
    with (Some (typed_msg q q' params body), http_exchange q q' params w body (typed_msg q q' params body)). cbv iota beta.
  change (env_component_OnMsg (http_env early)) with component_OnMsg. rewrite Hc. unfold TellFailure. cbn [component_ends to_wait].
  unfold run_target. rewrite take_ge by (simpl; lia). eexists. split; [done|]. reflexivity.
Qed.

End HttpRoutes.

Module HttpRoutesExample.
Import Samples NodeSamples HttpSamples.

Definition req : request := mkReq "/api/v1/msg2Chain4/a" ∅ ∅ "21".
(** A chain that ends twice, well with the data of the message and then with an error. *)
Definition ends_of (pool : nat) (id : string) : option (RuleMsg → chain_run) :=
  if bool_decide (id = "a") then Some (λ m, mkRun [(m, None); (m, Some "boom")] (Some 2)) else None.
Definition components_of (c : @Comp sampleComponents) (m : RuleMsg) : list call := [TellSuccess m].
Abbreviation serves id ex :=
  (Rest_handler 5 "u" (http_env (λ _, "POST") 5 "u" ends_of components_of 0) (result_router) [0] new_writer req [("chainId", id)] = Processed (Finished, ex, [])).

End HttpRoutesExample.
